(* ===== verification/_CoqProject ===== *)
-Q . S2P
Prelude.v
Machine.v
CString.v
KList.v
ArchPaging.v
Thread.v
KInfo.v
Exec.v
Paging.v
PagingInv.v
PagingProps.v
Space.v
Kmalloc.v
KmallocClient.v
Sched.v
SchedInv.v
SchedProps.v
Printf.v
Console.v
Panic.v
PanicProps.v
Kmem.v
KmemProps.v
PortIO.v
Pic.v
Interrupt.v
Timer.v
Tick.v
Preempt.v
Descriptors.v
Kcall.v
KcallProps.v
Server.v
Early.v
EarlyProps.v
EarlyMap.v
EarlyMain.v
Elf.v
ElfProps.v
ElfSpace.v
Startup.v
StartupProps.v
Modules.v
Frames.v
FramesProps.v
Bootstrap.v
Boot.v
Amd64Vga.v
