(* ===== verification/Prelude.v ===== *)
(** * mugo: a verification development for the mugo microkernel

    mugo is a small microkernel for i686 in C, with a few pages of assembly. A
    Multiboot loader starts src/arch/i686/early.c on physical addresses; it reads
    the loader's tags into [kernel_info_t], copies the boot modules behind the
    kernel and builds the first page tables. src/kern/main.c then runs at
    K_HIGH_VMA: it maps the kernel (kern/kmem.c over arch/i686/paging_utils.c),
    starts the object allocator (kern/kmalloc.c), loads each module into an
    address space of its own (lib/libelf/elf.c), sets up descriptor tables,
    interrupt controller and timer, and hands over to the scheduler
    (kern/sched_rr.c), which runs in the timer interrupt. User threads call the
    kernel through sysenter (kern/kcall.c).

    ** The files, and what they model

    Prelude: machine integers as [Z] with their wraps, outcomes ([Ok], [Panic],
    [Halt], [UB], [OutOfFuel]), the state monad [M], loops with fuel and their
    rules. Machine: byte memory with 8-, 16-, 32- and 64-bit little-endian
    accesses. CString: memcpy, memset, strlen of lib/stdlib/stdlib.c. KList:
    kern/list.h, intrusive circular lists in memory, against sequences. Thread:
    kern/kobjs.h, arch/i686/thread.c and the register layouts of interrupt.asm.
    KInfo, Exec, ArchPaging: the structures and constants of include/arch/info.h,
    exec.h, elf_base.h, kern/conf.h and arch_paging.h.

    Paging: arch/i686/paging_utils.c, with the walk of the memory management
    unit ([mmu_walk]) as the meaning of page tables; PagingInv, PagingProps: one
    call of bootstrap_mmap; Space: sequences of calls and whole address spaces.
    Kmem, KmemProps: kern/kmem.c, the kernel's own address space. Kmalloc: the
    operations of kern/kmalloc.c on memory, an abstract allocator ([Spec]) and
    the invariant between them; KmallocClient: sequences of calls and writes.
    Sched, SchedInv, SchedProps: kern/sched.c and kern/sched_rr.c, against an
    abstract scheduler on queues. Printf: vsprintf_s, itoa and xtoa of stdlib.c;
    Console: arch/i686/drivers/vga.c and kern/kprint.c, against a screen of
    cells. PortIO, Pic: port accesses as a trace of events, drivers/pic.c.
    Interrupt: arch/i686/interrupt.c. Timer: drivers/timer.c and kern/time.c;
    Tick: the timer interrupt from dispatch to scheduler; Preempt: the stubs of
    boot/interrupt.asm around it, from one user thread to the next, and those of
    the exceptions. Descriptors: idt.c and boot/gdt.c. Kcall, KcallProps: kern/kcall.c with the sysenter stubs of both
    sides; Server: serv/mman/main.c, the server that makes both calls. Early,
    EarlyProps, EarlyMap, EarlyMain: early.c. Elf, ElfProps: the module loader
    against the interface [ExecEnv]; ElfSpace: page tables meet that interface,
    so that the loader's theorem holds of the real mapping callback. Panic, PanicProps: panic of kern/util.c with the report and the
    stack walk of arch/i686/panic.c and trace.asm, and the stack guard of
    kern/crt.c. Frames, FramesProps: the frame allocators of kern/mem, which the
    build leaves out; Amd64Vga: the text console of the amd64 port, likewise.

    Startup: kern/main.c and arch/i686/init.c, the composition of all of the
    above; StartupProps: the processes and threads it prepares and the way from
    loaded modules to the first user thread; Modules: load_boot_modules on
    physical memory; Bootstrap: bootstrap from kernel memory to user mode; Boot:
    boot/boot.asm, which joins early_main and bootstrap, and the theorem about
    the whole.

    Each C function is a definition of the same name in its component's file,
    with the line of the source next to it; a loop's body that is too long for
    its function has a definition of its own. State that C keeps in static
    variables is a record; memory reached through pointers is one [mem] per
    component, except where the components share it.

    ** What the theorems show

    Start-up: from the tags of a Multiboot loader and ELF modules in memory to
    the registers of the first user thread, every module in an address space of
    its own that holds its bytes and the kernel, and scheduler, timer and
    interrupt controller in their initial states (Boot, Bootstrap).
    Refinement: bootstrap_mmap updates an address space; kmem_init builds the
    kernel's reference map on all 2^20 pages; kmalloc and kfree refine an
    abstract allocator; a timer tick refines the abstract scheduler, and any
    number of time slices, through the stubs and back to user mode, a machine
    that keeps the registers of every thread; the list macros refine sequences; vsprintf_s refines an
    expansion of its format, the console a screen, the interrupt controller a
    set of masked lines. Functional: early_main reads every well-formed list of
    tags; elf_ctx_load puts a module's bytes at their addresses, against the
    interface and on page tables; the memory manager, from its message to the
    memory map it gets, through the stubs of both sides and back; new threads, saved and restored registers; the descriptor tables; the clock.
    Invariants and safety: allocated objects never overlap, ticks never fail,
    the best priority runs, heap and free frames stay off the page tables, no
    frame is handed out twice. Errors: rejected calls and modules, and the places where the code misbehaves
    (a table that bootstrap_mmap misses, an overrun of vsprintf_s, a console
    that leaves its buffer, a pointer check that looks at one byte, a tag loop
    that never ends).

    ** Loops and fuel

    Loops over data are structural recursions, or [while_loop] with
    [FUEL] = 2^32 + 4 rounds, more than a 32-bit counter has values; every theorem
    about a loop states that it returns, so no result rests on the fuel running
    out. [OutOfFuel] is the result of a loop that does not end:
    EarlyMain.parse_tags_stuck has a case of one, and the server ends in another.

    ** What is not modelled

    Not modelled: the translation buffer and caches; the stack of C functions,
    except the buffers that vsprintf_s and kprintf keep there, whose addresses are
    parameters; the code the compiler makes;
    interrupts that arrive while kernel code runs (the kernel keeps them
    disabled); other architectures, but for a console driver. The boot information is a value next to
    memory, not a range of it; the console, the heap and the page tables have a
    memory each in Kmem, since the code reaches them through different addresses.
    Where a call prints, Interrupt and Kmem record the call, and Console says what
    a call draws. The code reaches page tables, directories and frames
    of user pages through identity mappings: the model accesses them as physical
    memory, and the data of the kernel in the start-up (processes, threads,
    descriptor tables) as a second memory at the addresses of the variables. *)

From Stdlib Require Export ZArith Lia.
From stdpp Require Export strings.
From stdpp Require Export base numbers option list gmap.

#[export] Set Default Goal Selector "!".
Open Scope Z_scope.

(** ** Machine integers

    A C value of width [w] is a [Z]; every operation of the source that can
    leave the range is followed by the wrap that the C conversion performs. *)

Definition u8 (z : Z) : Z := z mod 256.
Definition u16 (z : Z) : Z := z mod 65536.
Definition u32 (z : Z) : Z := z mod 4294967296.
Definition u64 (z : Z) : Z := z mod 18446744073709551616.
Definition s16 (z : Z) : Z := (z + 32768) mod 65536 - 32768.
Definition s32 (z : Z) : Z := (z + 2147483648) mod 4294967296 - 2147483648.

Declare Scope c_scope.
Delimit Scope c_scope with C.
Notation "a ⊞ b" := (u32 (a + b)) (at level 50, left associativity) : c_scope.
Notation "a ⊟ b" := (u32 (a - b)) (at level 50, left associativity) : c_scope.
Notation "a ⊠ b" := (u32 (a * b)) (at level 40, left associativity) : c_scope.
Open Scope c_scope.

(** [wrap_lia] proves linear facts about wrapped values: it exposes the [mod]
    of every wrap and gives [lia] the division equations. *)
Ltac unwrap := unfold u8, u16, u32, u64, s16, s32 in *.
Ltac wrap_lia := unwrap; Z.to_euclidean_division_equations; lia.

Lemma gtb_false a b : (a >? b) = false ↔ a ≤ b.
Proof. rewrite Z.gtb_ltb. apply Z.ltb_ge. Qed.

Lemma u8_range z : 0 ≤ u8 z < 256.
Proof. wrap_lia. Qed.
Lemma u16_range z : 0 ≤ u16 z < 65536.
Proof. wrap_lia. Qed.
Lemma u32_range z : 0 ≤ u32 z < 4294967296.
Proof. wrap_lia. Qed.
Lemma u8_small z : 0 ≤ z < 256 → u8 z = z.
Proof. intros; unfold u8; by apply Z.mod_small. Qed.
Lemma u16_small z : 0 ≤ z < 65536 → u16 z = z.
Proof. intros; unfold u16; by apply Z.mod_small. Qed.
Lemma u32_small z : 0 ≤ z < 4294967296 → u32 z = z.
Proof. intros; unfold u32; by apply Z.mod_small. Qed.
Lemma u64_small z : 0 ≤ z < 18446744073709551616 → u64 z = z.
Proof. intros; unfold u64; by apply Z.mod_small. Qed.
Lemma s16_small z : -32768 ≤ z < 32768 → s16 z = z.
Proof. intros; wrap_lia. Qed.
Lemma s32_small z : -2147483648 ≤ z < 2147483648 → s32 z = z.
Proof. intros; wrap_lia. Qed.
Lemma u32_idemp z : u32 (u32 z) = u32 z.
Proof. apply Zmod_mod. Qed.
Lemma u8_idemp z : u8 (u8 z) = u8 z.
Proof. apply Zmod_mod. Qed.
Lemma u32_add_l a b : u32 (u32 a + b) = u32 (a + b).
Proof. apply Zplus_mod_idemp_l. Qed.
Lemma u32_add_r a b : u32 (a + u32 b) = u32 (a + b).
Proof. apply Zplus_mod_idemp_r. Qed.
Lemma u32_sub_l a b : u32 (u32 a - b) = u32 (a - b).
Proof. apply Zminus_mod_idemp_l. Qed.
Lemma u32_sub_r a b : u32 (a - u32 b) = u32 (a - b).
Proof. apply Zminus_mod_idemp_r. Qed.

Create HintDb wrap.
Create Rewrite HintDb wrap.
#[export] Hint Rewrite u32_idemp u8_idemp u32_add_l u32_add_r u32_sub_l
  u32_sub_r : wrap.
#[export] Hint Resolve u8_range u16_range u32_range : wrap.

(** A C condition: any non-zero value is true. *)
Definition c_true (z : Z) : bool := negb (z =? 0).
(** The value of a C comparison. *)
Definition c_bool (b : bool) : Z := if b then 1 else 0.

(** ** Outcomes

    [Panic] is [panic()] of kern/util.c, [Halt] the [hlt] of a failed ASSERT,
    [UB] an access the C standard leaves undefined, [OutOfFuel] a loop that
    was cut off (theorems about results exclude it). *)
Inductive outcome (A : Type) : Type :=
| Ok (a : A)
| Panic (msg : string)
| Halt
| UB (why : string)
| OutOfFuel.
Arguments Ok {A} _.
Arguments Panic {A} _.
Arguments Halt {A}.
Arguments UB {A} _.
Arguments OutOfFuel {A}.

#[export] Instance outcome_ret : MRet outcome := @Ok.
#[export] Instance outcome_bind : MBind outcome := λ A B f o,
  match o with
  | Ok a => f a
  | Panic msg => Panic msg
  | Halt => Halt
  | UB why => UB why
  | OutOfFuel => OutOfFuel
  end.
#[export] Instance outcome_fmap : FMap outcome := λ A B f o,
  match o with
  | Ok a => Ok (f a)
  | Panic msg => Panic msg
  | Halt => Halt
  | UB why => UB why
  | OutOfFuel => OutOfFuel
  end.

(** The state monad over outcomes in which the stateful handlers are written. *)
Definition M (S A : Type) : Type := S → outcome (A * S).
#[export] Instance M_ret {S} : MRet (M S) := λ A a s, Ok (a, s).
#[export] Instance M_bind {S} : MBind (M S) := λ A B f c s,
  match c s with
  | Ok (a, s') => f a s'
  | Panic msg => Panic msg
  | Halt => Halt
  | UB why => UB why
  | OutOfFuel => OutOfFuel
  end.
Definition gets {S A} (f : S → A) : M S A := λ s, Ok (f s, s).
Definition modify {S} (f : S → S) : M S unit := λ s, Ok (tt, f s).
Definition panic {S A} (msg : string) : M S A := λ _, Panic msg.
Definition ub {S A} (why : string) : M S A := λ _, UB why.
(** arch_util.h:5; interrupts are off while kernel code runs *)
Definition halt {S} : M S unit := λ _, Halt.
(** ASSERT and ASSERT_MSG of kern/assert.h: without DEBUG they are empty. *)
Definition ASSERT {S} (debug expr : bool) : M S unit := λ s,
  if debug && negb expr then Halt else Ok (tt, s).
Definition lift {S A} (o : outcome A) : M S A := λ s, (λ a, (a, s)) <$> o.

(** [mstep] runs the monadic plumbing of a handler up to the next call. *)
Ltac mstep :=
  unfold mbind, M_bind, mret, M_ret, gets, modify, lift, ASSERT, panic, ub,
    fmap, outcome_fmap, outcome_bind, outcome_ret;
  cbn beta iota.

(** The steps of a computation one by one. *)
Lemma bind_Ok {A B} (a : A) (f : A → outcome B) : (Ok a ≫= f) = f a.
Proof. reflexivity. Qed.
Lemma bind_Ok_M {S A B} (c : M S A) (k : A → M S B) s a s' :
  c s = Ok (a, s') → (c ≫= k) s = k a s'.
Proof. intros E. unfold mbind, M_bind. by rewrite E. Qed.
Lemma gets_bind {S A B} (f : S → A) (k : A → M S B) s : (gets f ≫= k) s = k (f s) s.
Proof. done. Qed.
Lemma modify_bind {S B} (f : S → S) (k : unit → M S B) s : (modify f ≫= k) s = k tt (f s).
Proof. done. Qed.
Lemma ret_bind {S A B} (a : A) (k : A → M S B) s : (mret a ≫= k) s = k a s.
Proof. done. Qed.
Lemma assoc_bind {S A B C} (c : M S A) (k : A → M S B) (l : B → M S C) s :
  ((c ≫= k) ≫= l) s = (c ≫= (λ a, k a ≫= l)) s.
Proof. unfold mbind, M_bind. by destruct (c s) as [[]| | | |]. Qed.

(** [for (i = ...) f(i)] over the values the counter takes. *)
Fixpoint mfor {S A} (l : list A) (f : A → M S unit) : M S unit :=
  match l with
  | [] => mret tt
  | a :: l' => _ ← f a; mfor l' f
  end.

Lemma mfor_app {S A} (l1 l2 : list A) (f : A → M S unit) s :
  mfor (l1 ++ l2) f s = (_ ← mfor l1 f; mfor l2 f) s.
Proof.
  revert s. induction l1 as [|a l1 IH]; intros s; [done|].
  cbn [mfor app]. unfold mbind, M_bind in *. destruct (f a s) as [[[] s1]| | | |]; auto.
Qed.

(** A handler whose final state is always [R]-related to its initial one. *)
Definition mstable {S A} (R : S → S → Prop) (c : M S A) : Prop :=
  ∀ s a s', c s = Ok (a, s') → R s s'.

Create HintDb mstable.
Section mstable.
Context {S : Type} (R : S → S → Prop) {HR : PreOrder R}.

Lemma mstable_ret {A} (a : A) : mstable R (mret a).
Proof using HR. intros s b s' [= -> ->]. reflexivity. Qed.
Lemma mstable_gets {A} (f : S → A) : mstable R (gets f).
Proof using HR. intros s b s' [= _ <-]. reflexivity. Qed.
Lemma mstable_panic {A} msg : mstable R (panic (A := A) msg).
Proof using. by intros s b s' [=]. Qed.
Lemma mstable_ub {A} why : mstable R (ub (A := A) why).
Proof using. by intros s b s' [=]. Qed.
Lemma mstable_ASSERT debug e : mstable R (ASSERT debug e).
Proof using HR.
  intros s b s'. unfold ASSERT. destruct (debug && negb e); [done|].
  intros [= _ <-]. reflexivity.
Qed.
Lemma mstable_lift {A} (o : outcome A) : mstable R (lift o).
Proof using HR. intros s b s'. destruct o; try done. intros [= _ <-]. reflexivity. Qed.
Lemma mstable_modify f : (∀ s, R s (f s)) → mstable R (modify f).
Proof using. intros Hf s b s' [= <- <-]. apply Hf. Qed.
Lemma mstable_bind {A B} (c : M S A) (f : A → M S B) :
  mstable R c → (∀ a, mstable R (f a)) → mstable R (c ≫= f).
Proof using HR.
  intros Hc Hf s b s'. unfold mbind, M_bind.
  destruct (c s) as [[a s1]| | | |] eqn:E; try done.
  intros H. trans s1; [by eapply Hc|by eapply Hf].
Qed.
Lemma mstable_if {A} (b : bool) (c1 c2 : M S A) :
  mstable R c1 → mstable R c2 → mstable R (if b then c1 else c2).
Proof using. by destruct b. Qed.
Lemma mstable_mfor {A} (l : list A) (f : A → M S unit) :
  (∀ a, mstable R (f a)) → mstable R (mfor l f).
Proof using HR.
  intros Hf. induction l as [|a l IH]; [apply mstable_ret|]. by apply mstable_bind.
Qed.
End mstable.
#[export] Hint Resolve mstable_mfor mstable_ret mstable_gets mstable_panic mstable_ub mstable_ASSERT
  mstable_lift mstable_modify mstable_bind mstable_if : mstable.

(** ** Loops

    A C loop is iterated with a binary fuel. [FUEL] exceeds the number of
    values of a 32-bit counter; each theorem about a loop proves that it ends
    before. *)
Inductive ctl (S : Type) : Type :=
| Running (s : S)
| Done (r : outcome S).
Arguments Running {S} _.
Arguments Done {S} _.

Fixpoint run {S} (p : positive) (step : S → ctl S) (s : S) : ctl S :=
  match p with
  | xH => step s
  | xO q => match run q step s with Running s' => run q step s' | d => d end
  | xI q =>
      match step s with
      | Running s' =>
          match run q step s' with Running s'' => run q step s'' | d => d end
      | d => d
      end
  end.

Fixpoint run_nat {S} (n : nat) (step : S → ctl S) (s : S) : ctl S :=
  match n with
  | O => Running s
  | Datatypes.S n' =>
      match step s with Running s' => run_nat n' step s' | d => d end
  end.

Definition FUEL : positive := 4294967300.

Definition while_step {S} (cond : S → bool) (body : S → outcome S) (s : S)
    : ctl S :=
  if cond s then
    match body s with
    | Ok s' => Running s'
    | err => Done err
    end
  else Done (Ok s).

(** [while (cond) body] *)
Definition while_loop {S} (cond : S → bool) (body : S → outcome S) (s : S)
    : outcome S :=
  match run FUEL (while_step cond body) s with
  | Running _ => OutOfFuel
  | Done r => r
  end.

Section loops.
Context {S : Type}.
Implicit Types (s : S).

Lemma run_nat_add (n k : nat) (step : S → ctl S) s :
  run_nat (n + k) step s =
    match run_nat n step s with Running s' => run_nat k step s' | d => d end.
Proof.
  revert s; induction n as [|n IH]; intros s; simpl; [done|].
  destruct (step s); [apply IH|done].
Qed.

Lemma run_to_nat (p : positive) (step : S → ctl S) s :
  run p step s = run_nat (Pos.to_nat p) step s.
Proof.
  revert s; induction p as [p IH|p IH|]; intros s; simpl run.
  - rewrite Pos2Nat.inj_xI; simpl. destruct (step s) as [s'|]; [|done].
    rewrite Nat.add_0_r, run_nat_add, <-!IH.
    destruct (run p step s'); [apply IH|done].
  - rewrite Pos2Nat.inj_xO; simpl. rewrite Nat.add_0_r, run_nat_add, <-!IH.
    destruct (run p step s); [apply IH|done].
  - rewrite Pos2Nat.inj_1; simpl. by destruct (step s).
Qed.

(** The rule for a loop that runs exactly [n] more iterations. *)
Lemma while_loop_total (I : nat → S → Prop) cond body n s :
  Z.of_nat n < Z.pos FUEL →
  I n s →
  (∀ k s, (k < n)%nat → I (Datatypes.S k) s →
     cond s = true ∧ ∃ s', body s = Ok s' ∧ I k s') →
  (∀ s, I 0%nat s → cond s = false) →
  ∃ s', while_loop cond body s = Ok s' ∧ I 0%nat s'.
Proof.
  intros Hn HI Hstep Hend. unfold while_loop. rewrite run_to_nat.
  assert (Hf : (n < Pos.to_nat FUEL)%nat) by lia.
  revert Hf. generalize (Pos.to_nat FUEL) as fuel. clear Hn.
  revert s HI; induction n as [|n IH]; intros s HI [|fuel] Hf; try lia.
  - simpl. unfold while_step. rewrite (Hend s HI). eauto.
  - simpl. unfold while_step at 1.
    destruct (Hstep n s) as (-> & s' & -> & HI'); [lia|done|].
    apply IH; [intros; apply Hstep; [lia|done]|done|lia].
Qed.

(** The rule for a loop with an invariant and a measure. *)
Lemma while_loop_rule (I : S → Prop) (meas : S → nat) cond body s :
  Z.of_nat (meas s) < Z.pos FUEL →
  I s →
  (∀ s, I s → cond s = true → ∃ s', body s = Ok s' ∧ I s' ∧ (meas s' < meas s)%nat) →
  ∃ s', while_loop cond body s = Ok s' ∧ I s' ∧ cond s' = false.
Proof.
  intros Hn HI Hstep. unfold while_loop. rewrite run_to_nat.
  assert (Hf : (meas s < Pos.to_nat FUEL)%nat) by lia.
  revert Hf. generalize (Pos.to_nat FUEL) as fuel. clear Hn. intros fuel.
  revert s HI; induction fuel as [|fuel IH]; intros s HI Hf; [lia|].
  simpl. unfold while_step at 1. destruct (cond s) eqn:Ec; [|eauto].
  destruct (Hstep s HI Ec) as (s' & -> & HI' & Hlt). apply IH; [done|lia].
Qed.
End loops.

(** [while_loop_rule] at the loop of the goal *)
Tactic Notation "loop_rule" constr(I) constr(meas) "as" simple_intropattern(pst)
    simple_intropattern(pI) simple_intropattern(Hend) :=
  match goal with
  | |- context [while_loop ?c ?b ?s] =>
      let E := fresh "E" in
      destruct (while_loop_rule I meas c b s) as (pst & E & pI & Hend); [| | |rewrite E; clear E]
  end.

(** ** Lists of lists

    Replacing one element of a list of collections: the collections gathered
    from the others are a common remainder [R]. *)
Lemma concat_split {A B} (f : A → list B) (l : list A) (i : nat) (x : A) :
  l !! i = Some x →
  ∃ R, concat (f <$> l) ≡ₚ f x ++ R ∧
    (∀ y, concat (f <$> <[i:=y]> l) ≡ₚ f y ++ R) ∧
    (∀ j z, j ≠ i → l !! j = Some z → f z ⊆ R).
Proof.
  intros Hi. pose proof (lookup_lt_Some _ _ _ Hi) as Hlt.
  exists (concat (f <$> take i l) ++ concat (f <$> drop (S i) l)). split_and!.
  - rewrite <-(take_drop_middle l i x Hi) at 1.
    rewrite fmap_app, concat_app, fmap_cons. simpl.
    by rewrite Permutation_app_swap_app.
  - intros y. rewrite insert_take_drop by done.
    rewrite fmap_app, concat_app, fmap_cons. simpl.
    by rewrite Permutation_app_swap_app.
  - intros j z Hj Hz b Hb. apply elem_of_app.
    destruct (decide (j < i)%nat) as [Hji|Hji]; [left|right].
    all: apply list_elem_of_In, in_concat; exists (f z).
    all: split; [|by apply list_elem_of_In].
    all: apply list_elem_of_In, list_elem_of_fmap; exists z; split; [done|].
    + apply list_elem_of_lookup. exists j. by rewrite lookup_take_lt.
    + apply list_elem_of_lookup. exists (j - S i)%nat. rewrite lookup_drop.
      rewrite <-Hz. f_equal. lia.
Qed.

(** In a list of pairs with distinct keys a key has one value. *)
Lemma NoDup_fst_inj {A B} (l : list (A * B)) x a b :
  NoDup l.*1 → (x, a) ∈ l → (x, b) ∈ l → a = b.
Proof.
  induction l as [|[y c] l IH]; simpl; [by intros _ ?%elem_of_nil|].
  rewrite NoDup_cons, !elem_of_cons. intros [Hy Hnd].
  assert (Hk : ∀ v, (y, v) ∉ l).
  { intros v Hv. apply Hy, list_elem_of_fmap. by exists (y, v). }
  intros [[= -> ->]|Ha] [Hb|Hb]; [congruence|by destruct (Hk b)| |by apply IH].
  injection Hb as -> ->. by destruct (Hk a).
Qed.

(** Filters that agree on the elements of the list. *)
Lemma filter_all {A} (P : A → Prop) `{∀ x, Decision (P x)} (l : list A) :
  Forall P l → filter P l = l.
Proof. induction 1; [done|]. rewrite filter_cons_True by done. by f_equal. Qed.
Lemma filter_none {A} (P : A → Prop) `{∀ x, Decision (P x)} (l : list A) :
  Forall (λ x, ¬ P x) l → filter P l = [].
Proof. induction 1; [done|]. by rewrite filter_cons_False. Qed.
Lemma filter_ext_in {A} (P Q : A → Prop) `{!∀ x, Decision (P x), !∀ x, Decision (Q x)}
    (l : list A) :
  (∀ x, x ∈ l → P x ↔ Q x) → filter P l = filter Q l.
Proof.
  induction l as [|x l IH]; intros Hpq; [done|].
  pose proof (Hpq x ltac:(by left)) as Hx.
  specialize (IH (λ y Hy, Hpq y (list_elem_of_further _ _ _ Hy))).
  destruct (decide (P x)) as [HP|HP].
  - rewrite !filter_cons_True by tauto. by rewrite IH.
  - rewrite !filter_cons_False by tauto. done.
Qed.
