(* ===== verification/Machine.v ===== *)
(** * Machine: the 32-bit byte-addressed memory the kernel runs on

    Bytes, little-endian half words, words and double words, as the i686
    stores them; what a store leaves unchanged; the equivalence of memories
    that no load can tell apart. An address is any [Z] and is reduced modulo
    2^32, like the processor's address arithmetic. *)

From S2P Require Import Prelude.

Abbreviation mem := (gmap Z Z).
Definition NULL : Z := 0.

Definition load8 (m : mem) (a : Z) : Z := u8 (default 0 (m !! u32 a)).
Definition store8 (m : mem) (a v : Z) : mem := <[u32 a := u8 v]> m.

Definition load16 (m : mem) (a : Z) : Z :=
  load8 m a + 256 * load8 m (a + 1).
Definition load32 (m : mem) (a : Z) : Z :=
  load16 m a + 65536 * load16 m (a + 2).
Definition load64 (m : mem) (a : Z) : Z :=
  load32 m a + 4294967296 * load32 m (a + 4).
Definition store16 (m : mem) (a v : Z) : mem :=
  store8 (store8 m a v) (a + 1) (v / 256).
Definition store32 (m : mem) (a v : Z) : mem :=
  store16 (store16 m a v) (a + 2) (v / 65536).
Definition store64 (m : mem) (a v : Z) : mem :=
  store32 (store32 m a v) (a + 4) (v / 4294967296).

(** [n] consecutive bytes *)
Definition read_bytes (m : mem) (a n : Z) : list Z :=
  (λ i, load8 m (a + i)) <$> seqZ 0 n.

(** ** Memories no load can tell apart *)
Definition meq (m m' : mem) : Prop := ∀ x, load8 m x = load8 m' x.
Infix "≐" := meq (at level 70, no associativity) : c_scope.

#[export] Instance meq_equivalence : Equivalence meq.
Proof.
  split; [done|by intros ?? H x|]. intros ??? H1 H2 x. by rewrite H1, H2.
Qed.

Lemma load8_store8 m a v x :
  load8 (store8 m a v) x = if decide (u32 x = u32 a) then u8 v else load8 m x.
Proof.
  unfold load8, store8. rewrite lookup_insert. case_decide as H.
  - rewrite decide_True by done. simpl. apply u8_idemp.
  - rewrite decide_False by done. done.
Qed.

#[export] Instance load8_proper : Proper (meq ==> eq ==> eq) load8.
Proof. intros ?? H ?? ->. apply H. Qed.
#[export] Instance store8_proper : Proper (meq ==> eq ==> eq ==> meq) store8.
Proof. intros ?? H ?? -> ?? -> x. by rewrite !load8_store8, H. Qed.
#[export] Instance load16_proper : Proper (meq ==> eq ==> eq) load16.
Proof. intros ?? H ?? ->. unfold load16. by rewrite H. Qed.
#[export] Instance load32_proper : Proper (meq ==> eq ==> eq) load32.
Proof. intros ?? H ?? ->. unfold load32. by rewrite H. Qed.
#[export] Instance store16_proper : Proper (meq ==> eq ==> eq ==> meq) store16.
Proof. intros ?? H ?? -> ?? ->. unfold store16. by rewrite H. Qed.
#[export] Instance store32_proper : Proper (meq ==> eq ==> eq ==> meq) store32.
Proof. intros ?? H ?? -> ?? ->. unfold store32. by rewrite H. Qed.

(** ** Reading back what was stored *)

Lemma load8_range m a : 0 ≤ load8 m a < 256.
Proof. apply u8_range. Qed.
Lemma load16_range m a : 0 ≤ load16 m a < 65536.
Proof.
  unfold load16. pose proof (load8_range m a).
  pose proof (load8_range m (a + 1)). lia.
Qed.
Lemma load32_range m a : 0 ≤ load32 m a < 4294967296.
Proof.
  unfold load32. pose proof (load16_range m a).
  pose proof (load16_range m (a + 2)). lia.
Qed.

(** [x] is one of the [n] bytes at [a]. *)
Definition within (a n x : Z) : Prop := u32 (x - a) < n.
#[export] Instance within_dec a n x : Decision (within a n x).
Proof. unfold within. apply _. Defined.

Lemma load8_u32 m a : load8 m (u32 a) = load8 m a.
Proof. unfold load8. by rewrite u32_idemp. Qed.

Lemma load8_addr m a b : u32 a = u32 b → load8 m a = load8 m b.
Proof. intros H. unfold load8. by rewrite H. Qed.
Lemma store8_addr m a b v : u32 a = u32 b → store8 m a v = store8 m b v.
Proof. intros H. unfold store8. by rewrite H. Qed.

Lemma store8_out m a v x : ¬ within a 1 x → load8 (store8 m a v) x = load8 m x.
Proof.
  intros H. rewrite load8_store8, decide_False; [done|].
  contradict H. unfold within. wrap_lia.
Qed.

Lemma store16_out m a v x :
  ¬ within a 2 x → load8 (store16 m a v) x = load8 m x.
Proof.
  intros H. unfold store16.
  rewrite !store8_out; [done| |]; contradict H; unfold within in *; wrap_lia.
Qed.

Lemma store32_out m a v x :
  ¬ within a 4 x → load8 (store32 m a v) x = load8 m x.
Proof.
  intros H. unfold store32.
  rewrite !store16_out; [done| |]; contradict H; unfold within in *; wrap_lia.
Qed.

Lemma load8_store8_eq m a v : load8 (store8 m a v) a = u8 v.
Proof. by rewrite load8_store8, decide_True. Qed.

Lemma load16_store16_eq m a v : load16 (store16 m a v) a = u16 v.
Proof.
  unfold load16, store16. rewrite load8_store8_eq, store8_out.
  - rewrite load8_store8_eq. wrap_lia.
  - unfold within. wrap_lia.
Qed.

Lemma load16_ext m m' a :
  (∀ i, 0 ≤ i < 2 → load8 m (a + i) = load8 m' (a + i)) →
  load16 m a = load16 m' a.
Proof.
  intros H. unfold load16. rewrite (H 1) by lia.
  generalize (H 0 ltac:(lia)). rewrite !Z.add_0_r. by intros ->.
Qed.

Lemma load32_ext m m' a :
  (∀ i, 0 ≤ i < 4 → load8 m (a + i) = load8 m' (a + i)) →
  load32 m a = load32 m' a.
Proof.
  intros H. unfold load32. rewrite (load16_ext m m' a).
  - rewrite (load16_ext m m' (a + 2)); [done|].
    intros i Hi. rewrite <-!Z.add_assoc. apply H. lia.
  - intros; apply H; lia.
Qed.

Lemma load32_store32_eq m a v : load32 (store32 m a v) a = u32 v.
Proof.
  unfold load32, store32. rewrite load16_store16_eq.
  rewrite (load16_ext _ (store16 m a v) a), load16_store16_eq.
  - wrap_lia.
  - intros i Hi. apply store16_out. unfold within. wrap_lia.
Qed.

(** ** Frames: two byte ranges that do not meet *)

(** The ranges of [n] bytes at [a] and of [k] bytes at [b] have no byte in
    common (on the circle of 32-bit addresses). *)
Definition disj (a n b k : Z) : Prop := ∀ i, 0 ≤ i < k → ¬ within a n (b + i).

Lemma disj_linear a n b k :
  0 ≤ a → a + n ≤ 4294967296 → 0 ≤ b → b + k ≤ 4294967296 →
  a + n ≤ b ∨ b + k ≤ a → disj a n b k.
Proof. intros ????? i Hi. unfold within. wrap_lia. Qed.

Lemma load8_store8_disj m a v b : disj a 1 b 1 → load8 (store8 m a v) b = load8 m b.
Proof.
  intros H. apply store8_out. specialize (H 0 ltac:(lia)). by rewrite Z.add_0_r in H.
Qed.
Lemma load16_store16_disj m a v b :
  disj a 2 b 2 → load16 (store16 m a v) b = load16 m b.
Proof. intros H. apply load16_ext. intros i Hi. apply store16_out. by apply H. Qed.
Lemma load16_store32_disj m a v b :
  disj a 4 b 2 → load16 (store32 m a v) b = load16 m b.
Proof. intros H. apply load16_ext. intros i Hi. apply store32_out. by apply H. Qed.
Lemma load32_store16_disj m a v b :
  disj a 2 b 4 → load32 (store16 m a v) b = load32 m b.
Proof. intros H. apply load32_ext. intros i Hi. apply store16_out. by apply H. Qed.
Lemma load32_store32_disj m a v b :
  disj a 4 b 4 → load32 (store32 m a v) b = load32 m b.
Proof. intros H. apply load32_ext. intros i Hi. apply store32_out. by apply H. Qed.
Lemma load32_store8_disj m a v b :
  disj a 1 b 4 → load32 (store8 m a v) b = load32 m b.
Proof. intros H. apply load32_ext. intros i Hi. apply store8_out. by apply H. Qed.

(** What changed lies in the [n] bytes at [a]. *)
Definition changes_only (a n : Z) (m m' : mem) : Prop :=
  ∀ x, ¬ within a n x → load8 m' x = load8 m x.

#[export] Instance changes_only_refl a n : Reflexive (changes_only a n).
Proof. by intros m x Hx. Qed.
#[export] Instance changes_only_trans a n : Transitive (changes_only a n).
Proof. intros m1 m2 m3 H1 H2 x Hx. by rewrite H2, H1. Qed.

Lemma changes_only_load32 a n m m' b :
  changes_only a n m m' → disj a n b 4 → load32 m' b = load32 m b.
Proof. intros H Hd. apply load32_ext. intros i Hi. apply H, Hd, Hi. Qed.
Lemma changes_only_load16 a n m m' b :
  changes_only a n m m' → disj a n b 2 → load16 m' b = load16 m b.
Proof. intros H Hd. apply load16_ext. intros i Hi. apply H, Hd, Hi. Qed.

Lemma changes_only_store32 a n m m' b v :
  changes_only a n m m' → 0 ≤ b - a → b - a + 4 ≤ n → n ≤ 4294967296 →
  changes_only a n m (store32 m' b v).
Proof.
  intros H ??? x Hx. rewrite store32_out; [by apply H|].
  contradict Hx. unfold within in *. wrap_lia.
Qed.
Lemma changes_only_store16 a n m m' b v :
  changes_only a n m m' → 0 ≤ b - a → b - a + 2 ≤ n → n ≤ 4294967296 →
  changes_only a n m (store16 m' b v).
Proof.
  intros H ??? x Hx. rewrite store16_out; [by apply H|].
  contradict Hx. unfold within in *. wrap_lia.
Qed.
Lemma changes_only_store8 a n m m' b v :
  changes_only a n m m' → 0 ≤ b - a → b - a + 1 ≤ n → n ≤ 4294967296 →
  changes_only a n m (store8 m' b v).
Proof.
  intros H ??? x Hx. rewrite store8_out; [by apply H|].
  contradict Hx. unfold within in *. wrap_lia.
Qed.

#[export] Hint Resolve changes_only_store32 changes_only_store16
  changes_only_store8 load8_range load16_range load32_range : wrap.

Lemma lookup_read_bytes m a n (i : nat) :
  Z.of_nat i < n → read_bytes m a n !! i = Some (load8 m (a + Z.of_nat i)).
Proof.
  intros Hi. unfold read_bytes. rewrite list_lookup_fmap, lookup_seqZ_lt by lia.
  by rewrite Z.add_0_l.
Qed.
Lemma length_read_bytes m a n : length (read_bytes m a n) = Z.to_nat n.
Proof. unfold read_bytes. by rewrite length_fmap, length_seqZ. Qed.
Lemma read_bytes_eq m m' a b n :
  (∀ i, 0 ≤ i < n → load8 m (a + i) = load8 m' (b + i)) →
  read_bytes m a n = read_bytes m' b n.
Proof.
  intros H. apply list_fmap_ext. intros i x [-> ?]%lookup_seqZ.
  apply H. lia.
Qed.

(** ** Fields at constant offsets

    Within one structure the offsets decide whether two accesses meet,
    wherever the structure lies. *)
Lemma disj_off a n b k :
  n ≤ u32 (b - a) → u32 (b - a) + k ≤ 4294967296 → disj a n b k.
Proof. intros H1 H2 i Hi. unfold within. wrap_lia. Qed.

Ltac off_disj :=
  apply disj_off; (rewrite u32_small; [lia|lia]) || wrap_lia.
(** [fields] reads every load through the stores before it. *)
Ltac fields := repeat first
  [ rewrite load32_store32_eq
  | rewrite load32_store32_disj by off_disj ].

Lemma load32_addr m a b : u32 a = u32 b → load32 m a = load32 m b.
Proof.
  intros H. unfold load32, load16.
  rewrite (load8_addr m a b), (load8_addr m (a + 1) (b + 1)),
    (load8_addr m (a + 2) (b + 2)), (load8_addr m (a + 2 + 1) (b + 2 + 1)); wrap_lia || done.
Qed.

Lemma load64_range m a : 0 ≤ load64 m a < 18446744073709551616.
Proof.
  unfold load64. pose proof (load32_range m a). pose proof (load32_range m (a + 4)). lia.
Qed.
Lemma load64_store64_eq m a v : load64 (store64 m a v) a = u64 v.
Proof. unfold load64, store64. fields. wrap_lia. Qed.
Lemma load32_store64_disj m a v b :
  disj a 8 b 4 → load32 (store64 m a v) b = load32 m b.
Proof.
  intros H. unfold store64.
  rewrite !load32_store32_disj; [done| |]; intros i Hi; specialize (H i Hi);
    contradict H; unfold within in *; wrap_lia.
Qed.
Lemma load64_store32_disj m a v b :
  disj a 4 b 8 → load64 (store32 m a v) b = load64 m b.
Proof.
  intros H. unfold load64. rewrite !load32_store32_disj; [done| |]; intros i Hi.
  - specialize (H (4 + i) ltac:(lia)). by rewrite Z.add_assoc in H.
  - by apply H; lia.
Qed.
Lemma load64_store64_disj m a v b :
  disj a 8 b 8 → load64 (store64 m a v) b = load64 m b.
Proof.
  intros H. unfold load64. rewrite !load32_store64_disj; [done| |]; intros i Hi.
  - specialize (H (4 + i) ltac:(lia)). by rewrite Z.add_assoc in H.
  - by apply H; lia.
Qed.
Lemma changes_only_load64 a n m m' b :
  changes_only a n m m' → disj a n b 8 → load64 m' b = load64 m b.
Proof.
  intros H Hd. unfold load64.
  rewrite !(changes_only_load32 a n m m'); try done; intros i Hi.
  - specialize (Hd (4 + i) ltac:(lia)). by rewrite Z.add_assoc in Hd.
  - by apply Hd; lia.
Qed.
