(* ===== verification/CString.v ===== *)
(** * CString: the byte routines of lib/stdlib/stdlib.c

    [strlen], [memset] and [memcpy] as the loops of the source, each with the
    exact memory it leaves behind. [memcpy] copies forward one byte at a time,
    so its result is characterised for every overlap of the two ranges. *)

From S2P Require Import Prelude Machine.

(** ** The loops *)

(** stdlib.c:182 *)
Definition strlen (m : mem) (str : Z) : outcome Z :=
  while_loop (λ len, negb (load8 m (str + len) =? 0)) (λ len, Ok (len ⊞ 1)) 0.

(** stdlib.c:193: [p] counts, [cur] is the moving pointer [m] of the source *)
Definition memset (m : mem) (s c n : Z) : outcome (Z * mem) :=
  '(m', _, _) ← while_loop
    (λ '(m, p, cur), p <? n)
    (λ '(m, p, cur), Ok (store8 m cur c, p ⊞ 1, cur ⊞ 1))
    (m, 0, s);
  Ok (s, m').

(** stdlib.c:204 *)
Definition memcpy (m : mem) (dest src n : Z) : outcome (Z * mem) :=
  '(m', _, _, _) ← while_loop
    (λ '(m, byte_dest, byte_src, n), n >? 0)
    (λ '(m, byte_dest, byte_src, n),
       Ok (store8 m byte_dest (load8 m byte_src),
           byte_dest ⊞ 1, byte_src ⊞ 1, n ⊟ 1))
    (m, dest, src, n);
  Ok (dest, m').

(** ** strlen *)

(** [k] is the index of the first NUL of the string at [str]. *)
Definition first_nul (m : mem) (str k : Z) : Prop :=
  0 ≤ k ∧ (∀ i, 0 ≤ i < k → load8 m (str + i) ≠ 0) ∧ load8 m (str + k) = 0.

Lemma strlen_first_nul m str k :
  first_nul m str k → k < 4294967296 → strlen m str = Ok k.
Proof.
  intros (Hk & Hne & Hnul) Hlt. unfold strlen.
  destruct (while_loop_total
    (λ (r : nat) len, 0 ≤ len ∧ len + Z.of_nat r = k)
    (λ len, negb (load8 m (str + len) =? 0)) (λ len, Ok (len ⊞ 1))
    (Z.to_nat k) 0) as (l & -> & ? & ?).
  - unfold FUEL. lia.
  - lia.
  - intros r l _ [? ?]. split.
    + apply negb_true_iff, Z.eqb_neq, Hne. lia.
    + eexists; split; [done|]. rewrite u32_small by lia. lia.
  - intros l [? ?]. replace l with k by lia. by rewrite Hnul.
  - f_equal. lia.
Qed.

(** ** memset *)

Lemma memset_ok m s c n :
  0 ≤ n < 4294967296 →
  ∃ m', memset m s c n = Ok (s, m') ∧
    ∀ x, load8 m' x = if decide (within s n x) then u8 c else load8 m x.
Proof.
  intros Hn. unfold memset.
  destruct (while_loop_total
    (λ (r : nat) '(m1, p, cur), 0 ≤ p ∧ p + Z.of_nat r = n ∧ u32 cur = u32 (s + p) ∧
       ∀ x, load8 m1 x = if decide (within s p x) then u8 c else load8 m x)
    (λ '(m, p, cur), p <? n)
    (λ '(m, p, cur), Ok (store8 m cur c, p ⊞ 1, cur ⊞ 1))
    (Z.to_nat n) (m, 0, s)) as ([[m' p] cur] & Hrun & Hp & Hr & _ & Hm').
  - unfold FUEL. lia.
  - split_and!; [lia|lia|by rewrite Z.add_0_r|].
    intros x. rewrite decide_False; [done|]. unfold within. wrap_lia.
  - intros r [[m1 p] cur] _ (? & ? & Hcur & Hm1). split; [lia|].
    eexists; split; [done|]. rewrite (u32_small (p + 1)) by lia.
    split_and!; [lia|lia|rewrite u32_idemp; wrap_lia|].
    intros x. rewrite load8_store8, Hm1. unfold within in *.
    repeat case_decide; try done; exfalso; wrap_lia.
  - intros [[m1 p] cur] (? & ? & ?). lia.
  - rewrite Hrun. simpl. exists m'. split; [done|]. replace n with p by lia. done.
Qed.

(** ** memcpy *)

(** Where the byte copied to offset [i] of the destination comes from, as an
    offset into the source of the memory before the call: when the destination
    starts [d] bytes inside the source range, the first [d] bytes repeat. *)
Definition copy_index (dest src i : Z) : Z :=
  let d := u32 (dest - src) in if d =? 0 then i else i mod d.

(** The byte of the memory after [memcpy] at [x]. *)
Definition copied (m : mem) (dest src n x : Z) : Z :=
  if decide (within dest n x)
  then load8 m (src + copy_index dest src (u32 (x - dest)))
  else load8 m x.

(** The next byte the loop reads already holds what [copied] says. *)
Lemma copied_next m dest src p :
  0 ≤ p < 4294967296 →
  copied m dest src p (src + p) = load8 m (src + copy_index dest src p).
Proof.
  intros Hp. unfold copied, copy_index. case_decide as Hin; unfold within in Hin.
  - destruct (Z.eqb_spec (u32 (dest - src)) 0) as [Hd|Hd]; [exfalso; wrap_lia|].
    assert (Hd' : u32 (dest - src) ≤ p) by wrap_lia.
    assert (u32 (src + p - dest) = p - u32 (dest - src)) as -> by wrap_lia.
    f_equal. f_equal. pose proof (u32_range (dest - src)).
    rewrite <-(Z_mod_plus_full _ 1). f_equal. lia.
  - destruct (Z.eqb_spec (u32 (dest - src)) 0) as [Hd|Hd]; [done|].
    rewrite Z.mod_small by wrap_lia. done.
Qed.

Lemma memcpy_step m dest src p m1 :
  0 ≤ p < 4294967295 →
  (∀ x, load8 m1 x = copied m dest src p x) →
  ∀ x, load8 (store8 m1 (dest + p) (load8 m1 (src + p))) x
       = copied m dest src (p + 1) x.
Proof.
  intros Hp Hm1 x. rewrite load8_store8. case_decide as Hx.
  - rewrite Hm1, copied_next by lia. unfold copied.
    rewrite decide_True by (unfold within; wrap_lia).
    assert (u32 (x - dest) = p) as -> by wrap_lia.
    apply u8_small, load8_range.
  - rewrite Hm1. unfold copied, within.
    repeat case_decide; try done; exfalso; wrap_lia.
Qed.

Lemma memcpy_copied m dest src n :
  0 ≤ n < 4294967296 →
  ∃ m', memcpy m dest src n = Ok (dest, m') ∧
    ∀ x, load8 m' x = copied m dest src n x.
Proof.
  intros Hn. unfold memcpy.
  destruct (while_loop_total
    (λ (r : nat) '(m1, bd, bs, k), k = Z.of_nat r ∧ k ≤ n ∧
       u32 bd = u32 (dest + (n - k)) ∧ u32 bs = u32 (src + (n - k)) ∧
       ∀ x, load8 m1 x = copied m dest src (n - k) x)
    (λ '(m, byte_dest, byte_src, n), n >? 0)
    (λ '(m, byte_dest, byte_src, n),
       Ok (store8 m byte_dest (load8 m byte_src),
           byte_dest ⊞ 1, byte_src ⊞ 1, n ⊟ 1))
    (Z.to_nat n) (m, dest, src, n))
    as ([[[m' bd] bs] k] & Hrun & Hk & _ & _ & _ & Hm').
  - unfold FUEL. lia.
  - split_and!; [lia|lia|f_equal; lia|f_equal; lia|].
    intros x. unfold copied. rewrite decide_False; [done|].
    unfold within. wrap_lia.
  - intros r [[[m1 bd] bs] k] _ (Hk & ? & Hbd & Hbs & Hm1). split; [lia|].
    eexists; split; [done|]. rewrite (u32_small (k - 1)) by lia.
    split_and!; [lia|lia|rewrite u32_idemp; wrap_lia|rewrite u32_idemp; wrap_lia|].
    intros x. replace (n - (k - 1)) with (n - k + 1) by lia.
    rewrite (store8_addr _ bd _ _ Hbd), (load8_addr _ bs _ Hbs).
    apply memcpy_step; [lia|done].
  - intros [[[m1 bd] bs] k] (Hk & _). lia.
  - rewrite Hrun. simpl. exists m'. split; [done|].
    intros x. rewrite Hm', Hk, Z.sub_0_r. done.
Qed.

(** When the destination does not start strictly inside the source range the
    copy is exact; this covers disjoint ranges and moves to lower addresses. *)
Lemma memcpy_exact m dest src n :
  0 ≤ n < 4294967296 →
  u32 (dest - src) = 0 ∨ n ≤ u32 (dest - src) →
  ∃ m', memcpy m dest src n = Ok (dest, m') ∧
    read_bytes m' dest n = read_bytes m src n ∧ changes_only dest n m m'.
Proof.
  intros Hn Hd. destruct (memcpy_copied m dest src n Hn) as (m' & -> & Hm').
  exists m'. split_and!; [done| |].
  - apply read_bytes_eq. intros i Hi. rewrite Hm'. unfold copied, copy_index.
    assert (u32 (dest + i - dest) = i) as Hi' by wrap_lia.
    rewrite decide_True by (unfold within; lia). rewrite Hi'.
    destruct (Z.eqb_spec (u32 (dest - src)) 0); [done|].
    rewrite Z.mod_small by lia. done.
  - intros x Hx. rewrite Hm'. unfold copied. by rewrite decide_False.
Qed.

(** ** Properties *)

(** C28. memcpy always terminates and returns its destination. Every byte of the
    resulting memory is determined, for every overlap: a byte outside the
    destination is unchanged, byte [i] of the destination is the source's byte
    [i], or its byte [i mod d] when the destination starts [d] bytes inside the
    source; so the copy is exact unless the destination starts strictly inside
    the source range. *)
Theorem memcpy_semantics (m : mem) (dest src n : Z) :
  0 ≤ n < 4294967296 →
  ∃ m', memcpy m dest src n = Ok (dest, m') ∧
    (∀ x, load8 m' x = copied m dest src n x) ∧
    (u32 (dest - src) = 0 ∨ n ≤ u32 (dest - src) →
       read_bytes m' dest n = read_bytes m src n ∧ changes_only dest n m m').
Proof.
  intros Hn. destruct (memcpy_copied m dest src n Hn) as (m' & E & Hm').
  exists m'. split_and!; [done|done|]. intros Hd.
  destruct (memcpy_exact m dest src n Hn Hd) as (m2 & E2 & H1 & H2).
  rewrite E in E2. injection E2 as <-. done.
Qed.
(** Copying five bytes two bytes upwards repeats the first two. *)
Lemma memcpy_semantics_witness :
  let m := store32 ∅ 100 0x04030201 in
  ∃ m', memcpy m 102 100 5 = Ok (102, m') ∧ read_bytes m' 100 7 = [1; 2; 1; 2; 1; 2; 1].
Proof.
  intros m. destruct (memcpy_semantics m 102 100 5 ltac:(lia)) as (m' & E & Hb & _).
  exists m'. split; [exact E|]. revert E. vm_compute. intros [= <-]. reflexivity.
Defined.

(** Memset sets exactly the [n] bytes at [s] to the low byte of [c] and
    returns [s]; strlen returns the index of the first NUL. *)
Theorem memset_strlen_semantics (m : mem) (s c n str k : Z) :
  0 ≤ n < 4294967296 → first_nul m str k → k < 4294967296 →
  (∃ m', memset m s c n = Ok (s, m') ∧
     ∀ x, load8 m' x = if decide (within s n x) then u8 c else load8 m x) ∧
  strlen m str = Ok k.
Proof. intros Hn Hk Hlt. split; [by apply memset_ok|by apply strlen_first_nul]. Qed.
Lemma memset_strlen_semantics_witness :
  let m := store32 ∅ 100 0x00030201 in
  (∃ m', memset m 200 511 3 = Ok (200, m') ∧ load8 m' 202 = 255) ∧ strlen m 100 = Ok 3.
Proof.
  intros m. destruct (memset_strlen_semantics m 200 511 3 100 3) as [(m' & E & Hm) Hs].
  - lia.
  - split; [lia|]. split; [|vm_compute; reflexivity].
    intros i Hi. assert (i = 0 ∨ i = 1 ∨ i = 2) as [-> | [-> | ->]] by lia; vm_compute; congruence.
  - lia.
  - split; [|exact Hs]. exists m'. split; [exact E|]. rewrite Hm. vm_compute. reflexivity.
Defined.
