(* ===== verification/KList.v ===== *)
(** * KList: the intrusive circular doubly linked list of kern/list.h

    Each operation is the sequence of loads and stores of the source on the
    machine memory; [ring] is the abstraction: the header at [h] heads the
    circular list of the nodes [xs]. *)

From S2P Require Import Prelude Machine.

(** ** The operations (kern/list.h) *)

(** struct lst_hdr: next at offset 0, prev at offset 4, 8 bytes *)
Definition lst_next (m : mem) (h : Z) : Z := load32 m h.
Definition lst_prev (m : mem) (h : Z) : Z := load32 m (h + 4).
Definition set_next (m : mem) (h v : Z) : mem := store32 m h v.
Definition set_prev (m : mem) (h v : Z) : mem := store32 m (h + 4) v.

(** LIST_HEAD_INIT: the inner assignment, to prev, comes first *)
Definition LIST_HEAD_INIT (m : mem) (var : Z) : mem :=
  set_next (set_prev m var var) var var.

Definition list_add (m : mem) (new head : Z) : mem :=
  let head_next := lst_next m head in
  let m := set_prev m head_next new in
  let m := set_next m head new in
  let m := set_next m new head_next in
  set_prev m new head.

(** The second statement reads the node again after the first store. *)
Definition list_remove (m : mem) (hdr : Z) : mem :=
  let m := set_prev m (lst_next m hdr) (lst_prev m hdr) in
  set_next m (lst_prev m hdr) (lst_next m hdr).

Definition list_is_empty (m : mem) (hdr : Z) : bool :=
  (lst_next m hdr =? hdr) && (lst_prev m hdr =? hdr).

Definition list_next (m : mem) (hdr : Z) : Z * mem :=
  let ret := lst_next m hdr in
  (ret, list_remove m ret).

(** list_data: the structure that holds the header at [ptr], the member being
    at [offset] *)
Definition list_data (ptr offset : Z) : Z := ptr ⊟ offset.

(** ** Where nodes may lie *)

Definition node_addr (a : Z) : Prop := 0 ≤ a ∧ a + 8 ≤ 4294967296.
(** Two headers are the same or do not overlap. *)
Definition node_apart (a b : Z) : Prop := a = b ∨ a + 8 ≤ b ∨ b + 8 ≤ a.

Definition nodes_ok (l : list Z) : Prop :=
  NoDup l ∧ Forall node_addr l ∧ ∀ a b, a ∈ l → b ∈ l → node_apart a b.

Lemma nodes_ok_sublist l k : k ⊆+ l → nodes_ok l → nodes_ok k.
Proof.
  intros Hsub (Hnd & Hf & Hap). split_and!.
  - destruct (submseteq_Permutation _ _ Hsub) as [k' Hk'].
    rewrite Hk' in Hnd. by apply NoDup_app in Hnd as [? _].
  - rewrite Forall_forall in *. eauto using elem_of_submseteq.
  - eauto using elem_of_submseteq.
Qed.

Section fields.
Context (m : mem) (a b v : Z).
Context (Ha : node_addr a) (Hb : node_addr b) (Hab : node_apart a b).

Lemma next_set_next :
  lst_next (set_next m b v) a = if decide (a = b) then u32 v else lst_next m a.
Proof using Ha Hb Hab.
  unfold lst_next, set_next, node_addr, node_apart in *.
  case_decide as H; [subst; apply load32_store32_eq|].
  apply load32_store32_disj, disj_linear; lia.
Qed.
Lemma prev_set_prev :
  lst_prev (set_prev m b v) a = if decide (a = b) then u32 v else lst_prev m a.
Proof using Ha Hb Hab.
  unfold lst_prev, set_prev, node_addr, node_apart in *.
  case_decide as H; [subst; apply load32_store32_eq|].
  apply load32_store32_disj, disj_linear; lia.
Qed.
Lemma next_set_prev : lst_next (set_prev m b v) a = lst_next m a.
Proof using Ha Hb Hab.
  unfold lst_next, set_prev, node_addr, node_apart in *.
  apply load32_store32_disj, disj_linear; lia.
Qed.
Lemma prev_set_next : lst_prev (set_next m b v) a = lst_prev m a.
Proof using Ha Hb Hab.
  unfold lst_prev, set_next, node_addr, node_apart in *.
  apply load32_store32_disj, disj_linear; lia.
Qed.
End fields.

(** ** Paths and rings *)

Definition linked (m : mem) (a b : Z) : Prop :=
  lst_next m a = b ∧ lst_prev m b = a.

(** Consecutive elements of [a :: xs] are linked both ways. *)
Fixpoint path (m : mem) (a : Z) (xs : list Z) : Prop :=
  match xs with
  | [] => True
  | x :: xs' => linked m a x ∧ path m x xs'
  end.

Definition ring (m : mem) (h : Z) (xs : list Z) : Prop :=
  path m h (xs ++ [h]) ∧ nodes_ok (h :: xs).

(** The last node of [a :: xs]. *)
Definition last_of (a : Z) (xs : list Z) : Z := default a (last xs).

Lemma last_of_cons a x xs : last_of a (x :: xs) = last_of x xs.
Proof. unfold last_of. rewrite last_cons. by destruct (last xs). Qed.
Lemma last_of_app a xs x : last_of a (xs ++ [x]) = x.
Proof. unfold last_of. by rewrite last_snoc. Qed.
Lemma last_of_elem a xs : last_of a xs ∈ a :: xs.
Proof.
  revert a; induction xs as [|x xs IH]; intros a; [by left|].
  rewrite last_of_cons. by right.
Qed.

Lemma path_app m a xs ys :
  path m a (xs ++ ys) ↔ path m a xs ∧ path m (last_of a xs) ys.
Proof.
  revert a; induction xs as [|x xs IH]; intros a; simpl.
  - unfold last_of; simpl. tauto.
  - rewrite IH, last_of_cons. tauto.
Qed.

(** A path reads [next] of all its nodes but the last and [prev] of all but
    the first. *)
Lemma path_frame m m' a xs :
  (∀ y, y ∈ removelast (a :: xs) → lst_next m' y = lst_next m y) →
  (∀ y, y ∈ xs → lst_prev m' y = lst_prev m y) →
  path m a xs → path m' a xs.
Proof.
  revert a; induction xs as [|x xs IH]; intros a Hn Hp; [done|].
  intros [[H1 H2] Hpath]. simpl. split; [split|].
  - rewrite Hn; [done|]. simpl. by left.
  - rewrite Hp; [done|by left].
  - apply IH; [| |done]; intros y Hy; [apply Hn|apply Hp].
    + change (y ∈ a :: removelast (x :: xs)). by right.
    + by right.
Qed.

(** A ring split after the nodes [xs1]: the predecessor, its successor and the
    rest of the way back to the header. *)
Lemma ring_split m h xs1 xs2 :
  path m h ((xs1 ++ xs2) ++ [h]) ↔
  ∃ q rest, xs2 ++ [h] = q :: rest ∧ path m h xs1 ∧
    linked m (last_of h xs1) q ∧ path m q rest.
Proof.
  rewrite <-app_assoc, path_app. split.
  - intros [H1 H2]. destruct (xs2 ++ [h]) as [|q rest] eqn:E.
    + by destruct xs2.
    + simpl in H2. naive_solver.
  - intros (q & rest & -> & ? & ? & ?). simpl. auto.
Qed.

(** The places of a ring that the predecessor's and the successor's links do
    not touch. *)
Lemma split_fresh h xs1 xs2 q rest :
  NoDup (h :: xs1 ++ xs2) → xs2 ++ [h] = q :: rest →
  last_of h xs1 ∉ removelast (h :: xs1) ∧ q ∉ xs1 ∧
  last_of h xs1 ∉ removelast (q :: rest) ∧ q ∉ rest.
Proof.
  intros Hnd E. rewrite app_comm_cons in Hnd.
  apply NoDup_app in Hnd as (Hnd1 & Hdis & Hnd2).
  assert (Hrl : removelast (q :: rest) = xs2).
  { rewrite <-E. apply removelast_last. }
  split_and!.
  - destruct xs1 as [|x xs1 _] using rev_ind; [simpl; set_solver|].
    rewrite last_of_app, app_comm_cons, removelast_last.
    rewrite app_comm_cons in Hnd1. apply NoDup_app in Hnd1 as (_ & Hx & _).
    intros Hin. apply (Hx _ Hin). by left.
  - destruct xs2 as [|y xs2]; simplify_eq/=.
    + by apply NoDup_cons in Hnd1 as [? _].
    + intros Hin. apply (Hdis q); [by right|by left].
  - rewrite Hrl. apply Hdis, last_of_elem.
  - destruct xs2 as [|y xs2]; simplify_eq/=; [set_solver|].
    rewrite elem_of_app, list_elem_of_singleton. intros [Hin| ->].
    + by apply NoDup_cons in Hnd2 as [? _].
    + apply (Hdis h); by left.
Qed.

Lemma removelast_incl (y : Z) l : y ∈ removelast l → y ∈ l.
Proof.
  induction l as [|a l IH]; simpl; [done|]. destruct l as [|b l]; [set_solver|].
  intros [->|H]%elem_of_cons; [by left|right; by apply IH].
Qed.

Lemma split_nodes h xs1 xs2 q rest y :
  xs2 ++ [h] = q :: rest →
  y ∈ h :: xs1 ∨ y ∈ xs1 ∨ y ∈ q :: rest ∨ y ∈ rest ∨ y = q ∨ y = last_of h xs1 →
  y ∈ h :: xs1 ++ xs2.
Proof.
  intros E. assert (Hq : ∀ z, z ∈ q :: rest → z ∈ h :: xs1 ++ xs2).
  { intros z. rewrite <-E. set_solver. }
  pose proof (last_of_elem h xs1). set_solver.
Qed.

(** ** What the operations do to each field *)

(** [good y l]: [y] is a header address apart from those of [l]. *)
Definition good (y : Z) (l : list Z) : Prop :=
  node_addr y ∧ Forall node_addr l ∧ Forall (node_apart y) l.

Lemma nodes_ok_good l k y : nodes_ok l → y ∈ l → k ⊆ l → good y k.
Proof.
  intros (_ & Hf & Hap) Hy Hk. rewrite Forall_forall in Hf.
  split_and!; [auto|rewrite Forall_forall; auto|rewrite Forall_forall; auto].
Qed.

Ltac links :=
  repeat first [ rewrite next_set_next by (split_and?; done)
               | rewrite prev_set_prev by (split_and?; done)
               | rewrite next_set_prev by (split_and?; done)
               | rewrite prev_set_next by (split_and?; done) ].

Lemma list_add_fields m new p q y :
  q = lst_next m p → new ≠ p → new ≠ q → good y [p; q; new] →
  lst_next (list_add m new p) y =
    (if decide (y = new) then u32 q
     else if decide (y = p) then u32 new else lst_next m y) ∧
  lst_prev (list_add m new p) y =
    (if decide (y = new) then u32 p
     else if decide (y = q) then u32 new else lst_prev m y).
Proof.
  intros Hq Hp Hnq (Hy & Hf & Hap). unfold list_add. rewrite <-Hq.
  repeat (apply Forall_cons in Hf as [? Hf]).
  repeat (apply Forall_cons in Hap as [? Hap]).
  links. repeat case_decide; split; congruence.
Qed.

Lemma list_remove_fields m x p q y :
  q = lst_next m x → p = lst_prev m x → x ≠ q → node_apart x q →
  good y [p; q; x] →
  lst_next (list_remove m x) y =
    (if decide (y = p) then u32 q else lst_next m y) ∧
  lst_prev (list_remove m x) y =
    (if decide (y = q) then u32 p else lst_prev m y).
Proof.
  intros Hq Hp Hxq Hapx (Hy & Hf & Hap). unfold list_remove. rewrite <-Hq, <-Hp.
  repeat (apply Forall_cons in Hf as [? Hf]).
  repeat (apply Forall_cons in Hap as [? Hap]).
  rewrite prev_set_prev, decide_False, next_set_prev, <-Hp, <-Hq by done.
  links. done.
Qed.

Lemma u32_node a : node_addr a → u32 a = a.
Proof. unfold node_addr. intros. apply u32_small. lia. Qed.

(** ** list_add and list_remove on rings *)

Section ring_ops.
Context (m : mem) (h : Z) (xs1 xs2 : list Z) (q : Z) (rest : list Z).
Context (Erest : xs2 ++ [h] = q :: rest).
Let p := last_of h xs1.

Lemma p_node : p ∈ h :: xs1 ++ xs2.
Proof using Erest. eapply split_nodes; [done|]. do 5 right. done. Qed.
Lemma q_node : q ∈ h :: xs1 ++ xs2.
Proof using Erest. eapply split_nodes; [done|]. do 4 right. by left. Qed.

(** The two open paths of a split ring survive any update that keeps [next]
    of all nodes but the predecessor and [prev] of all but the successor. *)
Lemma split_paths_frame m' :
  NoDup (h :: xs1 ++ xs2) →
  (∀ y, y ∈ h :: xs1 ++ xs2 → y ≠ p → lst_next m' y = lst_next m y) →
  (∀ y, y ∈ h :: xs1 ++ xs2 → y ≠ q → lst_prev m' y = lst_prev m y) →
  path m h xs1 → path m q rest → path m' h xs1 ∧ path m' q rest.
Proof using Erest.
  intros Hnd Hn Hp. destruct (split_fresh _ _ _ _ _ Hnd Erest) as (F1 & F2 & F3 & F4).
  intros P1 P2. split; (apply (path_frame m); [intros y Hy|intros y Hy|done]).
  - apply Hn; [|by intros ->]. eapply split_nodes; [done|].
    left. by apply removelast_incl.
  - apply Hp; [|by intros ->]. eapply split_nodes; [done|]. by right; left.
  - apply Hn; [|by intros ->]. eapply split_nodes; [done|].
    do 2 right. left. by apply removelast_incl.
  - apply Hp; [|by intros ->]. eapply split_nodes; [done|]. do 3 right. by left.
Qed.

Lemma list_add_paths new :
  nodes_ok (new :: h :: xs1 ++ xs2) →
  path m h xs1 → linked m p q → path m q rest →
  path (list_add m new p) h ((xs1 ++ new :: xs2) ++ [h]).
Proof using Erest.
  intros Hok P1 [Hl1 Hl2] P2. pose proof p_node as Hp. pose proof q_node as Hq.
  pose proof Hok as (Hnd & Hf & _). apply NoDup_cons in Hnd as [Hnew Hnd].
  rewrite Forall_forall in Hf.
  assert (Hg : ∀ y, y ∈ new :: h :: xs1 ++ xs2 → good y [p; q; new]).
  { intros y Hy. eapply nodes_ok_good; [done|done|set_solver]. }
  assert (Hnp : new ≠ p) by congruence.
  assert (Hnq : new ≠ q) by congruence.
  pose proof (λ y Hy, list_add_fields m new p q y (eq_sym Hl1) Hnp Hnq (Hg y Hy))
    as Hfld.
  assert (Hne : ∀ y, y ∈ h :: xs1 ++ xs2 → y ≠ new) by (by intros ? ? ->).
  destruct (split_paths_frame (list_add m new p)) as [P1' P2']; try done.
  { intros y Hy Hyp. destruct (Hfld y) as [-> _]; [by right|].
    by rewrite decide_False, decide_False by auto. }
  { intros y Hy Hyp. destruct (Hfld y) as [_ ->]; [by right|].
    by rewrite decide_False, decide_False by auto. }
  rewrite <-app_assoc, path_app. split; [done|].
  simpl. rewrite Erest. simpl. fold p.
  destruct (Hfld new) as [En Ep]; [by left|].
  destruct (Hfld p) as [Epn _]; [by right|].
  destruct (Hfld q) as [_ Eqp]; [by right|].
  rewrite decide_True in En by done. rewrite decide_True in Ep by done.
  rewrite decide_False, decide_True in Epn by auto.
  rewrite decide_False, decide_True in Eqp by auto.
  rewrite (u32_node new) in * by (apply Hf; by left).
  rewrite (u32_node p) in * by (apply Hf; by right).
  rewrite (u32_node q) in * by (apply Hf; by right).
  split_and!; done.
Qed.
End ring_ops.

Lemma list_remove_paths m h xs1 xs2 x q rest :
  xs2 ++ [h] = q :: rest → nodes_ok (h :: xs1 ++ x :: xs2) →
  path m h xs1 → linked m (last_of h xs1) x → linked m x q → path m q rest →
  path (list_remove m x) h ((xs1 ++ xs2) ++ [h]).
Proof.
  intros E Hok P1 [Hl1 Hl2] [Hl3 Hl4] P2. set (p := last_of h xs1) in *.
  pose proof (p_node h xs1 xs2 q rest E) as Hp.
  pose proof (q_node h xs1 xs2 q rest E) as Hq. fold p in Hp.
  assert (Hperm : h :: xs1 ++ x :: xs2 ≡ₚ x :: h :: xs1 ++ xs2)
    by (rewrite <-Permutation_middle; constructor).
  apply (nodes_ok_sublist _ (x :: h :: xs1 ++ xs2)) in Hok; [|by rewrite Hperm].
  pose proof Hok as (Hnd & Hf & Hap). apply NoDup_cons in Hnd as [Hx Hnd].
  rewrite Forall_forall in Hf.
  assert (Hg : ∀ y, y ∈ h :: xs1 ++ xs2 → good y [p; q; x]).
  { intros y Hy. eapply nodes_ok_good; [done|by right|set_solver]. }
  assert (Hxq : x ≠ q) by congruence.
  assert (Hapx : node_apart x q) by (apply Hap; [by left|by right]).
  pose proof (λ y Hy, list_remove_fields m x p q y (eq_sym Hl3) (eq_sym Hl2)
    Hxq Hapx (Hg y Hy)) as Hfld.
  destruct (split_paths_frame m h xs1 xs2 q rest E (list_remove m x))
    as [P1' P2']; try done.
  { intros y Hy Hyp. destruct (Hfld y Hy) as [-> _]. by rewrite decide_False. }
  { intros y Hy Hyp. destruct (Hfld y Hy) as [_ ->]. by rewrite decide_False. }
  rewrite <-app_assoc, path_app, E. split; [done|]. split; [|done].
  destruct (Hfld p Hp) as [Epn _], (Hfld q Hq) as [_ Eqp].
  rewrite decide_True in Epn by done. rewrite decide_True in Eqp by done.
  fold p. split; [rewrite Epn|rewrite Eqp]; apply u32_node, Hf; by right.
Qed.

(** [list_add new p], with [p] the node after which the list is split, puts
    [new] at that place of the ring. *)
Lemma list_add_ring m h xs1 xs2 new :
  ring m h (xs1 ++ xs2) → nodes_ok (new :: h :: xs1 ++ xs2) →
  ring (list_add m new (last_of h xs1)) h (xs1 ++ new :: xs2).
Proof.
  intros [Hpath _] Hok. apply ring_split in Hpath as (q & rest & E & P1 & L & P2).
  split; [by eapply list_add_paths|].
  eapply nodes_ok_sublist; [|done]. by rewrite <-Permutation_middle, Permutation_swap.
Qed.

Lemma list_remove_ring m h xs1 xs2 x :
  ring m h (xs1 ++ x :: xs2) → ring (list_remove m x) h (xs1 ++ xs2).
Proof.
  intros [Hpath Hok]. split.
  - apply ring_split in Hpath as (q & rest & E & P1 & L & P2).
    injection E as <- <-. destruct (xs2 ++ [h]) as [|q rest] eqn:E; [by destruct xs2|].
    simpl in P2. destruct P2 as [L2 P2]. by eapply list_remove_paths.
  - eapply nodes_ok_sublist; [|done].
    constructor. rewrite <-Permutation_middle. by constructor.
Qed.

Lemma ring_prev m h xs : ring m h xs → lst_prev m h = last_of h xs.
Proof. intros [Hp _]. apply path_app in Hp as [_ [[_ H] _]]. done. Qed.
Lemma ring_next m h xs : ring m h xs → lst_next m h = hd h xs.
Proof. intros [Hp _]. by destruct xs as [|x xs]; destruct Hp as [[H _] _]. Qed.

(** Adding at [head->prev] appends (the scheduler's enqueue). *)
Lemma list_add_tail_ring m h xs new :
  ring m h xs → nodes_ok (new :: h :: xs) →
  ring (list_add m new (lst_prev m h)) h (xs ++ [new]).
Proof.
  intros Hr Hok. rewrite (ring_prev _ _ _ Hr).
  apply (list_add_ring m h xs []); by rewrite app_nil_r.
Qed.

(** [list_next] takes the first node off. *)
Lemma list_next_ring m h x xs :
  ring m h (x :: xs) →
  (list_next m h).1 = x ∧ ring (list_next m h).2 h xs.
Proof.
  intros Hr. unfold list_next. rewrite (ring_next _ _ _ Hr). simpl.
  split; [done|]. by apply (list_remove_ring m h [] xs x).
Qed.

Lemma list_is_empty_ring m h xs :
  ring m h xs → list_is_empty m h = true ↔ xs = [].
Proof.
  intros Hr. unfold list_is_empty.
  rewrite (ring_next _ _ _ Hr), (ring_prev _ _ _ Hr).
  destruct Hr as [_ (Hnd & _)]. destruct xs as [|x xs]; simpl.
  - unfold last_of; simpl. by rewrite !Z.eqb_refl.
  - split; [|done]. rewrite andb_true_iff, Z.eqb_eq. intros [-> _].
    apply NoDup_cons in Hnd as [[] _]. by left.
Qed.

Lemma LIST_HEAD_INIT_ring m h : node_addr h → ring (LIST_HEAD_INIT m h) h [].
Proof.
  intros Hh. assert (node_apart h h) by (by left).
  split; [split; [split|done]|].
  - unfold LIST_HEAD_INIT. rewrite next_set_next, decide_True by done.
    by apply u32_node.
  - unfold LIST_HEAD_INIT. rewrite prev_set_next, prev_set_prev, decide_True by done.
    by apply u32_node.
  - split_and!; [apply NoDup_singleton|by constructor|]. set_solver.
Qed.

(** Rings none of whose nodes was touched. *)
Lemma ring_frame m m' h xs :
  (∀ y, y ∈ h :: xs → lst_next m' y = lst_next m y ∧ lst_prev m' y = lst_prev m y) →
  ring m h xs → ring m' h xs.
Proof.
  intros Hy [Hp Hok]. split; [|done]. apply (path_frame m); [| |done].
  - intros y Hin%removelast_incl. apply Hy. set_solver.
  - intros y Hin. apply Hy. set_solver.
Qed.

(** [list_data] undoes the address of a member. *)
Lemma list_data_member s offset :
  0 ≤ s < 4294967296 → list_data (u32 (s + offset)) offset = s.
Proof. intros. unfold list_data. wrap_lia. Qed.

(** ** What list operations leave alone *)

(** Bytes outside the headers of [l]. *)
Definition outside (l : list Z) (x : Z) : Prop := ∀ y, y ∈ l → ¬ within y 8 x.

Lemma set_next_out m h v x : ¬ within h 8 x → load8 (set_next m h v) x = load8 m x.
Proof.
  intros H. apply store32_out. contradict H. unfold within in *. lia.
Qed.
Lemma set_prev_out m h v x : ¬ within h 8 x → load8 (set_prev m h v) x = load8 m x.
Proof.
  intros H. apply store32_out. contradict H. unfold within in *. wrap_lia.
Qed.

Lemma list_add_out m h xs new x :
  ring m h xs → outside (new :: h :: xs) x →
  load8 (list_add m new (lst_prev m h)) x = load8 m x.
Proof.
  intros Hr Hx. rewrite (ring_prev _ _ _ Hr). unfold list_add.
  assert (Hp : last_of h xs ∈ new :: h :: xs) by (right; apply last_of_elem).
  assert (Hq : lst_next m (last_of h xs) ∈ new :: h :: xs).
  { destruct Hr as [Hp' _]. apply path_app in Hp' as [_ [[-> _] _]]. set_solver. }
  rewrite !set_prev_out, !set_next_out, set_prev_out; auto; apply Hx; set_solver.
Qed.

Lemma list_next_out m h x xs y :
  ring m h (x :: xs) → outside (h :: x :: xs) y →
  load8 (list_next m h).2 y = load8 m y.
Proof.
  intros Hr Hy. unfold list_next. rewrite (ring_next _ _ _ Hr). simpl.
  destruct Hr as [[[Hn Hp] Hpath] (Hnd & Hf & Hap)]. unfold list_remove.
  set (q := lst_next m x) in *.
  assert (Hq : q ∈ h :: xs /\ x ≠ q).
  { apply NoDup_cons in Hnd as [Hh Hnd]. apply NoDup_cons in Hnd as [Hx _].
    apply not_elem_of_cons in Hh as [Hhx _].
    destruct xs as [|z xs]; destruct Hpath as [[Hl _] _]; fold q in Hl; rewrite Hl.
    - split; [by left|congruence].
    - apply not_elem_of_cons in Hx as [? _]. split; [by right; left|congruence]. }
  destruct Hq as [Hq Hne]. rewrite Forall_forall in Hf.
  assert (Hxq : node_apart x q) by (apply Hap; set_solver).
  rewrite set_next_out, set_prev_out; [done| |].
  - apply Hy. set_solver.
  - rewrite prev_set_prev; [|apply Hf; set_solver..|done].
    rewrite decide_False by done. rewrite Hp. apply Hy. by left.
Qed.

(** ** Properties *)

(** C27. The list operations implement sequences: on the ring of [xs1 ++ xs2]
    around a head, list_add behind any position inserts there; on the ring of
    [xs1 ++ x :: xs2] list_remove drops exactly [x]; list_next returns the first
    node and drops it; list_is_empty tells whether the sequence is empty; and
    LIST_HEAD_INIT makes the empty sequence. *)
Theorem list_ops_sequence (m : mem) (h x : Z) (xs1 xs2 : list Z) :
  nodes_ok (x :: h :: xs1 ++ xs2) →
  ring (LIST_HEAD_INIT m h) h [] ∧
  (ring m h (xs1 ++ xs2) →
     ring (list_add m x (last_of h xs1)) h (xs1 ++ x :: xs2) ∧
     (list_is_empty m h = true ↔ xs1 ++ xs2 = [])) ∧
  (ring m h (xs1 ++ x :: xs2) → ring (list_remove m x) h (xs1 ++ xs2)) ∧
  (ring m h (x :: xs2) → (list_next m h).1 = x ∧ ring (list_next m h).2 h xs2).
Proof.
  intros Hok. split_and!.
  - apply LIST_HEAD_INIT_ring. destruct Hok as (_ & Hf & _).
    rewrite !Forall_cons in Hf. tauto.
  - intros Hr. split; [by apply list_add_ring|by apply list_is_empty_ring].
  - apply list_remove_ring.
  - apply list_next_ring.
Qed.
Lemma list_ops_sequence_witness :
  let m := LIST_HEAD_INIT ∅ 64 in
  ring m 64 [] ∧ ring (list_add m 32 64) 64 [32] ∧ lst_next (list_add m 32 64) 64 = 32.
Proof.
  intros m.
  assert (Hok : nodes_ok (32 :: 64 :: [] ++ [])).
  { split; [repeat constructor; set_solver|]. split.
    - repeat constructor; unfold node_addr; lia.
    - intros a b Ha Hb. unfold node_apart. set_solver by lia. }
  destruct (list_ops_sequence ∅ 64 32 [] [] Hok) as (H0 & _).
  destruct (list_ops_sequence m 64 32 [] [] Hok) as (_ & H1 & _).
  split; [exact H0|]. destruct (H1 H0) as [H2 _]. split; [exact H2|].
  vm_compute. reflexivity.
Defined.
