(* ===== verification/ArchPaging.v ===== *)
(** * ArchPaging: the constants and address splitting of
    arch/i686/include/arch_paging.h *)

From S2P Require Import Prelude.

Definition ARCH_PAGE_SIZE : Z := 4096.
Definition ARCH_PAGE_MASK : Z := 0xFFFFF000.
Definition ARCH_VADDR_PD_OFFSET_MASK : Z := 0xFFC00000.
Definition ARCH_VADDR_PT_OFFSET_MASK : Z := 0x003FF000.
Definition ARCH_VADDR_PD_OFFSET : Z := 22.
Definition ARCH_VADDR_PT_OFFSET : Z := 12.
Definition ARCH_PD_ENTRY_PRESENT : Z := 0x1.
Definition ARCH_PD_ENTRY_RW : Z := 0x2.
Definition ARCH_PD_ENTRY_USER : Z := 0x4.
Definition ARCH_PAGE_PRESENT : Z := ARCH_PD_ENTRY_PRESENT.
Definition ARCH_PAGE_RW : Z := ARCH_PD_ENTRY_RW.
Definition ARCH_PAGE_ENTRY_USER : Z := 0x4.
Definition ARCH_PT_ADDRESSABLE_BYTES : Z := 1024 * 4096.
Definition ARCH_PD_0 : Z := 0.
Definition ARCH_PD_1 : Z := 1.
(** include/arch/paging.h *)
Definition PAGE_SIZE : Z := ARCH_PAGE_SIZE.
Definition PAGE_MASK : Z := ARCH_PAGE_MASK.

Definition arch_get_pt_offset (vaddr level : Z) : Z :=
  if level =? ARCH_PD_0 then
    Z.shiftr (Z.land vaddr ARCH_VADDR_PT_OFFSET_MASK) ARCH_VADDR_PT_OFFSET
  else if level =? ARCH_PD_1 then
    Z.shiftr (Z.land vaddr ARCH_VADDR_PD_OFFSET_MASK) ARCH_VADDR_PD_OFFSET
  else 0.

(** ** Masks as arithmetic *)

(** A mask of the bits [lo..hi) keeps the multiple of [2^lo] below [2^hi]. *)
Lemma land_mask a lo hi :
  0 ≤ lo ≤ hi →
  Z.land a (2 ^ hi - 2 ^ lo) = (a mod 2 ^ hi) / 2 ^ lo * 2 ^ lo.
Proof.
  intros H. rewrite <-Z.shiftl_mul_pow2, <-Z.shiftr_div_pow2 by lia.
  rewrite <-Z.land_ones by lia. apply Z.bits_inj'. intros n Hn.
  assert (2 ^ hi - 2 ^ lo = Z.shiftl (Z.ones (hi - lo)) lo) as ->.
  { rewrite Z.shiftl_mul_pow2, Z.ones_equiv, Z.mul_pred_l, <-Z.pow_add_r by lia.
    do 2 f_equal. lia. }
  rewrite Z.land_spec, !Z.shiftl_spec by lia.
  destruct (Z.ltb_spec n lo).
  - rewrite !(Z.testbit_neg_r _ (n - lo)) by lia. apply andb_false_r.
  - rewrite Z.shiftr_spec, Z.land_spec by lia.
    replace (n - lo + lo) with n by lia. f_equal.
    destruct (Z.ltb_spec n hi).
    + rewrite !Z.ones_spec_low by lia. done.
    + rewrite !Z.ones_spec_high by lia. done.
Qed.

Lemma land_page_mask a : Z.land a ARCH_PAGE_MASK = u32 a / 4096 * 4096.
Proof. apply (land_mask a 12 32). lia. Qed.

Lemma land_page_mask_aligned a :
  0 ≤ a < 4294967296 → a mod 4096 = 0 → Z.land a ARCH_PAGE_MASK = a.
Proof. intros. rewrite land_page_mask, u32_small by lia. wrap_lia. Qed.

Lemma pt_index a : arch_get_pt_offset a ARCH_PD_0 = (a / 4096) mod 1024.
Proof.
  change (Z.shiftr (Z.land a (2 ^ 22 - 2 ^ 12)) 12 = (a / 4096) mod 1024).
  rewrite (land_mask a 12 22) by lia.
  rewrite Z.shiftr_div_pow2, Z.div_mul by lia.
  change (2 ^ 22) with 4194304. change (2 ^ 12) with 4096.
  Z.to_euclidean_division_equations. lia.
Qed.
Lemma pd_index a : arch_get_pt_offset a ARCH_PD_1 = (a / 4194304) mod 1024.
Proof.
  change (Z.shiftr (Z.land a (2 ^ 32 - 2 ^ 22)) 22 = (a / 4194304) mod 1024).
  rewrite (land_mask a 22 32) by lia.
  rewrite Z.shiftr_div_pow2, Z.div_mul by lia.
  change (2 ^ 22) with 4194304. change (2 ^ 32) with 4294967296.
  Z.to_euclidean_division_equations. lia.
Qed.

(** The offset of a 32-bit address in its page. *)
Lemma land_lnot_page_mask x :
  0 ≤ x < 4294967296 → Z.land x (Z.lnot PAGE_MASK) = x mod 4096.
Proof.
  intros Hx. rewrite <-(Z.mod_small x (2 ^ 32)) at 1 by done.
  rewrite <-Z.land_ones, <-Z.land_assoc by lia.
  change (Z.land (Z.ones 32) (Z.lnot PAGE_MASK)) with (Z.ones 12).
  by rewrite Z.land_ones by lia.
Qed.
