(* ===== verification/Thread.v ===== *)
(** * Thread: kernel objects and the i686 thread contexts

    The layouts of kern/kobjs.h, arch_obj_defs.h and arch_interrupt.h as field
    offsets (i686 System V: every member is 4-byte aligned), the routines of
    arch/i686/thread.c on memory, and the way back to user mode in
    boot/interrupt.asm. *)

From S2P Require Import Prelude Machine CString.

(** ** Layouts *)

(** tcb_t *)
Definition tcb_id : Z := 0.
Definition tcb_proc : Z := 4.
Definition tcb_priority : Z := 8.
Definition tcb_state : Z := 12.
Definition tcb_quantum_nsec : Z := 16.
Definition tcb_exec_ctx : Z := 24.
Definition tcb_list : Z := 88.
Definition sizeof_tcb : Z := 96.

(** proc_t *)
Definition proc_id : Z := 0.
Definition proc_page_dir : Z := 4.
Definition proc_priority : Z := 8.
Definition proc_threads : Z := 12.
Definition proc_thread_count : Z := 16.
Definition sizeof_proc : Z := 28.

(** arch_thread_context_t, with the registers of arch_gp_regs in their order
    edi, esi, ebp, esp, edx, ecx, ebx, eax *)
Module Ctx.
Definition ds : Z := 0.
Definition gp_regs : Z := 4.
Definition edi : Z := 4.
Definition esi : Z := 8.
Definition ebp : Z := 12.
Definition gp_esp : Z := 16.
Definition edx : Z := 20.
Definition ecx : Z := 24.
Definition ebx : Z := 28.
Definition eax : Z := 32.
Definition err : Z := 36.
Definition eip : Z := 40.
Definition cs : Z := 44.
Definition eflags : Z := 48.
Definition esp : Z := 52.
Definition ss : Z := 56.
End Ctx.
Definition sizeof_gp_regs : Z := 32.
Definition sizeof_ctx : Z := 60.

(** irq_context_t, as the interrupt stubs and the processor push it *)
Module Irq.
Definition ds : Z := 0.
Definition edi : Z := 4.
Definition esi : Z := 8.
Definition ebp : Z := 12.
Definition ebx : Z := 20.
Definition edx : Z := 24.
Definition ecx : Z := 28.
Definition eax : Z := 32.
Definition int_no : Z := 36.
Definition err_code : Z := 40.
Definition eip : Z := 44.
Definition cs : Z := 48.
Definition eflags : Z := 52.
Definition esp : Z := 56.
Definition ss : Z := 60.
End Irq.
Definition sizeof_irq : Z := 64.

(** ** thread.c *)

(** The file's variables, the writes to %cr3 (latest first) and the memory. *)
Record thread_st := ThreadSt {
  t_mem : mem;
  current_thread_execution_ctx : Z;
  current_proc : Z;
  cr3_writes : list Z;
}.

Definition t_with_mem (f : mem → mem) (s : thread_st) : thread_st :=
  ThreadSt (f (t_mem s)) (current_thread_execution_ctx s) (current_proc s) (cr3_writes s).
Definition t_with_ctx (c : Z) (s : thread_st) : thread_st :=
  ThreadSt (t_mem s) c (current_proc s) (cr3_writes s).
Definition t_with_proc (p : Z) (s : thread_st) : thread_st :=
  ThreadSt (t_mem s) (current_thread_execution_ctx s) p (cr3_writes s).

Definition THREAD_DEFAULT_EFLAGS : Z := Z.lor 0x2 (Z.shiftl 1 9).

(** thread.c:18 *)
Definition native_create_thread (m : mem) (tcb entrypoint thread_stack_base : Z)
    : outcome mem :=
  let exec_ctx := tcb + tcb_exec_ctx in
  let m := store32 m (exec_ctx + Ctx.esp) thread_stack_base in
  let m := store32 m (exec_ctx + Ctx.eip) entrypoint in
  let m := store32 m (exec_ctx + Ctx.ds) 0x23 in
  let m := store32 m (exec_ctx + Ctx.ss) 0x23 in
  let m := store32 m (exec_ctx + Ctx.cs) 0x1B in
  let m := store32 m (exec_ctx + Ctx.eflags) THREAD_DEFAULT_EFLAGS in
  snd <$> memset m (exec_ctx + Ctx.gp_regs) 0 sizeof_gp_regs.

(** arch_util.h:81 *)
Definition native_cr3_write (val : Z) (s : thread_st) : thread_st :=
  ThreadSt (t_mem s) (current_thread_execution_ctx s) (current_proc s)
    (u32 val :: cr3_writes s).
(** arch_paging.h:34 *)
Definition arch_load_pagedir (pd_phys_addr : Z) (s : thread_st) : thread_st :=
  native_cr3_write pd_phys_addr s.

(** thread.c:36 *)
Definition native_select_thread (tcb : Z) (s : thread_st) : thread_st :=
  let ctx := u32 (tcb + tcb_exec_ctx) in
  let s := if negb (ctx =? current_thread_execution_ctx s) then t_with_ctx ctx s else s in
  let p := load32 (t_mem s) (tcb + tcb_proc) in
  if negb (p =? current_proc s) then
    let s := t_with_proc p s in
    arch_load_pagedir (load32 (t_mem s) (current_proc s + proc_page_dir)) s
  else s.

(** One assignment [ctx->f = irq_ctx->g]. *)
Definition copy_field (m : mem) (ctx f irq g : Z) : mem :=
  store32 m (ctx + f) (load32 m (irq + g)).

(** thread.c:51 *)
Definition arch_update_exec_ctx (irq_ctx : Z) (s : thread_st) : thread_st :=
  let ctx := current_thread_execution_ctx s in
  t_with_mem (λ m,
    let m := copy_field m ctx Ctx.eip irq_ctx Irq.eip in
    let m := copy_field m ctx Ctx.esp irq_ctx Irq.esp in
    let m := copy_field m ctx Ctx.eflags irq_ctx Irq.eflags in
    let m := copy_field m ctx Ctx.eax irq_ctx Irq.eax in
    let m := copy_field m ctx Ctx.ebx irq_ctx Irq.ebx in
    let m := copy_field m ctx Ctx.ecx irq_ctx Irq.ecx in
    let m := copy_field m ctx Ctx.edx irq_ctx Irq.edx in
    let m := copy_field m ctx Ctx.edi irq_ctx Irq.edi in
    copy_field m ctx Ctx.esi irq_ctx Irq.esi) s.

(** ** Entering and leaving the kernel (boot/interrupt.asm)

    The registers of a user thread. *)
Record cpu_regs := CpuRegs {
  r_eax : Z; r_ebx : Z; r_ecx : Z; r_edx : Z;
  r_esi : Z; r_edi : Z; r_ebp : Z;
  r_eip : Z; r_esp : Z; r_eflags : Z;
  r_ds : Z; r_cs : Z; r_ss : Z;
}.

(** The context the stubs build on the kernel stack at [irq] holds the
    interrupted thread's registers. *)
Definition irq_holds (m : mem) (irq : Z) (r : cpu_regs) : Prop :=
  load32 m (irq + Irq.eax) = r_eax r ∧ load32 m (irq + Irq.ebx) = r_ebx r ∧
  load32 m (irq + Irq.ecx) = r_ecx r ∧ load32 m (irq + Irq.edx) = r_edx r ∧
  load32 m (irq + Irq.esi) = r_esi r ∧ load32 m (irq + Irq.edi) = r_edi r ∧
  load32 m (irq + Irq.ebp) = r_ebp r ∧ load32 m (irq + Irq.eip) = r_eip r ∧
  load32 m (irq + Irq.esp) = r_esp r ∧ load32 m (irq + Irq.eflags) = r_eflags r.

(** interrupt.asm:77: the stack pointer is set to the current context; pop of
    %ds, popa (edi, esi, ebp, one skipped, ebx, edx, ecx, eax), one word
    skipped, iret (eip, cs, eflags, esp, ss). *)
Definition arch_return_to_user (m : mem) (ctx : Z) : cpu_regs := {|
  r_ds := u16 (load32 m ctx);
  r_edi := load32 m (ctx + 4);
  r_esi := load32 m (ctx + 8);
  r_ebp := load32 m (ctx + 12);
  r_ebx := load32 m (ctx + 20);
  r_edx := load32 m (ctx + 24);
  r_ecx := load32 m (ctx + 28);
  r_eax := load32 m (ctx + 32);
  r_eip := load32 m (ctx + 40);
  r_cs := u16 (load32 m (ctx + 44));
  r_eflags := load32 m (ctx + 48);
  r_esp := load32 m (ctx + 52);
  r_ss := u16 (load32 m (ctx + 56));
|}.

(** The registers a thread gets back: of those it was interrupted with, [r], the
    ones arch_update_exec_ctx copies, as the two layouts order them, and the
    others as its context held them before *)
Definition saved (old r : cpu_regs) : cpu_regs := {|
  r_eax := r_eax r; r_ebx := r_edx r; r_ecx := r_ebx r; r_edx := r_ecx r;
  r_esi := r_esi r; r_edi := r_edi r; r_ebp := r_ebp old;
  r_eip := r_eip r; r_esp := r_esp r; r_eflags := r_eflags r;
  r_ds := r_ds old; r_cs := r_cs old; r_ss := r_ss old |}.

(** ** Lemmas *)

Ltac ctx_offs := unfold Ctx.ds, Ctx.gp_regs, Ctx.edi, Ctx.esi, Ctx.ebp, Ctx.gp_esp,
  Ctx.edx, Ctx.ecx, Ctx.ebx, Ctx.eax, Ctx.err, Ctx.eip, Ctx.cs, Ctx.eflags, Ctx.esp,
  Ctx.ss, Irq.edi, Irq.esi, Irq.ebp, Irq.ebx, Irq.edx, Irq.ecx, Irq.eax, Irq.eip,
  Irq.eflags, Irq.esp, tcb_exec_ctx, sizeof_gp_regs in *.

(** Writes into a context do not reach the interrupt frame. *)
Definition frame_apart (ctx irq : Z) : Prop := disj ctx sizeof_ctx irq sizeof_irq.

Lemma frame_apart_field ctx irq f g :
  frame_apart ctx irq → 0 ≤ f ≤ 56 → 0 ≤ g ≤ 60 → disj (ctx + f) 4 (irq + g) 4.
Proof.
  intros H Hf Hg i Hi. specialize (H (g + i) ltac:(unfold sizeof_irq; lia)).
  contradict H. rewrite Z.add_assoc. unfold within, sizeof_ctx in *. wrap_lia.
Qed.

Lemma copy_field_irq m ctx irq f g h :
  frame_apart ctx irq → 0 ≤ f ≤ 56 → 0 ≤ h ≤ 60 →
  load32 (copy_field m ctx f irq g) (irq + h) = load32 m (irq + h).
Proof. intros. apply load32_store32_disj. by apply frame_apart_field. Qed.

Lemma copy_field_ctx m ctx irq f g h :
  0 ≤ f ≤ 56 → 0 ≤ h ≤ 56 → f = h ∨ f + 4 ≤ h ∨ h + 4 ≤ f →
  load32 (copy_field m ctx f irq g) (ctx + h) =
    if decide (f = h) then load32 m (irq + g) else load32 m (ctx + h).
Proof.
  intros Hf Hh Ha. unfold copy_field. case_decide as E.
  - subst h. rewrite load32_store32_eq. apply u32_small, load32_range.
  - apply load32_store32_disj. apply disj_off; wrap_lia.
Qed.

Lemma copy_field_only m ctx irq f g :
  0 ≤ f ≤ 56 → changes_only ctx sizeof_ctx m (copy_field m ctx f irq g).
Proof.
  intros. unfold copy_field, sizeof_ctx. apply changes_only_store32; [done|lia..].
Qed.

Lemma arch_update_only irq s :
  changes_only (current_thread_execution_ctx s) sizeof_ctx (t_mem s)
    (t_mem (arch_update_exec_ctx irq s)).
Proof.
  unfold arch_update_exec_ctx. simpl. ctx_offs.
  repeat (etrans; [|apply copy_field_only; lia]). done.
Qed.

Lemma arch_update_fields irq s :
  let ctx := current_thread_execution_ctx s in
  let m' := t_mem (arch_update_exec_ctx irq s) in
  frame_apart ctx irq →
  ∀ h, h ∈ [0; 4; 8; 12; 20; 24; 28; 32; 40; 44; 48; 52; 56] →
  load32 m' (ctx + h) =
    match h with
    | 4 => load32 (t_mem s) (irq + Irq.edi)
    | 8 => load32 (t_mem s) (irq + Irq.esi)
    | 20 => load32 (t_mem s) (irq + Irq.edx)
    | 24 => load32 (t_mem s) (irq + Irq.ecx)
    | 28 => load32 (t_mem s) (irq + Irq.ebx)
    | 32 => load32 (t_mem s) (irq + Irq.eax)
    | 40 => load32 (t_mem s) (irq + Irq.eip)
    | 48 => load32 (t_mem s) (irq + Irq.eflags)
    | 52 => load32 (t_mem s) (irq + Irq.esp)
    | _ => load32 (t_mem s) (ctx + h)
    end.
Proof.
  intros ctx m' Hap h Hh. subst m'. unfold arch_update_exec_ctx. simpl. fold ctx.
  rewrite !elem_of_cons, elem_of_nil in Hh. ctx_offs.
  repeat (destruct Hh as [->|Hh]; [
    repeat (rewrite copy_field_ctx by lia);
    repeat (rewrite decide_False by lia); rewrite ?decide_True by lia;
    rewrite ?copy_field_irq by (done || lia); reflexivity|]).
  done.
Qed.

Lemma save_restore_fields (s : thread_st) (irq : Z) (r : cpu_regs) :
  let ctx := current_thread_execution_ctx s in
  let old := arch_return_to_user (t_mem s) ctx in
  frame_apart ctx irq → irq_holds (t_mem s) irq r →
  arch_return_to_user (t_mem (arch_update_exec_ctx irq s)) ctx = saved old r.
Proof.
  intros ctx old Hap (H1 & H2 & H3 & H4 & H5 & H6 & H7 & H8 & H9 & H10).
  pose proof (arch_update_fields irq s Hap) as Hf. cbv zeta in Hf. fold ctx in Hf.
  subst old. unfold saved, arch_return_to_user. cbn [r_ebp r_ds r_cs r_ss].
  replace (load32 _ ctx) with (load32 (t_mem (arch_update_exec_ctx irq s)) (ctx + 0))
    by (by rewrite Z.add_0_r).
  rewrite !Hf by (rewrite !elem_of_cons; tauto). cbv beta iota. rewrite Z.add_0_r.
  rewrite H1, H2, H3, H4, H5, H6, H8, H9, H10. reflexivity.
Qed.

(** A context is what its sixteen words are. *)
Lemma arch_return_ext m m' c :
  (∀ o, 0 ≤ o ≤ 56 → load32 m' (c + o) = load32 m (c + o)) →
  arch_return_to_user m' c = arch_return_to_user m c.
Proof.
  intros H. unfold arch_return_to_user.
  replace (load32 m' c) with (load32 m c) by (rewrite <-(Z.add_0_r c), H; [done|lia]).
  rewrite !H by lia. done.
Qed.

(** An interrupt frame outside a thread's tcb. *)
Lemma tcb_frame_apart t irq :
  disj t sizeof_tcb irq sizeof_irq → frame_apart (t + tcb_exec_ctx) irq.
Proof.
  intros H i Hi. specialize (H i Hi). contradict H.
  unfold within, tcb_exec_ctx, sizeof_ctx, sizeof_tcb in *. wrap_lia.
Qed.
Lemma irq_holds_store64 m t irq r v :
  disj t sizeof_tcb irq sizeof_irq → irq_holds m irq r →
  irq_holds (store64 m (t + tcb_quantum_nsec) v) irq r.
Proof.
  intros H Hr. assert (Hf : ∀ g, 0 ≤ g ≤ 60 →
    load32 (store64 m (t + tcb_quantum_nsec) v) (irq + g) = load32 m (irq + g)).
  { intros g Hg. apply load32_store64_disj. intros i Hi.
    specialize (H (g + i) ltac:(unfold sizeof_irq; lia)). contradict H.
    rewrite Z.add_assoc. unfold within, tcb_quantum_nsec, sizeof_tcb in *. wrap_lia. }
  unfold irq_holds in *. ctx_offs. by rewrite !Hf by lia.
Qed.

(** What native_create_thread leaves in the context *)
Definition user_regs (entry stack : Z) : cpu_regs := {|
  r_eax := 0; r_ebx := 0; r_ecx := 0; r_edx := 0; r_esi := 0; r_edi := 0; r_ebp := 0;
  r_eip := entry; r_esp := stack; r_eflags := 514;
  r_ds := 35; r_cs := 27; r_ss := 35 |}.
Lemma create_thread_ok (m : mem) (tcb entry stack : Z) :
  0 ≤ entry < 4294967296 → 0 ≤ stack < 4294967296 →
  ∃ m', native_create_thread m tcb entry stack = Ok m' ∧
    changes_only (tcb + tcb_exec_ctx) sizeof_ctx m m' ∧
    arch_return_to_user m' (tcb + tcb_exec_ctx) = user_regs entry stack.
Proof.
  intros He Hs. unfold native_create_thread.
  destruct (memset_ok (store32 (store32 (store32 (store32 (store32 (store32 m
    (tcb + tcb_exec_ctx + Ctx.esp) stack) (tcb + tcb_exec_ctx + Ctx.eip) entry)
    (tcb + tcb_exec_ctx + Ctx.ds) 35) (tcb + tcb_exec_ctx + Ctx.ss) 35)
    (tcb + tcb_exec_ctx + Ctx.cs) 27) (tcb + tcb_exec_ctx + Ctx.eflags)
    THREAD_DEFAULT_EFLAGS) (tcb + tcb_exec_ctx + Ctx.gp_regs) 0 sizeof_gp_regs
    ltac:(unfold sizeof_gp_regs; lia)) as (m' & -> & Hm').
  exists m'. split; [done|]. set (ctx := tcb + tcb_exec_ctx) in *.
  match type of Hm' with context [load8 (store32 ?m0 ?a ?v) _] =>
    set (m1 := store32 m0 a v) in * end.
  assert (Hz : ∀ o, 4 ≤ o ≤ 32 → load32 m' (ctx + o) = 0).
  { intros o Ho. rewrite (load32_ext m' ∅); [done|]. intros i Hi. rewrite Hm'.
    rewrite decide_True; [done|]. ctx_offs. unfold within. wrap_lia. }
  assert (Hch : changes_only (ctx + Ctx.gp_regs) sizeof_gp_regs m1 m').
  { intros x Hx. rewrite Hm'. rewrite decide_False by exact Hx. reflexivity. }
  assert (Hk : ∀ o, o = 0 ∨ 36 ≤ o ≤ 56 → load32 m' (ctx + o) = load32 m1 (ctx + o)).
  { intros o Ho. apply (changes_only_load32 _ _ _ _ _ Hch). ctx_offs.
    apply disj_off; wrap_lia. }
  split.
  - intros x Hx. rewrite Hch by (contradict Hx; ctx_offs; unfold within, sizeof_ctx in *; wrap_lia).
    subst m1. ctx_offs. unfold sizeof_ctx in *.
    rewrite !store32_out; [done|..]; contradict Hx; unfold within in *; wrap_lia.
  - unfold arch_return_to_user. rewrite !Hz by lia. rewrite !Hk by lia.
    replace (load32 m' ctx) with (load32 m' (ctx + 0)) by (by rewrite Z.add_0_r).
    rewrite (Hk 0) by lia. subst m1. ctx_offs.
    fields. unfold user_regs. f_equal; by apply u32_small.
Qed.

(** ** Properties *)

(** A thread prepared by native_create_thread enters user mode at its entry
    point with its stack pointer, user segments, interrupts enabled and all
    general registers zero; nothing outside its context is written. *)
Theorem create_thread_enters (m : mem) (tcb entry stack : Z) :
  0 ≤ entry < 4294967296 → 0 ≤ stack < 4294967296 →
  ∃ m', native_create_thread m tcb entry stack = Ok m' ∧
    changes_only (tcb + tcb_exec_ctx) sizeof_ctx m m' ∧
    arch_return_to_user m' (tcb + tcb_exec_ctx) = {|
      r_eax := 0; r_ebx := 0; r_ecx := 0; r_edx := 0; r_esi := 0; r_edi := 0; r_ebp := 0;
      r_eip := entry; r_esp := stack; r_eflags := 514;
      r_ds := 35; r_cs := 27; r_ss := 35 |}.
Proof. apply create_thread_ok. Qed.
Lemma create_thread_enters_witness :
  ∃ m', native_create_thread ∅ 4096 0x8048000 0x80000000 = Ok m' ∧
    r_eip (arch_return_to_user m' (4096 + tcb_exec_ctx)) = 0x8048000.
Proof.
  destruct (create_thread_enters ∅ 4096 0x8048000 0x80000000) as (m' & H1 & _ & H2).
  - lia.
  - lia.
  - exists m'. split; [exact H1|]. rewrite H2. reflexivity.
Defined.

(** C29. What a thread gets back when its context was saved by
    arch_update_exec_ctx and restored by arch_return_to_user: eip, esp, eflags,
    eax, esi and edi are the interrupted ones, but ebx, edx and ecx come back
    as the saved edx, ecx and ebx, and ebp is the one the context held before,
    as are the segment selectors. *)
Theorem save_restore_registers (s : thread_st) (irq : Z) (r : cpu_regs) :
  let ctx := current_thread_execution_ctx s in
  let old := arch_return_to_user (t_mem s) ctx in
  frame_apart ctx irq → irq_holds (t_mem s) irq r →
  arch_return_to_user (t_mem (arch_update_exec_ctx irq s)) ctx = {|
    r_eax := r_eax r; r_ebx := r_edx r; r_ecx := r_ebx r; r_edx := r_ecx r;
    r_esi := r_esi r; r_edi := r_edi r; r_ebp := r_ebp old;
    r_eip := r_eip r; r_esp := r_esp r; r_eflags := r_eflags r;
    r_ds := r_ds old; r_cs := r_cs old; r_ss := r_ss old |}.
Proof. apply save_restore_fields. Qed.
Definition demo_thread : thread_st :=
  ThreadSt (store32 (store32 ∅ (8192 + Irq.ebx) 11) (8192 + Irq.ebp) 22) 4120 0 [].
Lemma save_restore_registers_witness :
  let r' := arch_return_to_user (t_mem (arch_update_exec_ctx 8192 demo_thread)) 4120 in
  r_ebx r' = 0 ∧ r_ecx r' = 11 ∧ r_ebp r' = 0.
Proof.
  pose proof (save_restore_registers demo_thread 8192
    (CpuRegs 0 11 0 0 0 0 22 0 0 0 0 0 0)) as H.
  cbv zeta in H. change (current_thread_execution_ctx demo_thread) with 4120 in H.
  cbv zeta. rewrite H.
  - split; [reflexivity|]. split; vm_compute; reflexivity.
  - apply disj_linear; unfold sizeof_ctx, sizeof_irq; lia.
  - repeat split; vm_compute; reflexivity.
Defined.
