(* ===== verification/KInfo.v ===== *)
(** * KInfo: the boot information structure of include/arch/info.h

    What the bootstrap code hands to the kernel: the memory map, the loaded
    modules and the ranges it uses. *)

From S2P Require Import Prelude Machine.

Definition NO_MEMMAPS : Z := 20.
Definition NO_MODULES : Z := 5.
Definition MAX_MODULE_NAME_LEN : Z := 32.

(** conf.h *)
Definition CONF_KHEAP_SIZE : Z := 0x1000000.

(** include/arch/multiboot.h *)
Definition MULTIBOOT_MEMORY_AVAILABLE : Z := 1.

(** struct multiboot_mmap_entry; addr and len are 64 bits wide *)
Record mmap_entry := MmapEntry { mm_addr : Z; mm_len : Z; mm_type : Z; mm_zero : Z }.

Record boot_module := BootModule {
  start_paddr : Z;
  end_paddr : Z;
  start_vaddr : Z;
  mod_name : list Z;
}.

(** phys_mem_range_t and mem_range_t *)
Record mem_range := MemRange { range_start : Z; range_end : Z }.

Record kernel_info_t := KernelInfo {
  memmaps : list mmap_entry;
  no_mmaps : Z;
  mem_upper : Z;
  modules : list boot_module;
  no_modules : Z;
  kernel_phys_range : mem_range;
  boot_module_phys_range : mem_range;
  kheap_phys_range : mem_range;
  bootstrap_memory_phys_range : mem_range;
  kheap_range : mem_range;
  kernel_high_vma : Z;
  kernel_size_bytes : Z;
  kernel_allocated_bytes_dynamic : Z;
}.

Definition with_memmaps (f : list mmap_entry → list mmap_entry) (k : kernel_info_t) :=
  KernelInfo (f (memmaps k)) (no_mmaps k) (mem_upper k) (modules k) (no_modules k)
    (kernel_phys_range k) (boot_module_phys_range k) (kheap_phys_range k)
    (bootstrap_memory_phys_range k) (kheap_range k) (kernel_high_vma k)
    (kernel_size_bytes k) (kernel_allocated_bytes_dynamic k).
Definition with_bootstrap_range (r : mem_range) (k : kernel_info_t) :=
  KernelInfo (memmaps k) (no_mmaps k) (mem_upper k) (modules k) (no_modules k)
    (kernel_phys_range k) (boot_module_phys_range k) (kheap_phys_range k)
    r (kheap_range k) (kernel_high_vma k)
    (kernel_size_bytes k) (kernel_allocated_bytes_dynamic k).
Definition with_kheap_range (r : mem_range) (k : kernel_info_t) :=
  KernelInfo (memmaps k) (no_mmaps k) (mem_upper k) (modules k) (no_modules k)
    (kernel_phys_range k) (boot_module_phys_range k) (kheap_phys_range k)
    (bootstrap_memory_phys_range k) r (kernel_high_vma k)
    (kernel_size_bytes k) (kernel_allocated_bytes_dynamic k).
