(* ===== verification/Exec.v ===== *)
(** * Exec: what the paging code and the module loader share

    include/exec.h and the program header flags of include/sys/elf_base.h. *)

From S2P Require Import Prelude.

Definition PAGE_ALLOCATE : Z := 0.
Definition PF_X : Z := 0x1.
Definition PF_W : Z := 0x2.
Definition PF_R : Z := 0x4.
