(* ===== verification/Paging.v ===== *)
(** * Paging: the bootstrap paging routines of arch/i686/paging_utils.c

    The routines walk and build page directories and page tables through
    pointers. The model's memory is the physical memory: an access to a frame
    reaches it under the identity mappings set up before, an access to one of
    the kernel's own tables through the kernel's mapping at K_HIGH_VMA. What the
    structures mean is the walk the i686 memory management unit performs. *)

From S2P Require Import Prelude Machine CString ArchPaging KInfo Exec.

(** ** Constants (kmem.h) *)

Definition KMAP_PROT_NONE : Z := 0x0.
Definition KMAP_PROT_READ : Z := 0x1.
Definition KMAP_PROT_WRITE : Z := 0x2.
Definition KMAP_PROT_USER : Z := 0x4.
Definition KMAP_PROT_EXEC : Z := 0x8.
Definition sizeof_page_table : Z := 4096.

(** exec_info_t without the callbacks, which clients pass on their own;
    [is_kernel] is the comparison with [&k_exec_info]. *)
Record exec_info := ExecInfo {
  page_directory_of : Z;
  main_thread_stack_top : Z;
  is_kernel : bool;
}.

(** The memory, what [kinfo] points to and the writes to %cr3. *)
Record paging_st := PagingSt {
  p_mem : mem;
  p_kinfo : kernel_info_t;
  p_cr3 : list Z;
}.
Definition p_with_mem (f : mem → mem) (s : paging_st) : paging_st :=
  PagingSt (f (p_mem s)) (p_kinfo s) (p_cr3 s).
Definition p_with_kinfo (f : kernel_info_t → kernel_info_t) (s : paging_st) : paging_st :=
  PagingSt (p_mem s) (f (p_kinfo s)) (p_cr3 s).
Definition load_pagedir (pd : Z) (s : paging_st) : paging_st :=
  PagingSt (p_mem s) (p_kinfo s) (u32 pd :: p_cr3 s).

Abbreviation P := (M paging_st).

Definition entry (table i : Z) : Z := table + 4 * i.

(** Page directories have 1024 entries. *)
Definition in_table (i : Z) : P unit :=
  if i <? 1024 then mret tt else ub "page directory index out of range".

(** ** Frames *)

(** paging_utils.c:38: the two counters are 64 bits wide, a frame address 32 *)
Definition bootstrap_fetch_page (debug : bool) : P Z :=
  maps ← gets (λ s, memmaps (p_kinfo s));
  match maps with
  | [] => ub "empty memory map"
  | e :: rest =>
      let page := u32 (mm_addr e) in
      _ ← ASSERT debug (mm_len e >? ARCH_PAGE_SIZE);
      _ ← modify (p_with_kinfo (with_memmaps (λ _,
            MmapEntry (u64 (mm_addr e + ARCH_PAGE_SIZE)) (u64 (mm_len e - ARCH_PAGE_SIZE))
              (mm_type e) (mm_zero e) :: rest)));
      mret page
  end.

(** paging_utils.c:48 *)
Definition bootstrap_create_page_dir (debug : bool) : P Z := bootstrap_fetch_page debug.

(** paging_utils.c:53 *)
Definition bootstrap_init_kinfo (info : kernel_info_t) : P unit :=
  modify (p_with_kinfo (λ _, info)).

(** ** bootstrap_mmap *)

(** The flags of the new entries (paging_utils.c:152-164) *)
Definition mmap_flags (flags : Z) : Z :=
  let wr := Z.land flags KMAP_PROT_WRITE in
  let rd := Z.land flags KMAP_PROT_READ in
  let usr := Z.land flags KMAP_PROT_USER in
  if (rd =? 0) && (wr =? 0) then 0
  else if negb (flags =? KMAP_PROT_NONE) then
    Z.lor (Z.lor ARCH_PAGE_PRESENT (ARCH_PAGE_RW * c_bool (c_true wr)))
      (ARCH_PAGE_ENTRY_USER * c_bool (c_true usr))
  else 0.

(** The number of page tables the first loop visits (paging_utils.c:169-172) *)
Definition mmap_tables (m : mem) (pd vaddr size : Z) : Z :=
  let current_pt := Z.land (load32 m (entry pd (arch_get_pt_offset vaddr ARCH_PD_1)))
                      ARCH_PAGE_MASK in
  let current_pt_overflow :=
    if arch_get_pt_offset vaddr ARCH_PD_0 ⊞ size / ARCH_PAGE_SIZE >? 1024 then 1 else 0 in
  size / ARCH_PT_ADDRESSABLE_BYTES ⊞ current_pt_overflow ⊞
    (if current_pt =? NULL then 1 else 0).

(** One round of the first loop (paging_utils.c:175) *)
Definition mmap_table (debug : bool) (info : exec_info) (pd_offset i : Z) : P unit :=
  let pd := page_directory_of info in
  _ ← in_table (pd_offset + i);
  e ← gets (λ s, load32 (p_mem s) (entry pd (pd_offset + i)));
  if e =? 0 then
    pt ← bootstrap_fetch_page debug;
    if pt =? 0 then panic "Out of free frames"
    else
      m ← gets p_mem;
      '(_, m) ← lift (memset m pt 0 ARCH_PAGE_SIZE);
      modify (p_with_mem (λ _, store32 m (entry pd (pd_offset + i))
        (Z.lor (Z.land pt ARCH_PAGE_MASK)
           (Z.lor (Z.lor ARCH_PD_ENTRY_PRESENT ARCH_PD_ENTRY_RW)
              (if is_kernel info then 0 else ARCH_PD_ENTRY_USER)))))
  else mret tt.

(** One round of the second loop (paging_utils.c:189); the directory index and
    the table found for it are carried along *)
Definition mmap_page (debug : bool) (pd paddr vaddr pg_flags offset : Z)
    (cur : Z * Z) : P (Z * Z) :=
  let '(pd_offset, current_pt) := cur in
  let vaddr_pd_offset := arch_get_pt_offset (vaddr ⊞ offset) ARCH_PD_1 in
  '(pd_offset, current_pt) ←
    (if negb (pd_offset =? vaddr_pd_offset) then
       pt ← gets (λ s, Z.land (load32 (p_mem s) (entry pd vaddr_pd_offset)) ARCH_PAGE_MASK);
       mret (vaddr_pd_offset, pt)
     else mret (pd_offset, current_pt));
  let pt_offset := arch_get_pt_offset (vaddr ⊞ offset) ARCH_PD_0 in
  e ← gets (λ s, load32 (p_mem s) (entry current_pt pt_offset));
  frame_addr ← (if c_true e then mret (Z.land e ARCH_PAGE_MASK)
                else if paddr =? PAGE_ALLOCATE then bootstrap_fetch_page debug
                else mret (paddr ⊞ offset));
  _ ← modify (p_with_mem (λ m, store32 m (entry current_pt pt_offset)
        (Z.lor (Z.land frame_addr PAGE_MASK) pg_flags)));
  mret (pd_offset, current_pt).

(** The second loop, over the offsets it visits. *)
Fixpoint mmap_pages (debug : bool) (pd paddr vaddr pg_flags : Z) (offsets : list Z)
    (cur : Z * Z) : P (Z * Z) :=
  match offsets with
  | [] => mret cur
  | offset :: offsets' =>
      cur ← mmap_page debug pd paddr vaddr pg_flags offset cur;
      mmap_pages debug pd paddr vaddr pg_flags offsets' cur
  end.

(** offset = 0, 4096, ... while offset < size (for sizes up to 0xFFFFF000, beyond
    which the 32-bit offset wraps) *)
Definition mmap_offsets (size : Z) : list Z :=
  Z.mul ARCH_PAGE_SIZE <$> seqZ 0 ((size + ARCH_PAGE_SIZE - 1) / ARCH_PAGE_SIZE).

(** paging_utils.c:145 *)
Definition bootstrap_mmap (debug : bool) (info : exec_info) (paddr vaddr size flags : Z)
    : P Z :=
  _ ← ASSERT debug (vaddr mod ARCH_PAGE_SIZE =? 0);
  _ ← ASSERT debug (paddr mod ARCH_PAGE_SIZE =? 0);
  _ ← ASSERT debug (size mod ARCH_PAGE_SIZE =? 0);
  let pg_flags := mmap_flags flags in
  let pd := page_directory_of info in
  no_page_tables ← gets (λ s, mmap_tables (p_mem s) pd vaddr size);
  let pd_offset := arch_get_pt_offset vaddr ARCH_PD_1 in
  _ ← mfor (seqZ 0 no_page_tables) (mmap_table debug info pd_offset);
  current_pt ← gets (λ s, Z.land (load32 (p_mem s) (entry pd pd_offset)) ARCH_PAGE_MASK);
  _ ← mmap_pages debug pd paddr vaddr pg_flags (mmap_offsets size) (pd_offset, current_pt);
  mret 0.

(** paging_utils.c:207 *)
Definition elf_prot (flags : Z) : Z :=
  let exec := Z.land flags PF_X in
  let rd := Z.land flags PF_R in
  let wr := Z.land flags PF_W in
  Z.lor (Z.lor (Z.lor (KMAP_PROT_EXEC * c_bool (c_true exec))
                  (KMAP_PROT_READ * c_bool (c_true rd)))
           (KMAP_PROT_WRITE * c_bool (c_true wr))) KMAP_PROT_USER.
Definition bootstrap_elf_mmap (debug : bool) (info : exec_info) (paddr vaddr size flags : Z)
    : P Z :=
  bootstrap_mmap debug info paddr vaddr size (elf_prot flags).

(** paging_utils.c:224: an empty callback *)
Definition bootstrap_elf_on_load (info : exec_info) : P unit := mret tt.

(** ** The mappings set up at boot *)

Section boot_tables.
(** Where the linker puts the directories and tables of the .ktable section,
    and the symbol K_HIGH_VMA. *)
Context (boot_page_directory page_directory kernel_pt bootstrap_pt module_bootstrap_pt : Z)
  (K_HIGH_VMA : Z).

(** The tables that early.c builds map the kernel's image at K_HIGH_VMA to
    physical addresses from 0 on (see EarlyMain): an access to a symbol of the
    image reaches this address. *)
Definition kphys (symbol : Z) : Z := symbol ⊟ K_HIGH_VMA.

(** paging_utils.c:24; the directory as the memory has it *)
Definition k_exec_info : exec_info := ExecInfo (kphys page_directory) 0 true.

(** paging_utils.c:58 and 64 *)
Definition bootstrap_load_boot_mappings : P unit :=
  vma ← gets (λ s, kernel_high_vma (p_kinfo s));
  modify (load_pagedir (boot_page_directory ⊟ vma)).
Definition bootstrap_load_kernel_mappings : P unit :=
  vma ← gets (λ s, kernel_high_vma (p_kinfo s));
  modify (load_pagedir (page_directory ⊟ vma)).

(** The identity mapping of [addr, addr_end) in a table, from entry [i] on: the
    loops of paging_utils.c:100, 129 and 138 *)
Definition identity_map (m : mem) (table addr addr_end i : Z) : outcome mem :=
  '(m, _, _) ← while_loop
    (λ '(m, addr, i), addr <? addr_end)
    (λ '(m, addr, i),
       if i <? 1024 then
         Ok (store32 m (entry table i)
               (Z.lor (Z.land addr ARCH_PAGE_MASK) (Z.lor ARCH_PAGE_PRESENT ARCH_PAGE_RW)),
             addr ⊞ PAGE_SIZE, i ⊞ 1)
       else UB "page table index out of range")
    (m, addr, i);
  Ok m.

(** paging_utils.c:83-92: eight pages and its own size rounded up per module *)
Definition bootstrap_end (mods : list boot_module) (phys_start : Z) : Z :=
  foldl (λ phys_end md,
    let module_size := end_paddr md ⊟ start_paddr md in
    phys_end ⊞ ARCH_PAGE_SIZE * 8 ⊞ (Z.land module_size ARCH_PAGE_MASK ⊞ ARCH_PAGE_SIZE))
    phys_start mods.

(** The modules the loops visit; reading past the array is undefined. *)
Definition visited_modules (info : kernel_info_t) : outcome (list boot_module) :=
  if no_modules info <=? Z.of_nat (length (modules info))
  then Ok (take (Z.to_nat (no_modules info)) (modules info))
  else UB "modules index out of range".

(** paging_utils.c:72 *)
Definition bootstrap_identity_map_init_mem (debug : bool) (info : kernel_info_t) : P unit :=
  match memmaps info with
  | [] => ub "empty memory map"
  | e :: _ =>
      let phys_start := u32 (mm_addr e) in
      _ ← modify (p_with_kinfo (λ _, info));
      _ ← ASSERT debug (phys_start mod ARCH_PAGE_SIZE =? 0);
      m ← gets p_mem;
      '(_, m) ← lift (memcpy m (kphys boot_page_directory) (kphys page_directory) sizeof_page_table);
      mods ← lift (visited_modules info);
      let phys_end := bootstrap_end mods phys_start in
      '(_, m) ← lift (memset m (kphys module_bootstrap_pt) 0 sizeof_page_table);
      m ← lift (identity_map m (kphys module_bootstrap_pt) phys_start phys_end
                  (Z.shiftr (Z.land phys_start ARCH_VADDR_PT_OFFSET_MASK)
                     ARCH_VADDR_PT_OFFSET));
      _ ← modify (p_with_kinfo (with_bootstrap_range (MemRange phys_start phys_end)));
      let pd_phys := boot_page_directory ⊟ kernel_high_vma info in
      let pd_offset := arch_get_pt_offset phys_start ARCH_PD_1 in
      let module_bootstrap_pt_phys := module_bootstrap_pt ⊟ kernel_high_vma info in
      let m := store32 m (entry (kphys boot_page_directory) pd_offset)
                 (Z.lor (Z.land module_bootstrap_pt_phys ARCH_PAGE_MASK)
                    (Z.lor ARCH_PD_ENTRY_PRESENT ARCH_PD_ENTRY_RW)) in
      _ ← modify (p_with_mem (λ _, m));
      modify (load_pagedir pd_phys)
  end.

(** The loop over the modules in bootstrap_map_boot_modules *)
Fixpoint map_modules (m : mem) (mods : list boot_module) : outcome mem :=
  match mods with
  | [] => Ok m
  | md :: mods' =>
      m ← identity_map m (kphys bootstrap_pt) (start_paddr md) (end_paddr md)
            (Z.shiftr (Z.land (start_paddr md) ARCH_VADDR_PT_OFFSET_MASK)
               ARCH_VADDR_PT_OFFSET);
      map_modules m mods'
  end.

(** paging_utils.c:116 *)
Definition bootstrap_map_boot_modules : P unit :=
  info ← gets p_kinfo;
  let bootstrap_pt_phys := bootstrap_pt ⊟ kernel_high_vma info in
  let kernel_pd_offset := Z.shiftr (Z.land K_HIGH_VMA ARCH_VADDR_PD_OFFSET_MASK)
                            ARCH_VADDR_PD_OFFSET in
  let rw := Z.lor ARCH_PD_ENTRY_PRESENT ARCH_PD_ENTRY_RW in
  _ ← modify (p_with_mem (λ m, store32 m (entry (kphys page_directory) kernel_pd_offset)
        (Z.lor (Z.land (kernel_pt ⊟ K_HIGH_VMA) PAGE_MASK) rw)));
  _ ← modify (p_with_mem (λ m, store32 m (entry (kphys page_directory) 0)
        (Z.lor (Z.land bootstrap_pt_phys ARCH_PAGE_MASK) rw)));
  m ← gets p_mem;
  '(_, m) ← lift (memset m (kphys bootstrap_pt) 0 sizeof_page_table);
  m ← lift (identity_map m (kphys bootstrap_pt) 0 0x100000 0);
  mods ← lift (visited_modules info);
  m ← lift (map_modules m mods);
  modify (p_with_mem (λ _, m)).

(** paging_utils.c:233 *)
Definition kmap (debug : bool) (vaddr paddr size flags : Z) : P Z :=
  bootstrap_mmap debug k_exec_info paddr vaddr size flags.
End boot_tables.

(** ** The memory management unit

    A two-level walk: the directory entry, then the table entry, both of which
    must be present; the result is the physical page and the table entry's
    flags. *)
Definition mmu_walk (m : mem) (pd v : Z) : option (Z * Z) :=
  let pde := load32 m (entry pd (v / 1024)) in
  if Z.testbit pde 0 then
    let pte := load32 m (entry (Z.land pde ARCH_PAGE_MASK) (v mod 1024)) in
    if Z.testbit pte 0 then Some (Z.land pte ARCH_PAGE_MASK, pte mod 4096) else None
  else None.
