(* ===== verification/PagingInv.v ===== *)
(** * PagingInv: what bootstrap_mmap does to the page tables

    Two phases: the missing page tables of the range are allocated, then each
    page's entry is written. The lemmas describe each phase on the directory
    and table entries and on the translation of the memory management unit. *)

From S2P Require Import Prelude Machine CString ArchPaging KInfo Exec Paging.

(** ** Entries of directories and tables *)

Section walk.
Context (pd : Z).

Definition pde (m : mem) (i : Z) : Z := load32 m (entry pd i).
Definition table (m : mem) (i : Z) : Z := Z.land (pde m i) ARCH_PAGE_MASK.
(** The table entry of virtual page [v]. *)
Definition pte (m : mem) (v : Z) : Z := load32 m (entry (table m (v / 1024)) (v mod 1024)).

Lemma table_page m i :
  table m i mod 4096 = 0 ∧ 0 ≤ table m i ∧ table m i + 4096 ≤ 4294967296.
Proof.
  unfold table. rewrite land_page_mask. pose proof (u32_range (pde m i)).
  Z.to_euclidean_division_equations. lia.
Qed.

(** The supply of free frames: [n] of them from address [A] on. *)
Record supply (s : paging_st) (A n : Z) : Prop := {
  sup_entry : ∃ e rest, memmaps (p_kinfo s) = e :: rest ∧ mm_addr e = A ∧
    4096 * n < mm_len e < 18446744073709551616;
  sup_addr : 0 < A ∧ A mod 4096 = 0 ∧ A + 4096 * n ≤ 4294967296 ∧ 0 ≤ n;
}.

Lemma fetch_ok debug s A n :
  supply s A n → 0 < n →
  ∃ s', bootstrap_fetch_page debug s = Ok (A, s') ∧ p_mem s' = p_mem s ∧
    p_cr3 s' = p_cr3 s ∧ supply s' (A + 4096) (n - 1).
Proof.
  intros [(e & rest & He & <- & Hlen) (H0 & Hm & Hend & Hn)] Hpos.
  unfold bootstrap_fetch_page. mstep. rewrite He. unfold ARCH_PAGE_SIZE.
  assert (mm_len e >? 4096 = true) as -> by lia. rewrite andb_false_r. simpl.
  rewrite (u32_small (mm_addr e)) by lia. eexists. split; [done|]. simpl.
  split_and!; [done|done|]. split; simpl.
  - eexists _, rest. split; [done|]. simpl.
    rewrite !u64_small by lia. lia.
  - split_and!; [lia| |lia|lia]. Z.to_euclidean_division_equations. lia.
Qed.

(** The directory entries [d0, d0 + k) and the supply [lo, hi) are usable:
    tables that exist are present, different, and overlap neither the directory
    nor the supply. *)
Record dir_ok (m : mem) (d0 k lo hi : Z) : Prop := {
  dir_pd : 0 ≤ pd ∧ pd + 4096 ≤ 4294967296 ∧ (pd + 4096 ≤ lo ∨ hi ≤ pd);
  dir_range : 0 ≤ d0 ∧ d0 + k ≤ 1024 ∧ 0 ≤ lo ≤ hi ∧ hi ≤ 4294967296;
  dir_tab : ∀ i, d0 ≤ i < d0 + k → pde m i ≠ 0 →
    Z.testbit (pde m i) 0 = true ∧
    (table m i + 4096 ≤ pd ∨ pd + 4096 ≤ table m i) ∧
    (table m i + 4096 ≤ lo ∨ hi ≤ table m i);
  dir_inj : ∀ i j, d0 ≤ i < d0 + k → d0 ≤ j < d0 + k → pde m i ≠ 0 → pde m j ≠ 0 →
    i ≠ j → table m i + 4096 ≤ table m j ∨ table m j + 4096 ≤ table m i;
}.

(** ** One new page table *)

Definition pde_flags (kernel : bool) : Z := if kernel then 3 else 7.

Lemma lor_page_flags f g :
  0 ≤ f < 4294967296 → f mod 4096 = 0 → 0 ≤ g < 4096 →
  Z.lor f g = f + g.
Proof.
  intros Hf Hm Hg. symmetry. apply Z.add_nocarry_lor. apply Z.bits_inj'. intros n Hn.
  rewrite Z.land_spec, Z.bits_0. destruct (Z.lt_ge_cases n 12) as [H|H].
  - replace f with (f / 4096 * 2 ^ 12) by (change (2 ^ 12) with 4096;
      Z.to_euclidean_division_equations; lia).
    by rewrite Z.mul_pow2_bits_low.
  - rewrite <-(Z.mod_small g (2 ^ 12)) by (change (2 ^ 12) with 4096; lia).
    rewrite Z.mod_pow2_bits_high by lia. apply andb_false_r.
Qed.

(** An entry made of a page address and flags. *)
Lemma entry_parts f g :
  0 ≤ f < 4294967296 → f mod 4096 = 0 → 0 ≤ g < 4096 →
  0 ≤ f + g < 4294967296 ∧ Z.land (f + g) ARCH_PAGE_MASK = f ∧ (f + g) mod 4096 = g ∧
  Z.testbit (f + g) 0 = Z.testbit g 0.
Proof.
  intros Hf Hm Hg. assert (f + 4096 ≤ 4294967296) by (Z.to_euclidean_division_equations; lia).
  split_and!; [lia|lia| | |].
  - rewrite land_page_mask, u32_small by lia. Z.to_euclidean_division_equations. lia.
  - Z.to_euclidean_division_equations. lia.
  - rewrite !Z.bit0_odd, Z.odd_add. rewrite <-Z.bit0_odd.
    replace f with (2 * (f / 4096 * 2048)) by (Z.to_euclidean_division_equations; lia).
    by rewrite Z.testbit_even_0.
Qed.

(** Entries of one page. *)
Lemma entry_disj t i u j :
  0 ≤ i < 1024 → 0 ≤ j < 1024 → 0 ≤ t → t + 4096 ≤ 4294967296 → 0 ≤ u →
  u + 4096 ≤ 4294967296 → t + 4096 ≤ u ∨ u + 4096 ≤ t ∨ (t = u ∧ i ≠ j) →
  disj (entry t i) 4 (entry u j) 4.
Proof. intros. unfold entry. apply disj_linear; lia. Qed.

(** The memory after a new table at [A] was entered for directory index [i]. *)
Definition new_table (m m' : mem) (i A f : Z) : Prop :=
  load32 m' (entry pd i) = A + f ∧
  (∀ j, 0 ≤ j < 1024 → load32 m' (entry A j) = 0) ∧
  (∀ x, ¬ within A 4096 x → ¬ within (entry pd i) 4 x → load8 m' x = load8 m x).

Lemma mmap_table_new debug info d0 i k s A n :
  pd = page_directory_of info → supply s A n → 0 < n →
  dir_ok (p_mem s) d0 k A (A + 4096 * n) → d0 ≤ d0 + i < d0 + k →
  pde (p_mem s) (d0 + i) = 0 →
  ∃ s', mmap_table debug info d0 i s = Ok (tt, s') ∧ supply s' (A + 4096) (n - 1) ∧
    p_cr3 s' = p_cr3 s ∧
    new_table (p_mem s) (p_mem s') (d0 + i) A (pde_flags (is_kernel info)).
Proof.
  intros Epd Hsup Hn Hdir Hi Hz. destruct (fetch_ok debug s A n Hsup Hn) as (s1 & Hf & Em & Ec & Hsup1).
  destruct Hsup as [_ (HA0 & HAm & HAe & _)]. destruct Hdir as [Hpd Hr _ _].
  destruct (memset_ok (p_mem s1) A 0 4096 ltac:(lia)) as (m2 & Hset & Hm2).
  unfold mmap_table, in_table. mstep. rewrite (proj2 (Z.ltb_lt _ _)) by lia.
  rewrite <-Epd. unfold pde in Hz. rewrite Hz, Z.eqb_refl, Hf.
  rewrite (proj2 (Z.eqb_neq A 0)) by lia. unfold ARCH_PAGE_SIZE. rewrite Hset.
  eexists. split; [done|]. simpl. split; [|split; [done|]].
  { destruct Hsup1 as [H1 H2]. by split. }
  assert (Hval : Z.lor (Z.land A ARCH_PAGE_MASK) (Z.lor (Z.lor ARCH_PD_ENTRY_PRESENT ARCH_PD_ENTRY_RW)
    (if is_kernel info then 0 else ARCH_PD_ENTRY_USER)) = A + pde_flags (is_kernel info)).
  { rewrite land_page_mask_aligned by lia. unfold pde_flags.
    destruct (is_kernel info).
    - change (Z.lor (Z.lor ARCH_PD_ENTRY_PRESENT ARCH_PD_ENTRY_RW) 0) with 3.
      apply lor_page_flags; lia.
    - change (Z.lor (Z.lor ARCH_PD_ENTRY_PRESENT ARCH_PD_ENTRY_RW) ARCH_PD_ENTRY_USER) with 7.
      apply lor_page_flags; lia. }
  rewrite Hval. unfold pde_flags. split_and!.
  - rewrite load32_store32_eq. apply u32_small. destruct (is_kernel info);
      Z.to_euclidean_division_equations; lia.
  - intros j Hj. rewrite load32_store32_disj by (apply entry_disj; lia).
    rewrite (load32_ext m2 ∅); [done|]. intros b Hb. rewrite Hm2.
    rewrite decide_True; [done|]. unfold within, entry. wrap_lia.
  - intros x Hx1 Hx2. rewrite store32_out by done. rewrite Hm2, decide_False by done.
    by rewrite Em.
Qed.

Lemma mmap_table_old debug info d0 i k s A n :
  pd = page_directory_of info → dir_ok (p_mem s) d0 k A (A + 4096 * n) →
  d0 ≤ d0 + i < d0 + k → pde (p_mem s) (d0 + i) ≠ 0 →
  mmap_table debug info d0 i s = Ok (tt, s).
Proof.
  intros Epd [_ Hr _ _] Hi Hnz. unfold mmap_table, in_table. mstep.
  rewrite (proj2 (Z.ltb_lt _ _)) by lia. rewrite <-Epd. unfold pde in Hnz.
  by rewrite (proj2 (Z.eqb_neq _ 0)) by done.
Qed.

(** ** All page tables of the range *)

(** Entry [q] of the table of directory index [j]. *)
Definition tent (m : mem) (j q : Z) : Z := load32 m (entry (table m j) q).

Lemma new_table_effect m m' d0 k i A hi f :
  dir_ok m d0 k A hi → A + 4096 ≤ hi → A mod 4096 = 0 → d0 ≤ i < d0 + k →
  pde m i = 0 → 0 < f < 4096 → Z.testbit f 0 = true → new_table m m' i A f →
  dir_ok m' d0 k (A + 4096) hi ∧
  (∀ j, d0 ≤ j < d0 + k → pde m' j = if decide (j = i) then A + f else pde m j) ∧
  (∀ q, 0 ≤ q < 1024 → tent m' i q = 0) ∧ table m' i = A ∧
  (∀ j q, d0 ≤ j < d0 + k → 0 ≤ q < 1024 → pde m j ≠ 0 → tent m' j q = tent m j q).
Proof.
  intros Hdir HA Hmod Hi Hz Hf Hb (He & Hzero & Hout).
  pose proof Hdir as [Hpd Hr Htab Hinj].
  assert (Hpde : ∀ j, d0 ≤ j < d0 + k → pde m' j = if decide (j = i) then A + f else pde m j).
  { intros j Hj. unfold pde. case_decide as E; [by subst|]. apply load32_ext. intros b Hb'.
    apply Hout; unfold within, entry; wrap_lia. }
  assert (Hold : ∀ j q, d0 ≤ j < d0 + k → 0 ≤ q < 1024 → pde m j ≠ 0 → tent m' j q = tent m j q).
  { intros j q Hj Hq Hnz. assert (j ≠ i) by congruence. unfold tent.
    assert (table m' j = table m j) as ->.
    { unfold table. by rewrite Hpde, decide_False. }
    pose proof (table_page m j) as (Ht1 & Ht2 & Ht3). destruct (Htab j Hj Hnz) as (_ & Hd1 & Hd2).
    apply load32_ext. intros b Hb'. apply Hout; unfold within, entry; wrap_lia. }
  assert (Hti : table m' i = A).
  { unfold table. rewrite Hpde, decide_True by done.
    apply (entry_parts A f); lia. }
  assert (Htj : ∀ j, d0 ≤ j < d0 + k → j ≠ i → table m' j = table m j).
  { intros j Hj Hne. unfold table. by rewrite Hpde, decide_False. }
  split_and!; try done.
  - constructor.
    + lia.
    + lia.
    + intros j Hj Hnz. rewrite Hpde in * by done. case_decide as E.
      * subst j. rewrite Hti. split; [|lia].
        destruct (entry_parts A f ltac:(lia) Hmod ltac:(lia)) as (_ & _ & _ & ->). done.
      * rewrite Htj by done. destruct (Htab j Hj Hnz) as (H1 & H2 & H3). split_and!; [done|lia|lia].
    + intros j l Hj Hl Hnj Hnl Hne. rewrite Hpde in Hnj, Hnl by done.
      destruct (decide (j = i)) as [->|Hji], (decide (l = i)) as [->|Hli];
        rewrite ?Hti, ?Htj by done.
      * done.
      * destruct (Htab l Hl Hnl) as (_ & _ & H3). pose proof (table_page m l). lia.
      * destruct (Htab j Hj Hnj) as (_ & _ & H3). pose proof (table_page m j). lia.
      * by apply Hinj.
  - intros q Hq. unfold tent. rewrite Hti. by apply Hzero.
Qed.

(** After the first loop has visited the directory indices below [d0 + b]. *)
Record phase1 (m m' : mem) (d0 k b f : Z) : Prop := {
  ph_old : ∀ j, d0 ≤ j < d0 + k → pde m j ≠ 0 →
    pde m' j = pde m j ∧ ∀ q, 0 ≤ q < 1024 → tent m' j q = tent m j q;
  ph_new : ∀ j, d0 ≤ j < d0 + b → pde m j = 0 →
    pde m' j ≠ 0 ∧ pde m' j mod 4096 = f ∧ ∀ q, 0 ≤ q < 1024 → tent m' j q = 0;
  ph_rest : ∀ j, d0 + b ≤ j < d0 + k → pde m j = 0 → pde m' j = 0;
}.

(** What the first loop leaves alone: it writes directory entries and the [c]
    frames from [A] on that become tables. *)
Record fresh1 (m m' : mem) (d0 k b A c : Z) : Prop := {
  fr_out : ∀ x, ¬ within (entry pd d0) (4 * k) x → ¬ within A (4096 * c) x → load8 m' x = load8 m x;
  fr_tab : ∀ j, d0 ≤ j < d0 + b → pde m j = 0 → A ≤ table m' j ∧ table m' j + 4096 ≤ A + 4096 * c;
}.

(** The frames taken: one per missing table. *)
Definition missing (m : mem) (d0 b : Z) : Z :=
  Z.of_nat (length (filter (λ j, pde m j = 0) (seqZ d0 b))).

Lemma missing_step m d0 b :
  0 ≤ b → missing m d0 (b + 1) = missing m d0 b + (if decide (pde m (d0 + b) = 0) then 1 else 0).
Proof.
  intros Hb. unfold missing. rewrite seqZ_app by lia. rewrite filter_app, length_app.
  rewrite (seqZ_cons (d0 + b)), (seqZ_nil (Z.succ _)) by lia.
  case_decide as E; [rewrite filter_cons_True|rewrite filter_cons_False]; try done; simpl; lia.
Qed.
Lemma missing_range m d0 b : 0 ≤ b → 0 ≤ missing m d0 b ≤ b.
Proof.
  intros Hb. unfold missing. pose proof (length_filter (λ j, pde m j = 0) (seqZ d0 b)) as H.
  rewrite length_seqZ in H. lia.
Qed.

Lemma fresh1_new info s s1 s2 d0 k b A c n :
  supply s1 (A + 4096 * c) (n - c) →
  dir_ok (p_mem s1) d0 k (A + 4096 * c) (A + 4096 * c + 4096 * (n - c)) →
  0 ≤ c → c < n → d0 ≤ d0 + b < d0 + k →
  (∀ j, d0 ≤ j < d0 + k → pde (p_mem s2) j =
     if decide (j = d0 + b) then A + 4096 * c + pde_flags (is_kernel info) else pde (p_mem s1) j) →
  new_table (p_mem s1) (p_mem s2) (d0 + b) (A + 4096 * c) (pde_flags (is_kernel info)) →
  fresh1 (p_mem s) (p_mem s1) d0 k b A c →
  fresh1 (p_mem s) (p_mem s2) d0 k (b + 1) A (c + 1).
Proof.
  intros [_ (HA0 & HAm & HAe & _)] [Hpd Hr _ _] Hc Hcn Hb Hpde (_ & _ & Hout) [F1 F2]. constructor.
  - intros x X1 X2. rewrite Hout.
    + apply F1; [done|]. contradict X2. unfold within in *. wrap_lia.
    + contradict X2. unfold within in *. clear F1 F2 Hpde Hout. wrap_lia.
    + contradict X1. unfold within, entry in *. clear F1 F2 Hpde Hout. wrap_lia.
  - intros j Hj Hj0. unfold table. rewrite Hpde by lia. case_decide as E.
    + assert (Hf : 0 ≤ pde_flags (is_kernel info) < 4096) by (unfold pde_flags; destruct (is_kernel info); lia).
      destruct (entry_parts (A + 4096 * c) (pde_flags (is_kernel info))) as (_ & -> & _);
        [lia|done|done|lia].
    + destruct (F2 j ltac:(lia) Hj0). unfold table in *. lia.
Qed.

(** The first [t] of the [k] tables are visited. *)
Lemma mmap_tables_ok debug info d0 k t s A n (r : nat) : ∀ b s1,
  pd = page_directory_of info → 0 ≤ b → b + Z.of_nat r = t → t ≤ k → k ≤ n → A mod 4096 = 0 →
  let c := missing (p_mem s) d0 b in
  supply s1 (A + 4096 * c) (n - c) →
  dir_ok (p_mem s1) d0 k (A + 4096 * c) (A + 4096 * n) →
  phase1 (p_mem s) (p_mem s1) d0 k b (pde_flags (is_kernel info)) →
  fresh1 (p_mem s) (p_mem s1) d0 k b A c →
  p_cr3 s1 = p_cr3 s →
  let c' := missing (p_mem s) d0 t in
  ∃ s', mfor (seqZ b (Z.of_nat r)) (mmap_table debug info d0) s1 = Ok (tt, s') ∧
    supply s' (A + 4096 * c') (n - c') ∧
    dir_ok (p_mem s') d0 k (A + 4096 * c') (A + 4096 * n) ∧
    phase1 (p_mem s) (p_mem s') d0 k t (pde_flags (is_kernel info)) ∧
    fresh1 (p_mem s) (p_mem s') d0 k t A c' ∧
    p_cr3 s' = p_cr3 s.
Proof.
  induction r as [|r IH]; intros b s1 Epd Hb Hbr Htk Hkn HAm c Hsup Hdir Hph Hfr Hcr c'.
  { subst c c'. rewrite seqZ_nil by lia. assert (b = t) as -> by lia. exists s1. split_and!; done. }
  rewrite seqZ_cons by lia. replace (Z.pred (Z.of_nat (S r))) with (Z.of_nat r) by lia.
  replace (Z.succ b) with (b + 1) by lia. cbn [mfor]. mstep.
  pose proof (missing_range (p_mem s) d0 b Hb) as Hc. fold c in Hc.
  pose proof (missing_step (p_mem s) d0 b Hb) as Hstep. fold c in Hstep.
  assert (Hin : d0 ≤ d0 + b < d0 + k) by lia.
  replace (A + 4096 * n) with (A + 4096 * c + 4096 * (n - c)) in Hdir by lia.
  destruct (decide (pde (p_mem s) (d0 + b) = 0)) as [Hz|Hnz].
  - pose proof (ph_rest _ _ _ _ _ _ Hph (d0 + b) ltac:(lia) Hz) as Hz1.
    destruct (mmap_table_new debug info d0 b k s1 (A + 4096 * c) (n - c) Epd Hsup ltac:(lia)
      Hdir Hin Hz1) as (s2 & -> & Hsup2 & Hcr2 & Hnew).
    assert (Hff : 0 < pde_flags (is_kernel info) < 4096 ∧
                  Z.testbit (pde_flags (is_kernel info)) 0 = true)
      by (unfold pde_flags; by destruct (is_kernel info)).
    destruct (new_table_effect _ _ _ _ _ _ _ _ Hdir ltac:(lia)
      ltac:(clear -HAm; Z.to_euclidean_division_equations; lia) Hin Hz1 (proj1 Hff) (proj2 Hff) Hnew)
      as (Hdir2 & Hpde & Hzero & _ & Hold).
    apply (IH (b + 1) s2); try done; try lia.
    + rewrite Hstep. replace (A + 4096 * (c + 1)) with (A + 4096 * c + 4096) by lia.
      by replace (n - (c + 1)) with (n - c - 1) by lia.
    + rewrite Hstep. replace (A + 4096 * (c + 1)) with (A + 4096 * c + 4096) by lia.
      by replace (A + 4096 * n) with (A + 4096 * c + 4096 * (n - c)) by lia.
    + destruct Hph as [P1 P2 P3]. constructor.
      * intros j Hj Hj0. destruct (P1 j Hj Hj0) as [E1 E2]. rewrite Hpde by done.
        rewrite decide_False by congruence. split; [done|]. intros q Hq.
        rewrite Hold; [by apply E2|done|done|congruence].
      * intros j Hj Hj0. rewrite Hpde by lia. case_decide as E.
        -- subst j. destruct Hsup as [_ (HA0 & HAmod & HAe & _)].
           destruct (entry_parts (A + 4096 * c) (pde_flags (is_kernel info)))
             as (E1 & _ & E3 & _); [lia|done|lia|].
           split_and!; [lia|done|exact Hzero].
        -- destruct (P2 j ltac:(lia) Hj0) as (E1 & E2 & E3). split_and!; [done|done|].
           intros q Hq. rewrite Hold; [by apply E3|lia|done|done].
      * intros j Hj Hj0. rewrite Hpde, decide_False by lia. apply P3; [lia|done].
    + rewrite Hstep. eapply fresh1_new; eauto; lia.
    + congruence.
  - destruct (ph_old _ _ _ _ _ _ Hph (d0 + b) Hin Hnz) as [E _].
    rewrite (mmap_table_old debug info d0 b k s1 (A + 4096 * c) (n - c)) by (done || congruence).
    rewrite Z.add_0_r in Hstep.
    apply (IH (b + 1) s1); try done; try lia; rewrite ?Hstep; try done.
    + by replace (A + 4096 * n) with (A + 4096 * c + 4096 * (n - c)) by lia.
    + destruct Hph as [P1 P2 P3]. constructor; [done| |].
      * intros j Hj Hj0. apply P2; [|done]. assert (j ≠ d0 + b) by congruence. lia.
      * intros j Hj Hj0. apply P3; [lia|done].
    + destruct Hfr as [F1 F2]. constructor; [done|]. intros j Hj Hj0. apply F2; [|done].
      assert (j ≠ d0 + b) by congruence. lia.
Qed.

(** Tables that are there already need no visit. *)
Lemma missing_beyond m d0 t k :
  0 ≤ t ≤ k → (∀ i, d0 + t ≤ i < d0 + k → pde m i ≠ 0) → missing m d0 k = missing m d0 t.
Proof.
  intros Htk Hnz. unfold missing. replace k with (t + (k - t)) by lia.
  rewrite seqZ_app, filter_app, length_app by lia.
  assert (E : filter (λ j, pde m j = 0) (seqZ (d0 + t) (k - t)) = []).
  { apply filter_none, Forall_forall. intros i Hi%elem_of_seqZ. apply Hnz. lia. }
  rewrite E. simpl. lia.
Qed.
Lemma phase1_beyond m m' d0 t k f :
  (∀ i, d0 + t ≤ i < d0 + k → pde m i ≠ 0) → phase1 m m' d0 k t f → phase1 m m' d0 k k f.
Proof.
  intros Hnz [P1 P2 P3]. constructor; [done| |intros; lia].
  intros j Hj E. apply P2; [|done]. destruct (decide (d0 + t ≤ j)); [|lia].
  by destruct (Hnz j ltac:(lia)).
Qed.
Lemma fresh1_beyond m m' d0 t k A c :
  (∀ i, d0 + t ≤ i < d0 + k → pde m i ≠ 0) → fresh1 m m' d0 k t A c → fresh1 m m' d0 k k A c.
Proof.
  intros Hnz [F1 F2]. constructor; [done|].
  intros j Hj E. apply F2; [|done]. destruct (decide (d0 + t ≤ j)); [|lia].
  by destruct (Hnz j ltac:(lia)).
Qed.

(** ** The pages *)

Lemma pte_tent m v : pte m v = tent m (v / 1024) (v mod 1024).
Proof. done. Qed.

(** The pages among the first [j] from [v0] on that have no entry yet. *)
Definition unmapped (m : mem) (v0 j : Z) : Z :=
  Z.of_nat (length (filter (λ v, pte m v = 0) (seqZ v0 j))).
Lemma unmapped_step m v0 j :
  0 ≤ j → unmapped m v0 (j + 1) = unmapped m v0 j + (if decide (pte m (v0 + j) = 0) then 1 else 0).
Proof.
  intros Hb. unfold unmapped. rewrite seqZ_app by lia. rewrite filter_app, length_app.
  rewrite (seqZ_cons (v0 + j)), (seqZ_nil (Z.succ _)) by lia.
  case_decide as E; [rewrite filter_cons_True|rewrite filter_cons_False]; try done; simpl; lia.
Qed.
Lemma unmapped_range m v0 j : 0 ≤ j → 0 ≤ unmapped m v0 j ≤ j.
Proof.
  intros Hb. unfold unmapped. pose proof (length_filter (λ v, pte m v = 0) (seqZ v0 j)) as H.
  rewrite length_seqZ in H. lia.
Qed.

(** The frame page [v0 + j] gets: the one it has, the next free one, or the one
    asked for. *)
Definition frame_of (m : mem) (paddr A v0 j : Z) : Z :=
  if decide (pte m (v0 + j) = 0) then
    if paddr =? 0 then A + 4096 * unmapped m v0 j else paddr + 4096 * j
  else Z.land (pte m (v0 + j)) ARCH_PAGE_MASK.
(** How many frames the first [j] pages take. *)
Definition taken (m : mem) (paddr v0 j : Z) : Z :=
  if paddr =? 0 then unmapped m v0 j else 0.

(** Writing one table entry. *)
Lemma store_entry m d0 k lo hi i q w :
  dir_ok m d0 k lo hi → (∀ j, d0 ≤ j < d0 + k → pde m j ≠ 0) →
  d0 ≤ i < d0 + k → 0 ≤ q < 1024 → 0 ≤ w < 4294967296 →
  let m' := store32 m (entry (table m i) q) w in
  dir_ok m' d0 k lo hi ∧ (∀ j, d0 ≤ j < d0 + k → pde m' j = pde m j) ∧
  (∀ j q', d0 ≤ j < d0 + k → 0 ≤ q' < 1024 →
     tent m' j q' = if decide (j = i ∧ q' = q) then w else tent m j q').
Proof.
  intros Hdir Hnz Hi Hq Hw m'. pose proof Hdir as [Hpd Hr Htab Hinj].
  destruct (table_page m i) as (_ & Hti & Hti'). destruct (Htab i Hi (Hnz i Hi)) as (_ & Hd1 & _).
  assert (Hpde : ∀ j, d0 ≤ j < d0 + k → pde m' j = pde m j).
  { intros j Hj. subst m'. unfold pde. apply load32_store32_disj, entry_disj; lia. }
  assert (Htb : ∀ j, d0 ≤ j < d0 + k → table m' j = table m j).
  { intros j Hj. unfold table. by rewrite Hpde. }
  split_and!; [|done|].
  - constructor; [done|done| |].
    + intros j Hj Hj0. rewrite Htb, Hpde in * by done. by apply Htab.
    + intros j l Hj Hl Hj0 Hl0 Hne. rewrite !Htb, !Hpde in * by done. by apply Hinj.
  - intros j q' Hj Hq'. unfold tent. rewrite Htb by done. subst m'. case_decide as E.
    + destruct E as [-> ->]. rewrite load32_store32_eq. by apply u32_small.
    + destruct (table_page m j) as (_ & Htj & Htj'). apply load32_store32_disj, entry_disj; try lia.
      destruct (decide (i = j)) as [->|Hne].
      * right. right. split; [done|]. naive_solver.
      * destruct (Hinj i j Hi Hj (Hnz i Hi) (Hnz j Hj) Hne); lia.
Qed.

Lemma dir_ok_shrink m d0 k lo lo' hi :
  dir_ok m d0 k lo hi → lo ≤ lo' ≤ hi → dir_ok m d0 k lo' hi.
Proof.
  intros [H1 H2 H3 H4] Hlo. constructor; [lia|lia| |done].
  intros i Hi Hnz. destruct (H3 i Hi Hnz) as (? & ? & ?). split_and!; [done|lia|lia].
Qed.

Section pages.
Context (debug : bool) (paddr vaddr pg d0 k A hi : Z) (m1 : mem).
Context (Hv : 0 ≤ vaddr ∧ vaddr mod 4096 = 0) (Hp : 0 ≤ paddr ∧ paddr mod 4096 = 0)
  (Hpg : 0 ≤ pg < 4096) (HA : 0 < A ∧ A mod 4096 = 0).
Abbreviation v0 := (vaddr / 4096).
Context (Hd0 : d0 = v0 / 1024).

Record phase2 (m : mem) (j : Z) : Prop := {
  p2_dir : dir_ok m d0 k (A + 4096 * taken m1 paddr v0 j) hi;
  p2_pde : ∀ i, d0 ≤ i < d0 + k → pde m i = pde m1 i;
  p2_done : ∀ i, 0 ≤ i < j → pte m (v0 + i) = frame_of m1 paddr A v0 i + pg;
  p2_rest : ∀ v, d0 ≤ v / 1024 < d0 + k → v < v0 ∨ v0 + j ≤ v → pte m v = pte m1 v;
  p2_out : ∀ x, (∀ i, d0 ≤ i < d0 + k → ¬ within (table m1 i) 4096 x) → load8 m x = load8 m1 x;
}.

(** The value written is a frame address and flags. *)
Lemma frame_range j n :
  0 ≤ j → A + 4096 * n ≤ 4294967296 → (paddr ≠ 0 → paddr + 4096 * j < 4294967296) →
  (taken m1 paddr v0 (j + 1) ≤ n) →
  0 ≤ frame_of m1 paddr A v0 j < 4294967296 ∧ frame_of m1 paddr A v0 j mod 4096 = 0.
Proof using Hp HA Hpg.
  intros Hj Hn Hpe Ht. unfold frame_of, taken in *. pose proof (unmapped_range m1 v0 j Hj).
  pose proof (unmapped_step m1 v0 j Hj) as Hs. case_decide as E.
  - destruct (Z.eqb_spec paddr 0) as [E0|E0].
    + split; [lia|]. Z.to_euclidean_division_equations. lia.
    + specialize (Hpe E0). split; [lia|]. Z.to_euclidean_division_equations. lia.
  - rewrite land_page_mask. pose proof (u32_range (pte m1 (v0 + j))).
    Z.to_euclidean_division_equations. lia.
Qed.

Lemma page_index j :
  0 ≤ j → vaddr + 4096 * j < 4294967296 →
  arch_get_pt_offset (vaddr ⊞ 4096 * j) ARCH_PD_1 = (v0 + j) / 1024 ∧
  arch_get_pt_offset (vaddr ⊞ 4096 * j) ARCH_PD_0 = (v0 + j) mod 1024.
Proof using Hv.
  intros Hj Hlt. clear -Hv Hj Hlt. rewrite pd_index, pt_index, u32_small by lia.
  Z.to_euclidean_division_equations. lia.
Qed.

(** The frame of the page: the one it has, a new one or the one asked for *)
Lemma page_frame_ok s n j :
  let v := v0 + j in
  supply s (A + 4096 * taken m1 paddr v0 j) (n - taken m1 paddr v0 j) → 0 ≤ j →
  (paddr ≠ 0 → paddr + 4096 * j < 4294967296) → taken m1 paddr v0 (j + 1) ≤ n →
  ∃ s1, (if c_true (pte m1 v) then mret (Z.land (pte m1 v) ARCH_PAGE_MASK)
         else if paddr =? PAGE_ALLOCATE then bootstrap_fetch_page debug
         else mret (paddr ⊞ 4096 * j)) s = Ok (frame_of m1 paddr A v0 j, s1) ∧
    p_mem s1 = p_mem s ∧ p_cr3 s1 = p_cr3 s ∧
    supply s1 (A + 4096 * taken m1 paddr v0 (j + 1)) (n - taken m1 paddr v0 (j + 1)).
Proof using Hp.
  intros v Hsup Hj Hpe Hn. pose proof (unmapped_step m1 v0 j Hj) as Hus. fold v in Hus.
  unfold frame_of, taken, PAGE_ALLOCATE, c_true in *. fold v.
  destruct (decide (pte m1 v = 0)) as [E|E].
  - rewrite E. simpl. destruct (Z.eqb_spec paddr 0) as [E0|E0].
    + destruct (fetch_ok debug s _ _ Hsup ltac:(lia)) as (s1 & H1 & H2 & H3 & H4).
      exists s1. split_and!; try done. rewrite Hus.
      replace (A + 4096 * (unmapped m1 v0 j + 1)) with (A + 4096 * unmapped m1 v0 j + 4096) by lia.
      by replace (n - (unmapped m1 v0 j + 1)) with (n - unmapped m1 v0 j - 1) by lia.
    + exists s. specialize (Hpe E0). rewrite u32_small by lia. by split_and!.
  - rewrite (proj2 (Z.eqb_neq _ 0)) by done. exists s. simpl.
    rewrite Hus, Z.add_0_r. split_and!; done.
Qed.

(** Storing the entry of the page brings the loop one page further. *)
Lemma phase2_store m j :
  let v := v0 + j in
  let val := frame_of m1 paddr A v0 j + pg in
  phase2 m j → (∀ i, d0 ≤ i < d0 + k → pde m i ≠ 0) → 0 ≤ j → d0 ≤ v / 1024 < d0 + k →
  0 ≤ frame_of m1 paddr A v0 j < 4294967296 → frame_of m1 paddr A v0 j mod 4096 = 0 →
  A + 4096 * taken m1 paddr v0 (j + 1) ≤ hi →
  phase2 (store32 m (entry (table m1 (v / 1024)) (v mod 1024)) val) (j + 1).
Proof using Hpg HA Hd0.
  intros v val [Pd Ppde Pdone Prest Pout] Hnz Hj Hd Hf1 Hf2 Hhi.
  set (i := v / 1024) in *. set (q := v mod 1024) in *.
  assert (Hq : 0 ≤ q < 1024) by (apply Z.mod_pos_bound; lia).
  destruct (store_entry m d0 k _ hi i q val Pd Hnz Hd Hq) as (Sd & Spde & Stent).
  { subst val. apply (entry_parts (frame_of m1 paddr A v0 j) pg); lia. }
  assert (Et : table m i = table m1 i) by (unfold table; by rewrite Ppde). rewrite Et in *.
  assert (Hsame : ∀ w, w / 1024 = i ∧ w mod 1024 = q ↔ w = v).
  { intros w. subst i q. split; [|by intros ->].
    pose proof (Z.div_mod w 1024 ltac:(lia)). pose proof (Z.div_mod v 1024 ltac:(lia)). lia. }
  constructor.
  - eapply dir_ok_shrink; [exact Sd|]. pose proof (unmapped_range m1 v0 j Hj).
    pose proof (unmapped_step m1 v0 j Hj). unfold taken in *.
    destruct (paddr =? 0); [|lia]. case_decide; lia.
  - intros x Hx. rewrite Spde; auto.
  - intros x Hx. assert (Hx' : d0 ≤ (v0 + x) / 1024 < d0 + k).
    { clear -Hd Hx Hd0. subst i v. split; [subst d0; apply Z.div_le_mono; lia|].
      eapply Z.le_lt_trans; [|apply Hd]. apply Z.div_le_mono; lia. }
    rewrite pte_tent, Stent; [|done|apply Z.mod_pos_bound; lia].
    destruct (decide (x = j)) as [->|Hne]; [by rewrite decide_True by (by apply Hsame)|].
    rewrite decide_False by (rewrite Hsame; lia). rewrite <-pte_tent. apply Pdone. lia.
  - intros w Hw Hwr. rewrite pte_tent, Stent; [|done|apply Z.mod_pos_bound; lia].
    rewrite decide_False by (rewrite Hsame; lia). rewrite <-pte_tent. apply Prest; [done|lia].
  - intros x Hx. rewrite store32_out; [by apply Pout|]. specialize (Hx i Hd).
    contradict Hx. destruct (table_page m1 i) as (_ & Ht0 & Ht1).
    clear -Hx Hq Ht0 Ht1. unfold within, entry in *. wrap_lia.
Qed.

Lemma mmap_page_ok s n j d c :
  phase2 (p_mem s) j → (∀ i, d0 ≤ i < d0 + k → pde m1 i ≠ 0) →
  supply s (A + 4096 * taken m1 paddr v0 j) (n - taken m1 paddr v0 j) →
  hi = A + 4096 * n → 0 ≤ j → vaddr + 4096 * j < 4294967296 →
  (paddr ≠ 0 → paddr + 4096 * j < 4294967296) → taken m1 paddr v0 (j + 1) ≤ n →
  d0 ≤ (v0 + j) / 1024 < d0 + k → d0 ≤ d < d0 + k → c = table m1 d →
  ∃ s', mmap_page debug pd paddr vaddr pg (4096 * j) (d, c) s
        = Ok (((v0 + j) / 1024, table m1 ((v0 + j) / 1024)), s') ∧
    phase2 (p_mem s') (j + 1) ∧
    supply s' (A + 4096 * taken m1 paddr v0 (j + 1)) (n - taken m1 paddr v0 (j + 1)) ∧
    p_cr3 s' = p_cr3 s.
Proof using Hv Hp Hpg HA Hd0.
  intros P2 Hnz Hsup Ehi Hj Hve Hpe Hn Hd Hcd Hc. pose proof P2 as [Pd Ppde Pdone Prest Pout].
  destruct (page_index j Hj Hve) as [Ei1 Ei0].
  set (v := v0 + j) in *. set (i := v / 1024) in *. set (q := v mod 1024) in *.
  assert (Htab : ∀ x, d0 ≤ x < d0 + k → table (p_mem s) x = table m1 x).
  { intros x Hx. unfold table. by rewrite Ppde. }
  assert (He : load32 (p_mem s) (entry (table m1 i) q) = pte m1 v).
  { rewrite <-Prest by (fold i; lia). unfold pte. fold i q. by rewrite Htab. }
  destruct (frame_range j n Hj ltac:(destruct Pd; lia) Hpe Hn) as [Hf1 Hf2].
  destruct (page_frame_ok s n j Hsup Hj Hpe Hn) as (s1 & Hfr & Em & Ec & Hsup1). fold v in Hfr.
  pose proof (phase2_store (p_mem s) j P2 ltac:(intros x Hx; rewrite Ppde; auto) Hj Hd Hf1 Hf2
    ltac:(lia)) as P2'.
  exists (p_with_mem (λ _, store32 (p_mem s) (entry (table m1 i) q)
    (frame_of m1 paddr A v0 j + pg)) s1).
  split; [|split; [exact P2'|split; [|done]]].
  - assert (Hval : Z.lor (Z.land (frame_of m1 paddr A v0 j) PAGE_MASK) pg
                   = frame_of m1 paddr A v0 j + pg).
    { unfold PAGE_MASK. rewrite land_page_mask_aligned by done. by apply lor_page_flags. }
    unfold mmap_page. revert Hfr. mstep. intros Hfr. rewrite Ei1, Ei0. fold i q.
    destruct (Z.eqb_spec d i) as [Edi|Hne]; cbn [negb]; cbn beta iota.
    + subst d c. rewrite He, Hfr, Hval. unfold p_with_mem. by rewrite Em.
    + change (Z.land (load32 (p_mem s) (entry pd i)) ARCH_PAGE_MASK) with (table (p_mem s) i).
      rewrite Htab by done. rewrite He, Hfr, Hval. unfold p_with_mem. by rewrite Em.
  - destruct Hsup1 as [H1 H2]. by split.
Qed.

Lemma mmap_pages_ok n N (r : nat) : ∀ s j d c,
  phase2 (p_mem s) j → (∀ i, d0 ≤ i < d0 + k → pde m1 i ≠ 0) →
  supply s (A + 4096 * taken m1 paddr v0 j) (n - taken m1 paddr v0 j) →
  hi = A + 4096 * n → 0 ≤ j → j + Z.of_nat r = N → vaddr + 4096 * N ≤ 4294967296 →
  (paddr ≠ 0 → paddr + 4096 * N ≤ 4294967296) → N ≤ n →
  (v0 + N - 1) / 1024 < d0 + k → d0 ≤ d < d0 + k → c = table m1 d →
  ∃ s' cur', mmap_pages debug pd paddr vaddr pg (Z.mul 4096 <$> seqZ j (Z.of_nat r)) (d, c) s
             = Ok (cur', s') ∧
    phase2 (p_mem s') N ∧
    supply s' (A + 4096 * taken m1 paddr v0 N) (n - taken m1 paddr v0 N) ∧
    p_cr3 s' = p_cr3 s.
Proof using Hv Hp Hpg HA Hd0.
  induction r as [|r IH]; intros s j d c P2 Hnz Hsup Ehi Hj Hjr Hve Hpe Hn Hdk Hd Hc.
  { rewrite seqZ_nil by lia. assert (j = N) as -> by lia. exists s, (d, c). split_and!; done. }
  rewrite seqZ_cons by lia. replace (Z.pred (Z.of_nat (S r))) with (Z.of_nat r) by lia.
  replace (Z.succ j) with (j + 1) by lia. rewrite fmap_cons. cbn [mmap_pages]. mstep.
  assert (Hdj : d0 ≤ (v0 + j) / 1024 < d0 + k).
  { clear -Hd0 Hdk Hjr Hj. split; [subst d0; apply Z.div_le_mono; lia|].
    eapply Z.le_lt_trans; [|exact Hdk]. apply Z.div_le_mono; lia. }
  destruct (mmap_page_ok s n j d c P2 Hnz Hsup Ehi Hj ltac:(lia)) as (s1 & -> & P2' & Hsup' & Hcr);
    try done.
  { intros H. specialize (Hpe H). lia. }
  { pose proof (unmapped_range m1 v0 (j + 1) ltac:(lia)). unfold taken.
    destruct (paddr =? 0); lia. }
  destruct (IH s1 (j + 1) _ _ P2' Hnz Hsup' Ehi ltac:(lia) ltac:(lia) Hve Hpe Hn Hdk Hdj eq_refl)
    as (s' & cur' & Hs' & P2'' & Hsup'' & Hcr').
  exists s', cur'. split_and!; try done. congruence.
Qed.
End pages.
End walk.

(** ** bootstrap_mmap *)

(** The flags of an entry fit below the page address. *)
Lemma mmap_flags_range flags : 0 ≤ mmap_flags flags < 4096.
Proof.
  unfold mmap_flags. destruct ((_ =? 0) && _); [lia|]. destruct (negb _); [|lia].
  unfold c_bool. destruct (c_true _), (c_true _); vm_compute; split; congruence.
Qed.

(** The number of tables in arithmetic. *)
Lemma mmap_tables_eq m pd v0 N :
  0 ≤ v0 → 0 < N → v0 + N ≤ 1048576 →
  mmap_tables m pd (4096 * v0) (4096 * N) =
    N / 1024 + (if v0 mod 1024 + N >? 1024 then 1 else 0) +
    (if table pd m (v0 / 1024) =? 0 then 1 else 0).
Proof.
  intros Hv HN Hle. unfold mmap_tables. rewrite pt_index, pd_index.
  replace (4096 * v0 / 4096) with v0 by (rewrite Z.mul_comm, Z.div_mul; lia).
  replace ((4096 * v0 / 4194304) mod 1024) with (v0 / 1024)
    by (Z.to_euclidean_division_equations; lia).
  unfold ARCH_PAGE_SIZE, ARCH_PT_ADDRESSABLE_BYTES.
  replace (4096 * N / 4096) with N by (rewrite Z.mul_comm, Z.div_mul; lia).
  replace (4096 * N / (1024 * 4096)) with (N / 1024)
    by (Z.to_euclidean_division_equations; lia).
  change (Z.land (load32 m (entry pd (v0 / 1024))) ARCH_PAGE_MASK) with (table pd m (v0 / 1024)).
  rewrite (u32_small (v0 mod 1024 + N)) by (Z.to_euclidean_division_equations; lia).
  unfold NULL.
  assert (0 ≤ N / 1024 ≤ 1048576) by (Z.to_euclidean_division_equations; lia).
  destruct (v0 mod 1024 + N >? 1024), (table pd m (v0 / 1024) =? 0);
    rewrite (u32_small (N / 1024 + _)), ?u32_small by lia; lia.
Qed.

(** The tables visited cover the range, except when the range runs past the end
    of an existing first table into the next one. *)
Lemma mmap_tables_cover m pd v0 N :
  0 ≤ v0 → 0 < N → v0 + N ≤ 1048576 →
  table pd m (v0 / 1024) = 0 ∨ v0 mod 1024 + N mod 1024 ≤ 1024 →
  (v0 + N - 1) / 1024 <
    v0 / 1024 + Z.max 1 (mmap_tables m pd (4096 * v0) (4096 * N)).
Proof.
  intros Hv HN Hle Hc. rewrite mmap_tables_eq by done.
  pose proof (Z.div_mod v0 1024 ltac:(lia)). pose proof (Z.div_mod N 1024 ltac:(lia)).
  pose proof (Z.mod_pos_bound v0 1024 ltac:(lia)). pose proof (Z.mod_pos_bound N 1024 ltac:(lia)).
  apply Z.div_lt_upper_bound; [lia|]. rewrite Z.gtb_ltb.
  destruct (Z.ltb_spec 1024 (v0 mod 1024 + N)), (Z.eqb_spec (table pd m (v0 / 1024)) 0); lia.
Qed.

(** A request as the ASSERTs of bootstrap_mmap demand it. *)
Record request (paddr vaddr size : Z) : Prop := {
  req_vaddr : 0 ≤ vaddr ∧ vaddr mod 4096 = 0 ∧ vaddr + size ≤ 4294967296;
  req_paddr : 0 ≤ paddr ∧ paddr mod 4096 = 0 ∧ paddr + size ≤ 4294967296;
  req_size : 0 < size ∧ size mod 4096 = 0;
}.

(** The entry of page [v] as the unit sees it: none without a table. *)
Definition epte (pd : Z) (m : mem) (v : Z) : Z :=
  if decide (pde pd m (v / 1024) = 0) then 0 else pte pd m v.

Lemma epte_phase1 pd m m1 d0 k f v :
  phase1 pd m m1 d0 k k f → d0 ≤ v / 1024 < d0 + k → pte pd m1 v = epte pd m v.
Proof.
  intros [P1 P2 _] Hv. unfold epte. rewrite !pte_tent.
  assert (Hq : 0 ≤ v mod 1024 < 1024) by (apply Z.mod_pos_bound; lia). case_decide as E.
  - by apply (P2 _ Hv E).
  - by apply (P1 _ Hv E).
Qed.

Section mmap.
Context (debug : bool) (info : exec_info) (paddr vaddr size flags : Z) (s : paging_st) (A n : Z).
Abbreviation pd := (page_directory_of info).
Abbreviation v0 := (vaddr / 4096).
Abbreviation N := (size / 4096).
Abbreviation d0 := (v0 / 1024).
(** The tables the pages lie in, and the tables the first loop visits or the
    second one uses *)
Definition mmap_span : Z := (v0 + N - 1) / 1024 - d0 + 1.
Definition mmap_k : Z := Z.max mmap_span (mmap_tables (p_mem s) pd vaddr size).
(** A table the first loop does not visit is there. *)
Definition mmap_covered : Prop :=
  ∀ i, d0 + mmap_tables (p_mem s) pd vaddr size ≤ i < d0 + mmap_span → pde pd (p_mem s) i ≠ 0.
Context (Hreq : request paddr vaddr size).

Lemma mmap_counts :
  vaddr = 4096 * v0 ∧ size = 4096 * N ∧ 0 ≤ v0 ∧ 0 < N ∧ v0 + N ≤ 1048576 ∧ 1 ≤ mmap_span ∧
  0 ≤ mmap_tables (p_mem s) pd vaddr size ∧ 1 ≤ mmap_k ∧
  mmap_k ≤ N / 1024 + 2.
Proof using Hreq.
  destruct Hreq as [(Hv0 & Hvm & Hve) _ (Hs0 & Hsm)].
  assert (HN : 0 < N) by (Z.to_euclidean_division_equations; lia).
  assert (Hvs : vaddr = 4096 * v0) by (Z.to_euclidean_division_equations; lia).
  assert (Hss : size = 4096 * N) by (Z.to_euclidean_division_equations; lia).
  pose proof (mmap_tables_eq (p_mem s) pd v0 N ltac:(lia) HN ltac:(lia)) as EK.
  rewrite <-Hvs, <-Hss in EK. assert (HN0 : 0 ≤ N / 1024) by (apply Z.div_pos; lia).
  assert (Hsp : 1 ≤ mmap_span ≤ N / 1024 + 2).
  { unfold mmap_span. clear -HN Hv0. Z.to_euclidean_division_equations. lia. }
  unfold mmap_k. rewrite EK. split_and!; try lia; destruct (_ >? _), (_ =? _); lia.
Qed.

(** Two simple cases: the first table is missing, or the pages fit. *)
Lemma covered_linear :
  table pd (p_mem s) d0 = 0 ∨ v0 mod 1024 + N mod 1024 ≤ 1024 → mmap_covered.
Proof using Hreq.
  intros Hc i Hi. destruct mmap_counts as (Hvs & Hss & Hv0 & HN & Hve & Hsp & HK & _).
  pose proof (mmap_tables_cover (p_mem s) pd v0 N Hv0 HN Hve Hc) as Hcv.
  pose proof (mmap_tables_eq (p_mem s) pd v0 N Hv0 HN Hve) as EK.
  rewrite <-Hvs, <-Hss in EK, Hcv. unfold mmap_span in Hi.
  assert (mmap_tables (p_mem s) pd vaddr size = 0 ∧ i = d0) as [E0 ->] by lia.
  intros Hz. rewrite EK in E0. unfold table in E0. rewrite Hz in E0.
  change (Z.land 0 ARCH_PAGE_MASK) with 0 in E0. simpl in E0.
  assert (0 ≤ N / 1024) by (apply Z.div_pos; lia). destruct (_ >? _) in E0; lia.
Qed.

Context (Hsup : supply s A n) (Hn : mmap_k + N ≤ n)
  (Hdir : dir_ok pd (p_mem s) d0 mmap_k A (A + 4096 * n)) (Hcov : mmap_covered).
Definition mmap_A : Z := A + 4096 * missing pd (p_mem s) d0 mmap_k.

Lemma mmap_phase1 :
  ∃ s1, mfor (seqZ 0 (mmap_tables (p_mem s) pd vaddr size))
          (mmap_table debug info (arch_get_pt_offset vaddr ARCH_PD_1)) s = Ok (tt, s1) ∧
    let c := missing pd (p_mem s) d0 mmap_k in
    supply s1 (A + 4096 * c) (n - c) ∧
    dir_ok pd (p_mem s1) d0 mmap_k (A + 4096 * c) (A + 4096 * n) ∧
    phase1 pd (p_mem s) (p_mem s1) d0 mmap_k mmap_k (pde_flags (is_kernel info)) ∧
    fresh1 pd (p_mem s) (p_mem s1) d0 mmap_k mmap_k A c ∧
    p_cr3 s1 = p_cr3 s.
Proof using Hreq Hsup Hn Hdir Hcov.
  destruct mmap_counts as (Hvs & Hss & Hv0 & HN & Hve & Hsp & HK & Hk & _).
  destruct Hsup as [_ (HA0 & HAm & _)].
  assert (Ed : arch_get_pt_offset vaddr ARCH_PD_1 = d0).
  { rewrite pd_index. clear -Hvs Hv0 HN Hve. Z.to_euclidean_division_equations. lia. }
  rewrite Ed. set (K := mmap_tables (p_mem s) pd vaddr size) in *.
  assert (HKk : K ≤ mmap_k) by (unfold mmap_k; fold K; lia).
  assert (Hbey : ∀ i, d0 + K ≤ i < d0 + mmap_k → pde pd (p_mem s) i ≠ 0).
  { intros i Hi. apply Hcov. fold K. unfold mmap_k in Hi. fold K in Hi. lia. }
  assert (Em0 : missing pd (p_mem s) d0 0 = 0) by (unfold missing; by rewrite seqZ_nil).
  destruct (mmap_tables_ok pd debug info d0 mmap_k K s A n (Z.to_nat K) 0 s)
    as (s1 & H1 & H2 & H3 & H4 & H5 & H6); try done; try lia.
  - rewrite Em0. replace (A + 4096 * 0) with A by lia. by rewrite Z.sub_0_r.
  - rewrite Em0. by replace (A + 4096 * 0) with A by lia.
  - constructor; [done| |done]. intros; lia.
  - constructor; [done|]. intros; lia.
  - exists s1. rewrite Z2Nat.id in H1 by lia. cbv zeta.
    rewrite (missing_beyond pd (p_mem s) d0 K mmap_k (conj HK HKk) Hbey).
    split_and!; try done; [by apply (phase1_beyond _ _ _ _ K)|by apply (fresh1_beyond _ _ _ _ K)].
Qed.

Lemma bootstrap_mmap_full :
  ∃ s' m1, bootstrap_mmap debug info paddr vaddr size flags s = Ok (0, s') ∧
    phase1 pd (p_mem s) m1 d0 mmap_k mmap_k (pde_flags (is_kernel info)) ∧
    phase2 pd paddr vaddr (mmap_flags flags) d0 mmap_k mmap_A (A + 4096 * n) m1 (p_mem s') N ∧
    (∀ i, d0 ≤ i < d0 + mmap_k → pde pd m1 i ≠ 0) ∧
    supply s' (mmap_A + 4096 * taken pd m1 paddr v0 N)
      (n - missing pd (p_mem s) d0 mmap_k - taken pd m1 paddr v0 N) ∧
    p_cr3 s' = p_cr3 s ∧
    fresh1 pd (p_mem s) m1 d0 mmap_k mmap_k A (missing pd (p_mem s) d0 mmap_k).
Proof using Hreq Hsup Hn Hdir Hcov.
  destruct mmap_phase1 as (s1 & H1 & Hsup1 & Hdir1 & Hph1 & Hfr1 & Hcr1).
  pose proof Hreq as [(Hv0 & Hvm & Hve) (Hp0 & Hpm & Hpe) (Hs0 & Hsm)].
  destruct mmap_counts as (Hvs & Hss & _ & HN & _ & Hsp & _ & Hk & _).
  pose proof (missing_range pd (p_mem s) d0 mmap_k ltac:(lia)) as Hc.
  set (c := missing pd (p_mem s) d0 mmap_k) in *.
  assert (Hnz : ∀ i, d0 ≤ i < d0 + mmap_k → pde pd (p_mem s1) i ≠ 0).
  { intros i Hi. destruct (decide (pde pd (p_mem s) i = 0)) as [E|E].
    - by apply (ph_new _ _ _ _ _ _ _ Hph1).
    - destruct (ph_old _ _ _ _ _ _ _ Hph1 i Hi E) as [-> _]. done. }
  assert (Hdcov : (v0 + N - 1) / 1024 < d0 + mmap_k).
  { unfold mmap_k, mmap_span. lia. }
  destruct Hsup as [_ (HA0 & HAm & HAe & _)].
  assert (HmA : 0 < mmap_A ∧ mmap_A mod 4096 = 0).
  { unfold mmap_A. fold c. split; [lia|]. clear -HAm. Z.to_euclidean_division_equations. lia. }
  assert (Et0 : taken pd (p_mem s1) paddr v0 0 = 0).
  { unfold taken, unmapped. rewrite seqZ_nil by lia. by destruct (paddr =? 0). }
  destruct (mmap_pages_ok pd debug paddr vaddr (mmap_flags flags) d0 mmap_k mmap_A
    (A + 4096 * n) (p_mem s1) (conj Hv0 Hvm) (conj Hp0 Hpm) (mmap_flags_range flags) HmA eq_refl
    (n - c) N (Z.to_nat N) s1 0 d0 (table pd (p_mem s1) d0))
    as (s' & cur' & H2 & Hph2 & Hsup2 & Hcr2); try done; try lia.
  - constructor.
    + rewrite Et0. unfold mmap_A. fold c. by replace (A + 4096 * c + 4096 * 0) with (A + 4096 * c) by lia.
    + done.
    + intros; lia.
    + done.
    + done.
  - rewrite Et0. unfold mmap_A. fold c. rewrite Z.sub_0_r.
    by replace (A + 4096 * c + 4096 * 0) with (A + 4096 * c) by lia.
  - unfold mmap_A. fold c. lia.
  - exists s', (p_mem s1). split_and!; try done; [|congruence].
    unfold bootstrap_mmap. mstep. unfold ARCH_PAGE_SIZE.
    rewrite Hvm, Hpm, Hsm, !andb_false_r, H1.
    assert (Ed : arch_get_pt_offset vaddr ARCH_PD_1 = d0).
    { rewrite pd_index. Z.to_euclidean_division_equations. lia. }
    rewrite Ed. unfold mmap_offsets, ARCH_PAGE_SIZE.
    replace ((size + 4096 - 1) / 4096) with N by (Z.to_euclidean_division_equations; lia).
    rewrite Z2Nat.id in H2 by lia. unfold table, pde in H2. by rewrite H2.
Qed.

Lemma bootstrap_mmap_ok :
  ∃ s' m1, bootstrap_mmap debug info paddr vaddr size flags s = Ok (0, s') ∧
    phase1 pd (p_mem s) m1 d0 mmap_k mmap_k (pde_flags (is_kernel info)) ∧
    phase2 pd paddr vaddr (mmap_flags flags) d0 mmap_k mmap_A (A + 4096 * n) m1 (p_mem s') N ∧
    (∀ i, d0 ≤ i < d0 + mmap_k → pde pd m1 i ≠ 0) ∧
    supply s' (mmap_A + 4096 * taken pd m1 paddr v0 N)
      (n - missing pd (p_mem s) d0 mmap_k - taken pd m1 paddr v0 N) ∧
    p_cr3 s' = p_cr3 s.
Proof using Hreq Hsup Hn Hdir Hcov.
  destruct bootstrap_mmap_full as (s' & m1 & H1 & H2 & H3 & H4 & H5 & H6 & _). by exists s', m1.
Qed.

(** The bytes a call can change: the directory entries of the range, the tables
    they point to and the free frames that become tables. *)
Lemma bootstrap_mmap_frame s' :
  bootstrap_mmap debug info paddr vaddr size flags s = Ok (0, s') →
  ∀ x, ¬ within (entry pd d0) (4 * mmap_k) x →
    ¬ within A (4096 * missing pd (p_mem s) d0 mmap_k) x →
    (∀ i, d0 ≤ i < d0 + mmap_k → pde pd (p_mem s) i ≠ 0 → ¬ within (table pd (p_mem s) i) 4096 x) →
    load8 (p_mem s') x = load8 (p_mem s) x.
Proof using Hreq Hsup Hn Hdir Hcov.
  intros Hrun x X1 X2 X3.
  destruct bootstrap_mmap_full as (s1 & m1 & H1 & H2 & H3 & _ & _ & _ & [F1 F2]).
  rewrite H1 in Hrun. injection Hrun as ->.
  rewrite (p2_out _ _ _ _ _ _ _ _ _ _ _ H3); [by apply F1|].
  intros i Hi. destruct (decide (pde pd (p_mem s) i = 0)) as [E|E].
  - destruct (F2 i Hi E) as [T1 T2]. contradict X2. destruct Hsup as [_ (HA0 & HAm & HAe & Hn0)].
    destruct mmap_counts as (_ & _ & _ & HN & _ & _ & _ & Hk & _).
    pose proof (missing_range pd (p_mem s) d0 mmap_k ltac:(lia)) as Hmr.
    clear -X2 T1 T2 Hmr HA0 HAe Hn HN. unfold within in *. wrap_lia.
  - destruct (ph_old _ _ _ _ _ _ _ H2 i Hi E) as [Ep _].
    assert (table pd m1 i = table pd (p_mem s) i) as -> by (unfold table; by rewrite Ep).
    by apply X3.
Qed.
End mmap.
