(* ===== verification/PagingProps.v ===== *)
(** * PagingProps: address translation after the bootstrap mappings

    The theorems state the effect of bootstrap_mmap on what the memory
    management unit translates, for the requests its assertions admit. *)

From S2P Require Import Prelude Machine CString ArchPaging KInfo Exec Paging PagingInv.

(** ** Translation *)

(** The translation of a page whose directory entry is in order. *)
Definition walk_entry (e : Z) : option (Z * Z) :=
  if Z.testbit e 0 then Some (Z.land e ARCH_PAGE_MASK, e mod 4096) else None.

Lemma walk_epte pd m d0 k lo hi v :
  dir_ok pd m d0 k lo hi → d0 ≤ v / 1024 < d0 + k →
  mmu_walk m pd v = walk_entry (epte pd m v).
Proof.
  intros Hdir Hv. unfold mmu_walk, epte, walk_entry.
  change (load32 m (entry pd (v / 1024))) with (pde pd m (v / 1024)).
  case_decide as E; [by rewrite E|].
  destruct (dir_tab _ _ _ _ _ _ Hdir _ Hv E) as (-> & _). done.
Qed.

(** How many of the first [j] pages have no entry. *)
Definition free_before (pd : Z) (m : mem) (v0 j : Z) : Z :=
  Z.of_nat (length (filter (λ v, epte pd m v = 0) (seqZ v0 j))).
(** The frame the unit finds for page [v0 + j] afterwards: the old one if the
    page had one, else the next free frame or the one asked for. *)
Definition mapped_frame (pd : Z) (m : mem) (paddr A v0 j : Z) : Z :=
  if decide (epte pd m (v0 + j) = 0) then
    if paddr =? PAGE_ALLOCATE then A + 4096 * free_before pd m v0 j else paddr + 4096 * j
  else Z.land (epte pd m (v0 + j)) ARCH_PAGE_MASK.

Section mmap.
Context (debug : bool) (info : exec_info) (paddr vaddr size flags : Z) (s : paging_st) (A n : Z).
Abbreviation pd := (page_directory_of info).
Abbreviation v0 := (vaddr / 4096).
Abbreviation N := (size / 4096).
Abbreviation d0 := (v0 / 1024).
Abbreviation k := (mmap_k info vaddr size s).
Abbreviation A1 := (mmap_A info vaddr size s A).

(** The range the request touches can be mapped: enough frames, tables in
    order, and every table that the first loop does not visit present. *)
Record mappable : Prop := {
  map_req : request paddr vaddr size;
  map_sup : supply s A n;
  map_enough : k + N ≤ n;
  map_dir : dir_ok pd (p_mem s) d0 k A (A + 4096 * n);
  map_cover : mmap_covered info vaddr size s;
}.

(** The pages of the request lie in the directory entries looked at. *)
Lemma pages_in_dir j : mappable → 0 ≤ j < N → d0 ≤ (v0 + j) / 1024 < d0 + k.
Proof using.
  intros [Hreq _ _ _ _] Hj.
  destruct (mmap_counts info paddr vaddr size s Hreq) as (Hvs & Hss & Hv0 & HN & Hve & Hsp & _ & Hk & _).
  split; [apply Z.div_le_mono; lia|].
  assert (Hm : (v0 + j) / 1024 ≤ (v0 + N - 1) / 1024) by (apply Z.div_le_mono; lia).
  unfold mmap_k, mmap_span. lia.
Qed.

Lemma unmapped_epte m1 j :
  phase1 pd (p_mem s) m1 d0 k k (pde_flags (is_kernel info)) → mappable → 0 ≤ j ≤ N →
  unmapped pd m1 v0 j = free_before pd (p_mem s) v0 j.
Proof using.
  intros Hph Hm Hj. unfold unmapped, free_before. do 2 f_equal.
  apply filter_ext_in. intros v Hv%elem_of_seqZ.
  pose proof (pages_in_dir (v - v0) Hm ltac:(lia)) as Hd.
  replace (v0 + (v - v0)) with v in Hd by lia.
  by rewrite (epte_phase1 _ _ _ _ _ _ _ Hph Hd).
Qed.

Lemma frame_epte m1 j :
  phase1 pd (p_mem s) m1 d0 k k (pde_flags (is_kernel info)) → mappable → 0 ≤ j < N →
  frame_of pd m1 paddr A1 v0 j = mapped_frame pd (p_mem s) paddr A1 v0 j.
Proof using.
  intros Hph Hm Hj. unfold frame_of, mapped_frame, PAGE_ALLOCATE.
  rewrite (epte_phase1 _ _ _ _ _ _ _ Hph (pages_in_dir j Hm Hj)).
  by rewrite (unmapped_epte m1 j Hph Hm) by lia.
Qed.

Lemma mmap_translates_ok :
  mappable →
  ∃ s', bootstrap_mmap debug info paddr vaddr size flags s = Ok (0, s') ∧
    (∀ j, 0 ≤ j < N → mmu_walk (p_mem s') pd (v0 + j) =
       if Z.testbit (mmap_flags flags) 0
       then Some (mapped_frame pd (p_mem s) paddr A1 v0 j, mmap_flags flags) else None) ∧
    (∀ v, d0 ≤ v / 1024 < d0 + k → v < v0 ∨ v0 + N ≤ v →
       mmu_walk (p_mem s') pd v = mmu_walk (p_mem s) pd v) ∧
    p_cr3 s' = p_cr3 s.
Proof using.
  intros Hm. pose proof Hm as [Hreq Hsup Hen Hdir Hcov].
  destruct (bootstrap_mmap_ok debug info paddr vaddr size flags s A n Hreq Hsup Hen Hdir Hcov)
    as (s' & m1 & Hs' & Hph1 & Hph2 & Hnz & _ & Hcr).
  pose proof Hph2 as [Pd Ppde Pdone Prest].
  assert (Hp : ∀ v, d0 ≤ v / 1024 < d0 + k → mmu_walk (p_mem s') pd v = walk_entry (pte pd (p_mem s') v)).
  { intros v Hv. rewrite (walk_epte _ _ _ _ _ _ _ Pd Hv). unfold epte.
    rewrite decide_False; [done|]. rewrite Ppde by done. auto. }
  exists s'. split_and!; [done| | |done].
  - intros j Hj. pose proof (pages_in_dir j Hm Hj) as Hd. rewrite Hp, Pdone by done.
    pose proof (mmap_flags_range flags) as Hfl.
    assert (Hfr : 0 ≤ frame_of pd m1 paddr A1 v0 j < 4294967296 ∧
                  frame_of pd m1 paddr A1 v0 j mod 4096 = 0).
    { destruct Hreq as [(Hv0 & Hvm & Hve) (Hp0 & Hpm & Hpe) (Hs0 & Hsm)].
      destruct Hsup as [_ (HA0 & HAm & HAe & Hn0)]. destruct (mmap_counts info paddr vaddr size s
        ltac:(constructor; split_and!; done)) as (_ & _ & _ & _ & _ & _ & _ & Hk1 & _).
      pose proof (missing_range pd (p_mem s) d0 k ltac:(lia)) as Hmr.
      apply (frame_range pd paddr vaddr (mmap_flags flags) A1 m1 (conj Hp0 Hpm) Hfl) with (n := n - k).
      - unfold mmap_A. split; [lia|]. clear -HAm. Z.to_euclidean_division_equations. lia.
      - lia.
      - unfold mmap_A. lia.
      - intros _. Z.to_euclidean_division_equations. lia.
      - unfold taken. pose proof (unmapped_range pd m1 v0 (j + 1) ltac:(lia)).
        destruct (paddr =? 0); lia. }
    destruct (entry_parts _ _ (proj1 Hfr) (proj2 Hfr) Hfl) as (_ & E1 & E2 & E3).
    unfold walk_entry. rewrite E1, E2, E3. by rewrite (frame_epte m1 j Hph1 Hm Hj).
  - intros v Hv Hout. rewrite Hp by done. rewrite Prest by done.
    rewrite (epte_phase1 _ _ _ _ _ _ _ Hph1 Hv).
    by rewrite (walk_epte _ _ _ _ _ _ _ Hdir Hv).
Qed.
End mmap.

(** ** Identity mappings *)

Lemma identity_map_ok m table addr stop n i :
  0 ≤ table → table + 4096 ≤ 4294967296 → 0 ≤ addr → addr mod 4096 = 0 →
  addr + 4096 * n < 4294967296 → 0 ≤ n → 0 ≤ i → i + n ≤ 1024 →
  stop ≤ addr + 4096 * n → n = 0 ∨ addr + 4096 * (n - 1) < stop →
  ∃ m', identity_map m table addr stop i = Ok m' ∧
    (∀ j, 0 ≤ j < n → load32 m' (entry table (i + j)) = addr + 4096 * j + 3) ∧
    (∀ j, 0 ≤ j < 1024 → j < i ∨ i + n ≤ j → load32 m' (entry table j) = load32 m (entry table j)) ∧
    changes_only table 4096 m m'.
Proof.
  intros Ht Hte Ha Ham Hae Hn Hi Hin Hst1 Hst2. unfold identity_map.
  destruct (while_loop_total
    (λ (r : nat) '(m1, a, q), let d := n - Z.of_nat r in 0 ≤ d ∧ a = addr + 4096 * d ∧ q = i + d ∧
       (∀ j, 0 ≤ j < d → load32 m1 (entry table (i + j)) = addr + 4096 * j + 3) ∧
       (∀ j, 0 ≤ j < 1024 → j < i ∨ i + d ≤ j →
          load32 m1 (entry table j) = load32 m (entry table j)) ∧
       changes_only table 4096 m m1)
    (λ '(m, a, q), a <? stop)
    (λ '(m, a, q),
       if q <? 1024 then
         Ok (store32 m (entry table q)
               (Z.lor (Z.land a ARCH_PAGE_MASK) (Z.lor ARCH_PAGE_PRESENT ARCH_PAGE_RW)),
             a ⊞ PAGE_SIZE, q ⊞ 1)
       else UB "page table index out of range")
    (Z.to_nat n) (m, addr, i)) as ([[m' a] q] & Hrun & Hd & _ & _ & H1 & H2 & H3).
  - unfold FUEL. lia.
  - cbv zeta. split_and!; try lia; try done.
  - intros r [[m1 a] q] Hr (Hd & -> & -> & H1 & H2 & H3). split; [apply Z.ltb_lt; lia|].
    rewrite (proj2 (Z.ltb_lt _ _)) by lia. eexists; split; [done|]. cbv zeta in *.
    set (d := n - Z.of_nat (S r)) in *. replace (n - Z.of_nat r) with (d + 1) by lia.
    unfold PAGE_SIZE, ARCH_PAGE_SIZE. rewrite !u32_small by lia.
    assert (Hm4 : (addr + 4096 * d) mod 4096 = 0) by (clear -Ham; Z.to_euclidean_division_equations; lia).
    assert (Ev : Z.lor (Z.land (addr + 4096 * d) ARCH_PAGE_MASK) (Z.lor ARCH_PAGE_PRESENT ARCH_PAGE_RW)
                 = addr + 4096 * d + 3).
    { rewrite land_page_mask_aligned by (done || lia). by apply lor_page_flags; [lia|..]. }
    rewrite Ev. split_and!; try lia.
    + intros j Hj. destruct (decide (j = d)) as [->|Hne].
      * rewrite load32_store32_eq. apply u32_small. lia.
      * rewrite load32_store32_disj by (apply entry_disj; lia). apply H1. lia.
    + intros j Hj Hout. rewrite load32_store32_disj by (apply entry_disj; lia). apply H2; lia.
    + apply changes_only_store32; [done|unfold entry; lia..].
  - intros [[m1 a] q] (Hd & -> & _). apply Z.ltb_ge. lia.
  - rewrite Hrun. simpl. cbv zeta in *. rewrite Z.sub_0_r in *. exists m'. done.
Qed.

(** Entry [p] of the table at [table] maps page [p] of the first 4 MB to itself. *)
Definition ident (table : Z) (m : mem) (p : Z) : Prop :=
  load32 m (entry table p) = 4096 * p + 3.
(** A module as the boot loader places it: page aligned, in the first 4 MB. *)
Definition module_ok (md : boot_module) : Prop :=
  0 ≤ start_paddr md ∧ start_paddr md mod 4096 = 0 ∧ start_paddr md < end_paddr md ∧
  end_paddr md ≤ 4194304.
Definition module_page (md : boot_module) (p : Z) : Prop :=
  start_paddr md ≤ 4096 * p < end_paddr md.

Lemma pt_shift a : Z.shiftr (Z.land a ARCH_VADDR_PT_OFFSET_MASK) ARCH_VADDR_PT_OFFSET
  = (a / 4096) mod 1024.
Proof. apply (pt_index a). Qed.

Lemma map_modules_ok bootstrap_pt vma mods : ∀ m,
  let table := kphys vma bootstrap_pt in
  0 ≤ table → table + 4096 ≤ 4294967296 → Forall module_ok mods →
  ∃ m', map_modules bootstrap_pt vma m mods = Ok m' ∧ changes_only table 4096 m m' ∧
    ∀ p, 0 ≤ p < 1024 →
      ((∃ md, md ∈ mods ∧ module_page md p) → ident table m' p) ∧
      ((∀ md, md ∈ mods → ¬ module_page md p) →
         load32 m' (entry table p) = load32 m (entry table p)) ∧
      (ident table m p → ident table m' p).
Proof.
  induction mods as [|md mods IH]; intros m table Ht Hte Hok.
  { exists m. split; [done|]. split; [done|]. intros p Hp.
    split; [by intros (? & ?%elem_of_nil & _)|done]. }
  apply Forall_cons in Hok as [(Hs0 & Hsm & Hse & Hee) Hok].
  set (n := (end_paddr md - start_paddr md + 4095) / 4096).
  set (i := start_paddr md / 4096).
  assert (Hn : 0 < n ∧ end_paddr md ≤ start_paddr md + 4096 * n ∧
    start_paddr md + 4096 * (n - 1) < end_paddr md ∧ i + n ≤ 1024 ∧ start_paddr md = 4096 * i ∧ 0 ≤ i).
  { subst n i. Z.to_euclidean_division_equations. lia. }
  destruct (identity_map_ok m table (start_paddr md) (end_paddr md) n i)
    as (m1 & E1 & H1 & H2 & H3); try lia.
  destruct (IH m1 Ht Hte Hok) as (m' & E' & Hch & Hp'). exists m'. split; [|split].
  - cbn [map_modules]. fold table. rewrite pt_shift. rewrite (Z.mod_small (start_paddr md / 4096)) by (fold i; lia).
    fold i. by rewrite E1.
  - by trans m1.
  - intros p Hp. destruct (Hp' p Hp) as (P1 & P2 & P3).
    assert (Hmd : module_page md p → ident table m1 p).
    { intros Hpg. unfold module_page in Hpg. unfold ident.
      replace p with (i + (p - i)) at 1 by lia. rewrite H1; lia. }
    split_and!.
    + intros (md' & [->|Hin]%elem_of_cons & Hpg); [by apply P3, Hmd|]. apply P1. eauto.
    + intros Hno. fold table in P2; rewrite P2 by (intros; apply Hno; by right). apply H2; [done|].
      pose proof (Hno md ltac:(by left)) as Hn'. unfold module_page in Hn'. lia.
    + intros Hid. apply P3. unfold ident in *. destruct (decide (i ≤ p < i + n)) as [Hin|Hout].
      * replace p with (i + (p - i)) at 1 by lia. rewrite H1; lia.
      * rewrite H2 by lia. done.
Qed.

Lemma load32_empty a : load32 ∅ a = 0.
Proof. done. Qed.

(** ** An empty address space and sixteen free frames, for the examples *)

Definition demo_info : exec_info := ExecInfo 0x100000 0 false.
Definition demo_kinfo : kernel_info_t :=
  let r := MemRange 0 0 in
  KernelInfo [MmapEntry 0x200000 0x100000 1 0] 1 0
    [BootModule 0x110000 0x112345 0 []] 1 r r r r r 0xFE800000 0 0.
Definition demo_paging : paging_st := PagingSt ∅ demo_kinfo [].

Lemma demo_supply : supply demo_paging 0x200000 16.
Proof.
  split; [|vm_compute; intuition congruence].
  eexists _, _. split; [reflexivity|]. split; [reflexivity|]. simpl. lia.
Qed.
(** Two pages that straddle the first two page tables. *)
Lemma demo_mappable :
  mappable demo_info PAGE_ALLOCATE 0x3FF000 0x2000 demo_paging 0x200000 16.
Proof.
  assert (Ek : mmap_k demo_info 0x3FF000 0x2000 demo_paging = 2) by (vm_compute; reflexivity).
  split.
  - split; vm_compute; intuition congruence.
  - exact demo_supply.
  - rewrite Ek. vm_compute. congruence.
  - rewrite Ek. split; [vm_compute; intuition congruence|vm_compute; intuition congruence|..].
    + intros i Hi Hnz. by destruct Hnz.
    + intros i j Hi Hj Hnz. by destruct Hnz.
  - apply (covered_linear _ PAGE_ALLOCATE); [split; vm_compute; intuition congruence|].
    left. vm_compute. reflexivity.
Qed.

(** ** Properties *)


(** Mapping a range again changes its protection and keeps its frames: when
    every page of the range is already present, a second bootstrap_mmap call,
    with whatever physical address, leaves each page at its frame and gives it
    the new protection. *)
Theorem bootstrap_mmap_reprotects (debug : bool) (info : exec_info)
    (paddr vaddr size flags : Z) (s : paging_st) (A n : Z) (frame : Z → Z) (old : Z) :
  let pd := page_directory_of info in
  let v0 := vaddr / 4096 in
  mappable info paddr vaddr size s A n →
  (∀ j, 0 ≤ j < size / 4096 → mmu_walk (p_mem s) pd (v0 + j) = Some (frame j, old)) →
  ∃ s', bootstrap_mmap debug info paddr vaddr size flags s = Ok (0, s') ∧
    ∀ j, 0 ≤ j < size / 4096 → mmu_walk (p_mem s') pd (v0 + j) =
      if Z.testbit (mmap_flags flags) 0 then Some (frame j, mmap_flags flags) else None.
Proof.
  intros pd v0 Hm Hold.
  destruct (mmap_translates_ok debug info paddr vaddr size flags s A n Hm)
    as (s' & Hs' & Hin & _). exists s'. split; [done|]. intros j Hj.
  subst pd v0. rewrite Hin by done. destruct (Z.testbit (mmap_flags flags) 0); [|done].
  specialize (Hold j Hj).
  rewrite (walk_epte _ _ _ _ _ _ _ (map_dir _ _ _ _ _ _ _ Hm)
    (pages_in_dir _ _ _ _ _ _ _ j Hm Hj)) in Hold.
  unfold walk_entry in Hold. destruct (Z.testbit _ 0) eqn:Eb; [|done].
  injection Hold as Hf _. unfold mapped_frame. rewrite decide_False; [by rewrite Hf|].
  intros E. by rewrite E in Eb.
Qed.
(** The same two pages again, read-only: the frames stay. *)
Definition demo_mapped : paging_st :=
  match bootstrap_mmap true demo_info PAGE_ALLOCATE 0x3FF000 0x2000 3 demo_paging with
  | Ok (_, s) => s
  | _ => demo_paging
  end.
Lemma bootstrap_mmap_reprotects_witness :
  mmu_walk (p_mem demo_mapped) 0x100000 0x3FF = Some (0x202000, 3) ∧
  ∃ s', bootstrap_mmap true demo_info 0 0x3FF000 0x1000 1 demo_mapped = Ok (0, s') ∧
    mmu_walk (p_mem s') 0x100000 0x3FF = Some (0x202000, 1).
Proof.
  split; [vm_compute; reflexivity|].
  assert (Ek : mmap_k demo_info 0x3FF000 0x1000 demo_mapped = 1) by (vm_compute; reflexivity).
  assert (E0 : pde 0x100000 (p_mem demo_mapped) 0 = 0x200007) by (vm_compute; reflexivity).
  assert (Et : table 0x100000 (p_mem demo_mapped) 0 = 0x200000) by (vm_compute; reflexivity).
  destruct (bootstrap_mmap_reprotects true demo_info 0 0x3FF000 0x1000 1 demo_mapped
    0x204000 12 (λ _, 0x202000) 3) as (s' & H1 & H2).
  - split.
    + split; vm_compute; intuition congruence.
    + split; [|vm_compute; intuition congruence].
      eexists _, _. split; [vm_compute; reflexivity|]. simpl. split; [reflexivity|lia].
    + rewrite Ek. vm_compute. congruence.
    + rewrite Ek. split; [vm_compute; intuition congruence|vm_compute; intuition congruence|..].
      * intros i Hi _. change (0x3FF000 / 4096 / 1024) with 0 in Hi. assert (i = 0) as -> by lia.
        change (page_directory_of demo_info) with 0x100000. rewrite E0, Et.
        vm_compute. intuition congruence.
      * intros i j Hi Hj. change (0x3FF000 / 4096 / 1024) with 0 in Hi, Hj. lia.
    + apply (covered_linear _ 0); [split; vm_compute; intuition congruence|].
      right. vm_compute. congruence.
  - intros j Hj. change (0x1000 / 4096) with 1 in Hj. assert (j = 0) as -> by lia.
    vm_compute. reflexivity.
  - exists s'. split; [exact H1|]. apply (H2 0). vm_compute. intuition congruence.
Defined.

(** One round of the second loop when a physical address is given. *)
Definition fixed_frame (e f : Z) : Z := if c_true e then Z.land e ARCH_PAGE_MASK else f.
Lemma mmap_page_fixed debug pd paddr va pg off d c s :
  paddr ≠ 0 →
  let i := arch_get_pt_offset (va ⊞ off) ARCH_PD_1 in
  let q := arch_get_pt_offset (va ⊞ off) ARCH_PD_0 in
  let c' := if d =? i then c else table pd (p_mem s) i in
  mmap_page debug pd paddr va pg off (d, c) s =
    Ok ((i, c'), p_with_mem (λ m, store32 m (entry c' q)
      (Z.lor (Z.land (fixed_frame (load32 (p_mem s) (entry c' q)) (paddr ⊞ off)) PAGE_MASK) pg)) s).
Proof.
  intros Hp i q c'. subst c'. unfold mmap_page, fixed_frame, table, pde. mstep. fold i q.
  unfold PAGE_ALLOCATE. rewrite (proj2 (Z.eqb_neq paddr 0)) by done.
  destruct (Z.eqb_spec d i) as [->|Hne]; cbn [negb]; cbn beta iota; destruct (c_true _); done.
Qed.
Lemma fixed_entry e f pg :
  0 ≤ e < 4294967296 → 0 ≤ f < 4294967296 → f mod 4096 = 0 → 0 ≤ pg < 4096 →
  Z.lor (Z.land (fixed_frame e f) PAGE_MASK) pg =
    (if e =? 0 then f else e / 4096 * 4096) + pg ∧
  0 ≤ (if e =? 0 then f else e / 4096 * 4096) + pg < 4294967296.
Proof.
  intros He Hf Hfm Hpg. unfold fixed_frame, c_true, PAGE_MASK.
  set (g := if e =? 0 then f else e / 4096 * 4096).
  assert (Hg : 0 ≤ g < 4294967296 ∧ g mod 4096 = 0).
  { subst g. destruct (e =? 0); [done|]. Z.to_euclidean_division_equations. lia. }
  assert (Ez : Z.land (if negb (e =? 0) then Z.land e ARCH_PAGE_MASK else f) ARCH_PAGE_MASK = g).
  { subst g. destruct (Z.eqb_spec e 0) as [->|Hne]; simpl.
    - by apply land_page_mask_aligned.
    - rewrite (land_page_mask e), u32_small by done.
      apply land_page_mask_aligned; Z.to_euclidean_division_equations; lia. }
  rewrite Ez. destruct Hg as [Hg Hgm]. rewrite lor_page_flags by done. split; [done|].
  apply (entry_parts g pg); done.
Qed.

(** C36. A range that runs past the end of an existing page table into a
    directory entry without one gets no second table: bootstrap_mmap still
    reports success, but writes the second page's entry through address 0,
    over the word stored there, and the page is not translated. *)
Theorem bootstrap_mmap_misses_table (debug : bool) (info : exec_info)
    (d paddr flags : Z) (s : paging_st) :
  let pd := page_directory_of info in
  let m := p_mem s in
  0 ≤ d < 1023 → 4096 ≤ pd → pd + 4096 ≤ 4294967296 →
  table pd m d ≠ 0 → table pd m d + 4096 ≤ pd ∨ pd + 4096 ≤ table pd m d →
  pde pd m (d + 1) = 0 →
  0 < paddr → paddr mod 4096 = 0 → paddr + 8192 ≤ 4294967296 →
  ∃ s', bootstrap_mmap debug info paddr (4194304 * d + 0x3FF000) 0x2000 flags s = Ok (0, s') ∧
    mmu_walk (p_mem s') pd (1024 * (d + 1)) = None ∧
    load32 (p_mem s') 0 =
      (if load32 m 0 =? 0 then paddr + 4096 else load32 m 0 / 4096 * 4096) + mmap_flags flags.
Proof.
  intros pd m Hd Hpd Hpde Ht Htd Hz Hp Hpm Hpe. set (t := table pd m d) in *.
  destruct (table_page pd m d) as (Htm & Ht0 & Hte). fold t in Htm, Ht0, Hte.
  assert (Ht4 : 4096 ≤ t) by (clear -Htm Ht0 Ht; Z.to_euclidean_division_equations; lia).
  assert (Hnz : pde pd m d ≠ 0).
  { intros E. apply Ht. subst t. unfold table. by rewrite E. }
  set (va := 4194304 * d + 0x3FF000).
  assert (Hi : ∀ j, j = 0 ∨ j = 1 →
    arch_get_pt_offset (va ⊞ 4096 * j) ARCH_PD_1 = d + j ∧
    arch_get_pt_offset (va ⊞ 4096 * j) ARCH_PD_0 = 1023 * (1 - j)).
  { intros j Hj. rewrite pd_index, pt_index, u32_small by (subst va; lia). subst va.
    destruct Hj as [-> | ->]; Z.to_euclidean_division_equations; lia. }
  assert (Hva : arch_get_pt_offset va ARCH_PD_1 = d).
  { rewrite pd_index. subst va. Z.to_euclidean_division_equations. lia. }
  assert (HK : mmap_tables m pd va 8192 = 1).
  { replace va with (4096 * (1024 * d + 1023)) by (subst va; lia).
    change 8192 with (4096 * 2). rewrite mmap_tables_eq by lia.
    replace ((1024 * d + 1023) / 1024) with d by (Z.to_euclidean_division_equations; lia).
    replace ((1024 * d + 1023) mod 1024) with 1023 by (Z.to_euclidean_division_equations; lia).
    fold t. rewrite (proj2 (Z.eqb_neq t 0)) by done. done. }
  destruct (Hi 0 ltac:(lia)) as [I1 I0], (Hi 1 ltac:(lia)) as [J1 J0].
  change (4096 * 0) with 0 in I1, I0. change (4096 * 1) with 4096 in J1, J0.
  change (1023 * (1 - 0)) with 1023 in I0. change (1023 * (1 - 1)) with 0 in J0.
  replace (d + 0) with d in I1 by lia. pose proof (mmap_flags_range flags) as Hfl.
  set (w := Z.lor (Z.land (fixed_frame (load32 m (entry t 1023)) (paddr ⊞ 0)) PAGE_MASK)
              (mmap_flags flags)).
  set (m1 := store32 m (entry t 1023) w).
  assert (Hz1 : load32 m1 (entry pd (d + 1)) = 0).
  { subst m1. rewrite load32_store32_disj by (apply entry_disj; lia). exact Hz. }
  assert (H00 : load32 m1 (entry 0 0) = load32 m 0).
  { subst m1. apply load32_store32_disj, disj_linear; unfold entry; lia. }
  set (w2 := Z.lor (Z.land (fixed_frame (load32 m 0) (paddr ⊞ 4096)) PAGE_MASK) (mmap_flags flags)).
  exists (p_with_mem (λ _, store32 m1 (entry 0 0) w2) s). split; [|split].
  - unfold bootstrap_mmap. mstep. unfold ARCH_PAGE_SIZE.
    replace (va mod 4096) with 0 by (subst va; Z.to_euclidean_division_equations; lia).
    rewrite Hpm. change (8192 mod 4096) with 0. rewrite !andb_false_r. fold pd m. rewrite HK.
    change (seqZ 0 1) with [0]. cbn [mfor]. mstep. rewrite Hva.
    assert (Et : mmap_table debug info d 0 s = Ok (tt, s)).
    { unfold mmap_table, in_table. mstep. rewrite Z.add_0_r, (proj2 (Z.ltb_lt d 1024)) by lia.
      fold pd m. change (load32 m (entry pd d)) with (pde pd m d).
      by rewrite (proj2 (Z.eqb_neq _ 0)). }
    rewrite Et. change (mmap_offsets 8192) with [0; 4096]. cbn [mmap_pages]. mstep.
    rewrite mmap_page_fixed by lia. rewrite I1, I0, Z.eqb_refl. fold pd m t.
    change (Z.land (load32 m (entry pd d)) ARCH_PAGE_MASK) with t. fold w.
    rewrite mmap_page_fixed by lia. rewrite J1, J0. rewrite (proj2 (Z.eqb_neq d (d + 1))) by lia.
    unfold table, pde. cbn [p_mem p_with_mem]. fold m m1. rewrite Hz1.
    change (Z.land 0 ARCH_PAGE_MASK) with 0. rewrite H00. fold w2. done.
  - cbn [p_mem p_with_mem]. unfold mmu_walk.
    replace (1024 * (d + 1) / 1024) with (d + 1) by (rewrite Z.mul_comm, Z.div_mul; lia).
    rewrite load32_store32_disj by (apply entry_disj; lia). by rewrite Hz1.
  - cbn [p_mem p_with_mem]. change (entry 0 0) with 0. rewrite load32_store32_eq. subst w2.
    destruct (fixed_entry (load32 m 0) (paddr ⊞ 4096) (mmap_flags flags)) as [-> Hr];
      [apply load32_range|apply u32_range| |done|].
    { rewrite u32_small by lia. clear -Hpm. Z.to_euclidean_division_equations. lia. }
    rewrite (u32_small (paddr + 4096)) in * by lia. by apply u32_small.
Qed.
(** A process directory with a table for the first 4 MB only. *)
Definition demo_one_table : paging_st :=
  PagingSt (store32 ∅ 0x100000 0x101007) demo_kinfo [].
Lemma bootstrap_mmap_misses_table_witness :
  ∃ s', bootstrap_mmap false demo_info 0x300000 0x3FF000 0x2000 3 demo_one_table = Ok (0, s') ∧
    mmu_walk (p_mem s') 0x100000 0x400 = None ∧ load32 (p_mem s') 0 = 0x301003.
Proof.
  assert (Et : table 0x100000 (p_mem demo_one_table) 0 = 0x101000) by (vm_compute; reflexivity).
  destruct (bootstrap_mmap_misses_table false demo_info 0 0x300000 3 demo_one_table)
    as (s' & H1 & H2 & H3);
    change (page_directory_of demo_info) with 0x100000 in *; rewrite ?Et; try lia.
  - vm_compute. reflexivity.
  - vm_compute. reflexivity.
  - exists s'. split; [exact H1|]. split; [exact H2|]. rewrite H3. vm_compute. reflexivity.
Defined.

(** The page protection an ELF segment gets: the pages are user pages, they
    are writable exactly when PF_W is set, and present exactly when PF_R or PF_W
    is set; a segment that is only executable is not accessible at all. *)
Theorem elf_prot_flags (flags : Z) :
  0 ≤ flags < 8 →
  let e := mmap_flags (elf_prot flags) in
  Z.testbit e 0 = (Z.testbit flags 1 || Z.testbit flags 2) ∧
  (Z.testbit e 0 = true → Z.testbit e 1 = Z.testbit flags 1 ∧ Z.testbit e 2 = true) ∧
  (Z.testbit e 0 = false → e = 0).
Proof.
  intros Hf. assert (flags = 0 ∨ flags = 1 ∨ flags = 2 ∨ flags = 3 ∨ flags = 4 ∨ flags = 5 ∨
    flags = 6 ∨ flags = 7) as H by lia.
  destruct H as [->|[->|[->|[->|[->|[->|[->| ->]]]]]]]; vm_compute; intuition congruence.
Qed.
Lemma elf_prot_flags_witness : Z.testbit (mmap_flags (elf_prot 1)) 0 = false.
Proof. destruct (elf_prot_flags 1 ltac:(lia)) as [H _]. rewrite H. reflexivity. Defined.

(** An entry for a table at [a]. *)
Lemma table_entry a :
  Z.lor (Z.land (u32 a) ARCH_PAGE_MASK) (Z.lor ARCH_PD_ENTRY_PRESENT ARCH_PD_ENTRY_RW)
    = u32 a / 4096 * 4096 + 3 ∧ 0 ≤ u32 a / 4096 * 4096 + 3 < 4294967296.
Proof.
  pose proof (u32_range a). rewrite land_page_mask, (u32_small (u32 a)) by done.
  split; [apply lor_page_flags|]; Z.to_euclidean_division_equations; lia.
Qed.

(** Bootstrap_map_boot_modules identity-maps the first megabyte and every
    page of the boot modules (page aligned and below 4 MB) in the bootstrap page
    table, clears all its other entries, and points the page directory at it and
    at the kernel's page table; no other byte changes. *)
Theorem boot_modules_identity (page_directory kernel_pt bootstrap_pt vma : Z) (s : paging_st) :
  let pd := kphys vma page_directory in
  let bp := kphys vma bootstrap_pt in
  pd + 4096 ≤ 4294967296 → bp + 4096 ≤ 4294967296 →
  bp + 4096 ≤ pd ∨ pd + 4096 ≤ bp →
  4194304 ≤ vma < 4294967296 → 0 ≤ no_modules (p_kinfo s) →
  no_modules (p_kinfo s) <= Z.of_nat (length (modules (p_kinfo s))) →
  let mods := take (Z.to_nat (no_modules (p_kinfo s))) (modules (p_kinfo s)) in
  Forall module_ok mods →
  ∃ m', bootstrap_map_boot_modules page_directory kernel_pt bootstrap_pt vma s =
      Ok (tt, PagingSt m' (p_kinfo s) (p_cr3 s)) ∧
    (∀ p, 0 ≤ p < 1024 → p < 256 ∨ (∃ md, md ∈ mods ∧ module_page md p) → ident bp m' p) ∧
    (∀ p, 256 ≤ p < 1024 → (∀ md, md ∈ mods → ¬ module_page md p) → load32 m' (entry bp p) = 0) ∧
    load32 m' (entry pd 0) = u32 (bootstrap_pt - kernel_high_vma (p_kinfo s)) / 4096 * 4096 + 3 ∧
    load32 m' (entry pd (vma / 4194304)) = u32 (kernel_pt - vma) / 4096 * 4096 + 3 ∧
    (∀ x, ¬ within bp 4096 x → ¬ within (entry pd 0) 4 x →
       ¬ within (entry pd (vma / 4194304)) 4 x → load8 m' x = load8 (p_mem s) x).
Proof.
  intros pd bp Hde Hbe Hbd Hvma Hno Hlen mods Hok.
  assert (Hd0 : 0 ≤ pd) by apply u32_range. assert (Hb0 : 0 ≤ bp) by apply u32_range.
  unfold bootstrap_map_boot_modules. mstep. fold pd bp.
  assert (Hki : Z.shiftr (Z.land vma ARCH_VADDR_PD_OFFSET_MASK) ARCH_VADDR_PD_OFFSET = vma / 4194304).
  { change (arch_get_pt_offset vma ARCH_PD_1 = vma / 4194304). rewrite pd_index.
    Z.to_euclidean_division_equations. lia. }
  rewrite Hki. set (w1 := Z.lor (Z.land (kernel_pt ⊟ vma) PAGE_MASK) _).
  set (w0 := Z.lor (Z.land (bootstrap_pt ⊟ _) ARCH_PAGE_MASK) _).
  assert (Ew1 : w1 = u32 (kernel_pt - vma) / 4096 * 4096 + 3 ∧ 0 ≤ w1 < 4294967296)
    by (destruct (table_entry (kernel_pt - vma)) as [E ?]; subst w1; unfold PAGE_MASK; rewrite E; done).
  assert (Ew0 : w0 = u32 (bootstrap_pt - kernel_high_vma (p_kinfo s)) / 4096 * 4096 + 3 ∧
    0 ≤ w0 < 4294967296)
    by (destruct (table_entry (bootstrap_pt - kernel_high_vma (p_kinfo s))) as [E ?];
        subst w0; rewrite E; done).
  assert (Hkr : 0 < vma / 4194304 < 1024) by (Z.to_euclidean_division_equations; lia).
  set (ki := vma / 4194304) in *.
  match goal with |- context [memset ?m0 _ _ _] => set (m2 := m0) end.
  destruct (memset_ok m2 bp 0 4096 ltac:(lia)) as (m3 & E3 & H3).
  unfold sizeof_page_table. rewrite E3.
  destruct (identity_map_ok m3 bp 0 0x100000 256 0 Hb0 Hbe ltac:(lia) eq_refl
    ltac:(lia) ltac:(lia) ltac:(lia) ltac:(lia) ltac:(lia) ltac:(lia))
    as (m4 & E4 & I1 & I2 & I3).
  rewrite E4. unfold visited_modules. rewrite (proj2 (Z.leb_le _ _)) by lia. fold mods.
  destruct (map_modules_ok bootstrap_pt vma mods m4 Hb0 Hbe Hok) as (m5 & E5 & C5 & H5). rewrite E5.
  fold bp in C5, H5.
  assert (Hm5 : ∀ x, ¬ within bp 4096 x → load8 m5 x = load8 m2 x).
  { intros x Hx. rewrite C5 by done. rewrite I3 by done. by rewrite H3, decide_False. }
  assert (Hpd : ∀ i, 0 ≤ i < 1024 → load32 m5 (entry pd i) = load32 m2 (entry pd i)).
  { intros i Hi. apply load32_ext. intros b Hb. apply Hm5. unfold within, entry. clear -Hd0 Hb0 Hde Hbe Hbd Hb Hi. wrap_lia. }
  exists m5. split; [done|]. split_and!.
  - intros p Hp Hcase. destruct (H5 p Hp) as (P1 & _ & P3). destruct Hcase as [Hlt|Hmd]; [|by apply P1].
    apply P3. unfold ident. specialize (I1 p ltac:(lia)). rewrite !Z.add_0_l in I1. done.
  - intros p Hp Hnm. destruct (H5 p ltac:(lia)) as (_ & P2 & _). rewrite P2 by done.
    rewrite I2 by lia. rewrite (load32_ext m3 ∅); [done|]. intros b Hb. rewrite H3, decide_True; [done|].
    unfold within, entry. wrap_lia.
  - rewrite Hpd by lia. subst m2. cbn [p_mem p_with_mem]. rewrite load32_store32_eq.
    rewrite <-(proj1 Ew0). apply u32_small, Ew0.
  - rewrite Hpd by lia. subst m2. cbn [p_mem p_with_mem].
    rewrite load32_store32_disj by (apply entry_disj; lia). rewrite load32_store32_eq.
    rewrite <-(proj1 Ew1). apply u32_small, Ew1.
  - intros x X1 X2 X3. rewrite Hm5 by done. subst m2. cbn [p_mem p_with_mem].
    by rewrite !store32_out.
Qed.
Lemma boot_modules_identity_witness :
  ∃ m', bootstrap_map_boot_modules 0xFE900000 0xFE902000 0xFE904000 0xFE800000 demo_paging
        = Ok (tt, PagingSt m' demo_kinfo []) ∧
    ident 0x104000 m' 0x112 ∧ load32 m' (entry 0x104000 0x113) = 0.
Proof.
  destruct (boot_modules_identity 0xFE900000 0xFE902000 0xFE904000 0xFE800000 demo_paging)
    as (m' & H1 & H2 & H3 & _);
    [vm_compute; congruence|vm_compute; congruence|right; vm_compute; congruence|lia|simpl; lia..| |].
  - constructor; [|constructor]. unfold module_ok. simpl. split_and!; reflexivity || lia.
  - exists m'. split; [exact H1|]. split.
    + apply H2; [lia|]. right. exists (BootModule 0x110000 0x112345 0 []).
      split; [left|]. unfold module_page. simpl. lia.
    + apply H3; [lia|]. intros md Hmd. apply list_elem_of_singleton in Hmd as ->.
      unfold module_page. simpl. lia.
Defined.
