(* ===== verification/Space.v ===== *)
(** * Space: whole address spaces under bootstrap_mmap

    The invariant of a page directory together with the supply of free frames:
    all 1024 entries are in order. A mapping call keeps it, translates the
    range as asked and leaves every other page and every byte outside the
    paging structures alone. *)

From S2P Require Import Prelude Machine ArchPaging KInfo Exec Paging PagingInv PagingProps.

(** [n] free frames from [A] on; directory and tables apart from each other and
    from the supply *)
Record space (pd : Z) (s : paging_st) (A n : Z) : Prop := {
  sp_supply : supply s A n;
  sp_dir : dir_ok pd (p_mem s) 0 1024 A (A + 4096 * n);
}.

Lemma dir_ok_sub pd m d0 k lo hi :
  dir_ok pd m 0 1024 lo hi → 0 ≤ d0 → d0 + k ≤ 1024 → dir_ok pd m d0 k lo hi.
Proof.
  intros [H1 H2 H3 H4] Hd Hk. constructor; [done|lia|intros; apply H3; [lia|done]|].
  intros; apply H4; [lia|lia|done..].
Qed.

(** A byte of the paging structures of [s]: the directory or a table *)
Definition structural (pd : Z) (m : mem) (x : Z) : Prop :=
  within pd 4096 x ∨ ∃ i, 0 ≤ i < 1024 ∧ pde pd m i ≠ 0 ∧ within (table pd m i) 4096 x.

Section call.
Context (debug : bool) (info : exec_info) (paddr vaddr size flags : Z) (s : paging_st) (A n : Z).
Abbreviation pd := (page_directory_of info).
Abbreviation v0 := (vaddr / 4096).
Abbreviation N := (size / 4096).
Abbreviation d0 := (v0 / 1024).
Abbreviation k := (mmap_k info vaddr size s).

(** What the call needs *)
Record mappable_in : Prop := {
  mi_req : request paddr vaddr size;
  mi_range : d0 + k ≤ 1024;
  mi_enough : k + N ≤ n;
  mi_cover : mmap_covered info vaddr size s;
}.

(** What it does, using up [u] frames *)
Record mapped_in (s' : paging_st) (u : Z) : Prop := {
  mo_used : 0 ≤ u ≤ k + N;
  mo_space : space pd s' (A + 4096 * u) (n - u);
  mo_cr3 : p_cr3 s' = p_cr3 s;
  mo_in : ∀ j, 0 ≤ j < N → epte pd (p_mem s') (v0 + j) =
    mapped_frame pd (p_mem s) paddr (mmap_A info vaddr size s A) v0 j + mmap_flags flags;
  mo_out : ∀ v, 0 ≤ v < 1048576 → v < v0 ∨ v0 + N ≤ v →
    epte pd (p_mem s') v = epte pd (p_mem s) v;
  mo_mem : ∀ x, ¬ structural pd (p_mem s) x → ¬ within A (4096 * u) x →
    load8 (p_mem s') x = load8 (p_mem s) x;
  mo_far : ∀ x, ¬ within (entry pd d0) (4 * k) x → ¬ within A (4096 * u) x →
    (∀ i, d0 ≤ i < d0 + k → pde pd (p_mem s) i ≠ 0 → ¬ within (table pd (p_mem s) i) 4096 x) →
    load8 (p_mem s') x = load8 (p_mem s) x;
  mo_old : ∀ i, 0 ≤ i < 1024 → pde pd (p_mem s) i ≠ 0 → pde pd (p_mem s') i = pde pd (p_mem s) i;
  mo_new : ∀ i, 0 ≤ i < 1024 → pde pd (p_mem s) i = 0 → pde pd (p_mem s') i ≠ 0 →
    d0 ≤ i < d0 + k ∧ A ≤ table pd (p_mem s') i ∧
    table pd (p_mem s') i + 4096 ≤ mmap_A info vaddr size s A;
  mo_tables : ∀ i, d0 ≤ i < d0 + k → pde pd (p_mem s') i ≠ 0;
  mo_first : mmap_A info vaddr size s A ≤ A + 4096 * u;
  mo_take : paddr = PAGE_ALLOCATE →
    mmap_A info vaddr size s A + 4096 * free_before pd (p_mem s) v0 N = A + 4096 * u;
  mo_exact : u = missing pd (p_mem s) d0 k +
    (if paddr =? PAGE_ALLOCATE then free_before pd (p_mem s) v0 N else 0);
}.

Hypothesis Hsp : space pd s A n.
Hypothesis Hmi : mappable_in.

Lemma old_mappable : mappable info paddr vaddr size s A n.
Proof using Hsp Hmi.
  destruct Hsp as [Hsup Hdir], Hmi as [Hreq Hr He Hc]. split; try done.
  apply dir_ok_sub; [done| |done]. destruct Hreq as [(Hv & _) _ _].
  apply Z.div_pos; [apply Z.div_pos; lia|lia].
Qed.

(** An entry of the directory outside the range stays. *)
Lemma other_pde s' i :
  bootstrap_mmap debug info paddr vaddr size flags s = Ok (0, s') →
  0 ≤ i < 1024 → i < d0 ∨ d0 + k ≤ i → pde pd (p_mem s') i = pde pd (p_mem s) i.
Proof using Hsp Hmi.
  intros Hrun Hi Hout. pose proof old_mappable as [Hreq Hsup Hen Hdir Hcov].
  pose proof (dir_pd _ _ _ _ _ _ (sp_dir _ _ _ _ Hsp)) as (Hp0 & Hp1 & Hp2).
  pose proof (dir_range _ _ _ _ _ _ Hdir) as (Hd0 & Hdk & _).
  assert (Hk1 : 1 ≤ k) by apply (mmap_counts info paddr vaddr size s Hreq).
  assert (HN : 0 ≤ N) by (destruct Hreq as [_ _ [? ?]]; apply Z.div_pos; lia).
  apply load32_ext. intros b Hb.
  apply (bootstrap_mmap_frame debug info paddr vaddr size flags s A n Hreq Hsup Hen Hdir Hcov s' Hrun).
  - unfold within, entry. clear -Hb Hi Hout Hp0 Hp1 Hd0 Hdk Hk1. wrap_lia.
  - pose proof (missing_range pd (p_mem s) d0 k ltac:(lia)).
    destruct Hsup as [_ (HA0 & _ & HAe & Hn0)].
    unfold within, entry. clear -Hb Hi Hp0 Hp1 Hp2 HA0 HAe Hn0 H Hen HN. wrap_lia.
  - intros q Hq Hnz. destruct (dir_tab _ _ _ _ _ _ Hdir q Hq Hnz) as (_ & Hd & _).
    destruct (table_page pd (p_mem s) q) as (_ & Ht0 & Ht1).
    unfold within, entry. clear -Hb Hi Hp0 Hp1 Hd Ht0 Ht1. wrap_lia.
Qed.

(** An entry of a table outside the range stays. *)
Lemma other_tent s' i q :
  bootstrap_mmap debug info paddr vaddr size flags s = Ok (0, s') →
  0 ≤ i < 1024 → i < d0 ∨ d0 + k ≤ i → pde pd (p_mem s) i ≠ 0 → 0 ≤ q < 1024 →
  load32 (p_mem s') (entry (table pd (p_mem s) i) q) =
  load32 (p_mem s) (entry (table pd (p_mem s) i) q).
Proof using Hsp Hmi.
  intros Hrun Hi Hout Hnz Hq. pose proof old_mappable as [Hreq Hsup Hen Hdir Hcov].
  pose proof (sp_dir _ _ _ _ Hsp) as [_ _ Ht Hinj].
  pose proof (dir_range _ _ _ _ _ _ Hdir) as (Hd0 & Hdk & _).
  pose proof (dir_pd _ _ _ _ _ _ Hdir) as (Hp0 & Hp1 & _).
  assert (Hk1 : 1 ≤ k) by apply (mmap_counts info paddr vaddr size s Hreq).
  assert (HN : 0 ≤ N) by (destruct Hreq as [_ _ [? ?]]; apply Z.div_pos; lia).
  destruct (Ht i Hi Hnz) as (_ & Hpd & Hlo). destruct (table_page pd (p_mem s) i) as (_ & Ht0 & Ht1).
  apply load32_ext. intros b Hb.
  apply (bootstrap_mmap_frame debug info paddr vaddr size flags s A n Hreq Hsup Hen Hdir Hcov s' Hrun).
  - unfold within, entry. clear -Hb Hq Hpd Hp0 Hp1 Ht0 Ht1 Hd0 Hdk Hk1. wrap_lia.
  - pose proof (missing_range pd (p_mem s) d0 k ltac:(lia)).
    destruct Hsup as [_ (HA0 & _ & HAe & Hn0)].
    unfold within, entry. clear -Hb Hq Ht0 Ht1 Hlo HA0 HAe Hn0 H Hen HN. wrap_lia.
  - intros j Hj Hnzj. destruct (table_page pd (p_mem s) j) as (_ & Hj0 & Hj1).
    assert (Hd := Hinj i j Hi ltac:(lia) Hnz Hnzj ltac:(lia)).
    unfold within, entry. clear -Hb Hq Hd Ht0 Ht1 Hj0 Hj1. wrap_lia.
Qed.

(** The tables of the range after the call: the old ones, or frames of the
    supply. *)
Lemma range_pde m1 m' c :
  phase1 pd (p_mem s) m1 d0 k k (pde_flags (is_kernel info)) →
  (∀ i, d0 ≤ i < d0 + k → pde pd m' i = pde pd m1 i) →
  fresh1 pd (p_mem s) m1 d0 k k A c →
  ∀ i, d0 ≤ i < d0 + k →
    (pde pd (p_mem s) i ≠ 0 → pde pd m' i = pde pd (p_mem s) i) ∧
    (pde pd (p_mem s) i = 0 → A ≤ table pd m' i ∧ table pd m' i + 4096 ≤ A + 4096 * c).
Proof using.
  intros [P1 _ _] P2 [_ F2] i Hi. split; intros E.
  - rewrite (P2 i Hi). by apply (P1 i Hi E).
  - unfold table. rewrite (P2 i Hi). pose proof (F2 i Hi E) as [H1 H2].
    unfold table in H1, H2. lia.
Qed.

(** The whole directory stays in order. *)
Lemma dir_ok_after s' lo :
  bootstrap_mmap debug info paddr vaddr size flags s = Ok (0, s') →
  A ≤ lo → lo ≤ A + 4096 * n →
  dir_ok pd (p_mem s') d0 k lo (A + 4096 * n) →
  (∀ i, d0 ≤ i < d0 + k →
    (pde pd (p_mem s) i ≠ 0 → pde pd (p_mem s') i = pde pd (p_mem s) i) ∧
    (pde pd (p_mem s) i = 0 → A ≤ table pd (p_mem s') i ∧ table pd (p_mem s') i + 4096 ≤ lo)) →
  dir_ok pd (p_mem s') 0 1024 lo (A + 4096 * n).
Proof using Hsp Hmi.
  intros Hrun H1 H2 Hin Hr. pose proof (sp_dir _ _ _ _ Hsp) as [Dp Dr Dt Di].
  assert (Hout := other_pde s'). specialize (fun i => Hout i Hrun).
  assert (Ho : ∀ i, 0 ≤ i < 1024 → i < d0 ∨ d0 + k ≤ i →
    pde pd (p_mem s') i = pde pd (p_mem s) i ∧ table pd (p_mem s') i = table pd (p_mem s) i).
  { intros i Hi Hx. unfold table. by rewrite (Hout i Hi Hx). }
  assert (Hold : ∀ i, d0 ≤ i < d0 + k → pde pd (p_mem s) i ≠ 0 →
    table pd (p_mem s') i = table pd (p_mem s) i).
  { intros i Hi Hz. unfold table. by rewrite (proj1 (Hr i Hi) Hz). }
  assert (Hmix : ∀ i j, d0 ≤ i < d0 + k → 0 ≤ j < 1024 → j < d0 ∨ d0 + k ≤ j → pde pd (p_mem s') j ≠ 0 →
    table pd (p_mem s') i + 4096 ≤ table pd (p_mem s') j ∨
    table pd (p_mem s') j + 4096 ≤ table pd (p_mem s') i).
  { intros i j Hi Hj Hx Hz. destruct (Ho j Hj Hx) as [Ej Tj]. rewrite Tj. rewrite Ej in Hz.
    destruct (decide (pde pd (p_mem s) i = 0)) as [E|E].
    - destruct (proj2 (Hr i Hi) E), (Dt j Hj Hz) as (_ & _ & ?). lia.
    - rewrite (Hold i Hi E). apply Di; [|done..|lia]. pose proof (dir_range _ _ _ _ _ _ Hin). lia. }
  constructor; [lia|lia| |].
  - intros i Hi Hz. destruct (decide (d0 ≤ i < d0 + k)) as [Hx|Hx].
    + by apply (dir_tab _ _ _ _ _ _ Hin).
    + destruct (Ho i Hi ltac:(lia)) as [-> Tj]. rewrite Tj. destruct (Ho i Hi ltac:(lia)) as [Ej _].
      rewrite Ej in Hz. destruct (Dt i Hi Hz) as (? & ? & ?). split_and!; [done|done|lia].
  - intros i j Hi Hj Hzi Hzj Hne.
    destruct (decide (d0 ≤ i < d0 + k)) as [Hx|Hx], (decide (d0 ≤ j < d0 + k)) as [Hy|Hy].
    + by apply (dir_inj _ _ _ _ _ _ Hin).
    + apply Hmix; [done..|lia|done].
    + destruct (Hmix j i); [done..|lia|done| |]; lia.
    + destruct (Ho i Hi ltac:(lia)) as [Ei Ti], (Ho j Hj ltac:(lia)) as [Ej Tj]. rewrite Ti, Tj.
      rewrite Ei in Hzi. rewrite Ej in Hzj. by apply Di.
Qed.

(** An entry outside the range stays, in every table. *)
Lemma other_epte s' v :
  bootstrap_mmap debug info paddr vaddr size flags s = Ok (0, s') →
  0 ≤ v < 1048576 → v / 1024 < d0 ∨ d0 + k ≤ v / 1024 →
  epte pd (p_mem s') v = epte pd (p_mem s) v.
Proof using Hsp Hmi.
  intros Hrun Hv Hx. assert (Hi : 0 ≤ v / 1024 < 1024) by (Z.to_euclidean_division_equations; lia).
  pose proof (other_pde s' (v / 1024) Hrun Hi Hx) as E. unfold epte. rewrite E.
  case_decide as Ez; [done|]. unfold pte, table. rewrite E.
  apply (other_tent s' _ _ Hrun Hi Hx Ez). apply Z.mod_pos_bound. lia.
Qed.

Lemma used_range m1 :
  let c := missing pd (p_mem s) d0 k in
  let t := taken pd m1 paddr v0 N in
  0 ≤ c ∧ 0 ≤ t ∧ 0 ≤ c + t ≤ k + N.
Proof using Hmi.
  destruct Hmi as [Hreq _ _ _].
  destruct (mmap_counts info paddr vaddr size s Hreq) as (_ & _ & _ & HN & _ & _ & _ & Hk & _).
  pose proof (missing_range pd (p_mem s) d0 k ltac:(lia)).
  pose proof (unmapped_range pd m1 v0 N ltac:(lia)). cbv zeta. unfold taken.
  destruct (paddr =? 0); lia.
Qed.

Theorem space_mmap :
  ∃ s' u, bootstrap_mmap debug info paddr vaddr size flags s = Ok (0, s') ∧ mapped_in s' u.
Proof using Hsp Hmi.
  pose proof old_mappable as Hmap. pose proof Hmap as [Hreq Hsup Hen Hdir Hcov].
  destruct (bootstrap_mmap_full debug info paddr vaddr size flags s A n Hreq Hsup Hen Hdir Hcov)
    as (s' & m1 & Hrun & Hph1 & Hph2 & Hnz & Hsup' & Hcr & Hfr).
  destruct (used_range m1) as (Hc & Ht & Hu). pose proof Hph2 as [Pd Ppde Pdone Prest _].
  set (c := missing pd (p_mem s) d0 k) in *. set (t := taken pd m1 paddr v0 N) in *.
  assert (EA : mmap_A info vaddr size s A + 4096 * t = A + 4096 * (c + t))
    by (unfold mmap_A; fold c; lia).
  assert (Et : t = if paddr =? PAGE_ALLOCATE then free_before pd (p_mem s) v0 N else 0).
  { assert (0 ≤ N) by (destruct Hreq as [_ _ [? ?]]; apply Z.div_pos; lia).
    subst t. unfold taken. by rewrite (unmapped_epte info paddr vaddr size s A n m1 N Hph1 Hmap). }
  pose proof Hsup as [_ (HA0 & HAm & HAe & Hn0)].
  assert (Hr := range_pde m1 (p_mem s') c Hph1 Ppde Hfr).
  rewrite EA in Pd, Hsup'. replace (n - c - t) with (n - (c + t)) in Hsup' by lia.
  assert (Ehi : A + 4096 * (c + t) + 4096 * (n - (c + t)) = A + 4096 * n) by lia.
  exists s', (c + t). split; [exact Hrun|]. constructor.
  - lia.
  - constructor; [done|]. rewrite Ehi. apply dir_ok_after; [done|lia|lia|done|].
    intros i Hi. destruct (Hr i Hi) as [R1 R2]. split; [done|]. intros Ez. specialize (R2 Ez). lia.
  - done.
  - intros j Hj. pose proof (pages_in_dir _ _ _ _ _ _ _ j Hmap Hj) as Hd.
    unfold epte. rewrite decide_False by (rewrite Ppde by done; auto). rewrite Pdone by done.
    by rewrite (frame_epte info paddr vaddr size s A n m1 j Hph1 Hmap Hj).
  - intros v Hv Hx. destruct (decide (d0 ≤ v / 1024 < d0 + k)) as [Hd|Hd].
    + unfold epte at 1. rewrite decide_False by (rewrite Ppde by done; auto).
      rewrite Prest by done. by apply (epte_phase1 _ _ _ _ _ _ _ Hph1).
    + apply other_epte; [done|done|lia].
  - intros x X1 X2. pose proof (dir_range _ _ _ _ _ _ Hdir).
    apply (bootstrap_mmap_frame debug info paddr vaddr size flags s A n Hreq Hsup Hen Hdir Hcov s' Hrun).
    + contradict X1. left. pose proof (dir_pd _ _ _ _ _ _ Hdir). unfold within, entry in *. wrap_lia.
    + contradict X2. unfold within in *. fold c in X2. wrap_lia.
    + intros i Hi Hzi. contradict X1. right. exists i. split; [lia|done].
  - intros x X1 X2 X3.
    apply (bootstrap_mmap_frame debug info paddr vaddr size flags s A n Hreq Hsup Hen Hdir Hcov s' Hrun);
      [done| |done].
    contradict X2. unfold within in *. fold c in X2. wrap_lia.
  - intros i Hi Hz. destruct (decide (d0 ≤ i < d0 + k)) as [Hx|Hx]; [by apply Hr|].
    apply other_pde; [done|done|lia].
  - intros i Hi Hz Hz'. destruct (decide (d0 ≤ i < d0 + k)) as [Hx|Hx].
    + split; [done|]. unfold mmap_A. fold c. by apply Hr.
    + rewrite (other_pde s' i Hrun Hi ltac:(lia)) in Hz'. done.
  - intros i Hi. rewrite Ppde by done. auto.
  - lia.
  - intros Ep. rewrite <-EA, Et, Ep. reflexivity.
  - by rewrite Et.
Qed.
End call.

(** ** Sequences of mappings

    Requests for pages that have no entry yet, in directory entries whose
    first table exists. *)

Record req := Req { r_vaddr : Z; r_paddr : Z; r_size : Z; r_flags : Z }.

Definition r_page (r : req) : Z := r_vaddr r / 4096.
Definition r_pages (r : req) : Z := r_size r / 4096.
Definition covers (r : req) (v : Z) : Prop := r_page r ≤ v < r_page r + r_pages r.
(** An upper bound of the frames a request takes *)
Definition need (r : req) : Z := r_pages r / 1024 + 1 + r_pages r.
Definition needs (rs : list req) : Z := foldr (λ r t, need r + t) 0 rs.

Record req_ok (r : req) : Prop := {
  ro_request : request (r_paddr r) (r_vaddr r) (r_size r);
  ro_range : r_page r / 1024 + r_pages r / 1024 + 1 ≤ 1024;
  ro_cover : r_page r mod 1024 + r_pages r mod 1024 ≤ 1024;
}.

(** Mapping changes nothing of the boot information but the memory map. *)
Definition same_info (s s' : paging_st) : Prop :=
  ∃ l, p_kinfo s' = with_memmaps (λ _, l) (p_kinfo s).
#[export] Instance same_info_preorder : PreOrder same_info.
Proof.
  split.
  - intros [m k c]. exists (memmaps k). by destruct k.
  - intros s1 s2 s3 [l E] [l' E']. exists l'. by rewrite E', E.
Qed.
#[local] Hint Extern 1 (PreOrder _) => apply _ : mstable.

(** By the head of the goal: no unfolding of the operations *)
Ltac info_tac := intros; repeat
  (cbv zeta; lazymatch goal with
   | |- mstable _ (_ ≫= _) => apply mstable_bind; [apply _| |intros]
   | |- mstable _ (if _ then _ else _) => apply mstable_if
   | |- mstable _ (mfor _ _) => apply mstable_mfor; [apply _|intros]
   | |- mstable _ (lift _) => apply mstable_lift; apply _
   | |- mstable _ (gets _) => apply mstable_gets; apply _
   | |- mstable _ (mret _) => apply mstable_ret; apply _
   | |- mstable _ (ASSERT _ _) => apply mstable_ASSERT; apply _
   | |- mstable _ (ub _) => apply mstable_ub
   | |- mstable _ (panic _) => apply mstable_panic
   | |- mstable _ (match ?e with _ => _ end) => destruct e
   | |- _ => solve [auto with mstable nocore]
   end).

Lemma modify_mem_info f : mstable same_info (modify (p_with_mem f)).
Proof. apply mstable_modify. intros [m k c]. exists (memmaps k). by destruct k. Qed.
Lemma fetch_page_info debug : mstable same_info (bootstrap_fetch_page debug).
Proof.
  unfold bootstrap_fetch_page. info_tac.
  apply mstable_modify. intros [m' k' c']. by eexists.
Qed.
#[local] Hint Resolve modify_mem_info fetch_page_info : mstable.
Lemma mmap_table_info debug info d i : mstable same_info (mmap_table debug info d i).
Proof. unfold mmap_table, in_table. info_tac. Qed.
Lemma mmap_page_info debug pd paddr vaddr pg offset cur :
  mstable same_info (mmap_page debug pd paddr vaddr pg offset cur).
Proof. unfold mmap_page. info_tac. Qed.
#[local] Hint Resolve mmap_table_info mmap_page_info : mstable.
Lemma mmap_pages_info debug pd paddr vaddr pg offsets : ∀ cur,
  mstable same_info (mmap_pages debug pd paddr vaddr pg offsets cur).
Proof. induction offsets; simpl; info_tac. Qed.
#[local] Hint Resolve mmap_pages_info : mstable.
Lemma bootstrap_mmap_info debug info paddr vaddr size flags :
  mstable same_info (bootstrap_mmap debug info paddr vaddr size flags).
Proof. unfold bootstrap_mmap. info_tac. Qed.
#[export] Hint Resolve bootstrap_mmap_info : mstable.

Section requests.
Context (debug : bool) (info : exec_info).
Abbreviation pd := (page_directory_of info).

Definition map_req (r : req) : P unit :=
  _ ← bootstrap_mmap debug info (r_paddr r) (r_vaddr r) (r_size r) (r_flags r);
  mret tt.

Lemma map_reqs_info rs : mstable same_info (mfor rs map_req).
Proof. unfold map_req. info_tac. Qed.

(** The frame of page [j] of a request whose allocated frames start at [B] *)
Definition req_frame (r : req) (B j : Z) : Z :=
  if r_paddr r =? PAGE_ALLOCATE then B + 4096 * j else r_paddr r + 4096 * j.

Lemma req_bounds r : req_ok r →
  r_vaddr r = 4096 * r_page r ∧ r_size r = 4096 * r_pages r ∧ 0 ≤ r_page r ∧ 0 < r_pages r ∧
  r_page r + r_pages r ≤ 1048576.
Proof.
  intros [[(Hv & Hvm & Hve) _ (Hs & Hsm)] _ _]. unfold r_page, r_pages.
  Z.to_euclidean_division_equations. lia.
Qed.

Lemma free_all m v N :
  0 ≤ N → (∀ w, v ≤ w < v + N → epte pd m w = 0) → free_before pd m v N = N.
Proof.
  intros HN Hz. unfold free_before. rewrite filter_all.
  - rewrite length_seqZ. lia.
  - apply Forall_forall. intros w Hw%elem_of_seqZ. by apply Hz.
Qed.

(** The directory entries a request looks at when its first table exists *)
Lemma req_span r s :
  req_ok r → table pd (p_mem s) (r_page r / 1024) ≠ 0 →
  mmap_k info (r_vaddr r) (r_size r) s =
    Z.max ((r_page r + r_pages r - 1) / 1024 - r_page r / 1024 + 1)
      (r_pages r / 1024 + (if r_page r mod 1024 + r_pages r >? 1024 then 1 else 0)).
Proof.
  intros Hok Ht. pose proof (req_bounds r Hok) as (Ev & Es & Hp0 & Hp1 & Hp2).
  unfold mmap_k, mmap_span. fold (r_page r) (r_pages r).
  rewrite Ev, Es, mmap_tables_eq by done. rewrite (proj2 (Z.eqb_neq _ 0) Ht). f_equal. lia.
Qed.

(** A request in a single table, and the frames requests of this kind take *)
Definition one_table (r : req) : Prop := r_page r mod 1024 + r_pages r ≤ 1024 ∧ r_pages r < 1024.
Definition allocs (rs : list req) : Z :=
  foldr (λ r t, (if r_paddr r =? PAGE_ALLOCATE then r_pages r else 0) + t) 0 rs.
Definition same_pdes (m m' : mem) : Prop := ∀ i, 0 ≤ i < 1024 → pde pd m' i = pde pd m i.

(** It adds no table. *)
Lemma one_table_cost r s A n s' u :
  req_ok r → one_table r → table pd (p_mem s) (r_page r / 1024) ≠ 0 →
  (∀ v, covers r v → epte pd (p_mem s) v = 0) →
  mapped_in info (r_paddr r) (r_vaddr r) (r_size r) (r_flags r) s A n s' u →
  u = allocs [r] ∧ same_pdes (p_mem s) (p_mem s').
Proof.
  intros Hok [H1 H2] Ht Hz M. pose proof (req_bounds r Hok) as (Ev & Es & Hp0 & Hp1 & Hp2).
  assert (Hpde : pde pd (p_mem s) (r_page r / 1024) ≠ 0).
  { intros E. apply Ht. unfold table. by rewrite E. }
  assert (Hk : mmap_k info (r_vaddr r) (r_size r) s = 1).
  { rewrite req_span by done. rewrite (Z.div_small (r_pages r)) by lia.
    rewrite (proj2 (gtb_false _ _)) by lia.
    replace ((r_page r + r_pages r - 1) / 1024) with (r_page r / 1024); [lia|].
    clear -H1 Hp0 Hp1. Z.to_euclidean_division_equations. lia. }
  split.
  - rewrite (mo_exact _ _ _ _ _ _ _ _ _ _ M), Hk. fold (r_page r) (r_pages r).
    change (missing pd (p_mem s) (r_page r / 1024) 1) with (missing pd (p_mem s) (r_page r / 1024) (0 + 1)).
    rewrite missing_step, Z.add_0_r by lia. change (missing _ _ _ 0) with 0.
    rewrite decide_False by done.
    rewrite free_all; [simpl; destruct (_ =? _); reflexivity || lia|lia|exact Hz].
  - intros i Hi. destruct (decide (pde pd (p_mem s) i = 0)) as [E|E].
    + destruct (decide (pde pd (p_mem s') i = 0)) as [E'|E']; [congruence|].
      destruct (mo_new _ _ _ _ _ _ _ _ _ _ M i Hi E E') as [Hr _]. rewrite Hk in Hr.
      fold (r_page r) in Hr. replace i with (r_page r / 1024) in E by lia. done.
    + by apply (mo_old _ _ _ _ _ _ _ _ _ _ M).
Qed.

(** One request *)
Lemma map_req_ok r s A n :
  space pd s A n → req_ok r → table pd (p_mem s) (r_page r / 1024) ≠ 0 → need r ≤ n →
  (∀ v, covers r v → epte pd (p_mem s) v = 0) →
  ∃ s' u B, map_req r s = Ok (tt, s') ∧
    mapped_in info (r_paddr r) (r_vaddr r) (r_size r) (r_flags r) s A n s' u ∧
    0 ≤ u ≤ need r ∧ A ≤ B ∧ B mod 4096 = 0 ∧ B = mmap_A info (r_vaddr r) (r_size r) s A ∧
    (r_paddr r = PAGE_ALLOCATE → B + r_size r = A + 4096 * u) ∧
    ∀ j, 0 ≤ j < r_pages r →
      epte pd (p_mem s') (r_page r + j) = req_frame r B j + mmap_flags (r_flags r).
Proof.
  intros Hsp Hok Ht Hn Hz. pose proof (req_bounds r Hok) as (Ev & Es & Hp0 & Hp1 & Hp2).
  pose proof Hok as [Hreq Hr Hc].
  destruct (mmap_counts info (r_paddr r) (r_vaddr r) (r_size r) s Hreq)
    as (_ & _ & _ & _ & _ & _ & _ & Hk1 & _).
  assert (Hk : mmap_k info (r_vaddr r) (r_size r) s ≤ r_pages r / 1024 + 1).
  { unfold mmap_k, mmap_span. fold (r_page r) (r_pages r).
    rewrite Ev, Es, mmap_tables_eq by done. rewrite (proj2 (Z.eqb_neq _ 0) Ht).
    assert (0 ≤ r_pages r / 1024) by (apply Z.div_pos; lia).
    assert ((r_page r + r_pages r - 1) / 1024 - r_page r / 1024 ≤ r_pages r / 1024)
      by (clear -Hc Hp0 Hp1; Z.to_euclidean_division_equations; lia).
    case_match; lia. }
  destruct (space_mmap debug info (r_paddr r) (r_vaddr r) (r_size r) (r_flags r) s A n Hsp)
    as (s' & u & Hrun & Hm).
  { constructor; fold (r_page r) (r_pages r); [done|lia|unfold need in Hn; lia|by apply (covered_linear _ (r_paddr r)); [|right]]. }
  exists s', u, (mmap_A info (r_vaddr r) (r_size r) s A).
  pose proof (mo_used _ _ _ _ _ _ _ _ _ _ Hm) as Hu. fold (r_pages r) in Hu.
  destruct Hsp as [[_ (HA0 & HAm & _)] _].
  assert (Hmi := missing_range pd (p_mem s) (r_page r / 1024) (mmap_k info (r_vaddr r) (r_size r) s)
    ltac:(lia)).
  assert (Hall : ∀ j, 0 ≤ j ≤ r_pages r → free_before pd (p_mem s) (r_page r) j = j).
  { intros j Hj. apply free_all; [lia|]. intros w Hw. apply Hz. unfold covers. lia. }
  split_and!; [unfold map_req; by rewrite (bind_Ok_M _ _ _ _ _ Hrun)|done|lia|unfold need; lia| | |done| |].
  - unfold mmap_A. fold (r_page r). lia.
  - unfold mmap_A. clear -HAm. Z.to_euclidean_division_equations. lia.
  - intros Ep. rewrite <-(mo_take _ _ _ _ _ _ _ _ _ _ Hm Ep). fold (r_page r) (r_pages r).
    rewrite Hall by lia. lia.
  - intros j Hj. etrans; [apply (mo_in _ _ _ _ _ _ _ _ _ _ Hm j Hj)|]. f_equal. fold (r_page r).
    unfold mapped_frame, req_frame. rewrite decide_True by (apply Hz; unfold covers; lia).
    by rewrite Hall by lia.
Qed.

(** What a sequence of requests does, with [u] frames *)
Record maps (rs : list req) (s : paging_st) (A n : Z) (s' : paging_st) (u : Z) : Prop := {
  ms_used : 0 ≤ u ≤ needs rs;
  ms_space : space pd s' (A + 4096 * u) (n - u);
  ms_cr3 : p_cr3 s' = p_cr3 s;
  ms_in : Forall (λ r, ∃ B, A ≤ B ∧ B mod 4096 = 0 ∧
    (r_paddr r = PAGE_ALLOCATE → B + r_size r ≤ A + 4096 * u ∧
       ∀ i, 0 ≤ i < 1024 → pde pd (p_mem s') i ≠ 0 →
         table pd (p_mem s') i + 4096 ≤ B ∨ B + r_size r ≤ table pd (p_mem s') i) ∧
    ∀ j, 0 ≤ j < r_pages r →
      epte pd (p_mem s') (r_page r + j) = req_frame r B j + mmap_flags (r_flags r)) rs;
  ms_out : ∀ v, 0 ≤ v < 1048576 → Forall (λ r, ¬ covers r v) rs →
    epte pd (p_mem s') v = epte pd (p_mem s) v;
  ms_mem : ∀ x, ¬ structural pd (p_mem s) x → ¬ within A (4096 * u) x →
    load8 (p_mem s') x = load8 (p_mem s) x;
  ms_old : ∀ i, 0 ≤ i < 1024 → pde pd (p_mem s) i ≠ 0 → pde pd (p_mem s') i = pde pd (p_mem s) i;
  ms_new : ∀ i, 0 ≤ i < 1024 → pde pd (p_mem s) i = 0 → pde pd (p_mem s') i ≠ 0 →
    A ≤ table pd (p_mem s') i ∧ table pd (p_mem s') i + 4096 ≤ A + 4096 * u;
  ms_one : Forall one_table rs → u = allocs rs ∧ same_pdes (p_mem s) (p_mem s');
}.

Lemma table_same m m' i : pde pd m' i = pde pd m i → table pd m' i = table pd m i.
Proof. unfold table. by intros ->. Qed.

(** The request served first keeps its pages, and its frames stay apart from
    the tables, while the others are served. *)
Lemma maps_cons r rs s A n s1 u1 B s' u :
  space pd s A n → req_ok r → need r + needs rs ≤ n →
  mapped_in info (r_paddr r) (r_vaddr r) (r_size r) (r_flags r) s A n s1 u1 →
  0 ≤ u1 ≤ need r → A ≤ B → B mod 4096 = 0 → B = mmap_A info (r_vaddr r) (r_size r) s A →
  (r_paddr r = PAGE_ALLOCATE → B + r_size r = A + 4096 * u1) →
  (∀ j, 0 ≤ j < r_pages r →
      epte pd (p_mem s1) (r_page r + j) = req_frame r B j + mmap_flags (r_flags r)) →
  (∀ v, covers r v → Forall (λ r', ¬ covers r' v) rs) →
  (one_table r → u1 = allocs [r] ∧ same_pdes (p_mem s) (p_mem s1)) →
  maps rs s1 (A + 4096 * u1) (n - u1) s' u →
  maps (r :: rs) s A n s' (u1 + u).
Proof.
  intros Hsp Hok Hn M Hu1 HB HBm EB Htake Hj Hdis Hone [Hu Hsp' Hcr Hin Hout Hmem Hold Hnew Hsmall].
  pose proof (req_bounds r Hok) as (Ev & Es & Hp0 & Hp1 & Hp2).
  pose proof (sp_dir _ _ _ _ Hsp) as [Dp Dr Dt _].
  pose proof Hsp as [[_ (HA0 & _ & HAe & _)] _].
  pose proof M as [_ Msp Mcr _ Mout Mmem _ Mold Mnew _ Mf _ _]. rewrite <-EB in Mf.
  replace (A + 4096 * u1 + 4096 * u) with (A + 4096 * (u1 + u)) in * by lia.
  assert (Htab : ∀ i, 0 ≤ i < 1024 → pde pd (p_mem s') i ≠ 0 →
    (pde pd (p_mem s) i ≠ 0 ∧ table pd (p_mem s') i = table pd (p_mem s) i) ∨
    (pde pd (p_mem s) i = 0 ∧ A ≤ table pd (p_mem s') i ∧ table pd (p_mem s') i + 4096 ≤ B) ∨
    (pde pd (p_mem s) i = 0 ∧ A + 4096 * u1 ≤ table pd (p_mem s') i ∧
       table pd (p_mem s') i + 4096 ≤ A + 4096 * (u1 + u))).
  { intros i Hi Hz. destruct (decide (pde pd (p_mem s) i = 0)) as [E|E].
    - right. destruct (decide (pde pd (p_mem s1) i = 0)) as [E1|E1].
      + right. split; [done|]. by apply Hnew.
      + left. split; [done|]. rewrite (table_same _ _ _ (Hold i Hi E1)), EB.
        destruct (Mnew i Hi E E1) as (_ & ? & ?). done.
    - left. split; [done|]. apply table_same. rewrite Hold; [by apply Mold|done|].
      by rewrite Mold. }
  assert (Hbound : ∀ i, 0 ≤ i < 1024 → pde pd (p_mem s) i = 0 → pde pd (p_mem s1) i ≠ 0 →
    A ≤ table pd (p_mem s1) i ∧ table pd (p_mem s1) i + 4096 ≤ A + 4096 * u1).
  { intros i Hi E E1. destruct (Mnew i Hi E E1) as (_ & M1 & M2). split; [done|].
    rewrite EB in Mf. lia. }
  constructor.
  - simpl. lia.
  - by replace (n - (u1 + u)) with (n - u1 - u) by lia.
  - congruence.
  - apply Forall_cons. split.
    + exists B. split_and!; [done|done| |].
      * intros Ea. specialize (Htake Ea). split; [lia|]. intros i Hi Hz.
        destruct (Htab i Hi Hz) as [[E ->]|[(_ & _ & ?)|(_ & ? & _)]]; [|by left|right; lia].
        destruct (Dt i Hi E) as (_ & _ & ?). pose proof (sup_addr _ _ _ (sp_supply _ _ _ _ Msp)). lia.
      * intros j Hjr. rewrite Hout; [by apply Hj|lia|]. apply Hdis. unfold covers. lia.
    + eapply Forall_impl; [exact Hin|]. intros r' (B' & ? & ? & ? & ?). exists B'.
      split_and!; [lia|done..].
  - intros v Hv [Hr Hrs]%Forall_cons. rewrite Hout by done. apply Mout; [done|].
    unfold covers in Hr. fold (r_page r) (r_pages r). lia.
  - intros x X1 X2. rewrite Hmem.
    + apply Mmem; [done|]. contradict X2. unfold within in *. wrap_lia.
    + intros [Hx|(i & Hi & Hz & Hx)]; [by apply X1; left|].
      destruct (decide (pde pd (p_mem s) i = 0)) as [E|E].
      * destruct (Hbound i Hi E Hz). apply X2. unfold within in *. wrap_lia.
      * apply X1. right. exists i. rewrite <-(table_same _ _ _ (Mold i Hi E)). done.
    + contradict X2. unfold within in *. wrap_lia.
  - intros i Hi Hz. rewrite Hold; [by apply Mold|done|]. by rewrite Mold.
  - intros i Hi E Hz. destruct (Htab i Hi Hz) as [[? _]|[(_ & ? & ?)|(_ & ? & ?)]]; [done| |lia].
    split; [done|]. lia.
  - intros [H1 H2]%Forall_cons. destruct (Hone H1) as [-> S1], (Hsmall H2) as [-> S2].
    split; [simpl; lia|]. intros i Hi. by rewrite (S2 i Hi), (S1 i Hi).
Qed.

(** Requests that do not overlap *)
Fixpoint reqs_apart (rs : list req) : Prop :=
  match rs with
  | [] => True
  | r :: rs' => (∀ v, covers r v → Forall (λ r', ¬ covers r' v) rs') ∧ reqs_apart rs'
  end.

(** Requests in the order of their addresses *)
Fixpoint ascending (lo : Z) (rs : list req) : Prop :=
  match rs with
  | [] => True
  | r :: rs' => lo ≤ r_vaddr r ∧ ascending (r_vaddr r + r_size r) rs'
  end.

Lemma ascending_apart rs : ∀ lo,
  Forall req_ok rs → ascending lo rs → reqs_apart rs ∧ Forall (λ r, lo ≤ r_vaddr r) rs.
Proof.
  induction rs as [|r rs IH]; intros lo Hok Ha; [done|].
  apply Forall_cons in Hok as [Hr Hok]. destruct Ha as [Hlo Ha].
  destruct (IH _ Hok Ha) as [IHa IHf]. pose proof (req_bounds r Hr) as (Ev & Es & Hp0 & Hp1 & _).
  split; [split; [|done]|].
  - intros v Hv. rewrite Forall_forall in IHf, Hok |- *. intros r' Hin Hv'.
    specialize (IHf r' Hin). pose proof (req_bounds r' (Hok r' Hin)). unfold covers in *. lia.
  - apply Forall_cons. split; [done|]. eapply Forall_impl; [exact IHf|]. simpl. lia.
Qed.

(** Every request of a list is served when the frames suffice. *)
Theorem map_reqs_ok rs : ∀ s A n,
  space pd s A n → Forall req_ok rs → reqs_apart rs → needs rs ≤ n →
  Forall (λ r, table pd (p_mem s) (r_page r / 1024) ≠ 0 ∧
               ∀ v, covers r v → epte pd (p_mem s) v = 0) rs →
  ∃ s' u, mfor rs map_req s = Ok (tt, s') ∧ maps rs s A n s' u.
Proof.
  induction rs as [|r rs IH]; intros s A n Hsp Hok Hap Hn Hz.
  { exists s, 0. split; [done|]. constructor; try done.
    by rewrite Z.mul_0_r, Z.add_0_r, Z.sub_0_r. }
  apply Forall_cons in Hok as [Hr Hok], Hz as [[Ht Hzr] Hz]. destruct Hap as [Hd Hap].
  pose proof (req_bounds r Hr) as (Ev & Es & Hp0 & Hp1 & Hp2).
  assert (Hneed : 0 ≤ needs rs).
  { clear -Hok. induction Hok as [|r' rs' H _ IH]; [done|]. simpl.
    pose proof (req_bounds r' H) as (_ & _ & _ & ? & _). unfold need.
    assert (0 ≤ r_pages r' / 1024) by (apply Z.div_pos; lia). lia. }
  simpl in Hn.
  destruct (map_req_ok r s A n Hsp Hr Ht ltac:(lia) Hzr)
    as (s1 & u1 & B & Hrun & M & Hu1 & HB & HBm & EB & Htk & Hj).
  destruct (IH s1 (A + 4096 * u1) (n - u1)) as (s' & u & Hrun' & Hms).
  - apply (mo_space _ _ _ _ _ _ _ _ _ _ M).
  - done.
  - done.
  - lia.
  - apply Forall_forall. intros r' Hin. rewrite Forall_forall in Hz, Hok.
    destruct (Hz r' Hin) as [Ht' Hz'].
    pose proof (req_bounds r' (Hok r' Hin)) as (_ & _ & ? & ? & ?). split.
    + rewrite (table_same (p_mem s) (p_mem s1)); [done|].
      apply (mo_old _ _ _ _ _ _ _ _ _ _ M); [Z.to_euclidean_division_equations; lia|].
      intros E. apply Ht'. unfold table. by rewrite E.
    + intros v Hv. pose proof Hv as Hc. unfold covers in Hc.
      rewrite (mo_out _ _ _ _ _ _ _ _ _ _ M); [by apply Hz'|lia|].
      fold (r_page r) (r_pages r).
      destruct (decide (v < r_page r ∨ r_page r + r_pages r ≤ v)); [done|].
      assert (Hcr : covers r v) by (unfold covers; lia).
      specialize (Hd v Hcr). rewrite Forall_forall in Hd. by destruct (Hd r' Hin).
  - exists s', (u1 + u). split.
    + cbn [mfor]. rewrite (bind_Ok_M _ _ _ _ _ Hrun). exact Hrun'.
    + apply (maps_cons r rs s A n s1 u1 B); try done.
      intros H1. by apply (one_table_cost r s A n).
Qed.

(** What the memory management unit then sees *)
Lemma maps_walk rs s A n s' u r :
  Forall req_ok rs → maps rs s A n s' u → A mod 4096 = 0 → 0 < A → r ∈ rs →
  ∃ B, A ≤ B ∧
    (r_paddr r = PAGE_ALLOCATE → B mod 4096 = 0 ∧ B + r_size r ≤ A + 4096 * u ∧
       ∀ i, 0 ≤ i < 1024 → pde pd (p_mem s') i ≠ 0 →
         table pd (p_mem s') i + 4096 ≤ B ∨ B + r_size r ≤ table pd (p_mem s') i) ∧
    ∀ v, covers r v → mmu_walk (p_mem s') pd v =
      if Z.testbit (mmap_flags (r_flags r)) 0
      then Some (req_frame r B (v - r_page r), mmap_flags (r_flags r)) else None.
Proof.
  intros Hok Hm HAm HA Hin. pose proof Hm as [_ Hsp _ Hms _ _ _ _ _].
  rewrite Forall_forall in Hok, Hms. specialize (Hok r Hin).
  pose proof (req_bounds r Hok) as (Ev & Es & Hp0 & Hp1 & Hp2).
  destruct (Hms r Hin) as (B & HB & HBm & Hal & Hj). exists B. split; [done|].
  pose proof Hsp as [[_ (_ & _ & HAe & Hn0)] Hdir].
  split; [intros Ea; split; [done|by apply Hal]|]. intros v Hv. unfold covers in Hv.
  rewrite (walk_epte _ _ _ _ _ _ _ Hdir) by (Z.to_euclidean_division_equations; lia).
  replace v with (r_page r + (v - r_page r)) at 1 by lia. rewrite Hj by lia.
  pose proof (mmap_flags_range (r_flags r)) as Hfl.
  assert (Hfr : 0 ≤ req_frame r B (v - r_page r) < 4294967296 ∧
                req_frame r B (v - r_page r) mod 4096 = 0).
  { destruct Hok as [[_ (Hq0 & Hqm & Hqe) _] _ _]. unfold req_frame.
    destruct (Z.eqb_spec (r_paddr r) PAGE_ALLOCATE) as [E|E].
    - destruct (Hal E) as [Hbe _]. split; [lia|]. clear -HBm. Z.to_euclidean_division_equations. lia.
    - split; [lia|]. clear -Hqm. Z.to_euclidean_division_equations. lia. }
  destruct (entry_parts _ _ (proj1 Hfr) (proj2 Hfr) Hfl) as (_ & E1 & E2 & E3).
  unfold walk_entry. by rewrite E1, E2, E3.
Qed.

Lemma maps_walk_out rs s A n s' u v :
  space pd s A n → maps rs s A n s' u → 0 ≤ v < 1048576 → Forall (λ r, ¬ covers r v) rs →
  mmu_walk (p_mem s') pd v = mmu_walk (p_mem s) pd v.
Proof.
  intros Hsp Hm Hv Hr.
  assert (Hd : 0 ≤ v / 1024 < 0 + 1024) by (Z.to_euclidean_division_equations; lia).
  rewrite (walk_epte _ _ _ _ _ _ _ (sp_dir _ _ _ _ (ms_space _ _ _ _ _ _ Hm)) Hd).
  rewrite (walk_epte _ _ _ _ _ _ _ (sp_dir _ _ _ _ Hsp) Hd). f_equal.
  by apply (ms_out _ _ _ _ _ _ Hm).
Qed.
End requests.
