(* ===== verification/Kmalloc.v ===== *)
(** * Kmalloc: the kernel object allocator of kern/kmalloc.c

    The pool is a list of pages chained through their first word; a page given
    to a size class starts with a [page_hdr_t] and holds objects of one size,
    the free ones chained by index through their first word. The allocator
    works on the machine memory, where all of this lives. *)

From S2P Require Import Prelude Machine ArchPaging.

(** ** Constants and data (kmalloc.c:13-39) *)

Definition NO_CLASSES : Z := 9.
Definition MIN_BLOCK_SIZE : Z := 4.
Definition BAG_FREELIST_SENTINEL : Z := -1.
Definition PAGE_FREELIST_SENTINEL : Z := 0.

(** page_hdr_t: next at 0, the bit-fields object_size (unsigned, 16 bits) at 4
    and freelist_head_offset (signed, 16 bits) at 6; 8 bytes *)
Definition sizeof_page_hdr : Z := 8.
Definition hdr_next (m : mem) (hdr : Z) : Z := load32 m hdr.
Definition hdr_object_size (m : mem) (hdr : Z) : Z := load16 m (hdr + 4).
Definition hdr_freelist_head (m : mem) (hdr : Z) : Z := s16 (load16 m (hdr + 6)).
Definition set_hdr_next (m : mem) (hdr v : Z) : mem := store32 m hdr v.
Definition set_hdr_object_size (m : mem) (hdr v : Z) : mem := store16 m (hdr + 4) v.
Definition set_hdr_freelist_head (m : mem) (hdr v : Z) : mem := store16 m (hdr + 6) v.

Record bag_t := Bag { bag_free : Z; bag_full : Z }.

(** The file's static variables, and the memory. *)
Record kheap := KHeap {
  k_mem : mem;
  pool_start : Z;
  pool_end : Z;
  page_freelist_head : Z;
  bags : list bag_t;
}.

Definition with_mem (f : mem → mem) (k : kheap) : kheap :=
  KHeap (f (k_mem k)) (pool_start k) (pool_end k) (page_freelist_head k) (bags k).
Definition with_freelist (v : Z) (k : kheap) : kheap :=
  KHeap (k_mem k) (pool_start k) (pool_end k) v (bags k).
Definition with_bags (f : list bag_t → list bag_t) (k : kheap) : kheap :=
  KHeap (k_mem k) (pool_start k) (pool_end k) (page_freelist_head k) (f (bags k)).

(** The state before kmalloc_init. *)
Definition kheap_boot (m : mem) : kheap :=
  KHeap m 0 0 PAGE_FREELIST_SENTINEL (replicate 9 (Bag NULL NULL)).

(** ** Compiler builtins on a 32-bit operand *)

Fixpoint ctz_pos (p : positive) : Z :=
  match p with xO q => 1 + ctz_pos q | _ => 0 end.
Definition builtin_ffs (z : Z) : Z :=
  match z with Zpos p => 1 + ctz_pos p | _ => 0 end.
Definition builtin_clz (z : Z) : Z := 31 - Z.log2 z.

(** ** The operations *)

Abbreviation K := (M kheap).

(** Following a null page pointer is undefined. *)
Definition deref (p : Z) : K unit :=
  if p =? NULL then ub "NULL page header" else mret tt.

(** kmalloc.c:49 *)
Definition fetch_page : K Z :=
  head ← gets page_freelist_head;
  if head =? PAGE_FREELIST_SENTINEL then panic "Kmalloc: No free pages left"
  else
    next ← gets (λ k, load32 (k_mem k) head);
    _ ← modify (with_freelist next);
    mret head.

(** kmalloc.c:62 *)
Definition init_page_loop (m : mem) (page obj_size : Z) : outcome (mem * Z * Z) :=
  while_loop
    (λ '(m, i, addr), addr <? page ⊞ PAGE_SIZE)
    (λ '(m, i, addr), Ok (store32 m addr (i + 1), s32 (i + 1), addr ⊞ obj_size))
    (m, 0, page ⊞ sizeof_page_hdr).

Definition init_page (page obj_size : Z) : K unit :=
  m ← gets k_mem;
  '(m, _, addr) ← lift (init_page_loop m page obj_size);
  modify (with_mem (λ _, store32 m (addr ⊟ obj_size) BAG_FREELIST_SENTINEL)).

(** kmalloc.c:73: the signed index is converted to the unsigned size_t *)
Definition freelist_dequeue (hdr obj_size : Z) : K Z :=
  _ ← deref hdr;
  head ← gets (λ k, hdr_freelist_head (k_mem k) hdr);
  let ret := u32 (hdr + sizeof_page_hdr + u32 head * obj_size) in
  _ ← modify (with_mem (λ m, set_hdr_freelist_head m hdr (load32 m ret)));
  mret ret.

(** kmalloc.c:81: pointer difference and bit-field are ints, so the division
    truncates *)
Definition freelist_enqueue (hdr ptr : Z) : K unit :=
  let objs_start := hdr ⊞ sizeof_page_hdr in
  size ← gets (λ k, hdr_object_size (k_mem k) hdr);
  if size =? 0 then ub "division by zero"
  else
    let offset := Z.quot (s32 (ptr - objs_start)) size in
    _ ← modify (with_mem (λ m, store32 m ptr (hdr_freelist_head m hdr)));
    modify (with_mem (λ m, set_hdr_freelist_head m hdr offset)).

(** bags[idx], undefined outside the array *)
Definition get_bag (idx : Z) : K bag_t :=
  bs ← gets bags;
  match bs !! Z.to_nat idx with
  | Some b => mret b
  | None => ub "bags index out of range"
  end.
Definition set_bag (idx : Z) (b : bag_t) : K unit :=
  modify (with_bags (<[Z.to_nat idx := b]>)).

(** kmalloc.c:90 *)
Definition initialize_bag (idx : Z) : K unit :=
  bag_page ← fetch_page;
  let bag_obj_size := Z.shiftl 1 idx in
  _ ← modify (with_mem (λ m, set_hdr_next m bag_page NULL));
  _ ← modify (with_mem (λ m, set_hdr_freelist_head m bag_page 0));
  _ ← modify (with_mem (λ m, set_hdr_object_size m bag_page bag_obj_size));
  _ ← init_page bag_page bag_obj_size;
  set_bag idx (Bag bag_page NULL).

(** kmalloc.c:107: the freshly fetched page is initialised but not stored *)
Definition fetch_object (idx : Z) : K Z :=
  bag ← get_bag idx;
  let object_size := Z.shiftl 1 idx in
  if (bag_free bag =? NULL) && (bag_full bag =? NULL) then
    _ ← initialize_bag idx;
    bag ← get_bag idx;
    freelist_dequeue (bag_free bag) object_size
  else
    ret ← freelist_dequeue (bag_free bag) object_size;
    head ← gets (λ k, hdr_freelist_head (k_mem k) (bag_free bag));
    if head =? BAG_FREELIST_SENTINEL then
      let tmp_hdr := bag_free bag in
      next ← gets (λ k, hdr_next (k_mem k) tmp_hdr);
      _ ← modify (with_mem (λ m, set_hdr_next m tmp_hdr (bag_full bag)));
      _ ← set_bag idx (Bag next tmp_hdr);
      if next =? NULL then
        new_page ← fetch_page;
        _ ← modify (with_mem (λ m, set_hdr_next m new_page NULL));
        _ ← modify (with_mem (λ m, set_hdr_object_size m new_page object_size));
        _ ← modify (with_mem (λ m, set_hdr_freelist_head m new_page 0));
        _ ← init_page new_page object_size;
        mret ret
      else mret ret
    else mret ret.

(** kmalloc.c:142 *)
Definition kmalloc_init (debug : bool) (pool_vaddr size : Z) : K unit :=
  _ ← ASSERT debug (Z.land pool_vaddr (Z.lnot PAGE_MASK) =? 0);
  let p_start := pool_vaddr in
  let p_end := pool_vaddr ⊞ size in
  _ ← modify (λ k, KHeap (k_mem k) p_start p_end (page_freelist_head k) (bags k));
  m ← gets k_mem;
  '(m, _) ← lift (while_loop
    (λ '(m, addr), addr <? p_end)
    (λ '(m, addr), Ok (store32 m addr (addr ⊞ PAGE_SIZE), addr ⊞ PAGE_SIZE))
    (m, p_start));
  _ ← modify (with_mem (λ _, store32 m (p_end ⊟ PAGE_SIZE) PAGE_FREELIST_SENTINEL));
  modify (with_freelist p_start).

(** The class of a request (kmalloc.c:165-171) *)
Definition bag_index (size : Z) : Z :=
  if negb (Z.land size (size ⊟ 1) =? 0) then builtin_clz size + 1
  else builtin_ffs size - 1.

(** kmalloc.c:159 and 178 *)
Definition kmalloc (size : Z) : K Z :=
  if (size <? MIN_BLOCK_SIZE) || (size >? Z.shiftl 1 NO_CLASSES) then mret NULL
  else fetch_object (bag_index size).

(** The search for the page in the full list (kmalloc.c:194) *)
Definition find_prev (m : mem) (hdr page : Z) : outcome Z :=
  while_loop
    (λ cur, negb (hdr_next m cur =? NULL) && negb (hdr_next m cur =? page))
    (λ cur, Ok (hdr_next m cur)) hdr.

(** kmalloc.c:180 *)
Definition kfree (debug : bool) (ptr : Z) : K unit :=
  start ← gets pool_start;
  stop ← gets pool_end;
  _ ← ASSERT debug ((ptr >? start) && (ptr <=? stop));
  let page := Z.land ptr PAGE_MASK in
  head ← gets (λ k, hdr_freelist_head (k_mem k) page);
  _ ← (if head =? BAG_FREELIST_SENTINEL then
         size ← gets (λ k, hdr_object_size (k_mem k) page);
         let bag_idx := builtin_ffs size - 1 in
         bag ← get_bag bag_idx;
         let current_hdr := bag_full bag in
         if negb (current_hdr =? page) then
           _ ← deref current_hdr;
           m ← gets k_mem;
           current_hdr ← lift (find_prev m current_hdr page);
           let next := hdr_next m current_hdr in
           _ ← ASSERT debug (negb (next =? NULL));
           _ ← deref next;
           _ ← modify (with_mem (λ m, set_hdr_next m current_hdr (hdr_next m next)));
           _ ← modify (with_mem (λ m, set_hdr_next m page (bag_free bag)));
           set_bag bag_idx (Bag page (bag_full bag))
         else
           next ← gets (λ k, hdr_next (k_mem k) current_hdr);
           _ ← modify (with_mem (λ m, set_hdr_next m current_hdr (bag_free bag)));
           set_bag bag_idx (Bag current_hdr next)
       else mret tt);
  freelist_enqueue page ptr.

(** ** Size classes *)

(** The classes a request can be served from: objects of 4 to 256 bytes. *)
Definition class_ok (idx : Z) : Prop := 2 ≤ idx ≤ 8.
Abbreviation class_size idx := (Z.shiftl 1 idx).

(** The number of objects init_page chains: one per start below the page's end. *)
Definition nobj (idx : Z) : Z := (4087 + class_size idx) / class_size idx.
Definition slot_addr (page idx s : Z) : Z := page + 8 + s * class_size idx.

Lemma class_cases idx :
  class_ok idx →
  idx = 2 ∨ idx = 3 ∨ idx = 4 ∨ idx = 5 ∨ idx = 6 ∨ idx = 7 ∨ idx = 8.
Proof. unfold class_ok. lia. Qed.

Ltac class_cases H :=
  apply class_cases in H as [-> | [-> | [-> | [-> | [-> | [-> | ->]]]]]].

(** The word of a slot lies inside the page, above the header; slots of one
    page do not overlap in their first words. *)
Lemma slot_bound idx s :
  class_ok idx → 0 ≤ s < nobj idx → 0 ≤ s * class_size idx ≤ 4084.
Proof.
  intros H. unfold nobj.
  class_cases H; vm_compute (Z.shiftl 1 _); vm_compute (_ / _); lia.
Qed.
Lemma slot_apart idx s t :
  class_ok idx → s ≠ t →
  s * class_size idx + 4 ≤ t * class_size idx ∨
  t * class_size idx + 4 ≤ s * class_size idx.
Proof. intros H. class_cases H; vm_compute (Z.shiftl 1 _); lia. Qed.
Lemma class_size_range idx : class_ok idx → 4 ≤ class_size idx ≤ 256.
Proof. intros H. class_cases H; vm_compute (Z.shiftl 1 _); lia. Qed.
Lemma nobj_range idx : class_ok idx → 16 ≤ nobj idx ≤ 1022.
Proof.
  intros H. unfold nobj.
  class_cases H; vm_compute (Z.shiftl 1 _); vm_compute (_ / _); lia.
Qed.
(** The loop of init_page stops after exactly [nobj] objects. *)
Lemma slot_limit idx s :
  class_ok idx → 0 ≤ s → s * class_size idx < 4088 ↔ s < nobj idx.
Proof.
  intros H. unfold nobj.
  class_cases H; vm_compute (Z.shiftl 1 _); vm_compute (_ / _); lia.
Qed.

(** ** Pages *)

Definition page_addr (p : Z) : Prop :=
  0 < p ∧ p + 8192 ≤ 4294967296 ∧ p mod 4096 = 0.

Lemma pages_apart p q :
  page_addr p → page_addr q → p ≠ q → p + 4096 ≤ q ∨ q + 4096 ≤ p.
Proof. unfold page_addr. intros. Z.to_euclidean_division_equations. lia. Qed.

(** Everything the allocator reads of a page is within it. *)
Lemma page_load32 p q m m' off :
  page_addr p → page_addr q → p ≠ q → 0 ≤ off ≤ 4092 →
  changes_only p 4096 m m' → load32 m' (q + off) = load32 m (q + off).
Proof.
  intros Hp Hq Hne Hoff Hch. eapply changes_only_load32; [done|].
  pose proof (pages_apart _ _ Hp Hq Hne). unfold page_addr in *.
  apply disj_linear; lia.
Qed.
Lemma page_load32_first p q m m' :
  page_addr p → page_addr q → p ≠ q →
  changes_only p 4096 m m' → load32 m' q = load32 m q.
Proof.
  intros. rewrite <-(Z.add_0_r q). apply (page_load32 p q); done || lia.
Qed.
Lemma page_load16 p q m m' off :
  page_addr p → page_addr q → p ≠ q → 0 ≤ off ≤ 4094 →
  changes_only p 4096 m m' → load16 m' (q + off) = load16 m (q + off).
Proof.
  intros Hp Hq Hne Hoff Hch. eapply changes_only_load16; [done|].
  pose proof (pages_apart _ _ Hp Hq Hne). unfold page_addr in *.
  apply disj_linear; lia.
Qed.

(** The free objects of a page, chained by index. *)
Fixpoint obj_chain (m : mem) (page idx head : Z) (slots : list Z) : Prop :=
  match slots with
  | [] => head = BAG_FREELIST_SENTINEL
  | s :: slots' =>
      head = s ∧ 0 ≤ s < nobj idx ∧
      obj_chain m page idx (s32 (load32 m (slot_addr page idx s))) slots'
  end.

(** A page of class [idx] whose free objects are [slots]. *)
Definition page_ok (m : mem) (idx page : Z) (slots : list Z) : Prop :=
  hdr_object_size m page = class_size idx ∧
  obj_chain m page idx (hdr_freelist_head m page) slots ∧ NoDup slots.

Lemma obj_chain_frame m m' page idx head slots :
  (∀ s, s ∈ slots →
     load32 m' (slot_addr page idx s) = load32 m (slot_addr page idx s)) →
  obj_chain m page idx head slots → obj_chain m' page idx head slots.
Proof.
  revert head; induction slots as [|s slots IH]; intros head Hs; [done|].
  intros (-> & Hr & Hch). simpl. split_and!; [done|lia|lia|].
  rewrite Hs by (by left). apply IH; [|done]. intros t Ht. apply Hs. by right.
Qed.

Lemma obj_chain_range m page idx head slots :
  obj_chain m page idx head slots → Forall (λ s, 0 ≤ s < nobj idx) slots.
Proof.
  revert head; induction slots as [|s slots IH]; intros head; [constructor|].
  intros (_ & Hr & Hch). constructor; eauto.
Qed.

Lemma obj_chain_head m page idx head slots :
  class_ok idx → obj_chain m page idx head slots → -1 ≤ head < 1022.
Proof.
  intros Hc. pose proof (nobj_range idx Hc).
  destruct slots; simpl; unfold BAG_FREELIST_SENTINEL; lia.
Qed.

Lemma page_ok_frame m m' p q idx slots :
  page_addr p → page_addr q → p ≠ q → class_ok idx → changes_only p 4096 m m' →
  page_ok m idx q slots → page_ok m' idx q slots.
Proof.
  intros Hp Hq Hne Hc Hch (Hsz & Hobj & Hnd). split_and!; [| |done].
  - unfold hdr_object_size in *. by rewrite (page_load16 p q m m' 4) by (done || lia).
  - unfold hdr_freelist_head in *. rewrite (page_load16 p q m m' 6) by (done || lia).
    eapply obj_chain_frame; [|done]. intros s Hs. unfold slot_addr.
    rewrite <-Z.add_assoc. apply (page_load32 p q); try done.
    apply obj_chain_range in Hobj. rewrite Forall_forall in Hobj.
    pose proof (slot_bound idx s Hc (Hobj s Hs)). lia.
Qed.

(** ** init_page *)

(** What the loop leaves when [i] objects are chained. *)
Definition init_inv (m : mem) (page idx i : Z) (m1 : mem) : Prop :=
  (∀ s, 0 ≤ s < i → load32 m1 (slot_addr page idx s) = s + 1) ∧
  changes_only (page + 8) 4088 m m1.

Lemma init_inv_step m page idx i m1 v :
  page_addr page → class_ok idx → 0 ≤ i < nobj idx →
  init_inv m page idx i m1 →
  let m2 := store32 m1 (slot_addr page idx i) v in
  load32 m2 (slot_addr page idx i) = u32 v ∧
  (∀ s, 0 ≤ s < i → load32 m2 (slot_addr page idx s) = s + 1) ∧
  changes_only (page + 8) 4088 m m2.
Proof.
  intros Hp Hc Hi (Hs & Hch) m2. pose proof (slot_bound idx i Hc Hi) as Hb.
  subst m2. split_and!.
  - apply load32_store32_eq.
  - intros s Hsi. rewrite load32_store32_disj; [by apply Hs|].
    pose proof (slot_bound idx s Hc ltac:(lia)).
    pose proof (slot_apart idx s i Hc ltac:(lia)).
    unfold slot_addr, page_addr in *. apply disj_linear; lia.
  - apply changes_only_store32; [done| | |lia]; unfold slot_addr; lia.
Qed.

Lemma init_page_loop_ok m page idx :
  page_addr page → class_ok idx →
  ∃ m1 i, init_page_loop m page (class_size idx) =
          Ok (m1, i, slot_addr page idx (nobj idx)) ∧
        init_inv m page idx (nobj idx) m1.
Proof.
  intros Hp Hc. pose proof (nobj_range idx Hc) as Hn.
  pose proof (class_size_range idx Hc) as Hsz. unfold init_page_loop.
  destruct (while_loop_total
    (λ (r : nat) '(m1, i, addr), i = nobj idx - Z.of_nat r ∧ 0 ≤ i ∧
       addr = slot_addr page idx i ∧ init_inv m page idx i m1)
    (λ '(m, i, addr), addr <? page ⊞ PAGE_SIZE)
    (λ '(m, i, addr),
       Ok (store32 m addr (i + 1), s32 (i + 1), addr ⊞ class_size idx))
    (Z.to_nat (nobj idx)) (m, 0, page ⊞ sizeof_page_hdr))
    as ([[m1 i] addr] & -> & Hi & _ & -> & Hinv).
  - unfold FUEL. lia.
  - unfold page_addr, sizeof_page_hdr, slot_addr in *.
    split_and!; [lia|lia|rewrite u32_small; lia|].
    split; [intros; lia|done].
  - intros r [[m1 i] addr] Hr (Hi & Hi0 & -> & Hinv).
    assert (Hlt : 0 ≤ i < nobj idx) by lia.
    pose proof (slot_bound idx i Hc Hlt) as Hb. split.
    + apply Z.ltb_lt. unfold slot_addr, page_addr, PAGE_SIZE, ARCH_PAGE_SIZE in *.
      rewrite u32_small; lia.
    + eexists; split; [done|]. rewrite s32_small by lia. split_and!; [lia|lia| |].
      * unfold slot_addr, page_addr in *. rewrite u32_small; lia.
      * destruct (init_inv_step m page idx i m1 (i + 1)) as (H1 & H2 & H3); try done.
        split; [|done]. intros s Hs. destruct (decide (s = i)) as [->|].
        -- rewrite H1. apply u32_small. lia.
        -- apply H2. lia.
  - intros [[m1 i] addr] (Hi & _ & -> & _). apply Z.ltb_ge.
    replace i with (nobj idx) by lia.
    pose proof (slot_limit idx (nobj idx) Hc ltac:(lia)).
    unfold slot_addr, page_addr, PAGE_SIZE, ARCH_PAGE_SIZE in *.
    rewrite u32_small; lia.
  - replace i with (nobj idx) in * by lia. eauto.
Qed.

(** Words [s+1] in slots [s..n-2] and the sentinel in the last give the chain
    of the slots from [s] on. *)
Lemma obj_chain_seq m page idx (s : Z) (k : nat) :
  class_ok idx → 0 ≤ s → s + Z.of_nat k = nobj idx - 1 →
  (∀ t, s ≤ t < nobj idx - 1 → load32 m (slot_addr page idx t) = t + 1) →
  load32 m (slot_addr page idx (nobj idx - 1)) = 4294967295 →
  obj_chain m page idx s (seqZ s (Z.of_nat (S k))).
Proof.
  intros Hc. pose proof (nobj_range idx Hc). revert s.
  induction k as [|k IH]; intros s Hs Hk Hw Hlast.
  - rewrite seqZ_cons, seqZ_nil by lia. simpl. split_and!; [done|lia|lia|].
    replace s with (nobj idx - 1) by lia. by rewrite Hlast.
  - rewrite seqZ_cons by lia. simpl. split_and!; [done|lia|lia|].
    rewrite Hw by lia. rewrite s32_small by lia.
    replace (Z.pred (Z.of_nat (S (S k)))) with (Z.of_nat (S k)) by lia.
    replace (Z.succ s) with (s + 1) by lia. apply IH; [lia|lia| |done].
    intros t Ht. apply Hw. lia.
Qed.

Lemma init_page_ok k page idx :
  page_addr page → class_ok idx →
  ∃ m2, init_page page (class_size idx) k = Ok (tt, with_mem (λ _, m2) k) ∧
    changes_only (page + 8) 4088 (k_mem k) m2 ∧
    obj_chain m2 page idx 0 (seqZ 0 (nobj idx)).
Proof.
  intros Hp Hc. pose proof (nobj_range idx Hc) as Hn.
  destruct (init_page_loop_ok (k_mem k) page idx Hp Hc) as (m1 & i & Hrun & Hinv).
  unfold init_page. mstep. rewrite Hrun. mstep.
  assert (Haddr : slot_addr page idx (nobj idx) ⊟ class_size idx
                  = slot_addr page idx (nobj idx - 1)).
  { pose proof (slot_bound idx (nobj idx - 1) Hc ltac:(lia)).
    unfold slot_addr, page_addr in *. rewrite u32_small; lia. }
  rewrite Haddr. eexists; split; [done|].
  destruct (init_inv_step (k_mem k) page idx (nobj idx - 1) m1
    BAG_FREELIST_SENTINEL Hp Hc ltac:(lia)) as (H1 & H2 & H3).
  { destruct Hinv as [Hw Hch]. split; [|done]. intros. apply Hw. lia. }
  split; [done|].
  eassert (Hseq : _) by exact (λ m, obj_chain_seq m page idx 0
    (Z.to_nat (nobj idx - 1)) Hc).
  replace (Z.of_nat (S (Z.to_nat (nobj idx - 1)))) with (nobj idx) in Hseq by lia.
  apply Hseq; [lia|lia| |done]. intros t Ht. apply H2. lia.
Qed.

(** ** Page headers *)

Create HintDb heap.

Lemma set_hdr_next_only m m' p v :
  changes_only p 4096 m m' → changes_only p 4096 m (set_hdr_next m' p v).
Proof. intros. apply changes_only_store32; done || lia. Qed.
Lemma set_hdr_object_size_only m m' p v :
  changes_only p 4096 m m' → changes_only p 4096 m (set_hdr_object_size m' p v).
Proof. intros. apply changes_only_store16; done || lia. Qed.
Lemma set_hdr_freelist_head_only m m' p v :
  changes_only p 4096 m m' → changes_only p 4096 m (set_hdr_freelist_head m' p v).
Proof. intros. apply changes_only_store16; done || lia. Qed.
Lemma changes_only_id a n m : changes_only a n m m.
Proof. done. Qed.
#[export] Hint Resolve set_hdr_next_only set_hdr_object_size_only
  set_hdr_freelist_head_only changes_only_id : heap.

Section header.
Context (m : mem) (p v : Z) (Hp : page_addr p).

Lemma hdr_reads_next :
  hdr_next (set_hdr_next m p v) p = u32 v ∧
  hdr_object_size (set_hdr_next m p v) p = hdr_object_size m p ∧
  hdr_freelist_head (set_hdr_next m p v) p = hdr_freelist_head m p.
Proof using Hp.
  unfold hdr_next, hdr_object_size, hdr_freelist_head, set_hdr_next, page_addr in *.
  rewrite load32_store32_eq.
  rewrite !load16_store32_disj by (apply disj_linear; lia). done.
Qed.
Lemma hdr_reads_object_size :
  hdr_next (set_hdr_object_size m p v) p = hdr_next m p ∧
  hdr_object_size (set_hdr_object_size m p v) p = u16 v ∧
  hdr_freelist_head (set_hdr_object_size m p v) p = hdr_freelist_head m p.
Proof using Hp.
  unfold hdr_next, hdr_object_size, hdr_freelist_head, set_hdr_object_size,
    page_addr in *.
  rewrite load16_store16_eq, load32_store16_disj, load16_store16_disj
    by (apply disj_linear; lia). done.
Qed.
Lemma hdr_reads_freelist_head :
  hdr_next (set_hdr_freelist_head m p v) p = hdr_next m p ∧
  hdr_object_size (set_hdr_freelist_head m p v) p = hdr_object_size m p ∧
  hdr_freelist_head (set_hdr_freelist_head m p v) p = s16 (u16 v).
Proof using Hp.
  unfold hdr_next, hdr_object_size, hdr_freelist_head, set_hdr_freelist_head,
    page_addr in *.
  rewrite load16_store16_eq, load32_store16_disj, load16_store16_disj
    by (apply disj_linear; lia). done.
Qed.
(** A header store leaves the objects alone. *)
Lemma hdr_stores_slot a :
  p + 8 ≤ a → a + 4 ≤ 4294967296 →
  load32 (set_hdr_next m p v) a = load32 m a ∧
  load32 (set_hdr_object_size m p v) a = load32 m a ∧
  load32 (set_hdr_freelist_head m p v) a = load32 m a.
Proof using Hp.
  intros. unfold set_hdr_next, set_hdr_object_size, set_hdr_freelist_head,
    page_addr in *.
  rewrite load32_store32_disj, !load32_store16_disj by (apply disj_linear; lia). done.
Qed.
End header.

Lemma s16_u16 v : -32768 ≤ v < 32768 → s16 (u16 v) = v.
Proof. wrap_lia. Qed.

(** A page just given to class [idx]: header and full chain of objects. *)
Definition formatted (m : mem) (page idx : Z) (m2 : mem) : Prop :=
  page_ok m2 idx page (seqZ 0 (nobj idx)) ∧ hdr_next m2 page = NULL ∧
  changes_only page 4096 m m2.

Lemma format_page m m0 m2 page idx :
  page_addr page → class_ok idx → changes_only page 4096 m m0 →
  hdr_next m0 page = NULL → hdr_object_size m0 page = class_size idx →
  hdr_freelist_head m0 page = 0 →
  changes_only (page + 8) 4088 m0 m2 → obj_chain m2 page idx 0 (seqZ 0 (nobj idx)) →
  formatted m page idx m2.
Proof.
  intros Hp Hc Hm0 Hn Hsz Hfl Hch Hobj.
  assert (Hd : ∀ off k, 0 ≤ off → 0 ≤ k → off + k ≤ 8 → disj (page + 8) 4088 (page + off) k).
  { intros. unfold page_addr in *. apply disj_linear; lia. }
  assert (H32 : load32 m2 page = load32 m0 page).
  { eapply changes_only_load32; [done|]. rewrite <-(Z.add_0_r page) at 2. apply Hd; lia. }
  assert (H4 : load16 m2 (page + 4) = load16 m0 (page + 4)).
  { eapply changes_only_load16; [done|]. apply Hd; lia. }
  assert (H6 : load16 m2 (page + 6) = load16 m0 (page + 6)).
  { eapply changes_only_load16; [done|]. apply Hd; lia. }
  split_and!.
  - unfold page_ok, hdr_object_size, hdr_freelist_head in *. rewrite H4, H6, Hfl.
    split_and!; [done|done|apply NoDup_seqZ].
  - unfold hdr_next in *. by rewrite H32.
  - etrans; [done|]. intros x Hx. apply Hch. contradict Hx. unfold within in *. wrap_lia.
Qed.

(** ** Taking an object off a page and putting one back *)

(** The memory of a page operation: only [p] changes, its link stays. *)
Definition page_step (m m' : mem) (p : Z) : Prop :=
  changes_only p 4096 m m' ∧ hdr_next m' p = hdr_next m p.

Lemma obj_chain_hdr m p v idx head slots :
  page_addr p → class_ok idx →
  obj_chain m p idx head slots →
  obj_chain (set_hdr_freelist_head m p v) p idx head slots.
Proof.
  intros Hp Hc Hch. eapply obj_chain_frame; [|done]. intros s Hs.
  apply obj_chain_range in Hch. rewrite Forall_forall in Hch.
  pose proof (slot_bound idx s Hc (Hch s Hs)).
  apply hdr_stores_slot; [done|..]; unfold slot_addr, page_addr in *; lia.
Qed.

Lemma freelist_dequeue_ok k p idx s slots :
  page_addr p → class_ok idx → page_ok (k_mem k) idx p (s :: slots) →
  ∃ m', freelist_dequeue p (class_size idx) k =
          Ok (slot_addr p idx s, with_mem (λ _, m') k) ∧
        page_ok m' idx p slots ∧ page_step (k_mem k) m' p.
Proof.
  intros Hp Hc (Hsz & (Hhead & Hs & Hch) & Hnd).
  pose proof (slot_bound idx s Hc Hs) as Hb. pose proof (nobj_range idx Hc).
  assert (Hret : u32 (p + sizeof_page_hdr + u32 s * class_size idx) = slot_addr p idx s).
  { rewrite (u32_small s) by lia. apply u32_small.
    unfold slot_addr, page_addr in *. lia. }
  unfold freelist_dequeue, deref.
  destruct (Z.eqb_spec p NULL) as [->|_]; [unfold page_addr in Hp; unfold NULL in *; lia|].
  mstep. rewrite Hhead, Hret. eexists; split; [done|].
  set (v := load32 (k_mem k) (slot_addr p idx s)) in *.
  destruct (hdr_reads_freelist_head (k_mem k) p v Hp) as (E1 & E2 & E3).
  assert (Hv : s16 (u16 v) = s32 v).
  { apply obj_chain_head in Hch; [|done].
    pose proof (load32_range (k_mem k) (slot_addr p idx s)). subst v. wrap_lia. }
  split; [|split; [by auto with heap|done]].
  split_and!; [congruence| |by apply NoDup_cons in Hnd as [_ ?]].
  rewrite E3, Hv. by apply obj_chain_hdr.
Qed.

Lemma freelist_enqueue_ok k p idx s slots :
  page_addr p → class_ok idx → page_ok (k_mem k) idx p slots →
  0 ≤ s < nobj idx → s ∉ slots →
  ∃ m', freelist_enqueue p (slot_addr p idx s) k = Ok (tt, with_mem (λ _, m') k) ∧
        page_ok m' idx p (s :: slots) ∧ page_step (k_mem k) m' p.
Proof.
  intros Hp Hc (Hsz & Hch & Hnd) Hs Hfresh.
  pose proof (slot_bound idx s Hc Hs) as Hb. pose proof (nobj_range idx Hc) as Hn.
  pose proof (class_size_range idx Hc) as Hcs.
  pose proof (obj_chain_head _ _ _ _ _ Hc Hch) as Hh.
  unfold freelist_enqueue. mstep. rewrite Hsz.
  destruct (Z.eqb_spec (class_size idx) 0); [lia|].
  assert (Hoff : s32 (slot_addr p idx s - (p ⊞ sizeof_page_hdr)) ÷ class_size idx = s).
  { unfold sizeof_page_hdr, page_addr in *. rewrite (u32_small (p + 8)) by lia.
    unfold slot_addr. replace (p + 8 + s * _ - (p + 8)) with (s * class_size idx) by lia.
    rewrite s32_small by lia. apply Z.quot_mul. lia. }
  rewrite Hoff. eexists; split; [done|]. cbn [k_mem with_mem].
  set (hd := hdr_freelist_head (k_mem k) p) in *.
  set (m1 := store32 (k_mem k) (slot_addr p idx s) hd).
  assert (Hdisj : ∀ off n, 0 ≤ off → 0 ≤ n → off + n ≤ 8 →
    disj (slot_addr p idx s) 4 (p + off) n).
  { intros. unfold slot_addr, page_addr in *. apply disj_linear; lia. }
  assert (Hm1 : changes_only p 4096 (k_mem k) m1).
  { apply changes_only_store32; [done|unfold slot_addr..|]; lia. }
  destruct (hdr_reads_freelist_head m1 p s Hp) as (E1 & E2 & E3).
  split; [split_and!|split].
  - rewrite E2. unfold hdr_object_size. subst m1.
    rewrite load16_store32_disj; [done|]. apply Hdisj; lia.
  - rewrite E3, s16_u16 by lia. simpl. split_and!; [done|lia|lia|].
    apply obj_chain_hdr; [done|done|].
    replace (s32 _) with hd; [eapply obj_chain_frame; [|done]|].
    + intros t Ht. subst m1. apply load32_store32_disj.
      apply obj_chain_range in Hch. rewrite Forall_forall in Hch.
      pose proof (slot_bound idx t Hc (Hch t Ht)).
      destruct (slot_apart idx s t Hc); [by intros ->|..];
        unfold slot_addr, page_addr in *; apply disj_linear; lia.
    + subst m1. destruct (hdr_stores_slot (store32 (k_mem k) (slot_addr p idx s) hd)
        p s Hp (slot_addr p idx s)) as (_ & _ & ->);
        [unfold slot_addr, page_addr in *; lia..|].
      rewrite load32_store32_eq. subst hd. unfold hdr_freelist_head in *. wrap_lia.
  - by apply NoDup_cons.
  - by auto with heap.
  - rewrite E1. unfold hdr_next. subst m1. rewrite load32_store32_disj; [done|].
    rewrite <-(Z.add_0_r p) at 2. apply Hdisj; lia.
Qed.

(** ** The abstract allocator

    What the allocator promises, without memory: the pages of the pool, and
    for each class its pages, each with the indices of its free objects. A
    page in [g_lost] was taken from the pool and is referenced by no class. *)
Module Spec.
Record gbag := GBag { g_free : list (Z * list Z); g_full : list Z }.
Record gheap := GHeap { g_pages : list Z; g_lost : list Z; g_bags : list gbag }.

Definition empty : gheap := GHeap [] [] (replicate 9 (GBag [] [])).

Definition bag_pages (b : gbag) : list Z := (g_free b).*1 ++ g_full b.
Definition all_pages (g : gheap) : list Z :=
  g_pages g ++ g_lost g ++ concat (bag_pages <$> g_bags g).

Definition set_gbag (idx : Z) (b : gbag) (g : gheap) : gheap :=
  GHeap (g_pages g) (g_lost g) (<[Z.to_nat idx := b]> (g_bags g)).

(** An object of class [idx] is handed out. *)
Definition alloc (idx : Z) (g : gheap) : outcome (Z * gheap) :=
  match g_bags g !! Z.to_nat idx with
  | None => UB "bags index out of range"
  | Some (GBag [] []) =>
      match g_pages g with
      | [] => Panic "Kmalloc: No free pages left"
      | p :: ps =>
          Ok (slot_addr p idx 0,
              set_gbag idx (GBag [(p, seqZ 1 (nobj idx - 1))] [])
                (GHeap ps (g_lost g) (g_bags g)))
      end
  | Some (GBag [] (_ :: _)) => UB "NULL page header"
  | Some (GBag ((_, []) :: _) _) => UB "empty free page"
  | Some (GBag ((p, [s]) :: []) fu) =>
      match g_pages g with
      | [] => Panic "Kmalloc: No free pages left"
      | q :: ps =>
          Ok (slot_addr p idx s,
              set_gbag idx (GBag [] (p :: fu)) (GHeap ps (q :: g_lost g) (g_bags g)))
      end
  | Some (GBag ((p, [s]) :: fr) fu) =>
      Ok (slot_addr p idx s, set_gbag idx (GBag fr (p :: fu)) g)
  | Some (GBag ((p, s :: slots) :: fr) fu) =>
      Ok (slot_addr p idx s, set_gbag idx (GBag ((p, slots) :: fr) fu) g)
  end.

(** Slot [s] becomes the first free one of page [p]. *)
Definition push_slot (p s : Z) (fr : list (Z * list Z)) : list (Z * list Z) :=
  (λ x, if decide (x.1 = p) then (p, s :: x.2) else x) <$> fr.

(** Object [s] of page [p] of class [idx] is given back: a full page becomes
    the first free page of its class. *)
Definition free (idx p s : Z) (g : gheap) : gheap :=
  match g_bags g !! Z.to_nat idx with
  | Some (GBag fr fu) =>
      if decide (p ∈ fu)
      then set_gbag idx (GBag ((p, [s]) :: fr) (filter (.≠ p) fu)) g
      else set_gbag idx (GBag (push_slot p s fr) fu) g
  | None => g
  end.

(** The objects in use: those of a class's pages that are not free. *)
Definition live (g : gheap) (idx p s : Z) : Prop :=
  0 ≤ s < nobj idx ∧ ∃ gb, g_bags g !! Z.to_nat idx = Some gb ∧
    (p ∈ g_full gb ∨ ∃ slots, (p, slots) ∈ g_free gb ∧ s ∉ slots).
End Spec.
Import Spec.

(** ** The representation invariant *)

(** The pool's free pages, chained through their first word. *)
Fixpoint pchain (m : mem) (head : Z) (l : list Z) : Prop :=
  match l with
  | [] => head = PAGE_FREELIST_SENTINEL
  | p :: l' => head = p ∧ pchain m (load32 m p) l'
  end.

(** Pages of class [idx], chained through their headers. *)
Fixpoint hchain (m : mem) (idx head : Z) (l : list (Z * list Z)) : Prop :=
  match l with
  | [] => head = NULL
  | (p, slots) :: l' =>
      head = p ∧ page_ok m idx p slots ∧ hchain m idx (hdr_next m p) l'
  end.

Definition full_pages (l : list Z) : list (Z * list Z) := (λ p, (p, [])) <$> l.

Definition bag_rep (m : mem) (idx : Z) (b : bag_t) (gb : gbag) : Prop :=
  hchain m idx (bag_free b) (g_free gb) ∧
  hchain m idx (bag_full b) (full_pages (g_full gb)) ∧
  Forall (λ x, x.2 ≠ []) (g_free gb) ∧
  (class_ok idx ∨ gb = GBag [] []).

Record heap_inv (g : gheap) (k : kheap) : Prop := {
  inv_pchain : pchain (k_mem k) (page_freelist_head k) (g_pages g);
  inv_nbags : length (bags k) = 9%nat ∧ length (g_bags g) = 9%nat;
  inv_bag : ∀ (i : nat) b gb, bags k !! i = Some b → g_bags g !! i = Some gb →
    bag_rep (k_mem k) (Z.of_nat i) b gb;
  inv_addr : Forall page_addr (all_pages g);
  inv_nodup : NoDup (all_pages g);
}.

Lemma pchain_frame m m' p head l :
  page_addr p → Forall page_addr l → p ∉ l → changes_only p 4096 m m' →
  pchain m head l → pchain m' head l.
Proof.
  intros Hp Hl. revert head; induction Hl as [|q l Hq Hl IH]; intros head Hin Hch;
    [done|].
  intros [-> H]. simpl. split; [done|]. apply not_elem_of_cons in Hin as [? ?].
  rewrite (page_load32_first p q m m') by done. by apply IH.
Qed.

Lemma hchain_frame m m' p idx head l :
  class_ok idx → page_addr p → Forall page_addr l.*1 → p ∉ l.*1 →
  changes_only p 4096 m m' → hchain m idx head l → hchain m' idx head l.
Proof.
  intros Hc Hp. revert head; induction l as [|[q slots] l IH]; intros head Hl Hin Hch;
    [done|].
  apply Forall_cons in Hl as [Hq Hl]. intros (-> & Hok & H). simpl in *.
  assert (p ≠ q) by set_solver. split_and!; [done|by apply (page_ok_frame m m' p)|].
  unfold hdr_next in *.
  rewrite (page_load32_first p q m m') by done. apply IH; [done|set_solver|done|done].
Qed.

Lemma full_pages_fst l : (full_pages l).*1 = l.
Proof. unfold full_pages. rewrite <-list_fmap_compose. apply list_fmap_id. Qed.

Lemma bag_rep_frame m m' p idx b gb :
  page_addr p → Forall page_addr (bag_pages gb) → p ∉ bag_pages gb →
  changes_only p 4096 m m' → bag_rep m idx b gb → bag_rep m' idx b gb.
Proof.
  intros Hp Ha Hin Hch (H1 & H2 & H3 & H4). unfold bag_pages in *.
  apply Forall_app in Ha as [Ha1 Ha2]. apply not_elem_of_app in Hin as [Hin1 Hin2].
  destruct H4 as [Hc| ->]; [|split_and!; auto].
  split_and!; [| |done|by left].
  - by apply (hchain_frame m m' p).
  - apply (hchain_frame m m' p); rewrite ?full_pages_fst; done.
Qed.

(** One class changes: its pages, the pool and the lost pages are exchanged
    among each other, and memory changes in one of its pages only. *)
Lemma heap_inv_update g k p m' (i : nat) gb b' gb' pages' lost' head' :
  heap_inv g k → g_bags g !! i = Some gb →
  changes_only p 4096 (k_mem k) m' → p ∈ lost' ++ bag_pages gb' →
  pages' ++ lost' ++ bag_pages gb' ≡ₚ g_pages g ++ g_lost g ++ bag_pages gb →
  pchain (k_mem k) head' pages' → bag_rep m' (Z.of_nat i) b' gb' →
  heap_inv (GHeap pages' lost' (<[i:=gb']> (g_bags g)))
    (KHeap m' (pool_start k) (pool_end k) head' (<[i:=b']> (bags k))).
Proof.
  intros [Hpc [Hl1 Hl2] Hbag Haddr Hnd] Hi Hch Hp Hperm Hpc' Hrep.
  destruct (concat_split bag_pages _ _ _ Hi) as (R & HR & HR' & Hother).
  assert (Hall : all_pages (GHeap pages' lost' (<[i:=gb']> (g_bags g)))
                 ≡ₚ all_pages g).
  { unfold all_pages; simpl. rewrite HR, (HR' gb').
    trans ((pages' ++ lost' ++ bag_pages gb') ++ R); [by rewrite <-!app_assoc|].
    rewrite Hperm. by rewrite <-!app_assoc. }
  assert (Hnd' : NoDup (pages' ++ (lost' ++ bag_pages gb') ++ R)).
  { rewrite <-Hall in Hnd. unfold all_pages in Hnd; simpl in Hnd.
    rewrite (HR' gb') in Hnd. by rewrite <-!app_assoc. }
  assert (Haddr' : Forall page_addr (pages' ++ (lost' ++ bag_pages gb') ++ R)).
  { rewrite <-Hall in Haddr. unfold all_pages in Haddr; simpl in Haddr.
    rewrite (HR' gb') in Haddr. by rewrite <-!app_assoc. }
  apply NoDup_app in Hnd' as (_ & Hdis1 & Hnd').
  apply NoDup_app in Hnd' as (_ & Hdis2 & _).
  apply Forall_app in Haddr' as [Ha1 Ha2]. apply Forall_app in Ha2 as [Ha2 Ha3].
  assert (Hpa : page_addr p) by (rewrite Forall_forall in Ha2; auto).
  split; simpl.
  - apply (pchain_frame (k_mem k) m' p); try done.
    intros Hin. apply (Hdis1 p Hin). apply elem_of_app. by left.
  - by rewrite !length_insert.
  - intros j b gbj Hj Hgj. destruct (decide (i = j)) as [<-|Hne].
    + apply lookup_lt_Some in Hi. rewrite list_lookup_insert_eq in Hj by lia.
      rewrite list_lookup_insert_eq in Hgj by lia. by simplify_eq.
    + rewrite list_lookup_insert_ne in Hj by done.
      rewrite list_lookup_insert_ne in Hgj by done.
      pose proof (Hother j gbj (not_eq_sym Hne) Hgj) as Hsub.
      apply (bag_rep_frame (k_mem k) m' p); [done| | |done|by apply Hbag].
      * rewrite Forall_forall in *. auto.
      * intros Hin. by apply (Hdis2 p Hp), Hsub.
  - by rewrite Hall.
  - by rewrite Hall.
Qed.

Lemma heap_inv_class g k idx :
  heap_inv g k → class_ok idx →
  ∃ b gb, bags k !! Z.to_nat idx = Some b ∧ g_bags g !! Z.to_nat idx = Some gb ∧
    bag_rep (k_mem k) idx b gb.
Proof.
  intros Hinv Hc. pose proof (inv_nbags _ _ Hinv) as [H1 H2]. unfold class_ok in *.
  destruct (lookup_lt_is_Some_2 (bags k) (Z.to_nat idx)) as [b Hb]; [lia|].
  destruct (lookup_lt_is_Some_2 (g_bags g) (Z.to_nat idx)) as [gb Hgb]; [lia|].
  exists b, gb. split_and!; [done|done|].
  replace idx with (Z.of_nat (Z.to_nat idx)) at 1 by lia. by eapply inv_bag.
Qed.

Lemma inv_page_addr g k p : heap_inv g k → p ∈ all_pages g → page_addr p.
Proof. intros [_ _ _ H _] Hp. rewrite Forall_forall in H. auto. Qed.

(** ** The pool of pages *)

Lemma fetch_page_nil g k :
  heap_inv g k → g_pages g = [] → fetch_page k = Panic "Kmalloc: No free pages left".
Proof.
  intros [Hpc _ _ _ _] E. rewrite E in Hpc. simpl in Hpc.
  unfold fetch_page. mstep. rewrite Hpc. done.
Qed.

Lemma fetch_page_cons g k p ps :
  heap_inv g k → g_pages g = p :: ps →
  fetch_page k = Ok (p, with_freelist (load32 (k_mem k) p) k) ∧
  pchain (k_mem k) (load32 (k_mem k) p) ps ∧ page_addr p.
Proof.
  intros Hinv E. pose proof (inv_pchain _ _ Hinv) as Hpc. rewrite E in Hpc.
  destruct Hpc as [Hh Hpc].
  assert (Hp : page_addr p).
  { eapply inv_page_addr; [done|]. unfold all_pages. rewrite E. set_solver. }
  unfold fetch_page. mstep. rewrite Hh.
  destruct (Z.eqb_spec p PAGE_FREELIST_SENTINEL) as [->|_].
  - unfold page_addr, PAGE_FREELIST_SENTINEL in Hp. lia.
  - done.
Qed.

(** ** kmalloc implements the abstract allocator *)

Lemma hdr_set_formats m p idx :
  page_addr p → class_ok idx →
  let m1 := set_hdr_object_size
    (set_hdr_freelist_head (set_hdr_next m p NULL) p 0) p (class_size idx) in
  let m2 := set_hdr_freelist_head
    (set_hdr_object_size (set_hdr_next m p NULL) p (class_size idx)) p 0 in
  ∀ m0, m0 = m1 ∨ m0 = m2 →
  changes_only p 4096 m m0 ∧ hdr_next m0 p = NULL ∧
  hdr_object_size m0 p = class_size idx ∧ hdr_freelist_head m0 p = 0.
Proof.
  intros Hp Hc m1 m2 m0 Hm0. pose proof (class_size_range idx Hc) as Hsz.
  assert (Hu : u16 (class_size idx) = class_size idx) by (apply u16_small; lia).
  pose proof (λ m v, hdr_reads_next m p v Hp) as Hn.
  pose proof (λ m v, hdr_reads_object_size m p v Hp) as Ho.
  pose proof (λ m v, hdr_reads_freelist_head m p v Hp) as Hf.
  destruct Hm0 as [-> | ->]; subst m1 m2; (split; [by auto with heap|]).
  - destruct (Ho (set_hdr_freelist_head (set_hdr_next m p NULL) p 0) (class_size idx))
      as (-> & -> & ->).
    destruct (Hf (set_hdr_next m p NULL) 0) as (-> & _ & ->).
    destruct (Hn m NULL) as (-> & _ & _). done.
  - destruct (Hf (set_hdr_object_size (set_hdr_next m p NULL) p (class_size idx)) 0)
      as (-> & -> & ->).
    destruct (Ho (set_hdr_next m p NULL) (class_size idx)) as (-> & -> & _).
    destruct (Hn m NULL) as (-> & _ & _). done.
Qed.

Lemma initialize_bag_ok g k p ps idx :
  heap_inv g k → class_ok idx → g_pages g = p :: ps →
  ∃ m2, initialize_bag idx k =
    Ok (tt, KHeap m2 (pool_start k) (pool_end k) (load32 (k_mem k) p)
              (<[Z.to_nat idx := Bag p NULL]> (bags k))) ∧
    formatted (k_mem k) p idx m2.
Proof.
  intros Hinv Hc E. destruct (fetch_page_cons g k p ps Hinv E) as (Hf & _ & Hp).
  unfold initialize_bag. mstep. rewrite Hf. mstep.
  match goal with |- context [init_page p _ ?k'] => set (k1 := k') end.
  destruct (init_page_ok k1 p idx Hp Hc) as (m2 & -> & Hch & Hobj). mstep.
  exists m2. split; [done|].
  destruct (hdr_set_formats (k_mem k) p idx Hp Hc (k_mem k1)) as (H1 & H2 & H3 & H4);
    [by left|].
  by apply (format_page _ (k_mem k1)).
Qed.

(** The first page of a class is where its pointer says; no pages, no pointer. *)
Lemma hchain_null m idx head l :
  Forall page_addr l.*1 → hchain m idx head l → head = NULL ↔ l = [].
Proof.
  intros Hl. destruct l as [|[p s] l]; simpl; [done|]. intros (-> & _ & _).
  apply Forall_cons in Hl as [Hp _]. simpl in Hp. unfold page_addr, NULL in *. split; [intros; exfalso; lia|done].
Qed.

Lemma get_bag_ok k idx b :
  bags k !! Z.to_nat idx = Some b → get_bag idx k = Ok (b, k).
Proof. intros H. unfold get_bag. mstep. by rewrite H. Qed.

Lemma bag_pages_addr g k (i : nat) gb :
  heap_inv g k → g_bags g !! i = Some gb →
  Forall page_addr (g_free gb).*1 ∧ Forall page_addr (g_full gb).
Proof.
  intros Hinv Hi. pose proof (inv_addr _ _ Hinv) as Ha.
  destruct (concat_split bag_pages _ _ _ Hi) as (R & HR & _).
  unfold all_pages in Ha. rewrite HR, !Forall_app in Ha. unfold bag_pages in Ha.
  rewrite Forall_app in Ha. tauto.
Qed.

Lemma fetch_object_new g k idx p ps :
  heap_inv g k → class_ok idx → g_pages g = p :: ps →
  g_bags g !! Z.to_nat idx = Some (GBag [] []) →
  ∃ k', fetch_object idx k = Ok (slot_addr p idx 0, k') ∧
    heap_inv (set_gbag idx (GBag [(p, seqZ 1 (nobj idx - 1))] [])
                (GHeap ps (g_lost g) (g_bags g))) k'.
Proof.
  intros Hinv Hc E Hgb. destruct (heap_inv_class g k idx Hinv Hc) as (b & gb & Hb & Hgb' & Hrep).
  rewrite Hgb in Hgb'. injection Hgb' as <-. destruct Hrep as (Hfr & Hfu & _).
  simpl in Hfr, Hfu. pose proof (nobj_range idx Hc) as Hn.
  destruct (fetch_page_cons g k p ps Hinv E) as (_ & Hpc & Hp).
  destruct (initialize_bag_ok g k p ps idx Hinv Hc E) as (m2 & Hinit & Hok & Hnext & Hch).
  unfold fetch_object. mstep. rewrite (get_bag_ok _ _ _ Hb), Hfr, Hfu. simpl.
  rewrite Hinit, (get_bag_ok _ _ (Bag p NULL)).
  2: { simpl. apply list_lookup_insert_eq. by eapply lookup_lt_Some. }
  cbn [bag_free]. rewrite seqZ_cons in Hok by lia.
  match goal with |- context [freelist_dequeue p _ ?k'] => set (k1 := k') end.
  destruct (freelist_dequeue_ok k1 p idx 0 (seqZ (Z.succ 0) (Z.pred (nobj idx))) Hp Hc Hok)
    as (m3 & -> & Hok3 & Hch3 & Hnx3).
  eexists; split; [done|]. subst k1. unfold set_gbag; simpl in *.
  apply (heap_inv_update g k p m3 (Z.to_nat idx) (GBag [] []) (Bag p NULL)
           (GBag [(p, seqZ 1 (nobj idx - 1))] [])); simpl; try done.
  - by etrans.
  - unfold bag_pages; simpl. set_solver.
  - rewrite E. unfold bag_pages; simpl. rewrite app_nil_r. by rewrite <-Permutation_cons_append, Permutation_middle.
  - rewrite Z2Nat.id by (unfold class_ok in Hc; lia). split_and!; simpl; [|done| |by left].
    + rewrite Hnx3. split_and!; done.
    + repeat constructor. simpl. rewrite seqZ_cons by lia. done.
Qed.

Lemma hchain_range m idx head l :
  Forall page_addr l.*1 → hchain m idx head l → u32 head = head.
Proof.
  intros Hl. destruct l as [|[p s] l]; simpl; [by intros ->|]. intros (-> & _ & _).
  apply Forall_cons in Hl as [Hp _]. simpl in Hp. apply u32_small.
  unfold page_addr in Hp. lia.
Qed.

Lemma bag_pages_nodup g k (i : nat) gb :
  heap_inv g k → g_bags g !! i = Some gb → NoDup (bag_pages gb).
Proof.
  intros Hinv Hi. pose proof (inv_nodup _ _ Hinv) as Hnd.
  destruct (concat_split bag_pages _ _ _ Hi) as (R & HR & _).
  unfold all_pages in Hnd. rewrite HR in Hnd. rewrite !NoDup_app in Hnd. tauto.
Qed.

Lemma page_ok_set_next m idx p v slots :
  page_addr p → class_ok idx → page_ok m idx p slots →
  page_ok (set_hdr_next m p v) idx p slots.
Proof.
  intros Hp Hc (Hsz & Hch & Hnd). destruct (hdr_reads_next m p v Hp) as (_ & E1 & E2).
  split_and!; [congruence| |done]. rewrite E2. eapply obj_chain_frame; [|done].
  intros s Hs. apply obj_chain_range in Hch. rewrite Forall_forall in Hch.
  pose proof (slot_bound idx s Hc (Hch s Hs)).
  apply hdr_stores_slot; [done|..]; unfold slot_addr, page_addr in *; lia.
Qed.

(** What is known of a class whose first free page is [p]. *)
Lemma first_page g k idx p slots fr fu :
  heap_inv g k → class_ok idx →
  g_bags g !! Z.to_nat idx = Some (GBag ((p, slots) :: fr) fu) →
  ∃ b, bags k !! Z.to_nat idx = Some b ∧ bag_free b = p ∧ p ≠ NULL ∧ page_addr p ∧
    page_ok (k_mem k) idx p slots ∧ hchain (k_mem k) idx (hdr_next (k_mem k) p) fr ∧
    hchain (k_mem k) idx (bag_full b) (full_pages fu) ∧
    Forall (λ x, x.2 ≠ []) fr ∧ Forall page_addr fr.*1 ∧ Forall page_addr fu ∧
    p ∉ fr.*1 ∧ p ∉ fu.
Proof.
  intros Hinv Hc Hgb. destruct (heap_inv_class g k idx Hinv Hc) as (b & gb & Hb & Hgb' & Hrep).
  rewrite Hgb in Hgb'. injection Hgb' as <-. exists b.
  destruct (bag_pages_addr g k _ _ Hinv Hgb) as [Ha1 Ha2].
  pose proof (bag_pages_nodup g k _ _ Hinv Hgb) as Hnd. unfold bag_pages in Hnd.
  destruct Hrep as ((-> & Hok & Hfr) & Hfu & Hne & _). simpl in *.
  apply Forall_cons in Ha1 as [Hp Ha1]. apply Forall_cons in Hne as [_ Hne].
  apply NoDup_cons in Hnd as [Hpn _]. apply not_elem_of_app in Hpn as [? ?].
  assert (p ≠ NULL) by (unfold page_addr, NULL in *; lia).
  split_and!; done.
Qed.

Lemma fetch_object_keep g k idx p s t slots fr fu :
  heap_inv g k → class_ok idx →
  g_bags g !! Z.to_nat idx = Some (GBag ((p, s :: t :: slots) :: fr) fu) →
  ∃ k', fetch_object idx k = Ok (slot_addr p idx s, k') ∧
    heap_inv (set_gbag idx (GBag ((p, t :: slots) :: fr) fu) g) k'.
Proof.
  intros Hinv Hc Hgb.
  destruct (first_page g k idx _ _ _ _ Hinv Hc Hgb)
    as (b & Hb & Hbf & Hnn & Hp & Hok & Hfr & Hfu & Hne & Ha1 & Ha2 & Hp1 & Hp2).
  destruct (freelist_dequeue_ok k p idx s (t :: slots) Hp Hc Hok)
    as (m' & Hdq & Hok' & Hch & Hnx).
  unfold fetch_object. mstep. rewrite (get_bag_ok _ _ _ Hb), Hbf.
  rewrite (proj2 (Z.eqb_neq p NULL)) by done. simpl. rewrite Hdq.
  assert (Hhd : hdr_freelist_head m' p = t ∧ 0 ≤ t) by (destruct Hok' as (_ & (-> & ? & _) & _); lia).
  simpl. destruct Hhd as [-> Ht].
  rewrite (proj2 (Z.eqb_neq t BAG_FREELIST_SENTINEL)) by (unfold BAG_FREELIST_SENTINEL; lia).
  eexists; split; [done|].
  assert (Hbags : bags k = <[Z.to_nat idx := b]> (bags k)) by (by rewrite list_insert_id).
  unfold with_mem. rewrite Hbags.
  eapply (heap_inv_update g k p m' (Z.to_nat idx)); try done; simpl.
  - unfold bag_pages; simpl. set_solver.
  - apply inv_pchain, Hinv.
  - rewrite Z2Nat.id by (unfold class_ok in Hc; lia). split_and!; simpl; [| | |by left].
    + rewrite Hnx. split_and!; [done|done|]. by apply (hchain_frame (k_mem k) m' p).
    + apply (hchain_frame (k_mem k) m' p); rewrite ?full_pages_fst; done.
    + by constructor.
Qed.

(** The last free object of a page is handed out: the page moves to the full
    list. [m'] is the memory after the object was taken. *)
Lemma move_to_full g k idx p s fr fu b m' :
  heap_inv g k → class_ok idx →
  g_bags g !! Z.to_nat idx = Some (GBag ((p, [s]) :: fr) fu) →
  bags k !! Z.to_nat idx = Some b →
  page_ok m' idx p [] → page_step (k_mem k) m' p →
  heap_inv (set_gbag idx (GBag fr (p :: fu)) g)
    (KHeap (set_hdr_next m' p (bag_full b)) (pool_start k) (pool_end k)
       (page_freelist_head k)
       (<[Z.to_nat idx := Bag (hdr_next (k_mem k) p) p]> (bags k))).
Proof.
  intros Hinv Hc Hgb Hb Hok' [Hch Hnx].
  destruct (first_page g k idx _ _ _ _ Hinv Hc Hgb)
    as (b' & Hb' & Hbf & Hnn & Hp & Hok & Hfr & Hfu & Hne & Ha1 & Ha2 & Hp1 & Hp2).
  rewrite Hb in Hb'. injection Hb' as <-.
  assert (Hch2 : changes_only p 4096 (k_mem k) (set_hdr_next m' p (bag_full b)))
    by auto with heap.
  eapply (heap_inv_update g k p); try done; simpl.
  - unfold bag_pages; simpl. set_solver.
  - unfold bag_pages; simpl. by rewrite Permutation_middle.
  - apply inv_pchain, Hinv.
  - rewrite Z2Nat.id by (unfold class_ok in Hc; lia). split_and!; simpl; [| |done|by left].
    + by apply (hchain_frame (k_mem k) _ p).
    + split_and!; [done|by apply page_ok_set_next|].
      destruct (hdr_reads_next m' p (bag_full b) Hp) as (-> & _ & _).
      erewrite hchain_range; [|rewrite full_pages_fst; done|done].
      apply (hchain_frame (k_mem k) _ p); rewrite ?full_pages_fst; done.
Qed.

(** A page leaves the pool, is formatted, and no class holds it. *)
Lemma heap_inv_lose g k q ps idx m2 :
  heap_inv g k → class_ok idx → g_pages g = q :: ps → formatted (k_mem k) q idx m2 →
  heap_inv (GHeap ps (q :: g_lost g) (g_bags g))
    (KHeap m2 (pool_start k) (pool_end k) (load32 (k_mem k) q) (bags k)).
Proof.
  intros Hinv Hc E (_ & _ & Hch).
  destruct (fetch_page_cons g k q ps Hinv E) as (_ & Hpc & Hq).
  destruct (heap_inv_class g k idx Hinv Hc) as (b & gb & Hb & Hgb & Hrep).
  rewrite <-(list_insert_id (bags k) _ _ Hb), <-(list_insert_id (g_bags g) _ _ Hgb).
  eapply (heap_inv_update g k q); try done; simpl.
  - by left.
  - rewrite E. by rewrite <-Permutation_middle.
  - rewrite Z2Nat.id by (unfold class_ok in Hc; lia).
    destruct (bag_pages_addr g k _ _ Hinv Hgb) as [Ha1 Ha2].
    apply (bag_rep_frame (k_mem k) m2 q); try done.
    + unfold bag_pages. by rewrite Forall_app.
    + pose proof (inv_nodup _ _ Hinv) as Hnd. unfold all_pages in Hnd.
      destruct (concat_split bag_pages _ _ _ Hgb) as (R & HR & _).
      rewrite E, HR in Hnd. simpl in Hnd. apply NoDup_cons in Hnd as [Hn _].
      set_solver.
Qed.

Lemma hchain_null_b m idx head l :
  Forall page_addr l.*1 → hchain m idx head l →
  (head =? NULL) = match l with [] => true | _ => false end.
Proof.
  intros Ha H. apply (hchain_null _ _ _ _ Ha) in H. destruct l.
  - apply Z.eqb_eq. by apply H.
  - apply Z.eqb_neq. intros E. by apply H in E.
Qed.

(** The run of fetch_object up to the emptied page's move. *)
Lemma fetch_object_last g k idx p s fr fu :
  heap_inv g k → class_ok idx →
  g_bags g !! Z.to_nat idx = Some (GBag ((p, [s]) :: fr) fu) →
  ∃ k1, heap_inv (set_gbag idx (GBag fr (p :: fu)) g) k1 ∧
    fetch_object idx k =
      (match fr with
       | [] =>
         new_page ← fetch_page;
         _ ← modify (with_mem (λ m, set_hdr_next m new_page NULL));
         _ ← modify (with_mem (λ m, set_hdr_object_size m new_page (class_size idx)));
         _ ← modify (with_mem (λ m, set_hdr_freelist_head m new_page 0));
         _ ← init_page new_page (class_size idx);
         mret (slot_addr p idx s)
       | _ => mret (slot_addr p idx s)
       end) k1.
Proof.
  intros Hinv Hc Hgb.
  destruct (first_page g k idx _ _ _ _ Hinv Hc Hgb)
    as (b & Hb & Hbf & Hnn & Hp & Hok & Hfr & Hfu & Hne & Ha1 & Ha2 & Hp1 & Hp2).
  destruct (freelist_dequeue_ok k p idx s [] Hp Hc Hok) as (m' & Hdq & Hok' & Hstep).
  eexists; split; [by eapply move_to_full|].
  unfold fetch_object at 1. mstep. rewrite (get_bag_ok _ _ _ Hb), Hbf.
  rewrite (proj2 (Z.eqb_neq p NULL)) by done. simpl. rewrite Hdq.
  assert (hdr_freelist_head m' p = BAG_FREELIST_SENTINEL) as Hhd
    by (by destruct Hok' as (_ & ? & _)).
  destruct Hstep as [Hch Hnx]. simpl. rewrite Hhd. simpl. rewrite Hnx.
  rewrite (hchain_null_b _ _ _ _ Ha1 Hfr). by destruct fr.
Qed.

Lemma fetch_object_last_lose g k idx p s fu q ps :
  heap_inv g k → class_ok idx → g_pages g = q :: ps →
  g_bags g !! Z.to_nat idx = Some (GBag [(p, [s])] fu) →
  ∃ k', fetch_object idx k = Ok (slot_addr p idx s, k') ∧
    heap_inv (set_gbag idx (GBag [] (p :: fu)) (GHeap ps (q :: g_lost g) (g_bags g))) k'.
Proof.
  intros Hinv Hc E Hgb.
  destruct (fetch_object_last g k idx p s [] fu Hinv Hc Hgb) as (k1 & Hinv1 & ->).
  destruct (fetch_page_cons _ k1 q ps Hinv1 E) as (Hf & _ & Hq).
  mstep. rewrite Hf. mstep.
  match goal with |- context [init_page q _ ?k'] => set (k2 := k') end.
  destruct (init_page_ok k2 q idx Hq Hc) as (m2 & -> & Hch & Hobj).
  eexists; split; [done|].
  destruct (hdr_set_formats (k_mem k1) q idx Hq Hc (k_mem k2)) as (H1 & H2 & H3 & H4);
    [by right|].
  apply (heap_inv_lose (set_gbag idx (GBag [] (p :: fu)) g) k1 q ps idx m2);
    try done. by apply (format_page _ (k_mem k2)).
Qed.

(** ** Size classes of requests *)

Lemma bag_index_class idx :
  class_ok idx → bag_index (class_size idx) = idx ∧
  builtin_ffs (class_size idx) - 1 = idx.
Proof. intros H. by class_cases H. Qed.

Definition is_class_size (size : Z) : bool :=
  existsb (Z.eqb size) [4; 8; 16; 32; 64; 128; 256].

(** Every other accepted size is sent to an index past the array. *)
Lemma bag_index_other size :
  4 ≤ size ≤ 512 → is_class_size size = false → 9 ≤ bag_index size.
Proof.
  intros Hs Hc. apply Z.leb_le.
  assert (Hall : forallb (λ s, is_class_size s || (9 <=? bag_index s)) (seqZ 4 509) = true)
    by (vm_compute; reflexivity).
  rewrite forallb_forall in Hall. specialize (Hall size).
  rewrite <-list_elem_of_In, elem_of_seqZ, Hc in Hall. apply Hall. lia.
Qed.

Lemma kmalloc_fetch idx k :
  class_ok idx → kmalloc (class_size idx) k = fetch_object idx k.
Proof.
  intros Hc. destruct (bag_index_class idx Hc) as [E _]. unfold kmalloc.
  pose proof (class_size_range idx Hc) as Hr.
  rewrite (proj2 (Z.ltb_ge _ _)) by (unfold MIN_BLOCK_SIZE; lia).
  change (Z.shiftl 1 NO_CLASSES) with 512.
  rewrite Z.gtb_ltb, (proj2 (Z.ltb_ge 512 _)) by lia. cbn [orb]. by rewrite E.
Qed.

(** kmalloc of a class size does what the abstract allocator does, its panic
    and its null dereference included. *)
Definition refines_alloc (o : outcome (Z * gheap)) (r : outcome (Z * kheap)) : Prop :=
  match o with
  | Ok (a, g') => ∃ k', r = Ok (a, k') ∧ heap_inv g' k'
  | Panic msg => r = Panic msg
  | UB why => r = UB why
  | _ => False
  end.

Lemma fetch_object_refines g k idx :
  heap_inv g k → class_ok idx → refines_alloc (Spec.alloc idx g) (fetch_object idx k).
Proof.
  intros Hinv Hc. destruct (heap_inv_class g k idx Hinv Hc) as (b & gb & Hb & Hgb & Hrep).
  unfold Spec.alloc. rewrite Hgb.
  destruct gb as [[|[p [|s [|t slots]]] fr] fu].
  - destruct fu as [|f fu]; simpl.
    + destruct (g_pages g) as [|p ps] eqn:E; simpl.
      * destruct Hrep as (Hfr & Hfu & _). simpl in Hfr, Hfu.
        unfold fetch_object, initialize_bag. mstep.
        rewrite (get_bag_ok _ _ _ Hb), Hfr, Hfu. simpl.
        by rewrite (fetch_page_nil g k).
      * by apply (fetch_object_new g k idx p ps).
    + destruct (bag_pages_addr g k _ _ Hinv Hgb) as [_ Ha2].
      destruct Hrep as (Hfr & Hfu & _). simpl in Hfr, Hfu.
      destruct Hfu as (Hff & _). unfold fetch_object. mstep.
      rewrite (get_bag_ok _ _ _ Hb), Hfr, Hff.
      apply Forall_cons in Ha2 as [Hf _].
      rewrite (proj2 (Z.eqb_neq f NULL)) by (unfold page_addr, NULL in *; lia). done.
  - exfalso. destruct Hrep as (_ & _ & Hne & _). by apply Forall_cons in Hne as [[] _].
  - destruct fr as [|x fr].
    + destruct (g_pages g) as [|q ps] eqn:E; simpl.
      * destruct (fetch_object_last g k idx p s [] fu Hinv Hc Hgb) as (k1 & Hinv1 & ->).
        mstep. by rewrite (fetch_page_nil _ _ Hinv1).
      * by apply (fetch_object_last_lose g k).
    + destruct (fetch_object_last g k idx p s (x :: fr) fu Hinv Hc Hgb) as (k1 & Hinv1 & ->).
      simpl. eauto.
  - destruct fr; simpl; by apply (fetch_object_keep g k).
Qed.

(** ** kfree *)

(** A page inside a chain changes its free objects. *)
Lemma hchain_update m m' idx p slots' l1 slots l2 head :
  class_ok idx → page_step m m' p → page_ok m' idx p slots' →
  Forall page_addr (l1 ++ (p, slots) :: l2).*1 → NoDup (l1 ++ (p, slots) :: l2).*1 →
  hchain m idx head (l1 ++ (p, slots) :: l2) →
  hchain m' idx head (l1 ++ (p, slots') :: l2).
Proof.
  intros Hc [Hch Hnx] Hok'. revert head.
  induction l1 as [|[q sq] l1 IH]; intros head; simpl; rewrite Forall_cons, NoDup_cons;
    intros [Hq Ha] [Hin Hnd] (-> & Hok & H).
  - split_and!; [done|done|]. rewrite Hnx. by apply (hchain_frame m m' p).
  - assert (Hp : page_addr p /\ p ≠ q).
    { rewrite fmap_app, fmap_cons in *. simpl in *.
      apply Forall_app in Ha as [_ Ha]. apply Forall_cons in Ha as [? _]. set_solver. }
    destruct Hp as [Hp Hne].
    split_and!; [done|by apply (page_ok_frame m m' p)|].
    unfold hdr_next in *. rewrite (page_load32_first p q m m') by done. by apply IH.
Qed.

(** The predecessor's link skips the page after it. *)
Lemma hchain_unlink m idx q sq p sp l1 l2 head :
  class_ok idx →
  Forall page_addr (l1 ++ (q, sq) :: (p, sp) :: l2).*1 →
  NoDup (l1 ++ (q, sq) :: (p, sp) :: l2).*1 →
  hchain m idx head (l1 ++ (q, sq) :: (p, sp) :: l2) →
  hchain (set_hdr_next m q (hdr_next m p)) idx head (l1 ++ (q, sq) :: l2) ∧
  page_ok m idx p sp ∧ p ≠ q ∧ page_addr p ∧ page_addr q.
Proof.
  intros Hc. revert head.
  induction l1 as [|[r sr] l1 IH]; intros head; simpl; rewrite Forall_cons, NoDup_cons;
    intros [Hr Ha] [Hin Hnd] (-> & Hok & H).
  - destruct H as (Hnx & Hokp & H). simpl in *. apply Forall_cons in Ha as [Hp Ha].
    split_and!; [done|by apply page_ok_set_next| |done|set_solver|done|done].
    destruct (hdr_reads_next m q (hdr_next m p) Hr) as (-> & _ & _).
    rewrite u32_small by apply load32_range.
    apply (hchain_frame m _ q); [done|done|done|set_solver|by auto with heap|done].
  - destruct (IH (hdr_next m r)) as (H1 & H2 & H3 & H4 & H5); [done|done|done|].
    assert (Hne : q ≠ r) by (rewrite fmap_app, fmap_cons in Hin; set_solver).
    assert (Hch : changes_only q 4096 m (set_hdr_next m q (hdr_next m p)))
      by auto with heap.
    split_and!; try done.
    + by apply (page_ok_frame m _ q).
    + unfold hdr_next at 2. rewrite (page_load32_first q r m) by done. done.
Qed.

(** Distinct pages of a 32-bit address space are fewer than the fuel. *)
Lemma pages_bound l :
  Forall page_addr l → NoDup l → (length l ≤ Z.to_nat 1048576)%nat.
Proof.
  intros Ha Hnd. rewrite Forall_forall in Ha.
  assert (Hnd' : NoDup ((λ p, p / 4096) <$> l)).
  { apply NoDup_fmap_2_strong; [|done]. intros x y Hx Hy E.
    pose proof (Ha x Hx). pose proof (Ha y Hy). unfold page_addr in *.
    Z.to_euclidean_division_equations. lia. }
  rewrite <-(length_seqZ 0 1048576), <-(length_fmap (λ p, p / 4096) l).
  apply submseteq_length, NoDup_submseteq; [done|].
  intros x (y & -> & Hy)%list_elem_of_fmap. apply elem_of_seqZ.
  pose proof (Ha y Hy). unfold page_addr in *.
  Z.to_euclidean_division_equations. lia.
Qed.

Lemma find_prev_ok m idx q sq p sp l1 l2 head :
  Forall page_addr (l1 ++ (q, sq) :: (p, sp) :: l2).*1 →
  NoDup (l1 ++ (q, sq) :: (p, sp) :: l2).*1 →
  hchain m idx head (l1 ++ (q, sq) :: (p, sp) :: l2) →
  find_prev m head p = Ok q.
Proof.
  intros Ha Hnd H. unfold find_prev.
  assert (Hlen : (length l1 ≤ Z.to_nat 1048576)%nat).
  { pose proof (pages_bound _ Ha Hnd) as Hb. rewrite length_fmap, length_app in Hb. lia. }
  destruct (while_loop_total
    (λ (r : nat) cur, ∃ l, length l = r ∧ Forall page_addr (l ++ (q, sq) :: (p, sp) :: l2).*1 ∧
       NoDup (l ++ (q, sq) :: (p, sp) :: l2).*1 ∧
       hchain m idx cur (l ++ (q, sq) :: (p, sp) :: l2))
    (λ cur, negb (hdr_next m cur =? NULL) && negb (hdr_next m cur =? p))
    (λ cur, Ok (hdr_next m cur)) (length l1) head)
    as (cur & -> & l & Hl & _ & _ & Hch).
  - unfold FUEL. lia.
  - eauto.
  - intros r cur _ ([|[x sx] l] & Hl & Ha' & Hnd' & Hch); [done|]. simpl in *.
    injection Hl as <-. apply Forall_cons in Ha' as [Hx Ha'].
    apply NoDup_cons in Hnd' as [Hin Hnd']. destruct Hch as (-> & _ & Hch).
    split; [|eexists; split; [done|]; eauto].
    assert (Hn : hdr_next m x ≠ NULL ∧ hdr_next m x ≠ p); [|rewrite andb_true_iff,
      !negb_true_iff, !Z.eqb_neq; done].
    destruct l as [|[y sy] l]; destruct Hch as (Ey & _); simpl in *; rewrite Ey.
    all: apply Forall_cons in Ha' as [Hy _]; apply NoDup_cons in Hnd' as [Hny _].
    all: split; [unfold page_addr, NULL in *; lia|]; intros ->.
    all: apply Hny; rewrite ?fmap_app, ?fmap_cons; simpl; set_solver.
  - intros cur ([|] & Hl & _ & _ & Hch); [|done]. destruct Hch as (-> & _ & Ep & _).
    rewrite Ep. by rewrite Z.eqb_refl, andb_false_r.
  - destruct l; [|done]. by destruct Hch as (-> & _).
Qed.

(** The object's page is found by masking its address. *)
Lemma slot_page p idx s :
  page_addr p → class_ok idx → 0 ≤ s < nobj idx →
  Z.land (slot_addr p idx s) PAGE_MASK = p.
Proof.
  intros Hp Hc Hs. pose proof (slot_bound idx s Hc Hs).
  unfold PAGE_MASK. rewrite land_page_mask. unfold slot_addr, page_addr in *.
  rewrite u32_small by lia. Z.to_euclidean_division_equations. lia.
Qed.

(** The pointer check of kfree, active in debug builds only. *)
Definition free_check (debug : bool) (k : kheap) (ptr : Z) : Prop :=
  debug = false ∨ pool_start k < ptr ≤ pool_end k.

Lemma kfree_assert debug k ptr :
  free_check debug k ptr →
  debug && negb ((ptr >? pool_start k) && (ptr <=? pool_end k)) = false.
Proof. intros [-> | H]; [done|]. destruct debug; simpl; lia. Qed.

Lemma elem_of_class_pages g k idx fr fu l1 p slots l2 :
  heap_inv g k → g_bags g !! idx = Some (GBag fr fu) → fr = l1 ++ (p, slots) :: l2 →
  page_addr p ∧ Forall page_addr fr.*1 ∧ NoDup fr.*1 ∧ Forall page_addr fu ∧ NoDup fu ∧
  p ∉ fu.
Proof.
  intros Hinv Hgb E. destruct (bag_pages_addr g k _ _ Hinv Hgb) as [Ha1 Ha2].
  pose proof (bag_pages_nodup g k _ _ Hinv Hgb) as Hnd. unfold bag_pages in Hnd.
  apply NoDup_app in Hnd as (Hnd1 & Hdis & Hnd2). simpl in *.
  assert (Hin : p ∈ fr.*1) by (rewrite E, fmap_app, fmap_cons; set_solver).
  split_and!; try done; [|by apply Hdis]. rewrite Forall_forall in Ha1. auto.
Qed.

Lemma kfree_partial debug g k idx p s slots l1 l2 fu :
  heap_inv g k → class_ok idx → free_check debug k (slot_addr p idx s) →
  g_bags g !! Z.to_nat idx = Some (GBag (l1 ++ (p, slots) :: l2) fu) →
  0 ≤ s < nobj idx → s ∉ slots →
  ∃ k', kfree debug (slot_addr p idx s) k = Ok (tt, k') ∧
    heap_inv (set_gbag idx (GBag (l1 ++ (p, s :: slots) :: l2) fu) g) k'.
Proof.
  intros Hinv Hc Hdbg Hgb Hs Hfresh.
  destruct (elem_of_class_pages g k _ _ _ l1 p slots l2 Hinv Hgb eq_refl)
    as (Hp & Ha1 & Hnd1 & Ha2 & Hnd2 & Hpfu).
  destruct (heap_inv_class g k idx Hinv Hc) as (b & gb & Hb & Hgb' & Hrep).
  rewrite Hgb in Hgb'. injection Hgb' as <-. destruct Hrep as (Hfr & Hfu & Hne & _).
  simpl in *.
  assert (Hok : page_ok (k_mem k) idx p slots).
  { clear -Hfr. revert Hfr. generalize (bag_free b). induction l1 as [|[x sx] l1 IH];
      intros h; simpl; [tauto|]. intros (_ & _ & H). eauto. }
  assert (Hsl : slots ≠ []).
  { apply Forall_app in Hne as [_ Hne]. by apply Forall_cons in Hne as [? _]. }
  destruct (freelist_enqueue_ok k p idx s slots Hp Hc Hok Hs Hfresh)
    as (m' & Henq & Hok' & Hstep).
  unfold kfree. mstep. rewrite (kfree_assert _ _ _ Hdbg), slot_page by done.
  assert (Hh : hdr_freelist_head (k_mem k) p =? BAG_FREELIST_SENTINEL = false).
  { destruct slots as [|t slots]; [done|]. destruct Hok as (_ & (-> & ? & _) & _).
    apply Z.eqb_neq. unfold BAG_FREELIST_SENTINEL. lia. }
  rewrite Hh, Henq. eexists; split; [done|]. unfold with_mem.
  rewrite <-(list_insert_id (bags k) _ _ Hb) at 1.
  eapply (heap_inv_update g k p m'); try done; simpl.
  - apply Hstep.
  - unfold bag_pages; simpl. rewrite fmap_app, fmap_cons. set_solver.
  - unfold bag_pages; simpl. by rewrite !fmap_app, !fmap_cons.
  - apply inv_pchain, Hinv.
  - rewrite Z2Nat.id by (unfold class_ok in Hc; lia). split_and!; simpl; [| | |by left].
    + by eapply hchain_update.
    + apply (hchain_frame (k_mem k) _ p); rewrite ?full_pages_fst; try done. apply Hstep.
    + rewrite Forall_app, Forall_cons in *. naive_solver.
Qed.

(** A page outside every class becomes the first free page of class [idx], as
    at the end of kfree: link, bag, first free object. *)
Lemma relink g k idx p s b fr fu lost' :
  heap_inv g k → class_ok idx → g_lost g = p :: lost' → page_addr p →
  bags k !! Z.to_nat idx = Some b → g_bags g !! Z.to_nat idx = Some (GBag fr fu) →
  page_ok (k_mem k) idx p [] → 0 ≤ s < nobj idx →
  ∃ m', freelist_enqueue p (slot_addr p idx s)
          (KHeap (set_hdr_next (k_mem k) p (bag_free b)) (pool_start k) (pool_end k)
            (page_freelist_head k) (<[Z.to_nat idx := Bag p (bag_full b)]> (bags k)))
        = Ok (tt, KHeap m' (pool_start k) (pool_end k) (page_freelist_head k)
            (<[Z.to_nat idx := Bag p (bag_full b)]> (bags k))) ∧
    heap_inv (GHeap (g_pages g) lost'
        (<[Z.to_nat idx := GBag ((p, [s]) :: fr) fu]> (g_bags g)))
      (KHeap m' (pool_start k) (pool_end k) (page_freelist_head k)
        (<[Z.to_nat idx := Bag p (bag_full b)]> (bags k))).
Proof.
  intros Hinv Hc El Hp Hb Hgb Hok Hs.
  destruct (heap_inv_class g k idx Hinv Hc) as (b' & gb & Hb' & Hgb' & Hrep).
  rewrite Hb in Hb'. rewrite Hgb in Hgb'.
  injection Hb' as <-. injection Hgb' as <-.
  destruct Hrep as (Hfr & Hfu & Hne & _). simpl in *.
  destruct (bag_pages_addr g k _ _ Hinv Hgb) as [Ha1 Ha2]. simpl in *.
  assert (Hnot : p ∉ fr.*1 ∧ p ∉ fu).
  { pose proof (inv_nodup _ _ Hinv) as Hnd. unfold all_pages in Hnd.
    destruct (concat_split bag_pages _ _ _ Hgb) as (R & HR & _).
    rewrite El, HR in Hnd. apply NoDup_app in Hnd as (_ & _ & Hnd).
    simpl in Hnd. apply NoDup_cons in Hnd as [Hn _]. unfold bag_pages in Hn; simpl in Hn.
    set_solver. }
  destruct Hnot as [Hn1 Hn2].
  match goal with |- context [freelist_enqueue _ _ ?k'] => set (k1 := k') end.
  destruct (freelist_enqueue_ok k1 p idx s [] Hp Hc) as (m' & -> & Hok' & Hch & Hnx);
    [by apply page_ok_set_next|done|set_solver|].
  exists m'. split; [done|]. simpl in *.
  assert (Hch' : changes_only p 4096 (k_mem k) m') 
    by (etrans; [apply set_hdr_next_only, changes_only_id|exact Hch]).
  eapply (heap_inv_update g k p m'); try done; simpl.
  - unfold bag_pages; simpl. set_solver.
  - rewrite El. unfold bag_pages; simpl. f_equiv. by rewrite <-Permutation_middle.
  - apply inv_pchain, Hinv.
  - rewrite Z2Nat.id by (unfold class_ok in Hc; lia). split_and!; simpl; [| | |by left].
    + split_and!; [done|done|]. rewrite Hnx.
      destruct (hdr_reads_next (k_mem k) p (bag_free b) Hp) as (-> & _ & _).
      erewrite hchain_range by done. by apply (hchain_frame (k_mem k) _ p).
    + apply (hchain_frame (k_mem k) _ p); rewrite ?full_pages_fst; done.
    + by constructor.
Qed.

(** Taking a page out of the full list of its class. *)
Lemma unlink_full g k idx p fr fu1 fu2 b :
  heap_inv g k → class_ok idx →
  bags k !! Z.to_nat idx = Some b →
  g_bags g !! Z.to_nat idx = Some (GBag fr (fu1 ++ p :: fu2)) →
  ∃ m1 full1,
    (match last fu1 with
     | None => full1 = hdr_next (k_mem k) p ∧ m1 = k_mem k ∧ bag_full b = p
     | Some q => full1 = bag_full b ∧ bag_full b ≠ p ∧ bag_full b ≠ NULL ∧
         find_prev (k_mem k) (bag_full b) p = Ok q ∧ hdr_next (k_mem k) q = p ∧
         m1 = set_hdr_next (k_mem k) q (hdr_next (k_mem k) p)
     end) ∧
    page_ok (k_mem k) idx p [] ∧ page_ok m1 idx p [] ∧ page_addr p ∧
    heap_inv (GHeap (g_pages g) (p :: g_lost g)
               (<[Z.to_nat idx := GBag fr (fu1 ++ fu2)]> (g_bags g)))
      (KHeap m1 (pool_start k) (pool_end k) (page_freelist_head k)
         (<[Z.to_nat idx := Bag (bag_free b) full1]> (bags k))).
Proof.
  intros Hinv Hc Hb Hgb.
  destruct (heap_inv_class g k idx Hinv Hc) as (b' & gb & Hb' & Hgb' & Hrep).
  rewrite Hb in Hb'. rewrite Hgb in Hgb'. injection Hb' as <-. injection Hgb' as <-.
  destruct Hrep as (Hfr & Hfu & Hne & _). simpl in *.
  destruct (bag_pages_addr g k _ _ Hinv Hgb) as [Ha1 Ha2].
  pose proof (bag_pages_nodup g k _ _ Hinv Hgb) as Hnd. unfold bag_pages in Hnd.
  apply NoDup_app in Hnd as (Hnd1 & Hdis & Hnd2). simpl in *.
  rewrite <-full_pages_fst in Ha2, Hnd2.
  assert (Hperm : (g_pages g ++ (p :: g_lost g) ++ bag_pages (GBag fr (fu1 ++ fu2)))
    ≡ₚ g_pages g ++ g_lost g ++ bag_pages (GBag fr (fu1 ++ p :: fu2))).
  { f_equiv. unfold bag_pages; simpl. rewrite <-!Permutation_middle.
    by rewrite Permutation_middle. }
  destruct fu1 as [|q fu1 _] using rev_ind.
  - destruct Hfu as (Hpf & Hokp & Hfu2). exists (k_mem k), (hdr_next (k_mem k) p).
    unfold full_pages in Ha2. simpl in Ha2. apply Forall_cons in Ha2 as [Hp Ha2].
    split_and!; try done.
    eapply (heap_inv_update g k p); try done; simpl; [by left|apply inv_pchain, Hinv|].
    rewrite Z2Nat.id by (unfold class_ok in Hc; lia). split_and!; simpl; auto.
  - rewrite last_snoc.
    assert (E : full_pages ((fu1 ++ [q]) ++ p :: fu2) =
      full_pages fu1 ++ (q, []) :: (p, []) :: full_pages fu2).
    { unfold full_pages. by rewrite !fmap_app, <-app_assoc. }
    assert (E' : full_pages ((fu1 ++ [q]) ++ fu2) =
      full_pages fu1 ++ (q, []) :: full_pages fu2).
    { unfold full_pages. by rewrite !fmap_app, <-app_assoc. }
    rewrite E in Hfu, Ha2, Hnd2.
    destruct (hchain_unlink _ _ _ _ _ _ _ _ _ Hc Ha2 Hnd2 Hfu)
      as (Hfu' & Hokp & Hpq & Hp & Hq).
    pose proof (find_prev_ok _ _ _ _ _ _ _ _ _ Ha2 Hnd2 Hfu) as Hfind.
    assert (Hch : changes_only q 4096 (k_mem k)
      (set_hdr_next (k_mem k) q (hdr_next (k_mem k) p))) by auto with heap.
    exists (set_hdr_next (k_mem k) q (hdr_next (k_mem k) p)), (bag_full b).
    assert (Hnext : hdr_next (k_mem k) q = p).
    { clear -Hfu. revert Hfu. generalize (bag_full b).
      induction (full_pages fu1) as [|[x sx] l IH]; intros h; simpl; [tauto|].
      intros (_ & _ & H). eauto. }
    assert (Hhd : bag_full b ≠ p ∧ bag_full b ≠ NULL).
    { destruct (full_pages fu1) as [|[x sx] l]; simpl in *; destruct Hfu as (-> & _);
        apply Forall_cons in Ha2 as [Hx _]; apply NoDup_cons in Hnd2 as [Hnx _].
      all: split; [|unfold page_addr, NULL in *; lia].
      all: intros ->; apply Hnx; rewrite ?fmap_app, ?fmap_cons; simpl; set_solver. }
    destruct Hhd. split_and!; try done.
    + by apply (page_ok_frame (k_mem k) _ q).
    + eapply (heap_inv_update g k q); try done; simpl.
      * unfold bag_pages; simpl. set_solver.
      * apply inv_pchain, Hinv.
      * rewrite Z2Nat.id by (unfold class_ok in Hc; lia). split_and!; simpl; [| |done|by left].
        -- apply (hchain_frame (k_mem k) _ q); try done.
           intros Hin. apply (Hdis q Hin). set_solver.
        -- by rewrite E'.
Qed.

Lemma kfree_full debug g k idx p s fr fu1 fu2 :
  heap_inv g k → class_ok idx → free_check debug k (slot_addr p idx s) →
  g_bags g !! Z.to_nat idx = Some (GBag fr (fu1 ++ p :: fu2)) →
  0 ≤ s < nobj idx →
  ∃ k', kfree debug (slot_addr p idx s) k = Ok (tt, k') ∧
    heap_inv (set_gbag idx (GBag ((p, [s]) :: fr) (fu1 ++ fu2)) g) k'.
Proof.
  intros Hinv Hc Hdbg Hgb Hs.
  destruct (heap_inv_class g k idx Hinv Hc) as (b & _ & Hb & _).
  destruct (unlink_full g k idx p fr fu1 fu2 b Hinv Hc Hb Hgb)
    as (m1 & full1 & Hcase & Hok & Hok1 & Hp & Hinv1).
  destruct (relink _ _ idx p s (Bag (bag_free b) full1) fr (fu1 ++ fu2) (g_lost g)
    Hinv1 Hc eq_refl Hp) as (m' & Henq & Hinv'); simpl; try done.
  { apply list_lookup_insert_eq. by eapply lookup_lt_Some. }
  { apply list_lookup_insert_eq. by eapply lookup_lt_Some. }
  simpl in Henq, Hinv'. rewrite list_insert_insert_eq in Henq.
  rewrite !list_insert_insert_eq in Hinv'.
  eexists; split; [|exact Hinv'].
  unfold kfree. mstep. rewrite (kfree_assert _ _ _ Hdbg), slot_page by done.
  pose proof Hok as (Hsz & -> & _). simpl.
  destruct (bag_index_class idx Hc) as [_ Hffs].
  rewrite Hsz, Hffs, (get_bag_ok _ _ _ Hb).
  destruct (last fu1) as [q|].
  - destruct Hcase as (-> & Hnp & Hnn & Hfind & Hnext & ->).
    unfold deref. rewrite (proj2 (Z.eqb_neq _ _) Hnp), (proj2 (Z.eqb_neq _ _) Hnn).
    simpl. rewrite Hfind. mstep. rewrite Hnext.
    assert (Hpn : p =? NULL = false) by (apply Z.eqb_neq; unfold page_addr, NULL in *; lia).
    rewrite Hpn, andb_false_r. exact Henq.
  - destruct Hcase as (-> & -> & ->). rewrite Z.eqb_refl. simpl. exact Henq.
Qed.

Lemma filter_ne_split (p : Z) l1 l2 :
  p ∉ l1 → p ∉ l2 → filter (.≠ p) (l1 ++ p :: l2) = l1 ++ l2.
Proof.
  intros H1 H2. rewrite filter_app, filter_cons_False by (by intros []).
  assert (Hid : ∀ l : list Z, p ∉ l → filter (.≠ p) l = l).
  { intros l. induction l as [|x l IH]; [done|]. intros [Hx Hl]%not_elem_of_cons.
    rewrite filter_cons_True by congruence. by rewrite IH. }
  by rewrite !Hid.
Qed.

Lemma push_slot_split p s slots l1 l2 :
  p ∉ l1.*1 → p ∉ l2.*1 →
  push_slot p s (l1 ++ (p, slots) :: l2) = l1 ++ (p, s :: slots) :: l2.
Proof.
  intros H1 H2. unfold push_slot. rewrite fmap_app, fmap_cons. simpl.
  rewrite decide_True by done.
  assert (Hid : ∀ l : list (Z * list Z), p ∉ l.*1 →
    (λ x, if decide (x.1 = p) then (p, s :: x.2) else x) <$> l = l).
  { intros l Hl. induction l as [|[q sq] l IH]; [done|].
    rewrite fmap_cons in *. simpl in *. apply not_elem_of_cons in Hl as [? ?].
    rewrite decide_False by done. by rewrite IH. }
  by rewrite !Hid.
Qed.

Lemma kfree_free debug g k idx p s :
  heap_inv g k → class_ok idx → live g idx p s →
  free_check debug k (slot_addr p idx s) →
  ∃ k', kfree debug (slot_addr p idx s) k = Ok (tt, k') ∧
    heap_inv (Spec.free idx p s g) k'.
Proof.
  intros Hinv Hc (Hs & [fr fu] & Hgb & Hlive) Hdbg. unfold Spec.free. rewrite Hgb.
  pose proof (bag_pages_nodup g k _ _ Hinv Hgb) as Hnd. unfold bag_pages in Hnd.
  simpl in *. apply NoDup_app in Hnd as (Hnd1 & Hdis & Hnd2).
  case_decide as Hin.
  - apply list_elem_of_split in Hin as (fu1 & fu2 & ->).
    apply NoDup_app in Hnd2 as (_ & Hd & Hnd2). apply NoDup_cons in Hnd2 as [? _].
    rewrite filter_ne_split; [|intros Hp; apply (Hd p Hp); by left|done].
    by apply kfree_full.
  - destruct Hlive as [?|(slots & Hin' & Hns)]; [done|].
    apply list_elem_of_split in Hin' as (l1 & l2 & ->).
    rewrite fmap_app, fmap_cons in Hnd1. simpl in Hnd1.
    apply NoDup_app in Hnd1 as (_ & Hd & Hnd1). apply NoDup_cons in Hnd1 as [? _].
    rewrite push_slot_split; [|intros Hp; apply (Hd p Hp); by left|done].
    by apply kfree_partial.
Qed.

(** ** kmalloc_init *)

Definition pool_page (start i : Z) : Z := start + 4096 * i.
Definition pool_pages (start n : Z) : list Z := pool_page start <$> seqZ 0 n.

Lemma pchain_pool m start n (i : Z) (r : nat) :
  i + Z.of_nat r = n →
  (∀ j, i ≤ j < n - 1 → load32 m (pool_page start j) = pool_page start (j + 1)) →
  (i < n → load32 m (pool_page start (n - 1)) = 0) →
  pchain m (if decide (r = 0%nat) then 0 else pool_page start i)
    (pool_page start <$> seqZ i (Z.of_nat r)).
Proof.
  revert i; induction r as [|r IH]; intros i Hi Hl Hend; [done|].
  rewrite seqZ_cons by lia. simpl. split; [done|].
  replace (Z.pred (Z.of_nat (S r))) with (Z.of_nat r) by lia.
  replace (Z.succ i) with (i + 1) by lia.
  specialize (IH (i + 1) ltac:(lia)). destruct (decide (r = 0%nat)) as [->|Hr].
  - replace i with (n - 1) by lia. by apply Hend; lia.
  - rewrite Hl by lia. apply IH; [intros; apply Hl; lia|intros; apply Hend; lia].
Qed.

Lemma pool_all_pages start n :
  all_pages (GHeap (pool_pages start n) [] (replicate 9 (GBag [] []))) =
  pool_pages start n.
Proof. unfold all_pages. simpl. by rewrite app_nil_r. Qed.

Section kmalloc_init.
Context (m : mem) (start n : Z).
Context (Hstart : 0 < start ∧ start mod 4096 = 0) (Hn : 0 < n)
  (Hend : start + 4096 * n + 4096 ≤ 4294967296).

Lemma pool_store m1 i v :
  0 ≤ i < n →
  let m2 := store32 m1 (pool_page start i) v in
  load32 m2 (pool_page start i) = u32 v ∧
  ∀ j, 0 ≤ j < n → j ≠ i → load32 m2 (pool_page start j) = load32 m1 (pool_page start j).
Proof using Hstart Hend.
  intros Hi m2. subst m2. split; [apply load32_store32_eq|]. intros j Hj Hne.
  apply load32_store32_disj. unfold pool_page. apply disj_linear; lia.
Qed.

Lemma kmalloc_init_loop :
  ∃ m1 addr, while_loop
      (λ '(m, addr), addr <? start ⊞ (4096 * n))
      (λ '(m, addr), Ok (store32 m addr (addr ⊞ PAGE_SIZE), addr ⊞ PAGE_SIZE))
      (m, start) = Ok (m1, addr) ∧
    ∀ j, 0 ≤ j < n → load32 m1 (pool_page start j) = pool_page start (j + 1).
Proof using Hstart Hn Hend.
  destruct (while_loop_total
    (λ (r : nat) '(m1, addr), Z.of_nat r ≤ n ∧ addr = pool_page start (n - Z.of_nat r) ∧
       ∀ j, 0 ≤ j < n - Z.of_nat r →
         load32 m1 (pool_page start j) = pool_page start (j + 1))
    (λ '(m, addr), addr <? start ⊞ (4096 * n))
    (λ '(m, addr), Ok (store32 m addr (addr ⊞ PAGE_SIZE), addr ⊞ PAGE_SIZE))
    (Z.to_nat n) (m, start)) as ([m1 addr] & -> & _ & _ & Hl).
  - unfold FUEL. lia.
  - split_and!; [lia|unfold pool_page; lia|]. intros; lia.
  - intros r [m1 addr] _ (Hr & -> & Hl).
    change PAGE_SIZE with 4096.
    assert (Ha : pool_page start (n - Z.of_nat (S r)) ⊞ 4096 =
                 pool_page start (n - Z.of_nat r)).
    { unfold pool_page. rewrite u32_small; lia. }
    rewrite Ha, (u32_small (start + 4096 * n)) by lia.
    split; [apply Z.ltb_lt; unfold pool_page; lia|].
    eexists; split; [done|]. split_and!; [lia|done|]. intros j Hj.
    destruct (pool_store m1 (n - Z.of_nat (S r)) (pool_page start (n - Z.of_nat r)))
      as [H1 H2]; [lia|].
    destruct (decide (j = n - Z.of_nat (S r))) as [->|Hne].
    + rewrite H1, u32_small; unfold pool_page; lia.
    + rewrite H2 by lia. apply Hl. lia.
  - intros [m1 addr] (_ & -> & _). apply Z.ltb_ge. unfold pool_page. rewrite u32_small; lia.
  - exists m1, addr. split; [done|]. intros j Hj. apply Hl. lia.
Qed.

Lemma kmalloc_init_inv debug :
  ∃ k, kmalloc_init debug start (4096 * n) (kheap_boot m) = Ok (tt, k) ∧
    heap_inv (GHeap (pool_pages start n) [] (replicate 9 (GBag [] []))) k ∧
    pool_start k = start ∧ pool_end k = start + 4096 * n.
Proof using Hstart Hn Hend.
  destruct kmalloc_init_loop as (m1 & addr & Hrun & Hl).
  assert (Has : Z.land start (Z.lnot PAGE_MASK) =? 0 = true).
  { apply Z.eqb_eq. rewrite land_lnot_page_mask; lia. }
  unfold kmalloc_init. mstep. rewrite Has, andb_false_r. simpl. rewrite Hrun. simpl.
  eexists; split; [done|]. change PAGE_SIZE with 4096.
  rewrite (u32_small (start + 4096 * n)) by lia.
  rewrite u32_small by lia.
  destruct (pool_store m1 (n - 1) PAGE_FREELIST_SENTINEL ltac:(lia)) as [Hs Ho].
  replace (pool_page start (n - 1)) with (start + 4096 * n - 4096) in *
    by (unfold pool_page; lia).
  split; [|done].
  constructor; simpl.
  - replace start with (pool_page start 0) at 2 by (unfold pool_page; lia).
    pose proof (pchain_pool (store32 m1 (start + 4096 * n - 4096) PAGE_FREELIST_SENTINEL)
      start n 0 (Z.to_nat n) ltac:(lia)) as Hp.
    rewrite decide_False in Hp by lia. rewrite Z2Nat.id in Hp by lia. apply Hp.
    + intros j Hj. rewrite Ho by lia. apply Hl. lia.
    + intros _. replace (pool_page start (n - 1)) with (start + 4096 * n - 4096)
        by (unfold pool_page; lia). done.
  - done.
  - intros i b gb Hb Hgb. change (replicate 9 (Bag NULL NULL) !! i = Some b) in Hb.
    change (replicate 9 (GBag [] []) !! i = Some gb) in Hgb.
    apply lookup_replicate in Hb as [-> _].
    apply lookup_replicate in Hgb as [-> _]. split_and!; [done|done|constructor|by right].
  - rewrite pool_all_pages. apply Forall_fmap, Forall_forall. intros i Hi.
    apply elem_of_seqZ in Hi. unfold page_addr, pool_page. simpl.
    split_and!; [lia|lia|].
    rewrite Z.mul_comm, Z.mod_add by lia. apply Hstart.
  - rewrite pool_all_pages. apply NoDup_fmap_2; [|apply NoDup_seqZ].
    intros i j. unfold pool_page. lia.
Qed.
End kmalloc_init.
