(* ===== verification/KmallocClient.v ===== *)
(** * KmallocClient: what callers of kmalloc and kfree may rely on

    The theorems of this file are about sequences of calls: a client obtains
    objects, writes into them and gives them back; the allocator's invariant
    holds throughout, objects in use are never handed out twice and never
    overlap, and giving one back always succeeds. *)

From S2P Require Import Prelude Machine ArchPaging Kmalloc.
Import Kmalloc.Spec.

(** ** Objects in use, per class *)

(** The bytes of object [s] that lie inside its page. *)
Definition extent (idx s : Z) : Z := Z.min (class_size idx) (4088 - s * class_size idx).

Definition bag_live (idx : Z) (gb : gbag) (p s : Z) : Prop :=
  0 ≤ s < nobj idx ∧
  (p ∈ g_full gb ∨ ∃ slots, (p, slots) ∈ g_free gb ∧ s ∉ slots).

Lemma live_bag g idx p s gb :
  g_bags g !! Z.to_nat idx = Some gb → live g idx p s ↔ bag_live idx gb p s.
Proof. intros H. unfold live, bag_live. rewrite H. naive_solver. Qed.

(** Replacing one class leaves the objects of the others. *)
Lemma live_set_gbag g i idx p s gb ps lost :
  class_ok i → class_ok idx → length (g_bags g) = 9%nat →
  live (set_gbag idx gb (GHeap ps lost (g_bags g))) i p s ↔
  if decide (i = idx) then bag_live idx gb p s else live g i p s.
Proof.
  intros Hi Hc Hl. unfold class_ok in *. case_decide as E.
  - subst i. apply live_bag. simpl. apply list_lookup_insert_eq. lia.
  - unfold live; simpl. rewrite list_lookup_insert_ne by lia. done.
Qed.
Lemma live_set_gbag_same g i idx p s gb :
  class_ok i → class_ok idx → length (g_bags g) = 9%nat →
  live (set_gbag idx gb g) i p s ↔
  if decide (i = idx) then bag_live idx gb p s else live g i p s.
Proof. destruct g. apply live_set_gbag. Qed.

(** The free objects of a page are distinct, and pages have one entry. *)
Record bag_wf (idx : Z) (gb : gbag) : Prop := {
  wf_nodup : NoDup (bag_pages gb);
  wf_slots : ∀ p slots, (p, slots) ∈ g_free gb →
    NoDup slots ∧ slots ≠ [] ∧ ∀ s, s ∈ slots → 0 ≤ s < nobj idx;
}.

Lemma hchain_elem m idx head l p slots :
  hchain m idx head l → (p, slots) ∈ l → page_ok m idx p slots.
Proof.
  revert head; induction l as [|[q sq] l IH]; intros head; [by intros _ ?%elem_of_nil|].
  intros (_ & Hok & Hl) [[= -> ->]|Hin]%elem_of_cons; eauto.
Qed.

Lemma heap_inv_wf g k idx gb :
  heap_inv g k → class_ok idx → g_bags g !! Z.to_nat idx = Some gb → bag_wf idx gb.
Proof.
  intros Hinv Hc Hgb. destruct (heap_inv_class g k idx Hinv Hc) as (b & gb' & _ & Hgb' & Hrep).
  rewrite Hgb in Hgb'. injection Hgb' as <-. destruct Hrep as (Hfr & _ & Hne & _).
  split; [by eapply bag_pages_nodup|]. intros p slots Hin.
  destruct (hchain_elem _ _ _ _ _ _ Hfr Hin) as (_ & Hch & Hnd).
  split_and!; [done| |]; [rewrite Forall_forall in Hne; by apply (Hne (p, slots))|].
  apply obj_chain_range in Hch. by rewrite Forall_forall in Hch.
Qed.

(** In a well-formed class a page's entry is determined by the page. *)
Lemma bag_wf_entry idx p slots fr fu :
  bag_wf idx (GBag ((p, slots) :: fr) fu) →
  p ∉ fu ∧ ∀ sl, (p, sl) ∈ (p, slots) :: fr → sl = slots.
Proof.
  intros [Hnd _]. unfold bag_pages in Hnd. simpl in Hnd.
  apply NoDup_cons in Hnd as [Hp _]. apply not_elem_of_app in Hp as [Hp ?].
  split; [done|]. intros sl [[= ->]|Hin]%elem_of_cons; [done|].
  destruct Hp. apply list_elem_of_fmap. by exists (p, sl).
Qed.

(** ** What one allocation does to the set of objects in use *)

(** The first free object of the first page becomes the only new one, whether
    the page keeps free objects or becomes full. *)
Lemma bag_live_take idx p s slots fr fu q t :
  bag_wf idx (GBag ((p, s :: slots) :: fr) fu) →
  let gb' := if decide (slots = []) then GBag fr (p :: fu)
             else GBag ((p, slots) :: fr) fu in
  bag_live idx gb' q t ↔
    (q = p ∧ t = s) ∨ bag_live idx (GBag ((p, s :: slots) :: fr) fu) q t.
Proof.
  intros Hwf. pose proof (bag_wf_entry _ _ _ _ _ Hwf) as [Hpfu Huniq].
  destruct Hwf as [_ Hsl]. destruct (Hsl p (s :: slots)) as (Hnd & _ & Hr); [by left|].
  apply NoDup_cons in Hnd as [Hs Hnd]. pose proof (Hr s ltac:(by left)) as Hsr.
  assert (Hpfr : ∀ sl, (p, sl) ∈ fr → sl = s :: slots) by (intros; apply Huniq; by right).
  unfold bag_live. case_decide as E; simpl; setoid_rewrite elem_of_cons.
  - subst slots. split.
    + intros (Ht & [[->|?]|(sl & ? & ?)]); [|eauto 10..].
      destruct (decide (t = s)); [by left|]. right. split; [done|]. right.
      exists [s]. split; [by left|]. set_solver.
    + intros [[-> ->]|(Ht & [?|(sl & [[= -> ->]|?] & ?)])]; eauto 10.
  - split.
    + intros (Ht & [?|(sl & [[= -> ->]|?] & Hts)]); [by eauto 10| |by eauto 10].
      destruct (decide (t = s)) as [->|]; [by left|]. right. split; [done|]. right.
      exists (s :: slots). set_solver.
    + intros [[-> ->]|(Ht & [?|(sl & [[= -> ->]|?] & ?)])]; [eauto 10| |eauto 10..].
      * eauto 10.
      * split; [done|]. right. exists slots. set_solver.
Qed.

Lemma bag_live_first idx p q t :
  class_ok idx →
  bag_live idx (GBag [(p, seqZ 1 (nobj idx - 1))] []) q t ↔ q = p ∧ t = 0.
Proof.
  intros Hc. pose proof (nobj_range idx Hc). unfold bag_live; simpl. split.
  - intros (Ht & [Hin|(sl & Hin & Hs)]); [by apply elem_of_nil in Hin|].
    apply list_elem_of_singleton in Hin as [= -> ->]. rewrite elem_of_seqZ in Hs. lia.
  - intros [-> ->]. split; [lia|]. right. eexists. split; [by left|].
    rewrite elem_of_seqZ. lia.
Qed.

(** An object in use lies on a page of its class. *)
Lemma bag_live_page idx gb p s : bag_live idx gb p s → p ∈ bag_pages gb.
Proof.
  intros (_ & [Hp|(slots & Hp & _)]); unfold bag_pages; apply elem_of_app; [by right|].
  left. apply list_elem_of_fmap. by exists (p, slots).
Qed.
Lemma class_pages_all g idx gb p :
  g_bags g !! idx = Some gb → p ∈ bag_pages gb → p ∈ concat (bag_pages <$> g_bags g).
Proof.
  intros Hgb Hp. destruct (concat_split bag_pages _ _ _ Hgb) as (R & HR & _).
  rewrite HR. apply elem_of_app. by left.
Qed.

Lemma set_gbag_pages g (idx : Z) gb gb' ps lost :
  g_bags g !! Z.to_nat idx = Some gb →
  ps ++ lost ++ bag_pages gb' ≡ₚ g_pages g ++ g_lost g ++ bag_pages gb →
  all_pages (set_gbag idx gb' (GHeap ps lost (g_bags g))) ≡ₚ all_pages g.
Proof.
  intros Hgb Hp. destruct (concat_split bag_pages _ _ _ Hgb) as (R & HR & HR' & _).
  unfold all_pages; simpl. rewrite HR, (HR' gb').
  trans ((ps ++ lost ++ bag_pages gb') ++ R); [by rewrite <-!app_assoc|].
  rewrite Hp. by rewrite <-!app_assoc.
Qed.

(** A successful allocation either starts the class's first page or takes the
    first free object of the class's first page. *)
Lemma alloc_cases idx g a g' gb :
  Spec.alloc idx g = Ok (a, g') → g_bags g !! Z.to_nat idx = Some gb →
  (∃ p ps, gb = GBag [] [] ∧ g_pages g = p :: ps ∧ a = slot_addr p idx 0 ∧
     g' = set_gbag idx (GBag [(p, seqZ 1 (nobj idx - 1))] [])
            (GHeap ps (g_lost g) (g_bags g))) ∨
  (∃ p s slots fr fu ps lost, gb = GBag ((p, s :: slots) :: fr) fu ∧
     a = slot_addr p idx s ∧ ps ++ lost ≡ₚ g_pages g ++ g_lost g ∧
     (length (g_pages g) ≤ S (length ps))%nat ∧
     g' = set_gbag idx (if decide (slots = []) then GBag fr (p :: fu)
                        else GBag ((p, slots) :: fr) fu) (GHeap ps lost (g_bags g))).
Proof.
  unfold Spec.alloc. intros Ha Hgb. rewrite Hgb in Ha. destruct g as [pages lost gbs].
  destruct gb as [[|[p [|s [|t slots]]] fr] fu]; simpl in *.
  - destruct fu; [|done]. destruct pages as [|p ps]; [done|]. simplify_eq. left. eauto 10.
  - done.
  - destruct fr as [|[r sr] fr].
    + destruct pages as [|q ps]; [done|]. simplify_eq. right.
      exists p, s, [], [], fu, ps, (q :: lost). split_and!; try done.
      symmetry. apply Permutation_middle.
    + simplify_eq. right. exists p, s, [], ((r, sr) :: fr), fu, pages, lost.
      split_and!; try done. lia.
  - simplify_eq. right. exists p, s, (t :: slots), fr, fu, pages, lost.
    split_and!; try done. lia.
Qed.

Lemma alloc_live g k idx a g' :
  heap_inv g k → class_ok idx → Spec.alloc idx g = Ok (a, g') →
  ∃ p s, a = slot_addr p idx s ∧ ¬ live g idx p s ∧ all_pages g' ≡ₚ all_pages g ∧
    ∀ i q t, class_ok i →
      live g' i q t ↔ (i = idx ∧ q = p ∧ t = s) ∨ live g i q t.
Proof.
  intros Hinv Hc Ha. pose proof (inv_nbags _ _ Hinv) as [_ Hlen].
  destruct (heap_inv_class g k idx Hinv Hc) as (b & gb & _ & Hgb & _).
  pose proof (heap_inv_wf g k idx gb Hinv Hc Hgb) as Hwf.
  destruct (alloc_cases _ _ _ _ _ Ha Hgb)
    as [(p & ps & -> & Hps & -> & ->)|(p & s & slots & fr & fu & ps & lost & -> & -> & Hp & _ & ->)].
  - exists p, 0. split_and!; [done| | |].
    + rewrite (live_bag _ _ _ _ _ Hgb). unfold bag_live; simpl. set_solver.
    + eapply set_gbag_pages; [done|]. rewrite Hps. unfold bag_pages; simpl.
      rewrite !app_nil_r, app_assoc. simpl. symmetry. apply Permutation_cons_append.
    + intros i q t Hi. rewrite live_set_gbag by done.
      destruct (decide (i = idx)) as [->|]; [|naive_solver].
       rewrite bag_live_first, (live_bag _ _ _ _ _ Hgb) by done.
      unfold bag_live; simpl. set_solver.
  - exists p, s. split_and!; [done| | |].
    + rewrite (live_bag _ _ _ _ _ Hgb). intros (Hr & [Hin|(sl & Hin & Hs)]);
        destruct (bag_wf_entry _ _ _ _ _ Hwf) as [Hpfu Hu]; [done|].
      rewrite (Hu sl Hin) in Hs. set_solver.
    + eapply set_gbag_pages; [done|]. rewrite !app_assoc. rewrite Hp. f_equiv.
      unfold bag_pages. case_decide; simpl; [|done]. symmetry. apply Permutation_middle.
    + intros i q t Hi. rewrite live_set_gbag by done.
      destruct (decide (i = idx)) as [->|]; [|naive_solver].
       rewrite (bag_live_take idx p s slots fr fu) by done.
      rewrite (live_bag _ _ _ _ _ Hgb). naive_solver.
Qed.

(** ** What giving an object back does to the set of objects in use *)

Lemma bag_live_full idx p s fr fu1 fu2 q t :
  bag_wf idx (GBag fr (fu1 ++ p :: fu2)) →
  bag_live idx (GBag ((p, [s]) :: fr) (fu1 ++ fu2)) q t ↔
    bag_live idx (GBag fr (fu1 ++ p :: fu2)) q t ∧ ¬ (q = p ∧ t = s).
Proof.
  intros [Hnd _]. unfold bag_pages in Hnd; simpl in Hnd.
  apply NoDup_app in Hnd as (_ & Hdis & Hnd).
  apply NoDup_app in Hnd as (_ & Hd & Hnd). apply NoDup_cons in Hnd as [Hp2 _].
  assert (Hp1 : p ∉ fu1) by (intros H; apply (Hd p H); by left).
  assert (Hpf : ∀ sl, (p, sl) ∉ fr).
  { intros sl Hin. apply (Hdis p); [|set_solver]. apply list_elem_of_fmap.
    by exists (p, sl). }
  unfold bag_live; simpl. setoid_rewrite elem_of_app. setoid_rewrite elem_of_cons.
  split.
  - intros (Ht & [Hq|(sl & [[= -> ->]|Hin] & Hs)]); (split; [split; [done|]|]).
    + set_solver.
    + intros [-> ->]. set_solver.
    + set_solver.
    + intros [_ ->]. set_solver.
    + right. eauto.
    + intros [-> ->]. by apply (Hpf sl).
  - intros ((Ht & [Hq|(sl & Hin & Hs)]) & Hne); (split; [done|]).
    + destruct (decide (q = p)) as [->|]; [right; exists [s]; set_solver|set_solver].
    + right. eauto.
Qed.

Lemma bag_live_push idx p s slots l1 l2 fu q t :
  bag_wf idx (GBag (l1 ++ (p, slots) :: l2) fu) →
  bag_live idx (GBag (l1 ++ (p, s :: slots) :: l2) fu) q t ↔
    bag_live idx (GBag (l1 ++ (p, slots) :: l2) fu) q t ∧ ¬ (q = p ∧ t = s).
Proof.
  intros [Hnd _]. unfold bag_pages in Hnd; simpl in Hnd.
  rewrite fmap_app, fmap_cons in Hnd. simpl in Hnd.
  apply NoDup_app in Hnd as (Hnd & Hdis & _). apply NoDup_app in Hnd as (_ & Hd & Hnd).
  apply NoDup_cons in Hnd as [Hp2 _].
  assert (Hpf : p ∉ fu) by (apply Hdis; set_solver).
  assert (Hl1 : ∀ sl, (p, sl) ∉ l1).
  { intros sl Hin. apply (Hd p); [|by left]. apply list_elem_of_fmap. by exists (p, sl). }
  assert (Hl2 : ∀ sl, (p, sl) ∉ l2).
  { intros sl Hin. apply Hp2. apply list_elem_of_fmap. by exists (p, sl). }
  unfold bag_live; simpl. setoid_rewrite elem_of_app. setoid_rewrite elem_of_cons.
  split.
  - intros (Ht & [Hq|(sl & [Hin|[[= -> ->]|Hin]] & Hs)]); (split; [split; [done|]|]).
    + by left.
    + by intros [-> ->].
    + right. exists sl. eauto.
    + intros [-> ->]. by apply (Hl1 sl).
    + right. exists slots. set_solver.
    + intros [_ ->]. set_solver.
    + right. exists sl. eauto.
    + intros [-> ->]. by apply (Hl2 sl).
  - intros ((Ht & [Hq|(sl & [Hin|[[= -> ->]|Hin]] & Hs)]) & Hne); (split; [done|]).
    + by left.
    + right. exists sl. eauto.
    + right. exists (s :: slots). split; [by right; left|].
      apply not_elem_of_cons. naive_solver.
    + right. exists sl. eauto.
Qed.

Lemma free_live g k idx p s :
  heap_inv g k → class_ok idx → live g idx p s →
  all_pages (Spec.free idx p s g) ≡ₚ all_pages g ∧
  ∀ i q t, class_ok i →
    live (Spec.free idx p s g) i q t ↔ live g i q t ∧ ¬ (i = idx ∧ q = p ∧ t = s).
Proof.
  intros Hinv Hc Hlv. pose proof (inv_nbags _ _ Hinv) as [_ Hlen].
  destruct (heap_inv_class g k idx Hinv Hc) as (b & gb & _ & Hgb & _).
  pose proof (heap_inv_wf g k idx gb Hinv Hc Hgb) as Hwf.
  unfold Spec.free. rewrite Hgb. destruct gb as [fr fu]. destruct g as [pages lost gbs].
  apply (live_bag _ _ _ _ _ Hgb) in Hlv as (Hs & Hlv). simpl in *.
  destruct Hwf as [Hnd Hw]. unfold bag_pages in Hnd; simpl in Hnd.
  apply NoDup_app in Hnd as (Hnd1 & Hdis & Hnd2).
  case_decide as Hin.
  - apply list_elem_of_split in Hin as (fu1 & fu2 & ->).
    apply NoDup_app in Hnd2 as (_ & Hd & Hn2). apply NoDup_cons in Hn2 as [? _].
    rewrite filter_ne_split; [|intros Hp; apply (Hd p Hp); by left|done]. split.
    + apply (set_gbag_pages (GHeap pages lost gbs) idx _ _ pages lost Hgb). simpl. do 2 f_equiv. unfold bag_pages; simpl.
      rewrite app_assoc. rewrite Permutation_middle. by rewrite app_assoc.
    + intros i q t Hi. rewrite live_set_gbag_same by done.
      destruct (decide (i = idx)) as [->|]; [|naive_solver].
      rewrite bag_live_full, (live_bag (GHeap pages lost gbs) idx q t _ Hgb)
        by (by eapply (heap_inv_wf _ _ _ _ Hinv)). naive_solver.
  - destruct Hlv as [?|(slots & Hin' & Hns)]; [done|].
    apply list_elem_of_split in Hin' as (l1 & l2 & ->).
    rewrite fmap_app, fmap_cons in Hnd1. simpl in Hnd1.
    apply NoDup_app in Hnd1 as (_ & Hd & Hn1). apply NoDup_cons in Hn1 as [? _].
    rewrite push_slot_split; [|intros Hp; apply (Hd p Hp); by left|done]. split.
    + apply (set_gbag_pages (GHeap pages lost gbs) idx _ _ pages lost Hgb). simpl. do 2 f_equiv. unfold bag_pages; simpl.
      by rewrite !fmap_app, !fmap_cons.
    + intros i q t Hi. rewrite live_set_gbag_same by done.
      destruct (decide (i = idx)) as [->|]; [|naive_solver].
      rewrite bag_live_push, (live_bag (GHeap pages lost gbs) idx q t _ Hgb)
        by (by eapply (heap_inv_wf _ _ _ _ Hinv)). naive_solver.
Qed.

(** ** The pool's bounds never change after kmalloc_init *)

Definition same_pool (k k' : kheap) : Prop :=
  pool_start k' = pool_start k ∧ pool_end k' = pool_end k.
#[export] Instance same_pool_preorder : PreOrder same_pool.
Proof. split; [done|]. intros k1 k2 k3 [] []. split; congruence. Qed.

#[local] Hint Extern 1 (same_pool _ _) => done : mstable.
#[local] Hint Extern 1 (PreOrder _) => apply _ : mstable.
Ltac keep_pool := intros; repeat
  (unfold deref, get_bag, set_bag;
   first [apply mstable_bind; [apply _| |intros]|apply mstable_if|apply mstable_modify
         |solve [eauto with mstable nocore]|done|case_match]).

Lemma fetch_page_pool : mstable same_pool fetch_page.
Proof. unfold fetch_page. keep_pool. Qed.
#[local] Hint Resolve fetch_page_pool : mstable.
Lemma init_page_pool page size : mstable same_pool (init_page page size).
Proof. unfold init_page. keep_pool. Qed.
Lemma freelist_dequeue_pool hdr size : mstable same_pool (freelist_dequeue hdr size).
Proof. unfold freelist_dequeue. keep_pool. Qed.
Lemma freelist_enqueue_pool hdr ptr : mstable same_pool (freelist_enqueue hdr ptr).
Proof. unfold freelist_enqueue. keep_pool. Qed.
#[local] Hint Resolve init_page_pool freelist_dequeue_pool freelist_enqueue_pool : mstable.
Lemma fetch_object_pool idx : mstable same_pool (fetch_object idx).
Proof. unfold fetch_object, initialize_bag. keep_pool. Qed.
#[local] Hint Resolve fetch_object_pool : mstable.
Lemma kmalloc_pool size : mstable same_pool (kmalloc size).
Proof. unfold kmalloc. keep_pool. Qed.
Lemma kfree_pool debug ptr : mstable same_pool (kfree debug ptr).
Proof. unfold kfree. keep_pool. Qed.

(** ** Writes of a client into its own object *)

Lemma slot_extent idx s t :
  class_ok idx → 0 ≤ s < nobj idx → 0 ≤ t < nobj idx → s ≠ t →
  s * class_size idx + extent idx s ≤ t * class_size idx ∨
  t * class_size idx + 4 ≤ s * class_size idx.
Proof.
  intros Hc. unfold extent, nobj.
  class_cases Hc; vm_compute (Z.shiftl 1 _); vm_compute (_ / _); lia.
Qed.
Lemma extent_range idx s :
  class_ok idx → 0 ≤ s < nobj idx →
  4 ≤ extent idx s ≤ class_size idx ∧ s * class_size idx + extent idx s ≤ 4088.
Proof.
  intros Hc. unfold extent, nobj.
  class_cases Hc; vm_compute (Z.shiftl 1 _); vm_compute (_ / _); lia.
Qed.

Section client_write.
Context (m m' : mem) (idx p s : Z).
Context (Hp : page_addr p) (Hc : class_ok idx) (Hs : 0 ≤ s < nobj idx)
  (Hch : changes_only (slot_addr p idx s) (extent idx s) m m').

Lemma client_write_page : page_step m m' p.
Proof using All.
  destruct (extent_range idx s Hc Hs) as [He1 He2].
  assert (0 ≤ s * class_size idx) by (pose proof (class_size_range idx Hc); nia).
  split.
  - intros x Hx. apply Hch. intros Hin. apply Hx. unfold within, slot_addr, page_addr in *.
    wrap_lia.
  - apply (changes_only_load32 _ _ _ _ _ Hch). unfold slot_addr, page_addr in *.
    apply disj_linear; lia.
Qed.

Lemma client_write_ok slots : page_ok m idx p slots → s ∉ slots → page_ok m' idx p slots.
Proof using All.
  intros (Hsz & Hobj & Hnd) Hns. destruct (extent_range idx s Hc Hs) as [He1 He2].
  assert (Hpos : 0 ≤ s * class_size idx) by (pose proof (class_size_range idx Hc); nia).
  assert (Hhdr : ∀ o, 0 ≤ o ≤ 6 → load16 m' (p + o) = load16 m (p + o)).
  { intros o Ho. apply (changes_only_load16 _ _ _ _ _ Hch).
    unfold slot_addr, page_addr in *. apply disj_linear; lia. }
  split_and!; [|unfold hdr_freelist_head in *|done].
  - unfold hdr_object_size in *. by rewrite Hhdr by lia.
  - rewrite Hhdr by lia. eapply obj_chain_frame; [|exact Hobj].
    intros t Ht. apply obj_chain_range in Hobj. rewrite Forall_forall in Hobj.
    pose proof (Hobj t Ht) as Htr. pose proof (slot_bound idx t Hc Htr).
    pose proof (slot_extent idx s t Hc Hs Htr ltac:(by intros ->)).
    apply (changes_only_load32 _ _ _ _ _ Hch). unfold slot_addr, page_addr in *.
    apply disj_linear; lia.
Qed.
End client_write.

(** A chain all of whose entries for [p] survive the write. *)
Lemma hchain_client m m' idx p l head :
  page_addr p → class_ok idx → Forall page_addr l.*1 → page_step m m' p →
  (∀ slots, (p, slots) ∈ l → page_ok m idx p slots → page_ok m' idx p slots) →
  hchain m idx head l → hchain m' idx head l.
Proof.
  intros Hp Hc Ha [Hch Hnx]. revert head.
  induction l as [|[q sq] l IH]; intros head Hsame; [done|].
  apply Forall_cons in Ha as [Hq Ha]. intros (-> & Hok & Hl). simpl in *.
  destruct (decide (q = p)) as [->|Hne].
  - split_and!; [done|apply Hsame; [by left|done]|]. rewrite Hnx.
    apply IH; [done| |done]. intros; apply Hsame; [by right|done].
  - split_and!; [done|by apply (page_ok_frame m m' p)|].
    unfold hdr_next in *. rewrite (page_load32_first p q m m') by done.
    apply IH; [done| |done]. intros; apply Hsame; [by right|done].
Qed.

(** The allocator's invariant survives every write of a client inside the
    part of its object that lies on the page. *)
Lemma heap_inv_client g k idx p s m' :
  heap_inv g k → class_ok idx → live g idx p s →
  changes_only (slot_addr p idx s) (extent idx s) (k_mem k) m' →
  heap_inv g (with_mem (λ _, m') k).
Proof.
  intros Hinv Hc Hlv Hch. destruct (heap_inv_class g k idx Hinv Hc) as (b & gb & Hb & Hgb & Hrep).
  pose proof (heap_inv_wf g k idx gb Hinv Hc Hgb) as Hwf.
  apply (live_bag _ _ _ _ _ Hgb) in Hlv. pose proof (bag_live_page _ _ _ _ Hlv) as Hin.
  pose proof (bag_pages_addr g k _ _ Hinv Hgb) as [Ha1 Ha2].
  assert (Hp : page_addr p).
  { apply (inv_page_addr g k); [done|]. unfold all_pages. rewrite !elem_of_app.
    do 2 right. by eapply class_pages_all. }
  destruct Hlv as (Hs & Hlv).
  pose proof (client_write_page _ _ _ _ _ Hp Hc Hs Hch) as Hstep.
  pose proof (client_write_ok _ _ _ _ _ Hp Hc Hs Hch) as Hok.
  destruct g as [pages lost gbs].
  replace gbs with (<[Z.to_nat idx := gb]> gbs) by (by apply list_insert_id).
  unfold with_mem. rewrite <-(list_insert_id (bags k) _ _ Hb) at 1.
  apply (heap_inv_update (GHeap pages lost gbs) k p m' _ gb); try done.
  - apply Hstep.
  - apply elem_of_app. by right.
  - apply (inv_pchain _ _ Hinv).
  - rewrite Z2Nat.id by (unfold class_ok in Hc; lia).
    destruct Hrep as (Hfr & Hfu & Hne & Hk). destruct Hwf as [Hnd _].
    unfold bag_pages in Hnd. apply NoDup_app in Hnd as (Hnd1 & Hdis & _).
    split_and!; [| |done|done].
    + apply (hchain_client (k_mem k) m' idx p); try done. intros slots Hsl Hpo.
      apply Hok; [done|]. destruct Hlv as [Hf|(sl & Hsl' & Hns)].
      * destruct (Hdis p); [|done]. apply list_elem_of_fmap. by exists (p, slots).
      * assert (sl = slots) as <-; [|done].
        by eapply NoDup_fst_inj.
    + apply (hchain_client (k_mem k) m' idx p); rewrite ?full_pages_fst; try done.
      intros slots Hsl Hpo. apply Hok; [done|]. unfold full_pages in Hsl.
      apply list_elem_of_fmap in Hsl as (? & [= -> ->] & _). set_solver.
Qed.

(** ** Sequences of client calls *)

(** The bytes of an object of class [idx] at [a] before the end of its page. *)
Definition usable (idx a : Z) : Z := Z.min (class_size idx) (4096 - a mod 4096).

(** The heaps a client can reach, with the objects it holds as pairs of class
    and address. *)
Inductive heap_reach (debug : bool) (m : mem) (start n : Z) :
    kheap → list (Z * Z) → Prop :=
| reach_init k :
    kmalloc_init debug start (4096 * n) (kheap_boot m) = Ok (tt, k) →
    heap_reach debug m start n k []
| reach_malloc k L idx a k' :
    heap_reach debug m start n k L → class_ok idx →
    kmalloc (class_size idx) k = Ok (a, k') →
    heap_reach debug m start n k' ((idx, a) :: L)
| reach_write k L idx a off v :
    heap_reach debug m start n k L → (idx, a) ∈ L → 0 ≤ off < usable idx a →
    heap_reach debug m start n (with_mem (λ m, store8 m (a + off) v) k) L
| reach_free k L1 idx a L2 k' :
    heap_reach debug m start n k (L1 ++ (idx, a) :: L2) →
    kfree debug a k = Ok (tt, k') →
    heap_reach debug m start n k' (L1 ++ L2).

Definition pool_ok (start n : Z) : Prop :=
  (0 < start ∧ start mod 4096 = 0) ∧ 0 < n ∧ start + 4096 * n + 4096 ≤ 4294967296.

(** The held objects as class, page and slot. *)
Definition obj_addr (o : Z * Z * Z) : Z * Z :=
  let '(i, p, s) := o in (i, slot_addr p i s).

Record reach_inv (start n : Z) (k : kheap) (L : list (Z * Z)) (g : gheap)
    (O : list (Z * Z * Z)) : Prop := {
  ri_heap : heap_inv g k;
  ri_pages : all_pages g ≡ₚ pool_pages start n;
  ri_start : pool_start k = start;
  ri_end : pool_end k = start + 4096 * n;
  ri_addr : L = obj_addr <$> O;
  ri_nodup : NoDup O;
  ri_live : ∀ i p s, (i, p, s) ∈ O ↔ class_ok i ∧ live g i p s;
}.

Lemma live_page g k i p s :
  heap_inv g k → class_ok i → live g i p s → p ∈ all_pages g ∧ 0 ≤ s < nobj i.
Proof.
  intros Hinv Hc Hlv. destruct (heap_inv_class g k i Hinv Hc) as (b & gb & _ & Hgb & _).
  apply (live_bag _ _ _ _ _ Hgb) in Hlv. split; [|apply Hlv].
  unfold all_pages. rewrite !elem_of_app. do 2 right.
  eapply class_pages_all; [done|]. by eapply bag_live_page.
Qed.

(** A page serves one class. *)
Lemma live_class g k i j p s t :
  heap_inv g k → class_ok i → class_ok j → live g i p s → live g j p t → i = j.
Proof.
  intros Hinv Hi Hj Hl1 Hl2. destruct (decide (i = j)) as [|Hne]; [done|].
  destruct (heap_inv_class g k i Hinv Hi) as (b1 & gb1 & _ & Hg1 & _).
  destruct (heap_inv_class g k j Hinv Hj) as (b2 & gb2 & _ & Hg2 & _).
  apply (live_bag _ _ _ _ _ Hg1), bag_live_page in Hl1.
  apply (live_bag _ _ _ _ _ Hg2), bag_live_page in Hl2.
  destruct (concat_split bag_pages _ _ _ Hg1) as (R & HR & _ & Hsub).
  unfold class_ok in *. pose proof (Hsub (Z.to_nat j) gb2 ltac:(lia) Hg2) as Hs.
  pose proof (inv_nodup _ _ Hinv) as Hnd. unfold all_pages in Hnd. rewrite HR in Hnd.
  rewrite !NoDup_app in Hnd. destruct Hnd as (_ & _ & _ & _ & _ & Hd & _).
  destruct (Hd p Hl1). by apply Hs.
Qed.

Lemma pool_pages_addr start n p :
  pool_ok start n → p ∈ pool_pages start n →
  page_addr p ∧ start ≤ p ∧ p + 4096 ≤ start + 4096 * n.
Proof.
  intros ((Hs & Hm) & Hn & He) Hp. apply list_elem_of_fmap in Hp as (i & -> & Hi).
  apply elem_of_seqZ in Hi. unfold page_addr, pool_page. split_and!; try lia.
  rewrite Z.mul_comm, Z.mod_add by lia. done.
Qed.

Lemma slot_usable p idx s :
  page_addr p → class_ok idx → 0 ≤ s < nobj idx → usable idx (slot_addr p idx s) = extent idx s.
Proof.
  intros Hp Hc Hs. pose proof (slot_bound idx s Hc Hs). unfold usable, extent, slot_addr.
  unfold page_addr in Hp.
  replace ((p + 8 + s * class_size idx) mod 4096) with (8 + s * class_size idx); [lia|].
  Z.to_euclidean_division_equations. lia.
Qed.

(** Different held objects do not overlap. *)
Lemma live_apart g k i p s j q t :
  heap_inv g k → class_ok i → class_ok j → live g i p s → live g j q t →
  (i, p, s) ≠ (j, q, t) →
  slot_addr p i s + extent i s ≤ slot_addr q j t ∨
  slot_addr q j t + extent j t ≤ slot_addr p i s.
Proof.
  intros Hinv Hi Hj Hl1 Hl2 Hne.
  destruct (live_page _ _ _ _ _ Hinv Hi Hl1) as [Hp Hs].
  destruct (live_page _ _ _ _ _ Hinv Hj Hl2) as [Hq Ht].
  pose proof (inv_page_addr _ _ _ Hinv Hp) as Hpa. pose proof (inv_page_addr _ _ _ Hinv Hq) as Hqa.
  pose proof (extent_range i s Hi Hs). pose proof (extent_range j t Hj Ht).
  pose proof (slot_bound i s Hi Hs). pose proof (slot_bound j t Hj Ht).
  unfold slot_addr. destruct (decide (p = q)) as [->|Hpq].
  - assert (i = j) as <- by (by eapply live_class).
    assert (s ≠ t) by congruence. pose proof (class_size_range i Hi). unfold extent in *.
    destruct (Z.lt_total s t) as [?|[?|?]]; [left|done|right]; nia.
  - pose proof (pages_apart _ _ Hpa Hqa Hpq). lia.
Qed.

(** ** The invariant of client sequences *)

Section reach.
Context (debug : bool) (m : mem) (start n : Z) (Hpool : pool_ok start n).

Lemma reach_inv_init k :
  kmalloc_init debug start (4096 * n) (kheap_boot m) = Ok (tt, k) →
  reach_inv start n k [] (GHeap (pool_pages start n) [] (replicate 9 (GBag [] []))) [].
Proof using Hpool.
  intros Hk. destruct Hpool as (Hs & Hn & He).
  destruct (kmalloc_init_inv m start n Hs Hn He debug) as (k' & Hk' & Hinv & E1 & E2).
  rewrite Hk in Hk'. injection Hk' as <-. constructor; try done.
  - by rewrite pool_all_pages.
  - constructor.
  - intros i p s. split; [by intros ?%elem_of_nil|].
    intros (_ & _ & gb & Hgb & Hlv). simpl in Hgb.
    change (replicate 9 (GBag [] []) !! Z.to_nat i = Some gb) in Hgb.
    apply lookup_replicate in Hgb as [-> _]. simpl in Hlv. set_solver.
Qed.

(** Objects handed out stay within the pool. *)
Lemma reach_obj k L g O i p s :
  reach_inv start n k L g O → (i, p, s) ∈ O →
  class_ok i ∧ live g i p s ∧ 0 ≤ s < nobj i ∧ page_addr p ∧
  start ≤ p ∧ p + 4096 ≤ start + 4096 * n.
Proof using Hpool.
  intros [Hinv Hpg _ _ _ _ Hlv] Ho. apply Hlv in Ho as [Hc Hl].
  destruct (live_page _ _ _ _ _ Hinv Hc Hl) as [Hp Hs].
  rewrite Hpg in Hp. destruct (pool_pages_addr start n p Hpool Hp) as (? & ? & ?). done.
Qed.

Lemma reach_inv_malloc k L g O idx a k' :
  reach_inv start n k L g O → class_ok idx → kmalloc (class_size idx) k = Ok (a, k') →
  ∃ g' O', reach_inv start n k' ((idx, a) :: L) g' O'.
Proof using.
  intros [Hinv Hpg E1 E2 -> Hnd Hlv] Hc Hk. pose proof (kmalloc_pool _ _ _ _ Hk) as [E3 E4].
  rewrite kmalloc_fetch in Hk by done.
  pose proof (fetch_object_refines g k idx Hinv Hc) as Href.
  destruct (Spec.alloc idx g) as [[a' g']| | | |] eqn:Ha; simpl in Href; try (done || congruence).
  destruct Href as (k1 & Hk1 & Hinv'). rewrite Hk in Hk1. injection Hk1 as <- <-.
  destruct (alloc_live g k idx a g' Hinv Hc Ha) as (p & s & -> & Hfresh & Hpg' & Hlive).
  exists g', ((idx, p, s) :: O). constructor; try congruence.
  - by rewrite Hpg'.
  - done.
  - apply NoDup_cons. split; [|done]. rewrite Hlv. tauto.
  - intros i q t. rewrite elem_of_cons, Hlv. split.
    + intros [[= -> -> ->]|[Hi Hl]]; (split; [done|]); apply Hlive; auto.
    + intros [Hi Hl]. apply Hlive in Hl as [(-> & -> & ->)|Hl]; auto.
Qed.

Lemma reach_inv_write k L g O idx a off v :
  reach_inv start n k L g O → (idx, a) ∈ L → 0 ≤ off < usable idx a →
  reach_inv start n (with_mem (λ m, store8 m (a + off) v) k) L g O.
Proof using Hpool.
  intros Hri Hin Hoff. pose proof Hri as [Hinv Hpg E1 E2 -> Hnd Hlv].
  apply list_elem_of_fmap in Hin as ([[i p] s] & [= -> ->] & Ho).
  destruct (reach_obj _ _ _ _ _ _ _ Hri Ho) as (Hc & Hl & Hs & Hp & _).
  rewrite slot_usable in Hoff by done. constructor; try done.
  apply (heap_inv_client g k i p s _ Hinv Hc Hl).
  pose proof (extent_range i s Hc Hs). pose proof (class_size_range i Hc).
  apply changes_only_store8; [apply changes_only_id|lia..].
Qed.

Lemma reach_inv_free k L1 idx a L2 g O :
  reach_inv start n k (L1 ++ (idx, a) :: L2) g O →
  ∃ k' g' O', kfree debug a k = Ok (tt, k') ∧ reach_inv start n k' (L1 ++ L2) g' O'.
Proof using Hpool.
  intros Hri. pose proof Hri as [Hinv Hpg E1 E2 EL Hnd Hlv].
  symmetry in EL. apply fmap_app_inv in EL as (O1 & O2' & -> & EO2 & ->).
  symmetry in EO2. apply fmap_cons_inv in EO2 as ([[i p] s] & O2 & [= -> ->] & -> & ->).
  assert (Ho : (i, p, s) ∈ O1 ++ (i, p, s) :: O2) by set_solver.
  destruct (reach_obj _ _ _ _ _ _ _ Hri Ho) as (Hc & Hl & Hs & Hp & Hlo & Hhi).
  pose proof (slot_bound i s Hc Hs) as Hb.
  destruct (kfree_free debug g k i p s Hinv Hc Hl) as (k' & Hk' & Hinv').
  { right. unfold slot_addr. lia. }
  destruct (free_live g k i p s Hinv Hc Hl) as [Hpg' Hlv'].
  pose proof (kfree_pool _ _ _ _ _ Hk') as [E3 E4].
  exists k', (Spec.free i p s g), (O1 ++ O2). split; [done|].
  apply NoDup_app in Hnd as (Hn1 & Hd & Hn2). apply NoDup_cons in Hn2 as [Hni Hn2].
  constructor; try congruence.
  - by rewrite Hpg'.
  - by rewrite fmap_app.
  - apply NoDup_app. split_and!; [done| |done]. intros x Hx Hx2. apply (Hd x Hx). by right.
  - intros j q t. split.
    + intros Hj. assert (Hne : ¬ (j = i ∧ q = p ∧ t = s)).
      { intros (-> & -> & ->). apply elem_of_app in Hj as [Hj|Hj]; [|done].
        apply (Hd _ Hj). by left. }
      assert (Hj' : (j, q, t) ∈ O1 ++ (i, p, s) :: O2) by set_solver.
      apply Hlv in Hj' as [Hcj Hlj]. split; [done|]. by rewrite Hlv'.
    + intros [Hcj Hlj]. apply Hlv' in Hlj as [Hlj Hne]; [|done].
      assert (Hj : (j, q, t) ∈ O1 ++ (i, p, s) :: O2) by (by apply Hlv).
      rewrite elem_of_app, elem_of_cons in *. naive_solver.
Qed.

Lemma heap_reach_inv k L : heap_reach debug m start n k L → ∃ g O, reach_inv start n k L g O.
Proof using Hpool.
  induction 1 as [k Hk|k L idx a k' _ (g & O & Hri) Hc Hk|k L idx a off v _ (g & O & Hri) Hin Hoff
    |k L1 idx a L2 k' _ (g & O & Hri) Hk].
  - eexists _, _. by apply reach_inv_init.
  - by eapply reach_inv_malloc.
  - exists g, O. by eapply reach_inv_write.
  - destruct (reach_inv_free _ _ _ _ _ _ _ Hri) as (k1 & g' & O' & Hk1 & Hri').
    rewrite Hk in Hk1. injection Hk1 as <-. eauto.
Qed.
End reach.

(** ** Properties *)

(** A heap of three pages, for the examples. *)
Definition demo_heap : kheap :=
  match kmalloc_init true 65536 12288 (kheap_boot ∅) with
  | Ok (_, k) => k
  | _ => kheap_boot ∅
  end.
Definition demo_gheap : gheap :=
  GHeap (pool_pages 65536 3) [] (replicate 9 (GBag [] [])).
Lemma demo_pool_ok : pool_ok 65536 3.
Proof. unfold pool_ok. split_and!; lia || reflexivity. Qed.
Lemma demo_init : kmalloc_init true 65536 (4096 * 3) (kheap_boot ∅) = Ok (tt, demo_heap).
Proof.
  destruct demo_pool_ok as (H1 & H2 & H3).
  destruct (kmalloc_init_inv ∅ 65536 3 H1 H2 H3 true) as (k & Hk & _).
  unfold demo_heap. change (4096 * 3) with 12288 in Hk. by rewrite Hk.
Qed.
Lemma demo_inv : heap_inv demo_gheap demo_heap.
Proof.
  destruct demo_pool_ok as (H1 & H2 & H3).
  destruct (kmalloc_init_inv ∅ 65536 3 H1 H2 H3 true) as (k & Hk & Hinv & _).
  rewrite demo_init in Hk. injection Hk as ->. exact Hinv.
Qed.

(** The same heap after one request of 64 bytes. *)
Definition demo_gheap1 : gheap :=
  match Spec.alloc 6 demo_gheap with Ok (_, g) => g | _ => demo_gheap end.
Lemma demo_inv1 : ∃ k, kmalloc 64 demo_heap = Ok (65544, k) ∧ heap_inv demo_gheap1 k.
Proof.
  assert (Hc : class_ok 6) by (unfold class_ok; lia).
  pose proof (fetch_object_refines _ _ 6 demo_inv Hc) as (k & Hk & Hinv).
  exists k. split; [|exact Hinv]. change 64 with (class_size 6).
  by rewrite kmalloc_fetch.
Qed.
Lemma demo_live1 : live demo_gheap1 6 65536 0.
Proof.
  split; [vm_compute; by split|]. eexists. split; [reflexivity|]. right.
  eexists. split; [by left|]. rewrite elem_of_seqZ. lia.
Qed.

(** Kmalloc_init on a page-aligned region of [n] pages succeeds, also with
    the assertions of a debug build enabled, and leaves a heap that satisfies
    the allocator's invariant with exactly the region's pages, in address
    order, in the pool and every size class empty. *)
Theorem kmalloc_init_establishes (debug : bool) (m : mem) (start n : Z) :
  pool_ok start n →
  ∃ k, kmalloc_init debug start (4096 * n) (kheap_boot m) = Ok (tt, k) ∧
    heap_inv (GHeap (pool_pages start n) [] (replicate 9 (GBag [] []))) k ∧
    pool_start k = start ∧ pool_end k = start + 4096 * n.
Proof. intros (H1 & H2 & H3). by apply kmalloc_init_inv. Qed.
Lemma kmalloc_init_establishes_witness :
  pool_ok 65536 3 ∧
  ∃ k, kmalloc_init true 65536 (4096 * 3) (kheap_boot ∅) = Ok (tt, k) ∧
    page_freelist_head k = 65536 ∧ heap_inv demo_gheap k.
Proof.
  split; [exact demo_pool_ok|].
  destruct (kmalloc_init_establishes true ∅ 65536 3 demo_pool_ok) as (k & Hk & Hinv & _).
  exists k. split; [exact Hk|]. split; [|exact Hinv].
  pose proof (inv_pchain _ _ Hinv) as Hp. apply Hp.
Defined.

(** C3. On a heap that satisfies the invariant, kmalloc of each of the seven
    class sizes does exactly what the abstract allocator does: it returns the
    same address and re-establishes the invariant for the abstract successor,
    or panics, or is undefined, in the same cases. *)
Theorem kmalloc_refines (g : gheap) (k : kheap) (idx : Z) :
  heap_inv g k → class_ok idx →
  refines_alloc (Spec.alloc idx g) (kmalloc (class_size idx) k).
Proof. intros. rewrite kmalloc_fetch by done. by apply fetch_object_refines. Qed.
Lemma kmalloc_refines_witness :
  heap_inv demo_gheap demo_heap ∧ class_ok 6 ∧
  refines_alloc (Spec.alloc 6 demo_gheap) (kmalloc 64 demo_heap) ∧
  ∃ g', Spec.alloc 6 demo_gheap = Ok (65544, g').
Proof.
  split; [exact demo_inv|]. split; [unfold class_ok; lia|]. split.
  - apply (kmalloc_refines demo_gheap demo_heap 6); [exact demo_inv|unfold class_ok; lia].
  - eexists. reflexivity.
Defined.

(** C13. kfree of an object in use succeeds and does exactly what the abstract
    allocator does: the object becomes the first free one of its page, and a
    page that was full is unlinked from the full list, wherever it is in it,
    and becomes the first free page of its class. *)
Theorem kfree_refines (debug : bool) (g : gheap) (k : kheap) (idx p s : Z) :
  heap_inv g k → class_ok idx → live g idx p s →
  free_check debug k (slot_addr p idx s) →
  ∃ k', kfree debug (slot_addr p idx s) k = Ok (tt, k') ∧
    heap_inv (Spec.free idx p s g) k'.
Proof. apply kfree_free. Qed.
Lemma kfree_refines_witness :
  live demo_gheap1 6 65536 0 ∧
  ∃ k k', heap_inv demo_gheap1 k ∧ kfree false 65544 k = Ok (tt, k') ∧
    heap_inv (Spec.free 6 65536 0 demo_gheap1) k'.
Proof.
  assert (Hc : class_ok 6) by (unfold class_ok; lia).
  split; [exact demo_live1|]. destruct demo_inv1 as (k & _ & Hinv). exists k.
  destruct (kfree_refines false demo_gheap1 k 6 65536 0 Hinv Hc demo_live1)
    as (k' & Hk & Hinv'); [left; reflexivity|].
  exists k'. split; [exact Hinv|]. split; [exact Hk|exact Hinv'].
Defined.



(** A class with a free object is served from the first one of its first page
    as long as the pool is not empty. *)
Lemma alloc_first g idx p s slots fr fu :
  g_bags g !! Z.to_nat idx = Some (GBag ((p, s :: slots) :: fr) fu) → g_pages g ≠ [] →
  ∃ g', Spec.alloc idx g = Ok (slot_addr p idx s, g').
Proof.
  intros Hgb Hpg. unfold Spec.alloc. rewrite Hgb. destruct slots; [|by eauto].
  destruct fr; [|by eauto]. destruct (g_pages g); [done|]. eauto.
Qed.

(** Giving back the object just handed out puts it first. *)
Lemma free_after_alloc g k idx a g' :
  heap_inv g k → class_ok idx → (2 ≤ length (g_pages g))%nat → Spec.alloc idx g = Ok (a, g') →
  ∃ p s slots fr fu, a = slot_addr p idx s ∧ live g' idx p s ∧
    g_bags (Spec.free idx p s g') !! Z.to_nat idx = Some (GBag ((p, s :: slots) :: fr) fu) ∧
    g_pages (Spec.free idx p s g') ≠ [].
Proof.
  intros Hinv Hc Hlen Ha. pose proof (inv_nbags _ _ Hinv) as [_ Hl9].
  destruct (heap_inv_class g k idx Hinv Hc) as (b & gb & _ & Hgb & _).
  pose proof (heap_inv_wf g k idx gb Hinv Hc Hgb) as Hwf.
  assert (Hlt : (Z.to_nat idx < length (g_bags g))%nat) by (unfold class_ok in Hc; lia).
  assert (Hpush : ∀ q t sl l, q ∉ l.*1 → push_slot q t ((q, sl) :: l) = (q, t :: sl) :: l).
  { intros q t sl l Hq. apply (push_slot_split q t sl [] l); [apply not_elem_of_nil|done]. }
  destruct (alloc_cases _ _ _ _ _ Ha Hgb) as [(p & ps & -> & Hps & -> & ->)
    |(p & s & slots & fr & fu & ps & lost & -> & -> & _ & Hps & ->)].
  - exists p, 0, (seqZ 1 (nobj idx - 1)), [], []. rewrite Hps in Hlen. simpl in Hlen.
    unfold Spec.free. simpl. rewrite !list_lookup_insert_eq by done.
    rewrite decide_False, Hpush by apply not_elem_of_nil. simpl.
    rewrite list_lookup_insert_eq by (by rewrite length_insert).
    split_and!; [done| |done|by destruct ps; simpl in *; [lia|]].
    rewrite (live_bag _ _ _ _ (GBag [(p, seqZ 1 (nobj idx - 1))] []))
      by (by apply list_lookup_insert_eq). by apply bag_live_first.
  - destruct (bag_wf_entry _ _ _ _ _ Hwf) as [Hpfu _].
    pose proof (wf_nodup _ _ Hwf) as Hnd. unfold bag_pages in Hnd. simpl in Hnd.
    apply NoDup_cons in Hnd as [Hpn _]. apply not_elem_of_app in Hpn as [Hpfr _].
    pose proof (bag_live_take idx p s slots fr fu p s Hwf) as Hlv. simpl in Hlv.
    exists p, s, slots, fr. destruct (decide (slots = [])) as [->|Hsl].
    + exists (filter (.≠ p) (p :: fu)). unfold Spec.free. simpl.
      rewrite !list_lookup_insert_eq by done. rewrite decide_True by (by left). simpl.
      rewrite list_lookup_insert_eq by (by rewrite length_insert).
      split_and!; [done| |done|by destruct ps; simpl in *; [lia|]].
      rewrite (live_bag _ _ _ _ (GBag fr (p :: fu))) by (by apply list_lookup_insert_eq).
      apply Hlv. by left.
    + exists fu. unfold Spec.free. simpl. rewrite !list_lookup_insert_eq by done.
      rewrite decide_False, Hpush by done. simpl.
      rewrite list_lookup_insert_eq by (by rewrite length_insert).
      split_and!; [done| |done|by destruct ps; simpl in *; [lia|]].
      rewrite (live_bag _ _ _ _ (GBag ((p, slots) :: fr) fu))
        by (by apply list_lookup_insert_eq). apply Hlv. by left.
Qed.

(** Round trip: with at least two pages in the pool, giving back the object
    kmalloc just returned and asking for the same class again returns the very
    same object. *)
Theorem kmalloc_kfree_kmalloc (debug : bool) (g : gheap) (k k1 : kheap) (idx a : Z) :
  heap_inv g k → class_ok idx → (2 ≤ length (g_pages g))%nat →
  kmalloc (class_size idx) k = Ok (a, k1) → free_check debug k1 a →
  ∃ k2 k3, kfree debug a k1 = Ok (tt, k2) ∧ kmalloc (class_size idx) k2 = Ok (a, k3).
Proof.
  intros Hinv Hc Hlen Hk Hchk. rewrite kmalloc_fetch in Hk by done.
  pose proof (fetch_object_refines g k idx Hinv Hc) as Href.
  destruct (Spec.alloc idx g) as [[a' g']| | | |] eqn:Ha; simpl in Href;
    try (done || congruence).
  destruct Href as (k1' & Hk1 & Hinv'). rewrite Hk in Hk1. injection Hk1 as <- <-.
  destruct (free_after_alloc g k idx a g' Hinv Hc Hlen Ha)
    as (p & s & slots & fr & fu & -> & Hlv & Hgb & Hpg).
  destruct (kfree_free debug g' k1 idx p s Hinv' Hc Hlv Hchk) as (k2 & Hk2 & Hinv2).
  destruct (alloc_first _ _ _ _ _ _ _ Hgb Hpg) as (g3 & Ha3).
  pose proof (fetch_object_refines _ _ idx Hinv2 Hc) as Href2. rewrite Ha3 in Href2.
  destruct Href2 as (k3 & Hk3 & _). exists k2, k3. by rewrite kmalloc_fetch.
Qed.
Lemma kmalloc_kfree_kmalloc_witness :
  ∃ k1 k2 k3, kmalloc 64 demo_heap = Ok (65544, k1) ∧ kfree false 65544 k1 = Ok (tt, k2) ∧
    kmalloc 64 k2 = Ok (65544, k3).
Proof.
  destruct demo_inv1 as (k1 & Hk1 & _). exists k1.
  destruct (kmalloc_kfree_kmalloc false demo_gheap demo_heap k1 6 65544) as (k2 & k3 & H2 & H3).
  - exact demo_inv.
  - unfold class_ok. lia.
  - vm_compute. lia.
  - exact Hk1.
  - left. reflexivity.
  - exists k2, k3. split; [exact Hk1|]. split; [exact H2|exact H3].
Defined.

(** Which requests kmalloc serves: a size below 4 or above 512 yields NULL
    and changes nothing; of the sizes from 4 to 512 only the seven powers of two
    from 4 to 256 are served, every other one (all that are not a power of two,
    and 512 itself) indexes [bags] out of range. *)
Theorem kmalloc_served_sizes (g : gheap) (k : kheap) (size : Z) :
  heap_inv g k → 0 ≤ size < 4294967296 →
  (size < 4 ∨ 512 < size → kmalloc size k = Ok (NULL, k)) ∧
  (4 ≤ size ≤ 512 → is_class_size size = false →
     kmalloc size k = UB "bags index out of range").
Proof.
  intros Hinv Hs. unfold kmalloc, MIN_BLOCK_SIZE. change (Z.shiftl 1 NO_CLASSES) with 512.
  split.
  - intros H. assert ((size <? 4) || (size >? 512) = true) as -> by lia. done.
  - intros Hr Hc. assert ((size <? 4) || (size >? 512) = false) as -> by lia.
    pose proof (bag_index_other size Hr Hc) as Hi. pose proof (inv_nbags _ _ Hinv) as [Hl _].
    unfold fetch_object, get_bag. mstep. rewrite lookup_ge_None_2; [done|lia].
Qed.
Lemma kmalloc_served_sizes_witness :
  kmalloc 3 demo_heap = Ok (NULL, demo_heap) ∧
  kmalloc 100 demo_heap = UB "bags index out of range".
Proof.
  split.
  - apply (kmalloc_served_sizes demo_gheap demo_heap 3); [exact demo_inv|lia|left; lia].
  - apply (kmalloc_served_sizes demo_gheap demo_heap 100);
      [exact demo_inv|lia|lia|reflexivity].
Defined.

(** When the last free object of a class's only free page is handed out,
    the page fetched as its successor is formatted but not linked into the
    class: it is lost, and the next request of the class follows a null page
    pointer. *)
Theorem kmalloc_successor_page_lost (g : gheap) (k : kheap) (idx p s q : Z)
    (fu ps : list Z) :
  heap_inv g k → class_ok idx →
  g_bags g !! Z.to_nat idx = Some (GBag [(p, [s])] fu) → g_pages g = q :: ps →
  ∃ k', kmalloc (class_size idx) k = Ok (slot_addr p idx s, k') ∧
    (∀ i t, class_ok i → ∀ g', Spec.alloc idx g = Ok (slot_addr p idx s, g') →
       q ∉ g_pages g' ∧ ¬ live g' i q t) ∧
    kmalloc (class_size idx) k' = UB "NULL page header".
Proof.
  intros Hinv Hc Hgb Hpg. pose proof (inv_nbags _ _ Hinv) as [_ Hl9].
  pose proof (fetch_object_refines g k idx Hinv Hc) as Href.
  unfold Spec.alloc in Href. rewrite Hgb, Hpg in Href. destruct Href as (k' & Hk & Hinv').
  exists k'. rewrite !kmalloc_fetch by done. split_and!; [done| |].
  - intros i t Hi g' Ha. unfold Spec.alloc in Ha. rewrite Hgb, Hpg in Ha.
    injection Ha as <-. pose proof (inv_nodup _ _ Hinv') as Hnd. unfold all_pages in Hnd.
    simpl in Hnd. apply NoDup_app in Hnd as (_ & Hd1 & Hnd).
    apply NoDup_cons in Hnd as [Hq _]. split.
    + simpl. intros Hq'. apply (Hd1 q Hq'). by left.
    + intros Hlv. destruct (heap_inv_class _ _ i Hinv' Hi) as (_ & gb & _ & Hgb' & _).
      apply (live_bag _ _ _ _ _ Hgb'), bag_live_page in Hlv. apply Hq.
      apply elem_of_app. right. by eapply (class_pages_all (set_gbag _ _ _)).
  - pose proof (fetch_object_refines _ _ idx Hinv' Hc) as Href'.
    unfold Spec.alloc in Href'. simpl in Href'.
    rewrite list_lookup_insert_eq in Href'; [exact Href'|]. unfold class_ok in Hc. lia.
Qed.

(** The class of 256 bytes after fifteen of the sixteen objects of its first
    page have been handed out. *)
Definition alloc_times (n : nat) (idx : Z) (g : gheap) : gheap :=
  Nat.iter n (λ g, match Spec.alloc idx g with Ok (_, g') => g' | _ => g end) g.
Lemma alloc_times_inv n idx g k :
  heap_inv g k → class_ok idx → ∃ k', heap_inv (alloc_times n idx g) k'.
Proof.
  intros Hinv Hc. induction n as [|n (k1 & IH)]; [by exists k|]. simpl.
  pose proof (fetch_object_refines _ _ idx IH Hc) as Href.
  destruct (Spec.alloc idx _) as [[a g']| | | |]; [|by exists k1..].
  destruct Href as (k2 & _ & H). by exists k2.
Qed.
Lemma kmalloc_successor_page_lost_witness :
  ∃ k k', heap_inv (alloc_times 15 8 demo_gheap) k ∧
    kmalloc 256 k = Ok (69384, k') ∧ kmalloc 256 k' = UB "NULL page header".
Proof.
  assert (Hc : class_ok 8) by (unfold class_ok; lia).
  destruct (alloc_times_inv 15 8 _ _ demo_inv Hc) as (k & Hinv). exists k.
  destruct (kmalloc_successor_page_lost _ k 8 65536 15 69632 [] [73728] Hinv Hc)
    as (k' & H1 & _ & H2).
  - vm_compute. reflexivity.
  - vm_compute. reflexivity.
  - exists k'. split; [exact Hinv|]. split; [exact H1|exact H2].
Defined.

(** The objects of a page: all of them start inside it, but for the classes
    of 16 bytes and more the last one ends 8 bytes behind the page; every
    other object, and every object of 4 and 8 bytes, lies on its page. *)
Theorem object_page_bounds (p idx s : Z) :
  class_ok idx → 0 ≤ s < nobj idx →
  p + 8 ≤ slot_addr p idx s < p + 4096 ∧
  (slot_addr p idx s + class_size idx ≤ p + 4096 ↔ idx < 4 ∨ s < nobj idx - 1) ∧
  (4 ≤ idx → slot_addr p idx (nobj idx - 1) + class_size idx = p + 4096 + 8).
Proof.
  intros Hc. unfold slot_addr, nobj.
  class_cases Hc; vm_compute (Z.shiftl 1 _); vm_compute (_ / _); lia.
Qed.
Lemma object_page_bounds_witness :
  slot_addr 65536 8 15 + class_size 8 = 65536 + 4096 + 8.
Proof.
  apply (object_page_bounds 65536 8 15); [unfold class_ok; lia|vm_compute; split; congruence|lia].
Defined.
