(* ===== verification/Sched.v ===== *)
(** * Sched: the scheduler of kern/sched.c, sched.h, sched_rr.c and time.h

    The ready queues are intrusive lists in memory, through the threads' tcb;
    every routine of the round-robin policy is a state transformer on that
    memory and the files' static variables. Calls of [log] only print and are
    left out. *)

From Stdlib Require Import SpecFloat.
From S2P Require Import Prelude Machine KList CString Thread.

(** ** sched.h and time.h *)

Definition THREAD_ACTIVE : Z := 0x01.
Definition THREAD_READY : Z := 0x02.
Definition THREAD_SENDING : Z := 0x04.
Definition THREAD_RECEIVING : Z := 0x08.
Definition SEC_NSEC : Z := 1000000000.
Definition CONF_SCHED_TICK_FREQ_HZ : Z := 100.

(** IEEE arithmetic: an integer as a double and as a float, the widening of a
    float, and the truncating conversion to an integer. *)
Definition f64_of_Z (z : Z) : spec_float := binary_normalize 53 1024 z 0 false.
Definition f32_of_Z (z : Z) : spec_float := binary_normalize 24 128 z 0 false.
Definition f64_of_f32 (f : spec_float) : spec_float :=
  match f with
  | S754_finite s m e => binary_normalize 53 1024 (if s then Zneg m else Zpos m) e s
  | f => f
  end.
Definition f_trunc (f : spec_float) : Z :=
  match f with
  | S754_finite s m e =>
      let v := if 0 <=? e then Zpos m * 2 ^ e else Zpos m / 2 ^ (- e) in
      if s then - v else v
  | _ => 0
  end.

(** sched.h:21: [1.] is a double, so the quotient and the product are *)
Definition sched_tick_nsec : Z :=
  f_trunc (SFmul 53 1024
    (SFdiv 53 1024 (f64_of_Z 1) (f64_of_f32 (f32_of_Z CONF_SCHED_TICK_FREQ_HZ)))
    (f64_of_Z SEC_NSEC)).

(** time.h:9 *)
Definition time_sub_nsec (tv_nsec nsec : Z) : Z :=
  if tv_nsec >? nsec then u64 (tv_nsec - nsec) else 0.

(** ** sched_rr.c *)

Definition READY_QUEUE_LEN : Z := 16.

(** The static variables of sched_rr.c, over those of thread.c. *)
Record sched_st := SchedSt {
  thr : thread_st;
  current_thread : Z;
  current_sched_ctx : Z;
  nsec_to_next_tick : Z;
}.
Definition s_mem (s : sched_st) : mem := t_mem (thr s).
Definition s_with_thr (f : thread_st → thread_st) (s : sched_st) : sched_st :=
  SchedSt (f (thr s)) (current_thread s) (current_sched_ctx s) (nsec_to_next_tick s).
Definition s_with_mem (f : mem → mem) : sched_st → sched_st := s_with_thr (t_with_mem f).
Definition s_with_current (t c : Z) (s : sched_st) : sched_st :=
  SchedSt (thr s) t c (nsec_to_next_tick s).

Abbreviation R := (M sched_st).

(** Following a null tcb pointer is undefined. *)
Definition tcb_deref (tcb : Z) : R unit :=
  if tcb =? NULL then ub "NULL tcb" else mret tt.

Section rr.
(** The address the linker gives to [ready_queue]. *)
Context (ready_queue : Z).

(** &ready_queue[i].list *)
Definition rq_list (i : Z) : Z := ready_queue + sizeof_tcb * i + tcb_list.

(** sched_rr.c:36 *)
Definition rr_move_to_ready (tcb : Z) : R unit :=
  _ ← tcb_deref tcb;
  prio ← gets (λ s, load32 (s_mem s) (tcb + tcb_priority));
  if negb (prio <? READY_QUEUE_LEN) then ub "ready_queue index out of range"
  else
    _ ← modify (s_with_mem (λ m,
          list_add m (tcb + tcb_list) (lst_prev m (rq_list prio))));
    modify (s_with_mem (λ m, store32 m (tcb + tcb_state) THREAD_READY)).

(** sched_rr.c:42 *)
Definition rr_quant_from_prio (priority : Z) : Z := u64 (10 * SEC_NSEC).

(** sched_rr.c:48: the loop over the queues, left at the first non-empty one *)
Fixpoint rr_scan (queues : list Z) (m : mem) : Z * mem :=
  match queues with
  | [] => (NULL, m)
  | i :: queues' =>
      if negb (list_is_empty m (rq_list i)) then
        let '(node, m') := list_next m (rq_list i) in (list_data node tcb_list, m')
      else rr_scan queues' m
  end.
Definition rr_get_next_ready : R Z :=
  '(ret, m) ← gets (λ s, rr_scan (seqZ 0 READY_QUEUE_LEN) (s_mem s));
  _ ← modify (s_with_mem (λ _, m));
  mret ret.

(** sched_rr.c:62 *)
Definition rr_enqueue (thread : Z) : R unit :=
  _ ← tcb_deref thread;
  priority ← gets (λ s, load32 (s_mem s) (thread + tcb_priority));
  _ ← modify (s_with_mem (λ m,
        store64 m (thread + tcb_quantum_nsec) (rr_quant_from_prio priority)));
  rr_move_to_ready thread.

(** sched_rr.c:100 *)
Definition rr_schedule (debug : bool) : R unit :=
  cur ← gets current_thread;
  _ ← tcb_deref cur;
  quantum ← gets (λ s, load64 (s_mem s) (cur + tcb_quantum_nsec));
  next ← (if quantum =? 0 then
            _ ← rr_move_to_ready cur;
            rr_get_next_ready
          else mret cur);
  _ ← ASSERT debug (negb (next =? NULL));
  if negb (next =? cur) then
    _ ← tcb_deref next;
    _ ← modify (s_with_current next (u32 (next + tcb_priority)));
    modify (s_with_thr (native_select_thread next))
  else mret tt.

(** sched_rr.c:70 *)
Definition rr_tick_handler (debug : bool) (irq_ctx : Z) : R unit :=
  cur ← gets current_thread;
  if negb (cur =? NULL) then
    left ← gets nsec_to_next_tick;
    let nsec := if negb (left =? 0) then u64 left else sched_tick_nsec in
    _ ← modify (s_with_mem (λ m, store64 m (cur + tcb_quantum_nsec)
          (time_sub_nsec (load64 m (cur + tcb_quantum_nsec)) nsec)));
    _ ← modify (s_with_thr (arch_update_exec_ctx irq_ctx));
    rr_schedule debug
  else mret tt.

(** sched_rr.c:84 *)
Definition rr_init (root_tasks no_tasks : Z) : R unit :=
  _ ← mfor (seqZ 0 READY_QUEUE_LEN) (λ i,
        modify (s_with_mem (λ m, LIST_HEAD_INIT m (rq_list i))));
  _ ← mfor (seqZ 0 no_tasks) (λ i,
        thread ← gets (λ s,
          load32 (s_mem s) (root_tasks + sizeof_proc * i + proc_threads));
        rr_enqueue thread);
  next ← rr_get_next_ready;
  _ ← modify (λ s, s_with_current next (current_sched_ctx s) s);
  _ ← tcb_deref next;
  modify (s_with_thr (native_select_thread next)).

(** sched_rr.c:122 and 126 *)
Definition rr_idle : R unit := mret tt.
Definition rr_current_thread : R Z := gets current_thread.
End rr.

(** ** sched.h:26 and sched.c

    A policy is a record of entry points, any of which may be missing. *)
Record sched_policy_t := SchedPolicy {
  sp_init : option (Z → Z → R unit);
  sp_interrupt_handler : option (Z → R unit);
  sp_schedule : option (R unit);
  sp_idle : option (R unit);
  sp_current_thread : option (R Z);
}.
Definition sched_rr (debug : bool) (ready_queue : Z) : sched_policy_t := {|
  sp_init := Some (rr_init ready_queue);
  sp_interrupt_handler := Some (rr_tick_handler ready_queue debug);
  sp_schedule := Some (rr_schedule ready_queue debug);
  sp_idle := Some rr_idle;
  sp_current_thread := Some rr_current_thread;
|}.

(** sched.c:6: the result is the value [scheduler] is given *)
Definition sched_init (debug : bool) (sched : option sched_policy_t)
    (initial_tasks no_tasks : Z) : R sched_policy_t :=
  _ ← ASSERT debug (bool_decide (is_Some sched));
  match sched with
  | None => ub "NULL policy"
  | Some p =>
      _ ← ASSERT debug (bool_decide (is_Some (sp_init p)));
      _ ← ASSERT debug (bool_decide (is_Some (sp_interrupt_handler p)));
      _ ← ASSERT debug (bool_decide (is_Some (sp_schedule p)));
      _ ← ASSERT debug (bool_decide (is_Some (sp_idle p)));
      _ ← ASSERT debug (bool_decide (is_Some (sp_current_thread p)));
      match sp_init p with
      | None => ub "NULL function pointer"
      | Some init => _ ← init initial_tasks no_tasks; mret p
      end
  end.

(** The tick is ten milliseconds. *)
Lemma sched_tick_nsec_value : sched_tick_nsec = 10000000.
Proof. vm_compute. reflexivity. Qed.
