(* ===== verification/SchedInv.v ===== *)
(** * SchedInv: the round-robin scheduler refines an abstract one

    The abstract scheduler keeps the ready queues as sequences of threads. The
    representation invariant ties them to the intrusive lists in memory; every
    entry point of the policy preserves it and performs the abstract step. *)

From S2P Require Import Prelude Machine KList CString Thread Sched.

(** ** The abstract scheduler *)

Record asched := ASched {
  a_queues : list (list Z);
  a_cur : Z;
  a_quant : Z → Z;
}.

Module RR.
Section spec.
Context (prio : Z → Z).

Definition enqueue (t : Z) (qs : list (list Z)) : list (list Z) :=
  alter (λ q, q ++ [t]) (Z.to_nat (prio t)) qs.

(** The first thread of the first queue that has one. *)
Fixpoint pick (qs : list (list Z)) : option (Z * list (list Z)) :=
  match qs with
  | [] => None
  | [] :: qs' => (λ x, (x.1, [] :: x.2)) <$> pick qs'
  | (t :: q) :: qs' => Some (t, q :: qs')
  end.

(** The running thread uses up [nsec] of its quantum. *)
Definition burn (nsec : Z) (a : asched) : asched :=
  let q := if a_quant a (a_cur a) >? nsec then a_quant a (a_cur a) - nsec else 0 in
  ASched (a_queues a) (a_cur a) (λ t, if decide (t = a_cur a) then q else a_quant a t).

(** When nothing is left of it, the thread goes to the end of its queue and the
    next ready thread runs. *)
Definition resched (a : asched) : asched :=
  if a_quant a (a_cur a) =? 0 then
    match pick (enqueue (a_cur a) (a_queues a)) with
    | Some (t, qs) => ASched qs t (a_quant a)
    | None => a
    end
  else a.

Definition tick (nsec : Z) (a : asched) : asched := resched (burn nsec a).

(** The queues after threads were made ready in order. *)
Definition ready (qs : list (list Z)) (ts : list Z) : list (list Z) :=
  foldl (λ qs t, enqueue t qs) qs ts.
(** All threads get the same quantum, the first of the best class runs. *)
Definition init (quantum : Z) (ts : list Z) : asched :=
  match pick (ready (replicate 16 []) ts) with
  | Some (t, qs) => ASched qs t (λ _, quantum)
  | None => ASched [] 0 (λ _, quantum)
  end.
End spec.
End RR.

Lemma pick_concat qs t qs' :
  RR.pick qs = Some (t, qs') → concat qs ≡ₚ t :: concat qs' ∧ length qs' = length qs.
Proof.
  revert qs'; induction qs as [|[|x q] qs IH]; intros qs'; simpl; [done| |].
  - destruct (RR.pick qs) as [[u r]|] eqn:E; [|done]. simpl. intros [= -> <-].
    destruct (IH r eq_refl) as [H1 H2]. simpl. auto.
  - intros [= -> <-]. done.
Qed.
Lemma pick_some qs t : t ∈ concat qs → ∃ r, RR.pick qs = Some r.
Proof.
  induction qs as [|[|x q] qs IH]; simpl; [by intros ?%elem_of_nil| |eauto].
  intros Hin. destruct (IH Hin) as [r ->]. eauto.
Qed.

Lemma enqueue_concat prio t qs :
  (Z.to_nat (prio t) < length qs)%nat →
  concat (RR.enqueue prio t qs) ≡ₚ t :: concat qs ∧
  length (RR.enqueue prio t qs) = length qs.
Proof.
  unfold RR.enqueue. generalize (Z.to_nat (prio t)) as i. intros i Hlt.
  split; [|apply length_alter].
  revert i Hlt; induction qs as [|q qs IH]; intros [|i] Hlt; simpl in Hlt; [lia|lia| |].
  - simpl. rewrite <-app_assoc. simpl. by rewrite <-Permutation_middle.
  - change (alter ?f (S i) (q :: qs)) with (q :: alter f i qs). simpl.
    rewrite IH by lia. by rewrite <-Permutation_middle.
Qed.

(** ** The layout of the scheduler's data in memory *)

Section layout.
Context (rq : Z) (T : list Z) (prio procOf pd : Z → Z).
Abbreviation rqh := (rq_list rq).

(** The tcbs of the threads, the ready queue array and the proc structures do
    not overlap. *)
Record layout : Prop := {
  lay_rq : 0 ≤ rq ∧ rq + 1536 ≤ 4294967296;
  lay_nodup : NoDup T;
  lay_tcb : ∀ t, t ∈ T → 0 < t ∧ t + 96 ≤ 4294967296 ∧ (t + 96 ≤ rq ∨ rq + 1536 ≤ t);
  lay_apart : ∀ t u, t ∈ T → u ∈ T → t ≠ u → t + 96 ≤ u ∨ u + 96 ≤ t;
  lay_proc : ∀ t, t ∈ T →
    0 < procOf t ∧ procOf t + 28 ≤ 4294967296 ∧
    (procOf t + 28 ≤ rq ∨ rq + 1536 ≤ procOf t) ∧
    ∀ u, u ∈ T → procOf t + 28 ≤ u ∨ u + 96 ≤ procOf t;
  lay_prio : ∀ t, t ∈ T → 0 ≤ prio t < 16;
}.
Context (Hlay : layout).

(** The list headers: one per thread, one per queue. *)
Definition snode (y : Z) : Prop :=
  (∃ t, t ∈ T ∧ y = t + tcb_list) ∨ (∃ i, 0 ≤ i < 16 ∧ y = rqh i).

Lemma snode_addr y : snode y → node_addr y.
Proof using Hlay.
  destruct Hlay as [Hrq _ Ht _ _ _].
  intros [(t & Hin & ->)|(i & Hi & ->)]; unfold node_addr, rq_list, tcb_list, sizeof_tcb;
    [apply Ht in Hin|]; lia.
Qed.
Lemma snode_apart y z : snode y → snode z → y ≠ z → y + 8 ≤ z ∨ z + 8 ≤ y.
Proof using Hlay.
  destruct Hlay as [Hrq _ Ht Hap _ _].
  intros [(t & Hin & ->)|(i & Hi & ->)] [(u & Hu & ->)|(j & Hj & ->)] Hne;
    unfold rq_list, sizeof_tcb, tcb_list in *.
  - specialize (Hap t u Hin Hu ltac:(congruence)). lia.
  - apply Ht in Hin. lia.
  - apply Ht in Hu. lia.
  - assert (i ≠ j) by congruence. lia.
Qed.

(** A list of distinct headers is a legal set of nodes. *)
Lemma snodes_ok l : NoDup l → Forall snode l → nodes_ok l.
Proof using Hlay.
  intros Hnd Hf. rewrite Forall_forall in Hf. split_and!; [done| |].
  - rewrite Forall_forall. eauto using snode_addr.
  - intros a b Ha Hb. destruct (decide (a = b)); [by left|right].
    apply snode_apart; auto.
Qed.

(** Only bytes of the headers [l] changed. *)
Definition node_only (l : list Z) (m m' : mem) : Prop :=
  ∀ x, outside l x → load8 m' x = load8 m x.

Lemma node_only_load32 l m m' a :
  node_only l m m' → (∀ y, y ∈ l → disj y 8 a 4) → load32 m' a = load32 m a.
Proof using. intros H Hd. apply load32_ext. intros i Hi. apply H. intros y Hy. by apply Hd. Qed.
Lemma node_only_load64 l m m' a :
  node_only l m m' → (∀ y, y ∈ l → disj y 8 a 8) → load64 m' a = load64 m a.
Proof using.
  intros H Hd. unfold load64. rewrite !(node_only_load32 l m m'); try done; intros y Hy i Hi.
  - specialize (Hd y Hy (4 + i) ltac:(lia)). by rewrite Z.add_assoc in Hd.
  - by apply Hd; [|lia].
Qed.

(** Headers not in [l] keep their links. *)
Lemma ring_node_only l m m' h xs :
  node_only l m m' → Forall snode l → Forall snode (h :: xs) →
  (∀ y, y ∈ h :: xs → y ∉ l) → ring m h xs → ring m' h xs.
Proof using Hlay.
  intros H Hl Hxs Hout. rewrite Forall_forall in Hl, Hxs. apply ring_frame.
  intros y Hy. pose proof (snode_addr y (Hxs y Hy)) as Hya. unfold node_addr in Hya.
  assert (Hd : ∀ z, z ∈ l → disj z 8 y 8).
  { intros z Hz. pose proof (snode_addr z (Hl z Hz)) as Hza. unfold node_addr in Hza.
    assert (z ≠ y) by (intros ->; by apply (Hout y)).
    pose proof (snode_apart z y (Hl z Hz) (Hxs y Hy) ltac:(done)).
    apply disj_linear; lia. }
  split; apply (node_only_load32 l m m' _ H); intros z Hz i Hi.
  - apply (Hd z Hz). lia.
  - specialize (Hd z Hz (4 + i) ltac:(lia)). by rewrite Z.add_assoc in Hd.
Qed.

(** ** What the scheduler reads of threads and processes *)

Definition tdata (m : mem) : Prop := ∀ t, t ∈ T →
  load32 m (t + tcb_priority) = prio t ∧ load32 m (t + tcb_proc) = procOf t ∧
  load32 m (procOf t + proc_page_dir) = pd (procOf t) ∧
  load32 m (procOf t + proc_threads) = t.

(** The parts of the tcbs other than the headers, and the proc structures, lie
    outside every header. *)
Lemma snode_tcb_disj y t o k :
  snode y → t ∈ T → 0 ≤ o → 0 < k → o + k ≤ tcb_list → disj y 8 (t + o) k.
Proof using Hlay.
  intros Hy Ht Ho Hk Hok. pose proof (snode_addr y Hy) as Hya. unfold node_addr in Hya.
  destruct Hlay as [Hrq _ HT Hap _ _]. pose proof (HT t Ht). unfold tcb_list in *.
  apply disj_linear; try lia.
  destruct Hy as [(u & Hu & ->)|(i & Hi & ->)]; unfold rq_list, sizeof_tcb, tcb_list in *; [|lia].
  destruct (decide (t = u)) as [->|Hne]; [lia|]. specialize (Hap t u Ht Hu Hne). lia.
Qed.
Lemma snode_proc_disj y t o :
  snode y → t ∈ T → 0 ≤ o ≤ 24 → disj y 8 (procOf t + o) 4.
Proof using Hlay.
  intros Hy Ht Ho. pose proof (snode_addr y Hy) as Hya. unfold node_addr in Hya.
  destruct Hlay as [Hrq _ HT _ Hp _]. destruct (Hp t Ht) as (H1 & H2 & H3 & H4).
  apply disj_linear; try lia.
  destruct Hy as [(u & Hu & ->)|(i & Hi & ->)];
    unfold rq_list, sizeof_tcb, tcb_list in *; [|lia].
  specialize (H4 u Hu). lia.
Qed.

Lemma tdata_node_only l m m' :
  node_only l m m' → Forall snode l → tdata m → tdata m'.
Proof using Hlay.
  intros H Hl Hd t Ht. rewrite Forall_forall in Hl. destruct (Hd t Ht) as (H1 & H2 & H3 & H4).
  rewrite !(node_only_load32 l m m' _ H); [done|..]; intros y Hy.
  1, 2: apply snode_proc_disj; [by apply Hl|done|]; unfold proc_threads, proc_page_dir; lia.
  all: apply snode_tcb_disj; [by apply Hl|done|..]; unfold tcb_proc, tcb_priority, tcb_list; lia.
Qed.
Lemma quant_node_only l m m' t :
  node_only l m m' → Forall snode l → t ∈ T →
  load64 m' (t + tcb_quantum_nsec) = load64 m (t + tcb_quantum_nsec).
Proof using Hlay.
  intros H Hl Ht. rewrite Forall_forall in Hl. apply (node_only_load64 l m m' _ H).
  intros y Hy. apply snode_tcb_disj; [by apply Hl|done|..];
    unfold tcb_quantum_nsec, tcb_list; lia.
Qed.

(** Only the state, quantum or context of thread [t] changed. *)
Definition data_only (t : Z) (m m' : mem) : Prop := changes_only (t + tcb_state) 72 m m'.

Lemma data_only_node t m m' y :
  data_only t m m' → t ∈ T → snode y →
  lst_next m' y = lst_next m y ∧ lst_prev m' y = lst_prev m y.
Proof using Hlay.
  intros H Ht Hy. pose proof (snode_addr y Hy) as Hya. unfold node_addr in Hya.
  pose proof (lay_tcb Hlay t Ht) as Htt.
  assert (Hd : disj y 8 (t + tcb_state) 72).
  { apply snode_tcb_disj; try done; unfold tcb_state, tcb_list; lia. }
  assert (Hap : t + 84 ≤ y ∨ y + 8 ≤ t + 12).
  { destruct Hy as [(u & Hu & ->)|(i & Hi & ->)]; unfold rq_list, sizeof_tcb, tcb_list in *.
    - destruct (decide (t = u)) as [->|Hne]; [lia|].
      pose proof (lay_apart Hlay t u Ht Hu Hne). lia.
    - pose proof (lay_rq Hlay). lia. }
  unfold data_only, tcb_state in *. unfold lst_next, lst_prev.
  split; apply (changes_only_load32 _ _ _ _ _ H), disj_linear; lia.
Qed.
Lemma ring_data_only t m m' h xs :
  data_only t m m' → t ∈ T → Forall snode (h :: xs) → ring m h xs → ring m' h xs.
Proof using Hlay.
  intros H Ht Hf. apply ring_frame. intros y Hy. rewrite Forall_forall in Hf.
  apply (data_only_node t); auto.
Qed.
Lemma tdata_data_only t m m' : data_only t m m' → t ∈ T → tdata m → tdata m'.
Proof using Hlay.
  intros H Ht Hd u Hu. destruct (Hd u Hu) as (H1 & H2 & H3 & H4).
  pose proof (lay_tcb Hlay t Ht). pose proof (lay_tcb Hlay u Hu).
  destruct (lay_proc Hlay u Hu) as (? & ? & ? & Hp). specialize (Hp t Ht).
  assert (t = u ∨ t + 96 ≤ u ∨ u + 96 ≤ t) as Hap.
  { destruct (decide (t = u)); [by left|right]. by apply (lay_apart Hlay). }
  unfold data_only, tcb_state, tcb_proc, tcb_priority, proc_page_dir, proc_threads in *.
  rewrite !(changes_only_load32 _ _ _ _ _ H); [done|..]; apply disj_linear; lia.
Qed.
Lemma quant_data_other t u m m' :
  data_only t m m' → t ∈ T → u ∈ T → t ≠ u →
  load64 m' (u + tcb_quantum_nsec) = load64 m (u + tcb_quantum_nsec).
Proof using Hlay.
  intros H Ht Hu Hne. pose proof (lay_tcb Hlay t Ht). pose proof (lay_tcb Hlay u Hu).
  pose proof (lay_apart Hlay t u Ht Hu Hne).
  unfold data_only, tcb_state, tcb_quantum_nsec in *.
  apply (changes_only_load64 _ _ _ _ _ H), disj_linear; lia.
Qed.
End layout.

(** ** The ready queues *)

Section ready.
Context (rq : Z) (T : list Z) (prio procOf pd : Z → Z).
Context (Hlay : layout rq T prio procOf).
Abbreviation rqh := (rq_list rq).
Abbreviation tdata := (tdata T prio procOf pd).
Abbreviation snode := (snode rq T).

Definition nodes (q : list Z) : list Z := (λ t, t + tcb_list) <$> q.

(** The queues [qs] of the priorities from [i] on. *)
Definition qrep (m : mem) (i : nat) (qs : list (list Z)) : Prop :=
  ∀ j q, qs !! j = Some q →
    ring m (rqh (Z.of_nat (i + j))) (nodes q) ∧
    Forall (λ t, t ∈ T ∧ prio t = Z.of_nat (i + j)) q.

(** Quanta and contexts of all threads are kept. *)
Definition tkeep (m m' : mem) : Prop := ∀ t, t ∈ T →
  load64 m' (t + tcb_quantum_nsec) = load64 m (t + tcb_quantum_nsec) ∧
  ∀ o, 24 ≤ o ≤ 80 → load32 m' (t + o) = load32 m (t + o).
#[local] Instance tkeep_preorder : PreOrder tkeep.
Proof using.
  split; [done|]. intros m1 m2 m3 H1 H2 t Ht.
  destruct (H1 t Ht) as [A1 B1], (H2 t Ht) as [A2 B2]. split; [congruence|].
  intros o Ho. rewrite B2, B1; done.
Qed.

(** Headers of priority [i]. *)
Definition class_node (i y : Z) : Prop :=
  y = rqh i ∨ ∃ t, t ∈ T ∧ prio t = i ∧ y = t + tcb_list.

Lemma class_node_snode i y : 0 ≤ i < 16 → class_node i y → snode y.
Proof using. intros Hi [->|(t & Ht & _ & ->)]; [right|left]; eauto. Qed.
Lemma class_node_inj i j y :
  0 ≤ i < 16 → 0 ≤ j < 16 → class_node i y → class_node j y → i = j.
Proof using Hlay.
  intros Hi Hj [->|(t & Ht & Hp & ->)] [E|(u & Hu & Hq & E)];
    unfold rq_list, sizeof_tcb, tcb_list in E.
  - lia.
  - pose proof (lay_tcb _ _ _ _ Hlay u Hu). lia.
  - pose proof (lay_tcb _ _ _ _ Hlay t Ht). lia.
  - assert (t = u) by lia. congruence.
Qed.
Lemma class_nodes i q :
  Forall (λ t, t ∈ T ∧ prio t = i) q → Forall (class_node i) (rqh i :: nodes q).
Proof using.
  intros H. constructor; [by left|]. apply Forall_fmap. eapply Forall_impl; [done|].
  intros t [? ?]. right. by exists t.
Qed.

Lemma node_only_tkeep l m m' : node_only l m m' → Forall snode l → tkeep m m'.
Proof using Hlay.
  intros H Hl t Ht. split; [by eapply (quant_node_only rq T prio procOf Hlay)|].
  intros o Ho. rewrite Forall_forall in Hl. apply (node_only_load32 l m m' _ H).
  intros y Hy. apply (snode_tcb_disj rq T prio procOf Hlay);
    [by apply Hl|done|..]; unfold tcb_list; lia.
Qed.

(** A change in the headers of one priority leaves the other queues. *)
Lemma ring_other m m' l i j q :
  0 ≤ i < 16 → 0 ≤ j < 16 → i ≠ j → node_only l m m' → Forall (class_node i) l →
  Forall (λ t, t ∈ T ∧ prio t = j) q → ring m (rqh j) (nodes q) → ring m' (rqh j) (nodes q).
Proof using Hlay.
  intros Hi Hj Hne Hno Hl Hq. pose proof (class_nodes j q Hq) as Hcn.
  apply (ring_node_only rq T prio procOf Hlay l m m'); [done|..].
  - eapply Forall_impl; [done|]. intros y. by apply class_node_snode.
  - eapply Forall_impl; [done|]. intros y. by apply class_node_snode.
  - intros y Hy Hin. rewrite Forall_forall in Hcn, Hl.
    apply Hne, (class_node_inj i j y); auto.
Qed.

Lemma nodes_nodup q : NoDup q → NoDup (nodes q).
Proof using. intros H. apply NoDup_fmap_2; [|done]. intros a b. lia. Qed.

Lemma nodes_class_ok i q :
  0 ≤ i < 16 → NoDup q → Forall (λ t, t ∈ T ∧ prio t = i) q →
  nodes_ok (rqh i :: nodes q).
Proof using Hlay.
  intros Hi Hnd Hq. apply (snodes_ok rq T prio procOf Hlay).
  - apply NoDup_cons. split; [|by apply nodes_nodup].
    intros (t & E & Ht)%list_elem_of_fmap. rewrite Forall_forall in Hq.
    destruct (Hq t Ht) as [HtT _]. pose proof (lay_tcb _ _ _ _ Hlay t HtT).
    unfold rq_list, sizeof_tcb, tcb_list in E. lia.
  - eapply Forall_impl; [by apply class_nodes|]. intros y. by apply class_node_snode.
Qed.

(** A store to the state word of a thread. *)
Lemma store_state_keep m t v :
  t ∈ T → data_only t m (store32 m (t + tcb_state) v) ∧
  tkeep m (store32 m (t + tcb_state) v).
Proof using Hlay.
  intros Ht. split.
  - unfold data_only, tcb_state. apply changes_only_store32; [done|lia..].
  - intros u Hu. pose proof (lay_tcb _ _ _ _ Hlay t Ht). pose proof (lay_tcb _ _ _ _ Hlay u Hu).
    assert (t = u ∨ t + 96 ≤ u ∨ u + 96 ≤ t) as Hap.
    { destruct (decide (t = u)); [by left|right]. by apply (lay_apart _ _ _ _ Hlay). }
    unfold tcb_state, tcb_quantum_nsec. split.
    + apply load64_store32_disj, disj_linear; lia.
    + intros o Ho. apply load32_store32_disj, disj_linear; lia.
Qed.

Lemma qrep_data_only t m m' i qs :
  data_only t m m' → t ∈ T → (i + length qs ≤ 16)%nat → qrep m i qs → qrep m' i qs.
Proof using Hlay.
  intros H Ht Hlen Hq j q Hj. destruct (Hq j q Hj) as [Hr Hf]. split; [|done].
  apply lookup_lt_Some in Hj.
  apply (ring_data_only rq T prio procOf Hlay t m); [done|done| |done].
  eapply Forall_impl; [by apply class_nodes|]. intros y. apply class_node_snode. lia.
Qed.

(** ** rr_move_to_ready *)

Lemma enqueue_lookup t qs j q :
  RR.enqueue prio t qs !! j = Some q →
  if decide (j = Z.to_nat (prio t)) then ∃ q0, qs !! j = Some q0 ∧ q = q0 ++ [t]
  else qs !! j = Some q.
Proof using.
  unfold RR.enqueue. case_decide as E.
  - subst j. rewrite list_lookup_alter_eq. destruct (qs !! _); [|done].
    intros [= <-]. eauto.
  - by rewrite list_lookup_alter_ne.
Qed.

Lemma move_to_ready_ok s t qs :
  t ∈ T → t ∉ concat qs → length qs = 16%nat → NoDup (concat qs) →
  tdata (s_mem s) → qrep (s_mem s) 0 qs →
  ∃ m', rr_move_to_ready rq t s = Ok (tt, s_with_mem (λ _, m') s) ∧
    tdata m' ∧ qrep m' 0 (RR.enqueue prio t qs) ∧ tkeep (s_mem s) m'.
Proof using Hlay.
  intros Ht Hnq Hlen Hnd Htd Hq. set (m := s_mem s) in *. destruct (Htd t Ht) as (Hp & _).
  pose proof (lay_prio _ _ _ _ Hlay t Ht) as Hpr. pose proof (lay_tcb _ _ _ _ Hlay t Ht) as Htt.
  destruct (lookup_lt_is_Some_2 qs (Z.to_nat (prio t))) as [q0 Hq0]; [lia|].
  destruct (Hq _ _ Hq0) as [Hr0 Hf0]. rewrite Nat.add_0_l, Z2Nat.id in Hr0 by lia.
  rewrite Nat.add_0_l, Z2Nat.id in Hf0 by lia.
  assert (Hnd0 : NoDup (q0 ++ [t]) ∧ Forall (λ u, u ∈ T ∧ prio u = prio t) (q0 ++ [t])).
  { destruct (concat_split id qs _ q0 Hq0) as (R & HR & _). rewrite list_fmap_id in HR.
    rewrite HR in Hnd, Hnq. unfold id in *. apply NoDup_app in Hnd as (Hnd & _ & _).
    split; [|apply Forall_app; by repeat constructor].
    apply NoDup_app. split_and!; [done| |apply NoDup_singleton].
    intros x Hx ->%list_elem_of_singleton. apply Hnq, elem_of_app. by left. }
  destruct Hnd0 as [Hnd0 Hf0'].
  set (m1 := list_add m (t + tcb_list) (lst_prev m (rqh (prio t)))).
  assert (Hcl : Forall (class_node (prio t)) (t + tcb_list :: rqh (prio t) :: nodes q0)).
  { constructor; [right; by exists t|]. by apply class_nodes. }
  assert (Hno : node_only (t + tcb_list :: rqh (prio t) :: nodes q0) m m1).
  { intros x Hx. by eapply list_add_out. }
  assert (Hsn : Forall snode (t + tcb_list :: rqh (prio t) :: nodes q0)).
  { eapply Forall_impl; [done|]. intros y. by apply class_node_snode. }
  assert (Hq1 : qrep m1 0 (RR.enqueue prio t qs)).
  { intros j q Hj. pose proof (enqueue_lookup _ _ _ _ Hj) as Hcase. apply lookup_lt_Some in Hj.
    unfold RR.enqueue in Hj. rewrite length_alter in Hj. simpl.
    case_decide as E; [destruct Hcase as (q1 & Hq1 & ->)|].
    - subst j. simplify_eq. rewrite Z2Nat.id by lia. split; [|done].
      unfold nodes. rewrite fmap_app. apply list_add_tail_ring; [done|].
      pose proof (nodes_class_ok _ _ Hpr Hnd0 Hf0') as Hok.
      eapply nodes_ok_sublist; [|exact Hok]. unfold nodes. rewrite fmap_app. simpl.
      apply Permutation_submseteq. rewrite (Permutation_app_comm _ [_]). simpl.
      apply Permutation_swap.
    - destruct (Hq _ _ Hcase) as [Hr Hf]. split; [|done].
      apply (ring_other m m1 (t + tcb_list :: rqh (prio t) :: nodes q0) (prio t));
        try done; lia. }
  destruct (store_state_keep m1 t THREAD_READY Ht) as [Hdo Htk].
  exists (store32 m1 (t + tcb_state) THREAD_READY). split_and!.
  - unfold rr_move_to_ready, tcb_deref. mstep.
    rewrite (proj2 (Z.eqb_neq t NULL)) by (unfold NULL; lia). fold m. rewrite Hp.
    unfold READY_QUEUE_LEN. rewrite (proj2 (Z.ltb_lt _ _)) by lia. done.
  - eapply (tdata_data_only rq T prio procOf pd Hlay); [done|done|].
    by eapply (tdata_node_only rq T prio procOf pd Hlay).
  - eapply qrep_data_only; [done|done| |done]. unfold RR.enqueue.
    rewrite length_alter. lia.
  - etrans; [|exact Htk]. by eapply node_only_tkeep.
Qed.

(** ** rr_get_next_ready *)

Lemma qrep_cons m i q qs :
  qrep m i (q :: qs) ↔
  (ring m (rqh (Z.of_nat i)) (nodes q) ∧
   Forall (λ t, t ∈ T ∧ prio t = Z.of_nat i) q) ∧ qrep m (S i) qs.
Proof using.
  split.
  - intros H. split.
    + specialize (H 0%nat q eq_refl). by rewrite Nat.add_0_r in H.
    + intros j r Hj. specialize (H (S j) r Hj). by rewrite <-Nat.add_succ_comm in H.
  - intros [H0 H] [|j] r Hj.
    + simpl in Hj. simplify_eq. by rewrite Nat.add_0_r.
    + rewrite <-Nat.add_succ_comm. by apply H.
Qed.

(** Queues of other priorities survive a change in the headers of one. *)
Lemma qrep_other m m' l k i qs :
  0 ≤ k < 16 → k < Z.of_nat i → (i + length qs ≤ 16)%nat →
  node_only l m m' → Forall (class_node k) l → qrep m i qs → qrep m' i qs.
Proof using Hlay.
  intros Hk Hki Hlen Hno Hl Hq j q Hj. destruct (Hq j q Hj) as [Hr Hf].
  apply lookup_lt_Some in Hj. split; [|done].
  apply (ring_other m m' l k); try done; lia.
Qed.

Lemma rr_scan_ok qs : ∀ m i,
  (i + length qs = 16)%nat → qrep m i qs →
  match RR.pick qs with
  | Some (t, qs') => ∃ m' k l,
      rr_scan rq (seqZ (Z.of_nat i) (16 - Z.of_nat i)) m = (t, m') ∧ t ∈ T ∧
      qrep m' i qs' ∧ Z.of_nat i ≤ k < 16 ∧ Forall (class_node k) l ∧ node_only l m m'
  | None => rr_scan rq (seqZ (Z.of_nat i) (16 - Z.of_nat i)) m = (NULL, m)
  end.
Proof using Hlay.
  induction qs as [|q qs IH]; intros m i Hlen Hq; simpl in Hlen.
  { simpl. rewrite (seqZ_nil _ (16 - Z.of_nat i)) by lia. done. }
  apply qrep_cons in Hq as [[Hr Hf] Hq].
  rewrite seqZ_cons by lia. replace (Z.pred (16 - Z.of_nat i)) with (16 - Z.of_nat (S i)) by lia.
  replace (Z.succ (Z.of_nat i)) with (Z.of_nat (S i)) by lia.
  cbn [rr_scan]. pose proof (list_is_empty_ring _ _ _ Hr) as He.
  destruct q as [|t q]; cbn [RR.pick].
  - rewrite (proj2 He eq_refl). cbn [negb]. specialize (IH m (S i) ltac:(lia) Hq).
    destruct (RR.pick qs) as [[t qs']|]; simpl; [|exact IH].
    destruct IH as (m' & k & l & -> & Ht & Hq' & Hk & Hl & Hno).
    exists m', k, l. split_and!; try done; [|lia..]. apply qrep_cons. split; [|done].
    split; [|done]. apply (ring_other m m' l k (Z.of_nat i) []); try done; lia.
  - destruct (list_is_empty m (rqh (Z.of_nat i))) eqn:E;
      [by discriminate (proj1 He eq_refl)|]. cbn [negb].
    destruct (list_next_ring m _ _ _ Hr) as [H1 H2].
    pose proof (λ x, list_next_out m _ _ _ x Hr) as Hout.
    destruct (list_next m (rqh (Z.of_nat i))) as [node m'] eqn:En.
    cbn [fst snd] in *. subst node.
    apply Forall_cons in Hf as [[Ht Hp] Hf'].
    assert (Hld : list_data (t + tcb_list) tcb_list = t).
    { pose proof (lay_tcb _ _ _ _ Hlay t Ht). unfold list_data.
      rewrite u32_small; unfold tcb_list; lia. }
    exists m', (Z.of_nat i), (rqh (Z.of_nat i) :: nodes (t :: q)). rewrite Hld.
    split_and!; try done; try lia.
    + apply qrep_cons. split; [done|].
      apply (qrep_other m m' (rqh (Z.of_nat i) :: nodes (t :: q)) (Z.of_nat i));
        [lia|lia|lia| | |done].
      * exact Hout.
      * apply (class_nodes _ (t :: q)). by constructor.
    + apply (class_nodes _ (t :: q)). by constructor.
Qed.

Lemma get_next_ready_ok s qs :
  length qs = 16%nat → tdata (s_mem s) → qrep (s_mem s) 0 qs →
  match RR.pick qs with
  | Some (t, qs') => ∃ m', rr_get_next_ready rq s = Ok (t, s_with_mem (λ _, m') s) ∧
      t ∈ T ∧ tdata m' ∧ qrep m' 0 qs' ∧ tkeep (s_mem s) m'
  | None => rr_get_next_ready rq s = Ok (NULL, s_with_mem (λ _, s_mem s) s)
  end.
Proof using Hlay.
  intros Hlen Htd Hq. pose proof (rr_scan_ok qs (s_mem s) 0 Hlen Hq) as Hs.
  unfold rr_get_next_ready, READY_QUEUE_LEN. mstep. change (Z.of_nat 0) with 0 in Hs.
  rewrite Z.sub_0_r in Hs. destruct (RR.pick qs) as [[t qs']|]; [|by rewrite Hs].
  destruct Hs as (m' & k & l & -> & Ht & Hq' & Hk & Hl & Hno).
  assert (Hsn : Forall snode l).
  { eapply Forall_impl; [done|]. intros y. apply class_node_snode. lia. }
  exists m'. split_and!; try done.
  - by eapply (tdata_node_only rq T prio procOf pd Hlay).
  - by eapply node_only_tkeep.
Qed.

(** ** The invariant *)

Record rr_inv (a : asched) (s : sched_st) : Prop := {
  ri_queues : length (a_queues a) = 16%nat ∧ qrep (s_mem s) 0 (a_queues a);
  ri_threads : a_cur a :: concat (a_queues a) ≡ₚ T;
  ri_tdata : tdata (s_mem s);
  ri_quant : ∀ t, t ∈ T → load64 (s_mem s) (t + tcb_quantum_nsec) = a_quant a t;
  ri_current : current_thread s = a_cur a;
  ri_ctx : current_thread_execution_ctx (thr s) = a_cur a + tcb_exec_ctx;
  ri_proc : current_proc (thr s) = procOf (a_cur a);
  ri_cr3 : head (cr3_writes (thr s)) = Some (pd (procOf (a_cur a)));
  ri_tick : nsec_to_next_tick s = 0;
}.

Lemma select_thread_ok t s :
  t ∈ T → tdata (t_mem s) →
  let s' := native_select_thread t s in
  t_mem s' = t_mem s ∧ current_thread_execution_ctx s' = t + tcb_exec_ctx ∧
  current_proc s' = procOf t ∧
  cr3_writes s' = (if procOf t =? current_proc s then cr3_writes s
                   else pd (procOf t) :: cr3_writes s).
Proof using Hlay.
  intros Ht Htd. destruct (Htd t Ht) as (_ & Hp & Hpd & _).
  pose proof (lay_tcb _ _ _ _ Hlay t Ht) as Htt.
  unfold native_select_thread. rewrite (u32_small (t + tcb_exec_ctx)) by (unfold tcb_exec_ctx; lia).
  set (s1 := if negb _ then _ else s).
  assert (E : t_mem s1 = t_mem s ∧ current_thread_execution_ctx s1 = t + tcb_exec_ctx ∧
    current_proc s1 = current_proc s ∧ cr3_writes s1 = cr3_writes s).
  { subst s1. destruct (Z.eqb_spec (t + tcb_exec_ctx) (current_thread_execution_ctx s));
      simpl; auto. }
  destruct E as (E1 & E2 & E3 & E4). rewrite E1, Hp, E3.
  destruct (Z.eqb_spec (procOf t) (current_proc s)) as [E|E]; simpl.
  - rewrite E1, E2, E3, E4. auto.
  - rewrite E1, E2, E4, Hpd. split_and!; try done. f_equal. apply u32_small.
    rewrite <-Hpd. apply load32_range.
Qed.

Lemma rr_inv_cur a s : rr_inv a s → a_cur a ∈ T.
Proof using. intros H. rewrite <-(ri_threads _ _ H). by left. Qed.
Lemma rr_inv_nodup a s : rr_inv a s → NoDup (a_cur a :: concat (a_queues a)).
Proof using Hlay. intros H. rewrite (ri_threads _ _ H). apply (lay_nodup _ _ _ _ Hlay). Qed.

(** The next thread always exists. *)
Lemma resched_some a s :
  rr_inv a s → ∃ t qs, RR.pick (RR.enqueue prio (a_cur a) (a_queues a)) = Some (t, qs) ∧
    t :: concat qs ≡ₚ T ∧ length qs = 16%nat.
Proof using Hlay.
  intros H. pose proof (rr_inv_cur a s H) as Hc. destruct (ri_queues _ _ H) as [Hlen _].
  pose proof (lay_prio _ _ _ _ Hlay _ Hc) as Hp.
  destruct (enqueue_concat prio (a_cur a) (a_queues a) ltac:(lia)) as [He Hl].
  destruct (pick_some (RR.enqueue prio (a_cur a) (a_queues a)) (a_cur a)) as [[t qs] Hpk].
  { rewrite He. by left. }
  exists t, qs. destruct (pick_concat _ _ _ Hpk) as [Hpc Hlq].
  split_and!; [done| |congruence]. rewrite <-Hpc, He. apply (ri_threads _ _ H).
Qed.

Lemma rr_schedule_ok debug a s :
  rr_inv a s →
  ∃ s', rr_schedule rq debug s = Ok (tt, s') ∧ rr_inv (RR.resched prio a) s' ∧
    tkeep (s_mem s) (s_mem s').
Proof using Hlay.
  intros H. pose proof (rr_inv_cur a s H) as Hc. pose proof (rr_inv_nodup a s H) as Hnd.
  pose proof H as [[Hlen Hq] Hperm Htd Hqu Hcur Hctx Hproc Hcr3 Htick].
  pose proof (lay_tcb _ _ _ _ Hlay _ Hc) as Htc. unfold RR.resched.
  unfold rr_schedule, tcb_deref. mstep. rewrite Hcur.
  rewrite (proj2 (Z.eqb_neq _ NULL)) by (unfold NULL; lia). rewrite (Hqu _ Hc).
  destruct (Z.eqb_spec (a_quant a (a_cur a)) 0) as [Hz|Hz]; cycle 1.
  { rewrite (proj2 (Z.eqb_neq (a_cur a) NULL)) by (unfold NULL; lia).
    rewrite andb_false_r, Z.eqb_refl. exists s. split_and!; [done|done|reflexivity]. }
  apply NoDup_cons in Hnd as [Hnc Hnd].
  destruct (move_to_ready_ok s (a_cur a) (a_queues a)) as (m1 & Hm1 & Htd1 & Hq1 & Hk1); try done.
  rewrite Hm1. destruct (resched_some a s H) as (t & qs & Hpk & Hperm' & Hlen').
  pose proof (get_next_ready_ok (s_with_mem (λ _, m1) s)
    (RR.enqueue prio (a_cur a) (a_queues a))
    ltac:(unfold RR.enqueue; rewrite length_alter; exact Hlen) Htd1 Hq1) as Hn.
  rewrite Hpk in Hn |- *. destruct Hn as (m2 & Hm2 & Ht & Htd2 & Hq2 & Hk2). rewrite Hm2.
  pose proof (lay_tcb _ _ _ _ Hlay _ Ht) as Htt.
  rewrite (proj2 (Z.eqb_neq t NULL)) by (unfold NULL; lia). rewrite andb_false_r. simpl in Hk2.
  assert (Hk : tkeep (s_mem s) m2) by (by trans m1).
  assert (Hqu2 : ∀ u, u ∈ T → load64 m2 (u + tcb_quantum_nsec) = a_quant a u).
  { intros u Hu. rewrite (proj1 (Hk u Hu)). auto. }
  destruct (Z.eqb_spec t (a_cur a)) as [->|Hne]; simpl.
  - eexists; split; [done|]. split; [|done]. by constructor.
  - destruct (select_thread_ok t (t_with_mem (λ _, m2) (t_with_mem (λ _, m1) (thr s))) Ht Htd2) as (E1 & E2 & E3 & E4).
    eexists; split; [done|]. cbv zeta in *. simpl in E1, E4.
    split; [|unfold s_mem; simpl; by rewrite E1].
    constructor; unfold s_mem; simpl; rewrite ?E1; try done.
    rewrite E4. destruct (Z.eqb_spec (procOf t) (current_proc (thr s))) as [E|E]; [|done].
    rewrite E, Hproc. done.
Qed.

(** Burning quantum and saving the context. *)
Lemma rr_inv_burn nsec a s :
  0 ≤ nsec → rr_inv a s →
  rr_inv (RR.burn nsec a) (s_with_mem (λ m, store64 m (a_cur a + tcb_quantum_nsec)
    (time_sub_nsec (load64 m (a_cur a + tcb_quantum_nsec)) nsec)) s).
Proof using Hlay.
  intros Hns H. pose proof (rr_inv_cur a s H) as Hc.
  pose proof H as [[Hlen Hq] Hperm Htd Hqu Hcur Hctx Hproc Hcr3 Htick].
  set (v := time_sub_nsec (load64 (s_mem s) (a_cur a + tcb_quantum_nsec)) nsec).
  assert (Hdo : data_only (a_cur a) (s_mem s)
                  (store64 (s_mem s) (a_cur a + tcb_quantum_nsec) v)).
  { unfold data_only, tcb_state, tcb_quantum_nsec, store64.
    apply changes_only_store32; [apply changes_only_store32; [done|lia..]|lia..]. }
  constructor; unfold s_mem in *; simpl; fold v; try done.
  - split; [done|]. eapply qrep_data_only; [done|done|lia|done].
  - by eapply (tdata_data_only rq T prio procOf pd Hlay).
  - intros t Ht. case_decide as E; [subst t|].
    + rewrite load64_store64_eq. subst v. unfold time_sub_nsec. rewrite (Hqu _ Ht).
      pose proof (load64_range (t_mem (thr s)) (a_cur a + tcb_quantum_nsec)) as Hr.
      rewrite (Hqu _ Ht) in Hr.
      destruct (Z.gtb_spec (a_quant a (a_cur a)) nsec); [|done].
      rewrite !u64_small; try lia. rewrite u64_small; lia.
    + rewrite <-(Hqu t Ht). by apply (quant_data_other rq T prio procOf Hlay (a_cur a)).
Qed.

Lemma rr_inv_save irq a s :
  rr_inv a s → rr_inv a (s_with_thr (arch_update_exec_ctx irq) s) ∧
  (∀ t, t ∈ T → t ≠ a_cur a → ∀ o, 24 ≤ o ≤ 80 →
     load32 (s_mem (s_with_thr (arch_update_exec_ctx irq) s)) (t + o)
     = load32 (s_mem s) (t + o)).
Proof using Hlay.
  intros H. pose proof (rr_inv_cur a s H) as Hc.
  pose proof H as [[Hlen Hq] Hperm Htd Hqu Hcur Hctx Hproc Hcr3 Htick].
  pose proof (arch_update_only irq (thr s)) as Hch. rewrite Hctx in Hch.
  pose proof (lay_tcb _ _ _ _ Hlay _ Hc) as Htc.
  assert (Em : s_mem (s_with_thr (arch_update_exec_ctx irq) s)
               = t_mem (arch_update_exec_ctx irq (thr s))) by reflexivity.
  revert Em Hch. generalize (t_mem (arch_update_exec_ctx irq (thr s))) as m'. intros m' Em Hch.
  assert (Hdo : data_only (a_cur a) (s_mem s) m').
  { intros x Hx. apply Hch. contradict Hx.
    unfold within, tcb_state, tcb_exec_ctx, sizeof_ctx in *. wrap_lia. }
  split.
  - constructor; rewrite ?Em; try done.
    + split; [done|]. eapply qrep_data_only; [done|done|lia|done].
    + by eapply (tdata_data_only rq T prio procOf pd Hlay).
    + intros t Ht. rewrite <-(Hqu t Ht). destruct (decide (t = a_cur a)) as [->|Hne].
      * apply (changes_only_load64 _ _ _ _ _ Hch), disj_linear;
          unfold tcb_exec_ctx, tcb_quantum_nsec, sizeof_ctx; lia.
      * by apply (quant_data_other rq T prio procOf Hlay (a_cur a)).
  - intros t Ht Hne o Ho. rewrite Em.
    pose proof (lay_tcb _ _ _ _ Hlay _ Ht). pose proof (lay_apart _ _ _ _ Hlay t _ Ht Hc Hne).
    apply (changes_only_load32 _ _ _ _ _ Hch), disj_linear;
      unfold tcb_exec_ctx, sizeof_ctx; lia.
Qed.

(** ** rr_enqueue and rr_init *)

(** The saved contexts stay, whatever happens to the quanta. *)
Definition ckeep (m m' : mem) : Prop := ∀ t, t ∈ T →
  ∀ o, 24 ≤ o ≤ 80 → load32 m' (t + o) = load32 m (t + o).
#[local] Instance ckeep_preorder : PreOrder ckeep.
Proof using.
  split; [done|]. intros m1 m2 m3 H1 H2 t Ht o Ho. by rewrite (H2 t Ht o Ho), (H1 t Ht o Ho).
Qed.
Lemma tkeep_ckeep m m' : tkeep m m' → ckeep m m'.
Proof using. intros H t Ht. apply (H t Ht). Qed.
Lemma ckeep_quantum t m v : t ∈ T → ckeep m (store64 m (t + tcb_quantum_nsec) v).
Proof using Hlay.
  intros Ht u Hu o Ho. apply load32_store64_disj. unfold tcb_quantum_nsec.
  pose proof (lay_tcb _ _ _ _ Hlay t Ht). pose proof (lay_tcb _ _ _ _ Hlay u Hu).
  apply disj_linear; try lia. destruct (decide (t = u)) as [->|Hne]; [lia|].
  pose proof (lay_apart _ _ _ _ Hlay t u Ht Hu Hne). lia.
Qed.

Lemma enqueue_ok s t qs :
  t ∈ T → t ∉ concat qs → length qs = 16%nat → NoDup (concat qs) →
  tdata (s_mem s) → qrep (s_mem s) 0 qs →
  ∃ m', rr_enqueue rq t s = Ok (tt, s_with_mem (λ _, m') s) ∧
    tdata m' ∧ qrep m' 0 (RR.enqueue prio t qs) ∧
    load64 m' (t + tcb_quantum_nsec) = 10000000000 ∧
    (∀ u, u ∈ T → u ≠ t →
      load64 m' (u + tcb_quantum_nsec) = load64 (s_mem s) (u + tcb_quantum_nsec)) ∧
    ckeep (s_mem s) m'.
Proof using Hlay.
  intros Ht Hnq Hlen Hnd Htd Hq. pose proof (lay_tcb _ _ _ _ Hlay t Ht) as Htt.
  set (m1 := store64 (s_mem s) (t + tcb_quantum_nsec) (rr_quant_from_prio (prio t))).
  assert (Hdo : data_only t (s_mem s) m1).
  { subst m1. unfold data_only, tcb_state, tcb_quantum_nsec, store64.
    apply changes_only_store32; [apply changes_only_store32; [done|lia..]|lia..]. }
  destruct (move_to_ready_ok (s_with_mem (λ _, m1) s) t qs) as (m' & Hm' & Htd' & Hq' & Hk');
    try done.
  { by eapply (tdata_data_only rq T prio procOf pd Hlay). }
  { eapply qrep_data_only; [done|done|lia|done]. }
  exists m'. split_and!; try done.
  - destruct (Htd t Ht) as (Hp & _). unfold rr_enqueue, tcb_deref. mstep.
    rewrite (proj2 (Z.eqb_neq t NULL)) by (unfold NULL; lia). rewrite Hp. exact Hm'.
  - rewrite (proj1 (Hk' t Ht)). unfold s_mem, m1; simpl. by rewrite load64_store64_eq.
  - intros u Hu Hne. rewrite (proj1 (Hk' u Hu)).
    by apply (quant_data_other rq T prio procOf Hlay t).
  - etrans; [by apply ckeep_quantum|]. apply tkeep_ckeep, Hk'.
Qed.

Lemma init_heads_ok (n : nat) (i : nat) s :
  (i + n = 16)%nat → tdata (s_mem s) → qrep (s_mem s) 0 (replicate i []) →
  ∃ m', mfor (seqZ (Z.of_nat i) (Z.of_nat n)) (λ i,
          modify (s_with_mem (λ m, LIST_HEAD_INIT m (rqh i)))) s
        = Ok (tt, s_with_mem (λ _, m') s) ∧
    tdata m' ∧ qrep m' 0 (replicate 16 []) ∧ ckeep (s_mem s) m'.
Proof using Hlay.
  revert i s; induction n as [|n IH]; intros i s Hin Htd Hq.
  - exists (s_mem s). rewrite seqZ_nil by lia. replace i with 16%nat in Hq by lia.
    split_and!; try done. by destruct s as [[] ? ? ?].
  - rewrite seqZ_cons by lia. replace (Z.pred (Z.of_nat (S n))) with (Z.of_nat n) by lia.
    replace (Z.succ (Z.of_nat i)) with (Z.of_nat (S i)) by lia. cbn [mfor]. mstep.
    set (s1 := s_with_mem _ s).
    assert (Hh : snode (rqh (Z.of_nat i))) by (right; exists (Z.of_nat i); split; [lia|done]).
    assert (Hno : node_only [rqh (Z.of_nat i)] (s_mem s) (s_mem s1)).
    { intros x Hx. unfold s1, s_mem; simpl. unfold LIST_HEAD_INIT.
      rewrite set_next_out, set_prev_out; [done|..]; apply Hx; by left. }
    destruct (IH (S i) s1) as (m' & Hm' & Htd' & Hq' & Hk'); [lia| | |].
    + eapply (tdata_node_only rq T prio procOf pd Hlay); [done|by constructor|done].
    + intros j q Hj. apply lookup_replicate in Hj as [-> Hj]. simpl. split; [|constructor].
      destruct (decide (j = i)) as [->|Hne].
      * apply LIST_HEAD_INIT_ring. by eapply (snode_addr rq T prio procOf Hlay).
      * apply (ring_other (s_mem s) _ [rqh (Z.of_nat i)] (Z.of_nat i) (Z.of_nat j) []);
          try done; try lia.
        -- constructor; [by left|by constructor].
        -- apply (Hq j). apply lookup_replicate. split; [done|lia].
    + exists m'. split_and!; try done. etrans; [|exact Hk'].
      apply tkeep_ckeep. eapply node_only_tkeep; [exact Hno|by constructor].
Qed.

Lemma ready_concat qs ts :
  (∀ t, t ∈ ts → (Z.to_nat (prio t) < length qs)%nat) →
  concat (RR.ready prio qs ts) ≡ₚ concat qs ++ ts ∧
  length (RR.ready prio qs ts) = length qs.
Proof using.
  revert qs; induction ts as [|t ts IH]; intros qs Hp; simpl; [by rewrite app_nil_r|].
  destruct (enqueue_concat prio t qs) as [He Hl]; [apply Hp; by left|].
  destruct (IH (RR.enqueue prio t qs)) as [H1 H2].
  { intros u Hu. rewrite Hl. apply Hp. by right. }
  split; [|congruence]. rewrite H1, He. simpl. by rewrite Permutation_middle.
Qed.

Lemma init_threads_ok root ts : ∀ ds s,
  T = ds ++ ts →
  (∀ (i : nat) t, T !! i = Some t → procOf t = root + sizeof_proc * Z.of_nat i) →
  let qs := RR.ready prio (replicate 16 []) ds in
  tdata (s_mem s) → qrep (s_mem s) 0 qs →
  (∀ t, t ∈ ds → load64 (s_mem s) (t + tcb_quantum_nsec) = 10000000000) →
  ∃ m', mfor (seqZ (Z.of_nat (length ds)) (Z.of_nat (length ts))) (λ i,
          thread ← gets (λ s,
            load32 (s_mem s) (root + sizeof_proc * i + proc_threads));
          rr_enqueue rq thread) s = Ok (tt, s_with_mem (λ _, m') s) ∧
    tdata m' ∧ qrep m' 0 (RR.ready prio (replicate 16 []) T) ∧
    (∀ t, t ∈ T → load64 m' (t + tcb_quantum_nsec) = 10000000000) ∧
    ckeep (s_mem s) m'.
Proof using Hlay.
  induction ts as [|t ts IH]; intros ds s HT Hroot qs Htd Hq Hqu; subst qs.
  - exists (s_mem s). rewrite app_nil_r in HT. subst ds. rewrite seqZ_nil by done.
    split_and!; try done. by destruct s as [[] ? ? ?].
  - pose proof (lay_nodup _ _ _ _ Hlay) as Hnd.
    assert (Ht : t ∈ T) by (rewrite HT; set_solver).
    assert (HdsT : ∀ u, u ∈ ds → u ∈ T) by (intros; rewrite HT; set_solver).
    destruct (ready_concat (replicate 16 []) ds) as [Hc Hl].
    { intros u Hu. pose proof (lay_prio _ _ _ _ Hlay u (HdsT u Hu)).
      rewrite length_replicate. lia. }
    simpl in Hc. rewrite length_replicate in Hl.
    rewrite HT in Hnd. apply NoDup_app in Hnd as (Hnd1 & Hdis & Hnd2).
    rewrite seqZ_cons by (simpl; lia).
    replace (Z.pred (Z.of_nat (length (t :: ts)))) with (Z.of_nat (length ts)) by (simpl; lia).
    cbn [mfor]. mstep.
    rewrite <-(Hroot (length ds) t) by (rewrite HT; by apply list_lookup_middle).
    destruct (Htd t Ht) as (_ & _ & _ & ->).
    destruct (enqueue_ok s t (RR.ready prio (replicate 16 []) ds)) as
      (m1 & -> & Htd1 & Hq1 & Hqt & Hqo & Hk1); try done.
    { rewrite Hc. intros Hin. apply (Hdis t Hin). by left. }
    { by rewrite Hc. }
    destruct (IH (ds ++ [t]) (s_with_mem (λ _, m1) s)) as (m' & Hm' & H1' & H2' & H3' & H4'); try done.
    + by rewrite <-app_assoc.
    + unfold RR.ready. by rewrite foldl_app.
    + intros u [Hu| ->%list_elem_of_singleton]%elem_of_app; [|done].
      unfold s_mem; simpl. rewrite Hqo; [by apply Hqu|by apply HdsT|].
      intros ->. apply (Hdis t Hu). by left.
    + exists m'. rewrite length_app in Hm'. simpl in Hm'.
      split; [|split_and!; [done..|by etrans]].
      replace (Z.succ (Z.of_nat (length ds))) with (Z.of_nat (length ds + 1)) by lia. done.
Qed.

(** The state the statics of sched_rr.c and thread.c start from, with the boot
    threads set up as main.c does. *)
Record boot_state (root : Z) (s : sched_st) : Prop := {
  bs_tasks : ∀ (i : nat) t, T !! i = Some t → procOf t = root + sizeof_proc * Z.of_nat i;
  bs_tdata : tdata (s_mem s);
  bs_proc : current_proc (thr s) = NULL;
  bs_tick : nsec_to_next_tick s = 0;
}.

Lemma rr_init_full root s :
  T ≠ [] → boot_state root s →
  ∃ s', rr_init rq root (Z.of_nat (length T)) s = Ok (tt, s') ∧
    rr_inv (RR.init prio 10000000000 T) s' ∧ ckeep (s_mem s) (s_mem s').
Proof using Hlay.
  intros Hne [Hroot Htd Hproc Htick].
  destruct (init_heads_ok 16 0 s eq_refl Htd) as (m1 & Hm1 & Htd1 & Hq1 & Kk1).
  { intros j q [_ Hj]%lookup_replicate. lia. }
  destruct (init_threads_ok root T [] (s_with_mem (λ _, m1) s) eq_refl Hroot Htd1 Hq1)
    as (m2 & Hm2 & Htd2 & Hq2 & Hqu2 & Kk2); [by intros ? ?%elem_of_nil|].
  destruct (ready_concat (replicate 16 []) T) as [Hc Hl].
  { intros u Hu. pose proof (lay_prio _ _ _ _ Hlay u Hu). rewrite length_replicate. lia. }
  simpl in Hc. rewrite length_replicate in Hl.
  pose proof (get_next_ready_ok (s_with_mem (λ _, m2) s)
    (RR.ready prio (replicate 16 []) T) Hl Htd2 Hq2) as Hn.
  unfold RR.init. destruct (RR.pick (RR.ready prio (replicate 16 []) T)) as [[t qs]|] eqn:E; cycle 1.
  { exfalso. destruct T as [|u T']; [done|].
    destruct (pick_some (RR.ready prio (replicate 16 []) (u :: T')) u) as [r Hr]; [|congruence].
    rewrite Hc. by left. }
  destruct Hn as (m3 & Hm3 & Ht & Htd3 & Hq3 & Hk3). destruct (pick_concat _ _ _ E) as [Hpc Hpl].
  pose proof (lay_tcb _ _ _ _ Hlay t Ht) as Htt.
  destruct (lay_proc _ _ _ _ Hlay t Ht) as (Hp0 & _).
  destruct (select_thread_ok t (t_with_mem (λ _, m3) (t_with_mem (λ _, m2) (thr s))) Ht Htd3) as (E1 & E2 & E3 & E4).
  cbv zeta in *. simpl in E1, E4. rewrite Hproc in E4.
  rewrite (proj2 (Z.eqb_neq _ NULL)) in E4 by (unfold NULL; lia).
  eexists. split.
  - unfold rr_init, READY_QUEUE_LEN, tcb_deref. mstep.
    unfold mbind, M_bind, modify, gets in Hm1, Hm2.
    change (Z.of_nat 0) with 0 in Hm1. change (Z.of_nat 16) with 16 in Hm1. rewrite Hm1.
    change (Z.of_nat (length [])) with 0 in Hm2. rewrite Hm2.
    change (s_with_mem (λ _, m2) (s_with_mem (λ _, m1) s)) with (s_with_mem (λ _, m2) s).
    rewrite Hm3. rewrite (proj2 (Z.eqb_neq t NULL)) by (unfold NULL; lia). reflexivity.
  - pose proof Hk3 as Hk3'. apply tkeep_ckeep in Hk3.
    assert (Hk : ckeep (s_mem s) m3) by (do 2 (etrans; [eassumption|]); exact Hk3).
    split; [|unfold s_mem; simpl; rewrite E1; exact Hk].
    constructor; unfold s_mem in *; simpl in *; rewrite ?E1, ?E4; try done.
    + split; [congruence|done].
    + by rewrite <-Hpc, Hc.
    + intros u Hu. rewrite (proj1 (Hk3' u Hu)). auto.
Qed.

Lemma rr_init_ok root s :
  T ≠ [] → boot_state root s →
  ∃ s', rr_init rq root (Z.of_nat (length T)) s = Ok (tt, s') ∧
    rr_inv (RR.init prio 10000000000 T) s'.
Proof using Hlay.
  intros Hne Hb. destruct (rr_init_full root s Hne Hb) as (s' & Hr & Hi & _). by exists s'.
Qed.

(** ** The timer tick *)

Lemma rr_tick_ok debug irq a s :
  rr_inv a s →
  ∃ s', rr_tick_handler rq debug irq s = Ok (tt, s') ∧
    rr_inv (RR.tick prio sched_tick_nsec a) s' ∧
    tkeep (s_mem (s_with_thr (arch_update_exec_ctx irq)
      (s_with_mem (λ m, store64 m (a_cur a + tcb_quantum_nsec)
         (time_sub_nsec (load64 m (a_cur a + tcb_quantum_nsec)) sched_tick_nsec)) s)))
      (s_mem s').
Proof using Hlay.
  intros H. pose proof (rr_inv_cur a s H) as Hc. pose proof (lay_tcb _ _ _ _ Hlay _ Hc) as Htc.
  pose proof (rr_inv_burn sched_tick_nsec a s ltac:(rewrite sched_tick_nsec_value; lia) H) as H1.
  destruct (rr_inv_save irq _ _ H1) as [H2 _].
  destruct (rr_schedule_ok debug _ _ H2) as (s' & Hs' & Hinv & Hk).
  exists s'. split; [|done]. unfold rr_tick_handler. mstep.
  rewrite (ri_current _ _ H).
  rewrite (proj2 (Z.eqb_neq (a_cur a) NULL)) by (unfold NULL; lia). cbn [negb].
  rewrite (ri_tick _ _ H). exact Hs'.
Qed.
End ready.
