(* ===== verification/SchedProps.v ===== *)
(** * SchedProps: what the round-robin scheduler guarantees

    Sequences of timer ticks, from the boot state on: no tick fails, the
    running thread's class never changes, a fresh quantum lasts a thousand
    ticks, and threads whose quantum is used up take turns tick by tick. *)

From S2P Require Import Prelude Machine KList CString Thread Sched SchedInv.

(** ** The abstract scheduler *)

Lemma pick_lookup qs t qs' :
  RR.pick qs = Some (t, qs') →
  ∃ j q, qs !! j = Some (t :: q) ∧ (∀ i, (i < j)%nat → qs !! i = Some []) ∧
    qs' = <[j:=q]> qs.
Proof.
  revert qs'; induction qs as [|[|x q] qs IH]; intros qs'; simpl; [done| |].
  - destruct (RR.pick qs) as [[u r]|] eqn:E; [|done]. simpl. intros [= -> <-].
    destruct (IH r eq_refl) as (j & q & Hj & Hlt & ->). exists (S j), q.
    split_and!; [done| |done]. intros [|i] Hi; [done|]. apply Hlt. lia.
  - intros [= -> <-]. exists 0%nat, q. split_and!; [done| |done]. lia.
Qed.
Lemma pick_first qs j t q :
  qs !! j = Some (t :: q) → (∀ i, (i < j)%nat → qs !! i = Some []) →
  RR.pick qs = Some (t, <[j:=q]> qs).
Proof.
  revert j; induction qs as [|r qs IH]; intros [|j] Hj Hlt; simpl in *; try done.
  - by simplify_eq.
  - pose proof (Hlt 0%nat ltac:(lia)) as H0. simpl in H0. injection H0 as ->.
    rewrite (IH j Hj); [done|]. intros i Hi. apply (Hlt (S i)). lia.
Qed.

Section abstract.
Context (prio : Z → Z).

(** Queue [j] holds threads of priority [j]. *)
Definition sorted_queues (a : asched) : Prop :=
  ∀ j q, a_queues a !! j = Some q → Forall (λ t, prio t = Z.of_nat j) q.
(** No ready thread has a better priority than the running one. *)
Definition best_runs (a : asched) : Prop :=
  ∀ j q, a_queues a !! j = Some q → Z.of_nat j < prio (a_cur a) → q = [].

(** A thread at the end of its quantum makes room for the next of its class. *)
Lemma tick_expire nsec a q :
  0 ≤ prio (a_cur a) → a_quant a (a_cur a) ≤ nsec →
  a_queues a !! Z.to_nat (prio (a_cur a)) = Some q →
  best_runs a →
  ∃ quant, RR.tick prio nsec a =
    ASched (<[Z.to_nat (prio (a_cur a)) := tail (q ++ [a_cur a])]> (a_queues a))
      (hd (a_cur a) (q ++ [a_cur a])) quant ∧
    quant = λ t, if decide (t = a_cur a) then 0 else a_quant a t.
Proof using.
  intros Hp Hq Hj Hb. unfold RR.tick, RR.resched, RR.burn. simpl.
  rewrite decide_True by done. rewrite Z.gtb_ltb.
  destruct (Z.ltb_spec nsec (a_quant a (a_cur a))) as [?|_]; [lia|]. rewrite Z.eqb_refl.
  eexists. split; [|done].
  destruct (q ++ [a_cur a]) as [|t r] eqn:E; [by destruct q|].
  rewrite (pick_first _ (Z.to_nat (prio (a_cur a))) t r).
  - simpl. f_equal. apply list_eq. intros i. unfold RR.enqueue.
    destruct (decide (i = Z.to_nat (prio (a_cur a)))) as [->|Hne].
    + apply lookup_lt_Some in Hj. rewrite !list_lookup_insert_eq; [done|done|].
      by rewrite length_alter.
    + rewrite !list_lookup_insert_ne by done. by rewrite list_lookup_alter_ne.
  - unfold RR.enqueue. rewrite list_lookup_alter_eq, Hj. simpl. by rewrite E.
  - intros i Hi. unfold RR.enqueue. rewrite list_lookup_alter_ne by lia.
    destruct (lookup_lt_is_Some_2 (a_queues a) i) as [r' Hr'].
    { apply lookup_lt_Some in Hj. lia. }
    rewrite Hr'. f_equal. apply (Hb i r' Hr'). lia.
Qed.

(** A thread with quantum left keeps running. *)
Lemma tick_keep nsec a :
  0 < nsec < a_quant a (a_cur a) →
  RR.tick prio nsec a = ASched (a_queues a) (a_cur a)
    (λ t, if decide (t = a_cur a) then a_quant a (a_cur a) - nsec else a_quant a t).
Proof using.
  intros Hq. unfold RR.tick, RR.resched, RR.burn. simpl. rewrite decide_True by done.
  rewrite Z.gtb_ltb. destruct (Z.ltb_spec nsec (a_quant a (a_cur a))); [|lia].
  by rewrite (proj2 (Z.eqb_neq _ 0)) by lia.
Qed.

(** The running thread's class never changes. *)
Lemma tick_best nsec a :
  0 < nsec → 0 ≤ prio (a_cur a) < Z.of_nat (length (a_queues a)) →
  sorted_queues a → best_runs a →
  let a' := RR.tick prio nsec a in
  sorted_queues a' ∧ best_runs a' ∧ prio (a_cur a') = prio (a_cur a) ∧
  length (a_queues a') = length (a_queues a).
Proof using.
  intros Hn Hp Hs Hb.
  destruct (lookup_lt_is_Some_2 (a_queues a) (Z.to_nat (prio (a_cur a)))) as [q Hq]; [lia|].
  destruct (Z.le_gt_cases (a_quant a (a_cur a)) nsec) as [Hle|Hgt].
  - destruct (tick_expire nsec a q ltac:(lia) Hle Hq Hb) as (quant & -> & _). simpl.
    assert (Hall : Forall (λ t, prio t = prio (a_cur a)) (q ++ [a_cur a])).
    { apply Forall_app. split; [|by constructor]. specialize (Hs _ _ Hq).
      rewrite Z2Nat.id in Hs by lia. done. }
    assert (Hhd : prio (hd (a_cur a) (q ++ [a_cur a])) = prio (a_cur a)).
    { destruct (q ++ [a_cur a]); [done|]. by apply Forall_cons in Hall as [? _]. }
    split_and!; [| |done|by rewrite length_insert].
    + intros j r Hj. simpl in Hj. destruct (decide (j = Z.to_nat (prio (a_cur a)))) as [->|Hne].
      * rewrite list_lookup_insert_eq in Hj by lia. injection Hj as <-.
        rewrite Z2Nat.id by lia. destruct (q ++ [a_cur a]); [done|].
        by apply Forall_cons in Hall as [_ ?].
      * rewrite list_lookup_insert_ne in Hj by done. by apply Hs.
    + intros j r Hj Hlt. simpl in Hj, Hlt. rewrite Hhd in Hlt.
      rewrite list_lookup_insert_ne in Hj by lia. by apply (Hb j).
  - rewrite tick_keep by lia. done.
Qed.

(** While quantum is left, [k] ticks only use it up. *)
Lemma ticks_keep nsec a (k : nat) :
  0 < nsec → nsec * Z.of_nat k < a_quant a (a_cur a) →
  let a' := Nat.iter k (RR.tick prio nsec) a in
  a_queues a' = a_queues a ∧ a_cur a' = a_cur a ∧
  a_quant a' (a_cur a) = a_quant a (a_cur a) - nsec * Z.of_nat k.
Proof using.
  intros Hn. induction k as [|k IH]; intros Hk; [simpl; split_and!; [done|done|lia]|].
  destruct IH as (H1 & H2 & H3); [lia|]. cbv zeta in *. cbn [Nat.iter] in *.
  change (Nat.iter (S k) ?f a) with (f (Nat.iter k f a)).
  rewrite tick_keep by (rewrite H2, H3; lia). simpl. rewrite H1, H2.
  rewrite decide_True by done. split_and!; [done|done|]. rewrite H3. lia.
Qed.

(** Threads without quantum take turns, in the order of their queue. *)
Lemma ticks_rotate nsec a q (k : nat) :
  0 < nsec → 0 ≤ prio (a_cur a) →
  a_queues a !! Z.to_nat (prio (a_cur a)) = Some q →
  Forall (λ t, prio t = prio (a_cur a)) q →
  best_runs a → (∀ t, t ∈ a_cur a :: q → a_quant a t ≤ nsec) →
  (k ≤ length q)%nat →
  let a' := Nat.iter k (RR.tick prio nsec) a in
  (a_cur a :: q) !! k = Some (a_cur a') ∧
  a_queues a' = <[Z.to_nat (prio (a_cur a)) :=
    drop (S k) (a_cur a :: q) ++ take k (a_cur a :: q)]> (a_queues a) ∧
  (∀ t, t ∈ a_cur a :: q → a_quant a' t ≤ nsec) ∧ best_runs a'.
Proof using.
  intros Hn Hp Hj Hf Hb Hqu. set (p := Z.to_nat (prio (a_cur a))) in *.
  set (c := a_cur a) in *. induction k as [|k IH]; intros Hk.
  { simpl. rewrite app_nil_r, drop_0, list_insert_id by done. split_and!; done. }
  destruct IH as (H1 & H2 & H3 & H4); [lia|]. cbv zeta in *.
  change (Nat.iter (S k) ?f a) with (f (Nat.iter k f a)).
  set (a1 := Nat.iter k (RR.tick prio nsec) a) in *.
  assert (Hin : a_cur a1 ∈ c :: q) by (by eapply list_elem_of_lookup_2).
  assert (Hpr : prio (a_cur a1) = prio c).
  { apply elem_of_cons in Hin as [->|Hin]; [done|]. rewrite Forall_forall in Hf. auto. }
  destruct (lookup_lt_is_Some_2 (c :: q) (S k)) as [x Hx]; [simpl; lia|].
  assert (Hplt : (p < length (a_queues a))%nat) by (by eapply lookup_lt_Some).
  assert (Hq1 : a_queues a1 !! Z.to_nat (prio (a_cur a1)) =
                Some (drop (S k) (c :: q) ++ take k (c :: q))).
  { rewrite Hpr, H2. by apply list_lookup_insert_eq. }
  destruct (tick_expire nsec a1 _ ltac:(lia) (H3 _ Hin) Hq1 H4) as (quant & -> & ->).
  rewrite <-app_assoc, <-(take_S_r _ _ _ H1), (drop_S _ _ _ Hx). simpl hd. simpl tail.
  rewrite H2, Hpr. fold p. cbn [a_cur a_queues a_quant]. rewrite list_insert_insert_eq.
  split_and!; [done|done| |].
  - intros t Ht. case_decide; [lia|]. by apply H3.
  - intros j r Hr Hlt. cbn [a_cur a_queues] in Hr, Hlt.
    assert (prio x = prio c) as Hxp.
    { rewrite Forall_forall in Hf. apply Hf. simpl in Hx. by eapply list_elem_of_lookup_2. }
    rewrite list_lookup_insert_ne in Hr by lia. apply (Hb j r Hr). fold c. lia.
Qed.
End abstract.

(** ** Sequences of ticks *)

Definition rr_ticks (rq : Z) (debug : bool) (irqs : list Z) : M sched_st unit :=
  mfor irqs (rr_tick_handler rq debug).

Section concrete.
Context (rq : Z) (T : list Z) (prio procOf pd : Z → Z).
Context (Hlay : layout rq T prio procOf).
Abbreviation inv := (rr_inv rq T prio procOf pd).
Abbreviation atick := (RR.tick prio sched_tick_nsec).

Lemma rr_ticks_ok debug irqs a s :
  inv a s → ∃ s', rr_ticks rq debug irqs s = Ok (tt, s') ∧
    inv (Nat.iter (length irqs) atick a) s'.
Proof using Hlay.
  revert a s; induction irqs as [|irq irqs IH]; intros a s H; [by exists s|].
  destruct (rr_tick_ok _ _ _ _ _ Hlay debug irq a s H) as (s1 & H1 & Hinv & _).
  destruct (IH _ _ Hinv) as (s' & Hs' & Hinv').
  exists s'. unfold rr_ticks in *. cbn [mfor length]. mstep. rewrite H1.
  split; [done|]. by rewrite Nat.iter_succ_r.
Qed.

Lemma inv_sorted a s : inv a s → sorted_queues prio a.
Proof using.
  intros H j q Hj. destruct (ri_queues _ _ _ _ _ _ _ H) as [_ Hq].
  destruct (Hq j q Hj) as [_ Hf]. eapply Forall_impl; [done|]. by intros t [_ ?].
Qed.
Lemma inv_cur_prio a s : inv a s → 0 ≤ prio (a_cur a) < Z.of_nat (length (a_queues a)).
Proof using Hlay.
  intros H. pose proof (rr_inv_cur _ _ _ _ _ a s H) as Hc.
  pose proof (lay_prio _ _ _ _ Hlay _ Hc). destruct (ri_queues _ _ _ _ _ _ _ H) as [-> _]. lia.
Qed.

Lemma best_threads a s :
  inv a s → best_runs prio a → ∀ t, t ∈ T → prio (a_cur a) ≤ prio t.
Proof using.
  intros H Hb t Ht. rewrite <-(ri_threads _ _ _ _ _ _ _ H) in Ht.
  apply elem_of_cons in Ht as [->|Ht]; [lia|].
  apply list_elem_of_In, in_concat in Ht as (q & Hq & Ht%list_elem_of_In).
  apply list_elem_of_In, list_elem_of_lookup in Hq as [j Hj].
  pose proof (inv_sorted a s H j q Hj) as Hf. rewrite Forall_forall in Hf.
  rewrite (Hf t Ht). destruct (Z.le_gt_cases (prio (a_cur a)) (Z.of_nat j)); [done|].
  rewrite (Hb j q Hj) in Ht by lia. by apply elem_of_nil in Ht.
Qed.

Lemma ticks_best a s (k : nat) :
  inv a s → best_runs prio a →
  let a' := Nat.iter k atick a in
  sorted_queues prio a' ∧ best_runs prio a' ∧ prio (a_cur a') = prio (a_cur a) ∧
  length (a_queues a') = length (a_queues a).
Proof using Hlay.
  intros H Hb. pose proof (inv_sorted a s H) as Hs. pose proof (inv_cur_prio a s H) as Hp.
  induction k as [|k (I1 & I2 & I3 & I4)]; [done|]. cbv zeta in *.
  change (Nat.iter (S k) ?f a) with (f (Nat.iter k f a)).
  destruct (tick_best prio sched_tick_nsec (Nat.iter k atick a)) as (J1 & J2 & J3 & J4);
    [rewrite sched_tick_nsec_value; lia|rewrite I3, I4; lia|done|done|].
  split_and!; [done|done|congruence|congruence].
Qed.

(** rr_init starts with the best class. *)
Lemma ready_sorted qs ts :
  (∀ t, t ∈ ts → 0 ≤ prio t) →
  (∀ j q, qs !! j = Some q → Forall (λ t, prio t = Z.of_nat j) q) →
  ∀ j q, RR.ready prio qs ts !! j = Some q → Forall (λ t, prio t = Z.of_nat j) q.
Proof using.
  revert qs; induction ts as [|t ts IH]; intros qs Hp Hs; [done|]. simpl. apply IH.
  - intros u Hu. apply Hp. by right.
  - intros j q Hj. pose proof (Hp t ltac:(by left)). apply enqueue_lookup in Hj.
    case_decide as E; [|by apply Hs]. destruct Hj as (q0 & Hq0 & ->). apply Forall_app.
    split; [by apply Hs|]. constructor; [lia|done].
Qed.
Lemma init_best : best_runs prio (RR.init prio 10000000000 T).
Proof using Hlay.
  unfold RR.init.
  destruct (RR.pick (RR.ready prio (replicate 16 []) T)) as [[t qs]|] eqn:E; [|done].
  destruct (pick_lookup _ _ _ E) as (j & q & Hj & Hlt & ->).
  assert (Hf : Forall (λ t, prio t = Z.of_nat j) (t :: q)).
  { eapply (ready_sorted (replicate 16 []) T); [|..|exact Hj].
    - intros u Hu. apply (lay_prio _ _ _ _ Hlay u Hu).
    - intros i r [-> _]%lookup_replicate. constructor. }
  apply Forall_cons in Hf as [Hp _]. intros i r Hi Hir. simpl in Hi, Hir.
  rewrite list_lookup_insert_ne in Hi by lia. rewrite Hlt in Hi by lia. congruence.
Qed.
End concrete.

(** ** A boot with two processes of one thread each, for the examples *)

Definition demo_T : list Z := [0x20000; 0x20100].
Definition demo_prio (t : Z) : Z := 0.
Definition demo_proc (t : Z) : Z := if t =? 0x20000 then 0x30000 else 0x3001C.
Definition demo_pd (p : Z) : Z := if p =? 0x30000 then 0x100000 else 0x101000.
Definition demo_mem : mem :=
  let m := store32 ∅ (0x20000 + tcb_proc) 0x30000 in
  let m := store32 m (0x20100 + tcb_proc) 0x3001C in
  let m := store32 m (0x30000 + proc_page_dir) 0x100000 in
  let m := store32 m (0x3001C + proc_page_dir) 0x101000 in
  let m := store32 m (0x30000 + proc_threads) 0x20000 in
  store32 m (0x3001C + proc_threads) 0x20100.
Definition demo_sched : sched_st := SchedSt (ThreadSt demo_mem 0 0 []) 0 0 0.

Ltac demo_cases H :=
  unfold demo_T in H; rewrite !elem_of_cons, elem_of_nil in H;
  destruct H as [->|[->|[]]].
Lemma demo_layout : layout 0x10000 demo_T demo_prio demo_proc.
Proof.
  split.
  - lia.
  - apply (bool_decide_unpack _). vm_compute. done.
  - intros t Ht. demo_cases Ht; lia.
  - intros t u Ht Hu. demo_cases Ht; demo_cases Hu; lia.
  - intros t Ht. demo_cases Ht; vm_compute (demo_proc _); split_and!; try lia;
      intros u Hu; demo_cases Hu; lia.
  - intros; unfold demo_prio; lia.
Qed.
Lemma demo_boot : boot_state demo_T demo_prio demo_proc demo_pd 0x30000 demo_sched.
Proof.
  split; [| |done|done].
  - intros [|[|i]] t Ht; simpl in Ht; [by simplify_eq..|]. by rewrite lookup_nil in Ht.
  - intros t Ht. demo_cases Ht; vm_compute; auto.
Qed.

(** ** Properties *)

Section properties.
Context (rq : Z) (T : list Z) (prio procOf pd : Z → Z).
Abbreviation inv := (rr_inv rq T prio procOf pd).
Abbreviation boot := (boot_state T prio procOf pd).

(** Sched_init with the round-robin policy, called as the kernel does with
    the boot processes, installs the policy and leaves every thread in the
    queue of its priority in task order except the first of the best class,
    which is the current thread, selected with its page directory loaded; every
    quantum is ten seconds. *)
Theorem sched_init_establishes (debug : bool) (root : Z) (s : sched_st) :
  layout rq T prio procOf → T ≠ [] → boot root s →
  ∃ s', sched_init debug (Some (sched_rr debug rq)) root (Z.of_nat (length T)) s
        = Ok (sched_rr debug rq, s') ∧
    inv (RR.init prio 10000000000 T) s'.
Proof.
  intros Hlay Hne Hb. destruct (rr_init_ok _ _ _ _ _ Hlay root s Hne Hb) as (s' & Hs' & Hinv).
  exists s'. split; [|done]. unfold sched_init. mstep. rewrite !andb_false_r. simpl.
  by rewrite Hs'.
Qed.

(** One tick, with what it does to the saved contexts. *)
Lemma rr_tick_full (debug : bool) (irq : Z) (a : asched) (s : sched_st)
    (r : cpu_regs) :
  layout rq T prio procOf → inv a s →
  disj (a_cur a) sizeof_tcb irq sizeof_irq → irq_holds (s_mem s) irq r →
  ∃ s', rr_tick_handler rq debug irq s = Ok (tt, s') ∧
    inv (RR.tick prio sched_tick_nsec a) s' ∧
    arch_return_to_user (s_mem s') (a_cur a + tcb_exec_ctx) =
      saved (arch_return_to_user (s_mem s) (a_cur a + tcb_exec_ctx)) r ∧
    (∀ t, t ∈ T → t ≠ a_cur a →
       arch_return_to_user (s_mem s') (t + tcb_exec_ctx)
       = arch_return_to_user (s_mem s) (t + tcb_exec_ctx)).
Proof.
  intros Hlay H Hd Hirq.
  destruct (rr_tick_ok _ _ _ _ _ Hlay debug irq a s H) as (s' & Hs' & Hinv & Hk).
  exists s'. split; [done|]. split; [done|].
  pose proof (rr_inv_cur _ _ _ _ _ a s H) as Hc.
  pose proof (rr_inv_burn _ _ _ _ _ Hlay sched_tick_nsec a s
    ltac:(rewrite sched_tick_nsec_value; lia) H) as H1.
  destruct (rr_inv_save _ _ _ _ _ Hlay irq _ _ H1) as [_ Hoth].
  cbn [RR.burn a_cur] in Hoth. revert Hk Hoth H1.
  set (v := time_sub_nsec (load64 (s_mem s) (a_cur a + tcb_quantum_nsec)) sched_tick_nsec).
  set (s1 := s_with_mem _ s). intros Hk Hoth H1. split.
  - assert (Hctx : current_thread_execution_ctx (thr s1) = a_cur a + tcb_exec_ctx)
      by apply (ri_ctx _ _ _ _ _ _ _ H1).
    pose proof (save_restore_fields (thr s1) irq r) as Hr. cbv zeta in Hr.
    rewrite Hctx in Hr. cbv zeta.
    rewrite (arch_return_ext (s_mem (s_with_thr (arch_update_exec_ctx irq) s1)) (s_mem s')).
    + change (s_mem (s_with_thr (arch_update_exec_ctx irq) s1))
        with (t_mem (arch_update_exec_ctx irq (thr s1))). rewrite Hr.
      * f_equal. apply arch_return_ext. intros o Ho.
        change (t_mem (thr s1)) with (store64 (s_mem s) (a_cur a + tcb_quantum_nsec) v).
        pose proof (lay_tcb _ _ _ _ Hlay _ Hc).
        apply load32_store64_disj, disj_linear; unfold tcb_quantum_nsec, tcb_exec_ctx; lia.
      * by apply tcb_frame_apart.
      * change (t_mem (thr s1)) with (store64 (s_mem s) (a_cur a + tcb_quantum_nsec) v).
        by apply irq_holds_store64.
    + intros o Ho. rewrite <-!Z.add_assoc. apply (Hk _ Hc). unfold tcb_exec_ctx. lia.
  - intros t Ht Hne. apply arch_return_ext. intros o Ho. unfold tcb_exec_ctx.
    rewrite <-!Z.add_assoc. rewrite (proj2 (Hk t Ht)) by lia. rewrite Hoth by (done || lia).
    change (s_mem s1) with (store64 (s_mem s) (a_cur a + tcb_quantum_nsec) v).
    pose proof (lay_tcb _ _ _ _ Hlay t Ht). pose proof (lay_tcb _ _ _ _ Hlay _ Hc).
    pose proof (lay_apart _ _ _ _ Hlay t _ Ht Hc Hne).
    apply load32_store64_disj, disj_linear; unfold tcb_quantum_nsec; lia.
Qed.

(** C4. One timer tick on a state that satisfies the invariant never fails and
    performs the abstract scheduling step; the interrupted thread's registers
    are in its context (as arch_update_exec_ctx saves them) and no other
    thread's context changes. *)
Theorem rr_tick_refines (debug : bool) (irq : Z) (a : asched) (s : sched_st)
    (r : cpu_regs) :
  layout rq T prio procOf → inv a s →
  disj (a_cur a) sizeof_tcb irq sizeof_irq → irq_holds (s_mem s) irq r →
  ∃ s', rr_tick_handler rq debug irq s = Ok (tt, s') ∧
    inv (RR.tick prio sched_tick_nsec a) s' ∧
    (let r' := arch_return_to_user (s_mem s') (a_cur a + tcb_exec_ctx) in
     r_eip r' = r_eip r ∧ r_esp r' = r_esp r ∧ r_eflags r' = r_eflags r ∧
     r_eax r' = r_eax r ∧ r_esi r' = r_esi r ∧ r_edi r' = r_edi r) ∧
    (∀ t, t ∈ T → t ≠ a_cur a →
       arch_return_to_user (s_mem s') (t + tcb_exec_ctx)
       = arch_return_to_user (s_mem s) (t + tcb_exec_ctx)).
Proof.
  intros Hlay H Hd Hirq.
  destruct (rr_tick_full debug irq a s r Hlay H Hd Hirq) as (s' & Hrun & Hinv & Hr & Hoth).
  exists s'. rewrite Hr. by split_and!.
Qed.

(** C19. From boot on, every sequence of timer ticks runs without fault, with the
    debug assertions enabled or not; afterwards the running thread and the ready
    queues together hold each thread exactly once, and the page directory last
    loaded is the one of the running thread's process. *)
Theorem rr_ticks_never_fail (debug : bool) (root : Z) (irqs : list Z) (s : sched_st) :
  layout rq T prio procOf → T ≠ [] → boot root s →
  ∃ s' s'' a, rr_init rq root (Z.of_nat (length T)) s = Ok (tt, s') ∧
    rr_ticks rq debug irqs s' = Ok (tt, s'') ∧ inv a s'' ∧
    current_thread s'' = a_cur a ∧ a_cur a :: concat (a_queues a) ≡ₚ T ∧
    head (cr3_writes (thr s'')) = Some (pd (procOf (current_thread s''))).
Proof.
  intros Hlay Hne Hb. destruct (rr_init_ok _ _ _ _ _ Hlay root s Hne Hb) as (s' & Hs' & Hinv).
  destruct (rr_ticks_ok _ _ _ _ _ Hlay debug irqs _ _ Hinv) as (s'' & Hs'' & Hinv').
  eexists s', s'', _. split_and!; try done.
  - apply (ri_current _ _ _ _ _ _ _ Hinv').
  - apply (ri_threads _ _ _ _ _ _ _ Hinv').
  - rewrite (ri_current _ _ _ _ _ _ _ Hinv'). apply (ri_cr3 _ _ _ _ _ _ _ Hinv').
Qed.

(** C20. Scheduling is by strict priority: after boot and any number of ticks the
    running thread has the best (smallest) priority of all threads, so a thread
    of a worse class never runs. *)
Theorem rr_strict_priority (debug : bool) (root : Z) (irqs : list Z) (s : sched_st) :
  layout rq T prio procOf → T ≠ [] → boot root s →
  ∃ s' s'', rr_init rq root (Z.of_nat (length T)) s = Ok (tt, s') ∧
    rr_ticks rq debug irqs s' = Ok (tt, s'') ∧ current_thread s'' ∈ T ∧
    ∀ t, t ∈ T → prio (current_thread s'') ≤ prio t.
Proof.
  intros Hlay Hne Hb. destruct (rr_init_ok _ _ _ _ _ Hlay root s Hne Hb) as (s' & Hs' & Hinv).
  destruct (rr_ticks_ok _ _ _ _ _ Hlay debug irqs _ _ Hinv) as (s'' & Hs'' & Hinv').
  exists s', s''. rewrite (ri_current _ _ _ _ _ _ _ Hinv'). split_and!; try done.
  - by eapply rr_inv_cur.
  - eapply best_threads; [exact Hinv'|].
    apply (ticks_best _ _ _ _ _ Hlay _ _ _ Hinv). by eapply init_best.
Qed.

(** The quantum given at initialisation lasts exactly a thousand ticks: the
    thread keeps running for 999 of them, and the thousandth puts it at the end
    of its class's queue and runs the first thread of that queue. *)
Theorem rr_quantum_thousand_ticks (debug : bool) (irqs : list Z) (a : asched)
    (s : sched_st) (q : list Z) :
  layout rq T prio procOf → inv a s → best_runs prio a →
  a_quant a (a_cur a) = 10000000000 →
  a_queues a !! Z.to_nat (prio (a_cur a)) = Some q →
  (length irqs ≤ 1000)%nat →
  ∃ s' a', rr_ticks rq debug irqs s = Ok (tt, s') ∧ inv a' s' ∧
    if decide (length irqs = 1000%nat)
    then current_thread s' = hd (a_cur a) (q ++ [a_cur a]) ∧
         a_queues a' !! Z.to_nat (prio (a_cur a)) = Some (tail (q ++ [a_cur a]))
    else current_thread s' = a_cur a ∧ a_queues a' = a_queues a.
Proof.
  intros Hlay H Hb Hq Hj Hlen.
  destruct (rr_ticks_ok _ _ _ _ _ Hlay debug irqs _ _ H) as (s' & Hs' & Hinv').
  eexists s', _. split; [done|]. split; [exact Hinv'|].
  rewrite (ri_current _ _ _ _ _ _ _ Hinv').
  pose proof (inv_cur_prio _ _ _ _ _ Hlay a s H) as Hp.
  case_decide as E.
  - rewrite E. change 1000%nat with (S 999).
    destruct (ticks_keep prio sched_tick_nsec a 999) as (H1 & H2 & H3);
      [rewrite sched_tick_nsec_value; lia|rewrite Hq, sched_tick_nsec_value; lia|].
    cbv zeta in *. rewrite Nat.iter_succ.
    set (a1 := Nat.iter 999 (RR.tick prio sched_tick_nsec) a) in *. clearbody a1.
    destruct (tick_expire prio sched_tick_nsec a1 q) as (quant & -> & _).
    + rewrite H2. lia.
    + rewrite H2, H3, Hq, sched_tick_nsec_value. lia.
    + by rewrite H1, H2.
    + intros i r. rewrite H1, H2. apply Hb.
    + cbn [a_cur a_queues]. rewrite H1, H2. split; [done|].
      apply list_lookup_insert_eq. by eapply lookup_lt_Some.
  - destruct (ticks_keep prio sched_tick_nsec a (length irqs)) as (H1 & H2 & _);
      [rewrite sched_tick_nsec_value; lia|rewrite Hq, sched_tick_nsec_value; lia|].
    done.
Qed.

(** The quantum of an expired thread is not renewed: when the running thread
    and the ready ones of its class have used theirs up, every tick switches,
    and [k] ticks later the [k]-th thread of the class is running, in queue
    order; each gets one tick of ten milliseconds at a time. *)
Theorem rr_expired_take_turns (debug : bool) (irqs : list Z) (a : asched)
    (s : sched_st) (q : list Z) :
  layout rq T prio procOf → inv a s → best_runs prio a →
  a_queues a !! Z.to_nat (prio (a_cur a)) = Some q →
  (∀ t, t ∈ a_cur a :: q → a_quant a t = 0) → (length irqs ≤ length q)%nat →
  ∃ s', rr_ticks rq debug irqs s = Ok (tt, s') ∧
    (a_cur a :: q) !! length irqs = Some (current_thread s').
Proof.
  intros Hlay H Hb Hj Hq Hlen.
  destruct (rr_ticks_ok _ _ _ _ _ Hlay debug irqs _ _ H) as (s' & Hs' & Hinv').
  exists s'. split; [done|]. rewrite (ri_current _ _ _ _ _ _ _ Hinv').
  pose proof (inv_cur_prio _ _ _ _ _ Hlay a s H) as Hp.
  pose proof (inv_sorted _ _ _ _ _ a s H _ _ Hj) as Hf. rewrite Z2Nat.id in Hf by lia.
  apply (ticks_rotate prio sched_tick_nsec a q); try done; try lia.
  intros t Ht. rewrite (Hq t Ht), sched_tick_nsec_value. lia.
Qed.
End properties.

(** ** Instances on the two-process boot *)

Definition demo_a : asched := RR.init demo_prio 10000000000 demo_T.
Abbreviation demo_inv := (rr_inv 0x10000 demo_T demo_prio demo_proc demo_pd).
Lemma demo_started :
  ∃ s, rr_init 0x10000 0x30000 2 demo_sched = Ok (tt, s) ∧ demo_inv demo_a s.
Proof. by apply (rr_init_ok _ _ _ _ _ demo_layout 0x30000 demo_sched ltac:(done) demo_boot). Qed.
Lemma demo_best : best_runs demo_prio demo_a.
Proof. eapply init_best. exact demo_layout. Qed.

Lemma sched_init_establishes_witness :
  ∃ s', sched_init true (Some (sched_rr true 0x10000)) 0x30000 2 demo_sched
        = Ok (sched_rr true 0x10000, s') ∧ current_thread s' = 0x20000.
Proof.
  destruct (sched_init_establishes 0x10000 demo_T demo_prio demo_proc demo_pd true 0x30000
    demo_sched demo_layout) as (s' & H & Hinv).
  - discriminate.
  - exact demo_boot.
  - exists s'. split; [exact H|]. rewrite (ri_current _ _ _ _ _ _ _ Hinv).
    vm_compute. reflexivity.
Defined.

Definition irq_regs (m : mem) (irq : Z) : cpu_regs :=
  CpuRegs (load32 m (irq + Irq.eax)) (load32 m (irq + Irq.ebx)) (load32 m (irq + Irq.ecx))
    (load32 m (irq + Irq.edx)) (load32 m (irq + Irq.esi)) (load32 m (irq + Irq.edi))
    (load32 m (irq + Irq.ebp)) (load32 m (irq + Irq.eip)) (load32 m (irq + Irq.esp))
    (load32 m (irq + Irq.eflags)) 0 0 0.
Lemma rr_tick_refines_witness :
  ∃ s s', demo_inv demo_a s ∧ rr_tick_handler 0x10000 true 0x40000 s = Ok (tt, s') ∧
    current_thread s' = 0x20000.
Proof.
  destruct demo_started as (s & _ & H). exists s.
  destruct (rr_tick_refines 0x10000 demo_T demo_prio demo_proc demo_pd true 0x40000 demo_a s
    (irq_regs (s_mem s) 0x40000) demo_layout H) as (s' & H1 & H2 & _).
  - apply disj_linear; vm_compute; intuition congruence.
  - unfold irq_holds. repeat split.
  - exists s'. split; [exact H|]. split; [exact H1|].
    rewrite (ri_current _ _ _ _ _ _ _ H2). vm_compute. reflexivity.
Defined.

Lemma rr_ticks_never_fail_witness :
  ∃ s' s'', rr_init 0x10000 0x30000 2 demo_sched = Ok (tt, s') ∧
    rr_ticks 0x10000 true (replicate 5 0x40000) s' = Ok (tt, s'').
Proof.
  destruct (rr_ticks_never_fail 0x10000 demo_T demo_prio demo_proc demo_pd true 0x30000
    (replicate 5 0x40000) demo_sched demo_layout) as (s' & s'' & a & H1 & H2 & _).
  - discriminate.
  - exact demo_boot.
  - exists s', s''. split; [exact H1|exact H2].
Defined.

Lemma rr_strict_priority_witness :
  ∃ s' s'', rr_init 0x10000 0x30000 2 demo_sched = Ok (tt, s') ∧
    rr_ticks 0x10000 true (replicate 5 0x40000) s' = Ok (tt, s'') ∧
    current_thread s'' ∈ demo_T.
Proof.
  destruct (rr_strict_priority 0x10000 demo_T demo_prio demo_proc demo_pd true 0x30000
    (replicate 5 0x40000) demo_sched demo_layout) as (s' & s'' & H1 & H2 & H3 & _).
  - discriminate.
  - exact demo_boot.
  - exists s', s''. split; [exact H1|]. split; [exact H2|exact H3].
Defined.

Lemma rr_quantum_thousand_ticks_witness :
  ∃ s s', demo_inv demo_a s ∧
    rr_ticks 0x10000 true (replicate 1000 0x40000) s = Ok (tt, s') ∧
    current_thread s = 0x20000 ∧ current_thread s' = 0x20100.
Proof.
  destruct demo_started as (s & _ & H). exists s.
  destruct (rr_quantum_thousand_ticks 0x10000 demo_T demo_prio demo_proc demo_pd true
    (replicate 1000 0x40000) demo_a s [0x20100] demo_layout H demo_best)
    as (s' & a' & H1 & _ & H3).
  - vm_compute. reflexivity.
  - vm_compute. reflexivity.
  - rewrite length_replicate. apply Nat.le_refl.
  - exists s'. split; [exact H|]. split; [exact H1|]. split.
    + rewrite (ri_current _ _ _ _ _ _ _ H). vm_compute. reflexivity.
    + rewrite length_replicate, decide_True in H3 by reflexivity. apply H3.
Defined.

(** After two thousand ticks both threads have used up their quantum. *)
Definition demo_a2 : asched :=
  Nat.iter 2000 (RR.tick demo_prio sched_tick_nsec) demo_a.
Lemma demo_expired :
  (∃ s, demo_inv demo_a2 s) ∧ best_runs demo_prio demo_a2.
Proof.
  destruct demo_started as (s & _ & H). split.
  - destruct (rr_ticks_ok _ _ _ _ _ demo_layout true (replicate 2000 0x40000) _ _ H)
      as (s' & _ & H'). rewrite length_replicate in H'. by exists s'.
  - apply (ticks_best _ _ _ _ _ demo_layout demo_a s 2000 H demo_best).
Qed.
Lemma rr_expired_take_turns_witness :
  ∃ s s', demo_inv demo_a2 s ∧ current_thread s = 0x20000 ∧
    rr_ticks 0x10000 true [0x40000] s = Ok (tt, s') ∧ current_thread s' = 0x20100.
Proof.
  destruct demo_expired as [[s H] Hb]. exists s.
  destruct (rr_expired_take_turns 0x10000 demo_T demo_prio demo_proc demo_pd true [0x40000]
    demo_a2 s [0x20100] demo_layout H Hb) as (s' & H1 & H2).
  - vm_compute. reflexivity.
  - assert (E : a_cur demo_a2 = 0x20000) by (vm_compute; reflexivity). rewrite E.
    intros t Ht. rewrite !elem_of_cons, elem_of_nil in Ht.
    destruct Ht as [->|[->|[]]]; vm_compute; reflexivity.
  - apply Nat.le_refl.
  - exists s'. split; [exact H|]. split.
    + rewrite (ri_current _ _ _ _ _ _ _ H). vm_compute. reflexivity.
    + split; [exact H1|]. simpl in H2. injection H2. intros E. symmetry. exact E.
Defined.
