(* ===== verification/Printf.v ===== *)
(** * Printf: the formatted printing of lib/stdlib/stdlib.c

    [itoa], [xtoa] and [vsprintf_s] as the pointer loops of the source. The
    destination, the format, the string arguments and the local [num_buf] are
    addresses of one memory; the variable arguments are the list of words
    [va_arg] takes them from. The reference is a pure expansion of a format
    into characters. *)

From S2P Require Import Prelude Machine CString.

Definition NUM_BUF_MAX : Z := 50.

(** [do body while (cond)] *)
Definition do_while {S} (body : S → outcome S) (cond : S → bool) (s : S) : outcome S :=
  s' ← body s; while_loop cond body s'.

(** The swap of the characters between [p2] and [p1], stdlib.c:18 and :46 *)
Definition reverse_chars (m : mem) (p1 p2 : Z) : outcome mem :=
  '(m', _, _) ← while_loop
    (λ '(m, p1, p2), p1 >? p2)
    (λ '(m, p1, p2),
       let c := load8 m p2 in
       let m := store8 m p2 (load8 m p1) in
       let m := store8 m p1 c in
       Ok (m, p1 ⊟ 1, p2 ⊞ 1))
    (m, p1, p2);
  Ok m'.

(** stdlib.c:6 *)
Definition itoa (m : mem) (num buf size : Z) : outcome mem :=
  '(m, tmp, num, i) ← do_while
    (λ '(m, tmp, num, i),
       Ok (store8 m tmp (num mod 10 + 48), tmp ⊞ 1, num / 10, i ⊞ 1))
    (λ '(m, tmp, num, i), (num >? 0) && (i <? size))
    (m, buf, num, 0);
  reverse_chars (store8 m tmp 0) (tmp ⊟ 1) buf.

(** stdlib.c:31: "0123456789abcdef" *)
Definition hexchars : list Z :=
  [48; 49; 50; 51; 52; 53; 54; 55; 56; 57; 97; 98; 99; 100; 101; 102].

(** stdlib.c:33 *)
Definition xtoa (m : mem) (num buf bufsize : Z) : outcome (Z * mem) :=
  '(m, tmp, num, i) ← do_while
    (λ '(m, tmp, num, i),
       Ok (store8 m tmp (hexchars !!! Z.to_nat (num mod 16)), tmp ⊞ 1, num / 16, i ⊞ 1))
    (λ '(m, tmp, num, i), (num >? 0) && (i <? bufsize))
    (m, buf, num, 0);
  m ← reverse_chars (store8 m tmp 0) (tmp ⊟ 1) buf;
  Ok (i, m).

(** The local variables of [vsprintf_s] *)
Record vst := Vst {
  v_mem : mem;
  v_fmt : Z;
  v_dst : Z;
  v_written : Z;
  v_padding : Z;
  v_pcount : Z;
  v_args : list Z;
}.

Definition is_digit (c : Z) : bool := (48 <=? c) && (c <=? 57).

(** [while ( *tmp) *dstbuf++ = *tmp++], stdlib.c:141 and :160 *)
Definition copy_z (m : mem) (dstbuf tmp : Z) : outcome (mem * Z) :=
  '(m, dstbuf, _) ← while_loop
    (λ '(m, dstbuf, tmp), c_true (load8 m tmp))
    (λ '(m, dstbuf, tmp), Ok (store8 m dstbuf (load8 m tmp), dstbuf ⊞ 1, tmp ⊞ 1))
    (m, dstbuf, tmp);
  Ok (m, dstbuf).

(** [for (int i = len; i > 0; i--) *dstbuf++ = *s++], stdlib.c:119 *)
Definition copy_n (m : mem) (dstbuf s len : Z) : outcome (mem * Z) :=
  '(m, dstbuf, _, _) ← while_loop
    (λ '(m, dstbuf, s, i), i >? 0)
    (λ '(m, dstbuf, s, i), Ok (store8 m dstbuf (load8 m s), dstbuf ⊞ 1, s ⊞ 1, s32 (i - 1)))
    (m, dstbuf, s, len);
  Ok (m, dstbuf).

(** [while (padding_len--) *dstbuf++ = padding], stdlib.c:155 *)
Definition put_padding (m : mem) (dstbuf padding padding_len : Z) : outcome (mem * Z) :=
  '(m, dstbuf, _) ← while_loop
    (λ '(m, dstbuf, padding_len), c_true padding_len)
    (λ '(m, dstbuf, padding_len),
       Ok (store8 m dstbuf padding, dstbuf ⊞ 1, padding_len ⊟ 1))
    (m, dstbuf, padding_len);
  Ok (m, dstbuf).

(** The width after a ['%'], stdlib.c:81: the first digit is the padding
    character, the others go through [num_buf] into [padding_count]. *)
Definition parse_padding (num_buf : Z) (s : vst) : outcome vst :=
  if is_digit (load8 (v_mem s) (v_fmt s)) then
    let padding := load8 (v_mem s) (v_fmt s) in
    '(m, fmt, tmp) ← while_loop
      (λ '(m, fmt, tmp), is_digit (load8 m fmt))
      (λ '(m, fmt, tmp),
         if tmp <? num_buf + NUM_BUF_MAX
         then Ok (store8 m tmp (load8 m fmt), fmt ⊞ 1, tmp ⊞ 1)
         else UB "num_buf out of bounds")
      (v_mem s, v_fmt s ⊞ 1, num_buf);
    '(padding_count, _, _) ← while_loop
      (λ '(padding_count, i, tmp), tmp >=? num_buf)
      (λ '(padding_count, i, tmp),
         Ok (padding_count ⊞ i * (load8 m tmp - 48), i ⊠ 10, tmp ⊟ 1))
      (0, 1, tmp ⊟ 1);
    Ok (Vst m fmt (v_dst s) (v_written s) padding padding_count (v_args s))
  else Ok s.

Definition va_arg (args : list Z) : outcome (Z * list Z) :=
  match args with
  | [] => UB "va_arg without argument"
  | a :: args' => Ok (a, args')
  end.

(** The string of a ["%s"], cut off at the end of the buffer, stdlib.c:113 *)
Definition put_string (size str len : Z) (s : vst) : outcome vst :=
  let '(Vst m fmt dst written padding pcount args) := s in
  if c_true len then
    let len := if u32 (len + written) >? size then s32 (size - written) else len in
    '(m, dst) ← copy_n m dst str len;
    Ok (Vst m fmt dst (written ⊞ len) padding pcount args)
  else Ok s.

Section vsprintf_s.
(** The address of the string literal "null" and of the local array. *)
Context (lit_null num_buf : Z).

(** The [switch] of stdlib.c:100 *)
Definition convert (size : Z) (s : vst) : outcome vst :=
  let '(Vst m fmt dst written padding pcount args) := s in
  let c := load8 m fmt in
  if c =? 115 (* 's' *) then
    '(a, args) ← va_arg args;
    '(str, len) ← (if a =? 0 then Ok (lit_null, 4)
                   else n ← strlen m a; Ok (a, s32 n));
    put_string size str len (Vst m fmt dst written padding pcount args)
  else if c =? 99 (* 'c' *) then
    '(a, args) ← va_arg args;
    Ok (Vst (store8 m dst (u8 a)) fmt (dst ⊞ 1) (written ⊞ 1) padding pcount args)
  else if (c =? 100) || (c =? 117) (* 'd', 'u' *) then
    '(num, args) ← va_arg args;
    m ← itoa m (u32 num) num_buf NUM_BUF_MAX;
    '(m, dst) ← copy_z m dst num_buf;
    Ok (Vst m fmt dst written padding pcount args)
  else if c =? 120 (* 'x' *) then
    '(num, args) ← va_arg args;
    '(num_len, m) ← xtoa m (u32 num) num_buf NUM_BUF_MAX;
    '(m, dst) ← (if num_len <? pcount then put_padding m dst padding (pcount ⊟ num_len)
                 else Ok (m, dst));
    '(m, dst) ← copy_z m dst num_buf;
    Ok (Vst m fmt dst written padding pcount args)
  else if negb (c =? 37) then
    Ok (Vst (store8 m dst 37) fmt (dst ⊞ 1) (written ⊞ 1) padding pcount args)
  else Ok s.

(** The body of the [for] of stdlib.c:71 with its increment *)
Definition vsprintf_step (size : Z) (s : vst) : outcome vst :=
  let '(Vst m fmt dst written padding pcount args) := s in
  if negb (load8 m fmt =? 37) then
    Ok (Vst (store8 m dst (load8 m fmt)) (fmt ⊞ 1) (dst ⊞ 1) (written ⊞ 1)
          padding pcount args)
  else
    s ← parse_padding num_buf (Vst m (fmt ⊞ 1) dst written padding pcount args);
    s ← convert size s;
    let '(Vst m fmt dst written padding pcount args) := s in
    Ok (Vst m (fmt ⊞ 1) dst written padding pcount args).

(** stdlib.c:61 *)
Definition vsprintf_s (m : mem) (dstbuf size fmt : Z) (args : list Z)
    : outcome (Z * mem) :=
  s ← while_loop
    (λ s, c_true (load8 (v_mem s) (v_fmt s)) && (v_written s <? size ⊟ 1))
    (vsprintf_step size)
    (Vst m fmt dstbuf 0 32 0 args);
  Ok (v_written s, store8 (v_mem s) (v_dst s) 0).
End vsprintf_s.

#[local] Arguments put_string : simpl never.
#[local] Arguments convert : simpl never.

(** ** Bytes in memory *)

(** The bytes [l] lie at [a]. *)
Definition holds (m : mem) (a : Z) (l : list Z) : Prop :=
  ∀ (i : nat) x, l !! i = Some x → load8 m (a + Z.of_nat i) = x.

(** The bytes [l] stored one after the other from [a] on. *)
Fixpoint write_bytes (m : mem) (a : Z) (l : list Z) : mem :=
  match l with
  | [] => m
  | x :: l' => write_bytes (store8 m a x) (a + 1) l'
  end.

Lemma write_bytes_app m a l1 l2 :
  write_bytes m a (l1 ++ l2) =
    write_bytes (write_bytes m a l1) (a + Z.of_nat (length l1)) l2.
Proof.
  revert m a. induction l1 as [|x l1 IH]; intros m a; simpl; [f_equal; lia|].
  rewrite IH. f_equal. lia.
Qed.

Lemma write_bytes_addr m a b l : u32 a = u32 b → write_bytes m a l = write_bytes m b l.
Proof.
  revert m a b. induction l as [|x l IH]; intros m a b H; simpl; [done|].
  rewrite (store8_addr m a b) by done. apply IH. wrap_lia.
Qed.

Lemma write_bytes_out m a l x :
  ¬ within a (Z.of_nat (length l)) x → Z.of_nat (length l) ≤ 4294967296 →
  load8 (write_bytes m a l) x = load8 m x.
Proof.
  revert m a. induction l as [|y l IH]; intros m a Hx Hl; [done|].
  simpl in *. rewrite IH by (unfold within in *; wrap_lia).
  apply store8_out. unfold within in *. wrap_lia.
Qed.

Lemma write_bytes_holds m a l :
  Forall (λ x, 0 ≤ x < 256) l → Z.of_nat (length l) ≤ 4294967296 →
  holds (write_bytes m a l) a l.
Proof.
  revert m a. induction l as [|y l IH]; intros m a Hl Hn i x Hi; [done|].
  inversion Hl as [|?? Hy Hl']; subst. simpl in *. destruct i as [|i]; simpl in Hi.
  - injection Hi as ->. rewrite write_bytes_out by (unfold within in *; wrap_lia).
    rewrite Z.add_0_r, load8_store8_eq. by apply u8_small.
  - rewrite <-(IH (store8 m a y) (a + 1) Hl' ltac:(lia) i x Hi). f_equal. lia.
Qed.

Lemma changes_only_write a n m l b :
  0 ≤ b - a → b - a + Z.of_nat (length l) ≤ n → n ≤ 4294967296 →
  changes_only a n m (write_bytes m b l).
Proof.
  intros ??? x Hx. apply write_bytes_out; [|lia].
  contradict Hx. unfold within in *. wrap_lia.
Qed.

Lemma holds_changes a n m m' b l :
  changes_only a n m m' → disj a n b (Z.of_nat (length l)) →
  holds m b l → holds m' b l.
Proof.
  intros Hc Hd Hh i x Hi. rewrite Hc; [by apply Hh|].
  apply Hd. apply lookup_lt_Some in Hi. lia.
Qed.

Lemma holds_app m a l1 l2 :
  holds m a (l1 ++ l2) ↔ holds m a l1 ∧ holds m (a + Z.of_nat (length l1)) l2.
Proof.
  split.
  - intros H. split; intros i x Hi.
    + apply H. by apply lookup_app_l_Some.
    + rewrite <-Z.add_assoc, <-Nat2Z.inj_add. apply H.
      rewrite lookup_app_r by lia. by replace (length l1 + i - length l1)%nat with i by lia.
  - intros [H1 H2] i x [Hi|[Hl Hi]]%lookup_app_Some; [by apply H1|].
    rewrite <-(H2 _ _ Hi). f_equal. lia.
Qed.

Lemma holds_cons m a x l : holds m a (x :: l) ↔ load8 m a = x ∧ holds m (a + 1) l.
Proof.
  change (x :: l) with ([x] ++ l). rewrite holds_app. simpl.
  assert (holds m a [x] ↔ load8 m a = x) as ->; [|done]. split.
  - intros H. rewrite <-(H 0%nat x eq_refl). f_equal. lia.
  - intros H [|i] y; [intros [= <-]; by rewrite Z.add_0_r|done].
Qed.

(** ** Numbers and their digits *)

(** The digits of [n], lowest first; [k] bounds their number. *)
Fixpoint rdigits (k : nat) (base n : Z) : list Z :=
  match k with
  | O => []
  | S k' => n mod base :: (if n / base =? 0 then [] else rdigits k' base (n / base))
  end.
Definition digits (base n : Z) : list Z := reverse (rdigits 32 base n).
(** The number a digit string denotes. *)
Definition number (base : Z) (l : list Z) : Z := foldl (λ v d, v * base + d) 0 l.

Lemma rdigits_value k base n :
  1 < base → 0 ≤ n < base ^ Z.of_nat k →
  foldr (λ d v, v * base + d) 0 (rdigits k base n) = n.
Proof.
  intros Hb. revert n. induction k as [|k IH]; intros n Hn; simpl.
  - rewrite Z.pow_0_r in Hn. lia.
  - rewrite Nat2Z.inj_succ, Z.pow_succ_r in Hn by lia.
    pose proof (Z.div_mod n base ltac:(lia)).
    destruct (Z.eqb_spec (n / base) 0) as [E|E]; simpl; [lia|].
    rewrite IH; [lia|]. split; [apply Z.div_pos; lia|].
    apply Z.div_lt_upper_bound; lia.
Qed.

Lemma pow32_bound base n : 1 < base → 0 ≤ n < 4294967296 → 0 ≤ n < base ^ Z.of_nat 32.
Proof.
  intros Hb Hn. split; [lia|]. apply Z.lt_le_trans with (2 ^ 32); [lia|].
  change (Z.of_nat 32) with 32. apply Z.pow_le_mono_l. lia.
Qed.

Lemma digits_number base n :
  1 < base → 0 ≤ n < 4294967296 → number base (digits base n) = n.
Proof.
  intros Hb Hn. unfold number, digits.
  rewrite <-(rdigits_value 32 base n Hb (pow32_bound _ _ Hb Hn)) at 2.
  generalize (rdigits 32 base n). intros l.
  induction l as [|d l IH]; [done|].
  rewrite reverse_cons, foldl_snoc. simpl. by rewrite IH.
Qed.

Lemma rdigits_length k base n : (length (rdigits k base n) ≤ k)%nat.
Proof.
  revert n. induction k as [|k IH]; intros n; simpl; [lia|].
  destruct (n / base =? 0); simpl; [lia|]. specialize (IH (n / base)). lia.
Qed.
Lemma rdigits_range k base n :
  1 < base → Forall (λ d, 0 ≤ d < base) (rdigits k base n).
Proof.
  intros Hb. revert n. induction k as [|k IH]; intros n; simpl; [done|].
  constructor; [apply Z.mod_pos_bound; lia|]. by destruct (n / base =? 0).
Qed.
Lemma rdigits_S k base n :
  rdigits (S k) base n = n mod base :: (if n / base =? 0 then [] else rdigits k base (n / base)).
Proof. reflexivity. Qed.
Arguments rdigits : simpl never.
Lemma rdigits_nonempty base n : rdigits 32 base n ≠ [].
Proof. by rewrite rdigits_S. Qed.

(** The digit loop that [itoa] and [xtoa] share. *)
Lemma put_digits base (dig : Z → Z) m num buf size :
  1 < base → 0 ≤ num < 4294967296 → 32 ≤ size →
  ∃ n', do_while
    (λ '(m, tmp, num, i),
       Ok (store8 m tmp (dig (num mod base)), tmp ⊞ 1, num / base, i ⊞ 1))
    (λ '(m, tmp, num, i), (num >? 0) && (i <? size))
    (m, buf, num, 0)
  = Ok (write_bytes m buf (dig <$> rdigits 32 base num),
        u32 (buf + Z.of_nat (length (rdigits 32 base num))), n',
        Z.of_nat (length (rdigits 32 base num))).
Proof.
  intros Hb Hn Hs. unfold do_while. simpl mbind.
  set (tail k n1 := if n1 =? 0 then [] else rdigits k base n1).
  destruct (while_loop_total
    (λ (r : nat) '(m1, tmp, n1, i), ∃ dn k,
       m1 = write_bytes m buf (dig <$> dn) ∧ i = Z.of_nat (length dn) ∧
       tmp = u32 (buf + Z.of_nat (length dn)) ∧
       rdigits 32 base num = dn ++ tail k n1 ∧ length (tail k n1) = r ∧
       0 ≤ n1 < base ^ Z.of_nat k ∧ (length dn + k ≤ 32)%nat)
    (λ '(m, tmp, num, i), (num >? 0) && (i <? size))
    (λ '(m, tmp, num, i),
       Ok (store8 m tmp (dig (num mod base)), tmp ⊞ 1, num / base, i ⊞ 1))
    (length (tail 31%nat (num / base)))
    (store8 m buf (dig (num mod base)), buf ⊞ 1, num / base, 0 ⊞ 1))
    as ([[[m1 tmp] n1] i] & -> & (dn & k & -> & -> & -> & Hd & Hr & _)).
  - pose proof (rdigits_length 31 base (num / base)). unfold FUEL, tail.
    destruct (num / base =? 0); [simpl; lia|lia].
  - pose proof (pow32_bound base num Hb Hn) as Hp.
    change (Z.of_nat 32) with (Z.succ (Z.of_nat 31)) in Hp.
    rewrite Z.pow_succ_r in Hp by lia.
    exists [num mod base], 31%nat. rewrite rdigits_S.
    split_and!; [done|done|done|done|done| | |simpl; lia].
    + apply Z.div_pos; lia.
    + apply Z.div_lt_upper_bound; lia.
  - intros r [[[m1 tmp] n1] i] _ (dn & k & -> & -> & -> & Hd & Hr & Hn1 & Hk).
    destruct (Z.eqb_spec n1 0) as [->|Hn0]; [by unfold tail in Hr|].
    assert (tail k n1 = rdigits k base n1) as Ht.
    { unfold tail. by rewrite (proj2 (Z.eqb_neq _ _) Hn0). }
    destruct k as [|k]; [rewrite Z.pow_0_r in Hn1; lia|].
    split; [apply andb_true_iff; split; [lia|apply Z.ltb_lt; lia]|].
    eexists; split; [done|]. exists (dn ++ [n1 mod base]), k.
    rewrite fmap_app, write_bytes_app, length_app, length_fmap. simpl length.
    rewrite Ht, rdigits_S in Hd, Hr. simpl in Hr. unfold tail.
    split_and!.
    + simpl. apply store8_addr. apply u32_idemp.
    + rewrite u32_small; lia.
    + rewrite u32_add_l. f_equal. lia.
    + by rewrite <-app_assoc.
    + lia.
    + apply Z.div_pos; lia.
    + rewrite Nat2Z.inj_succ, Z.pow_succ_r in Hn1 by lia.
      apply Z.div_lt_upper_bound; lia.
    + lia.
  - intros [[[m1 tmp] n1] i] (dn & k & -> & -> & -> & Hd & Hr & Hn1 & Hk).
    destruct (Z.eqb_spec n1 0) as [->|Hn0]; [done|].
    unfold tail in Hr. rewrite (proj2 (Z.eqb_neq _ _) Hn0) in Hr.
    destruct k; [rewrite Z.pow_0_r in Hn1; lia|done].
  - apply nil_length_inv in Hr. rewrite Hr, app_nil_r in Hd. rewrite Hd. by exists n1.
Qed.

Lemma reverse_chars_ok m buf l :
  0 ≤ buf → buf + Z.of_nat (length l) ≤ 4294967295 → l ≠ [] → holds m buf l →
  ∃ m', reverse_chars m (u32 (buf + Z.of_nat (length l)) ⊟ 1) buf = Ok m' ∧
    holds m' buf (reverse l) ∧ changes_only buf (Z.of_nat (length l)) m m'.
Proof.
  intros Hb Hl Hne Hh. set (n := Z.of_nat (length l)) in *.
  assert (Hn : 0 < n) by (destruct l; [done|simpl in n; lia]).
  rewrite (u32_small (buf + n)), (u32_small (buf + n - 1)) by lia. unfold reverse_chars.
  destruct (while_loop_total
    (λ (r : nat) '(m1, p1, p2), ∃ j, 0 ≤ j ∧ j + Z.of_nat r = n / 2 ∧
       p1 = buf + n - 1 - j ∧ p2 = buf + j ∧ changes_only buf n m m1 ∧
       ∀ i, 0 ≤ i < n → load8 m1 (buf + i) =
         load8 m (buf + (if (i <? j) || (n - j <=? i) then n - 1 - i else i)))
    (λ '(m, p1, p2), p1 >? p2)
    (λ '(m, p1, p2),
       Ok (store8 (store8 m p2 (load8 m p1)) p1 (load8 m p2), p1 ⊟ 1, p2 ⊞ 1))
    (Z.to_nat (n / 2)) (m, buf + n - 1, buf))
    as ([[m' p1] p2] & -> & (j & ? & Hj & _ & _ & Hc & Hv)).
  - unfold FUEL. wrap_lia.
  - exists 0. split_and!; [lia|wrap_lia|lia|lia|done|]. intros i Hi.
    by replace ((i <? 0) || (n - 0 <=? i)) with false by lia.
  - intros r [[m1 p1] p2] Hr (j & ? & Hj & -> & -> & Hc & Hv).
    assert (2 * j + 1 < n) by wrap_lia. split; [lia|].
    eexists; split; [done|]. exists (j + 1).
    rewrite (u32_small (buf + n - 1 - j - 1)), (u32_small (buf + j + 1)) by lia.
    split_and!; [lia|lia|lia|lia| |].
    + apply changes_only_store8; [apply changes_only_store8; [done|..]|..]; lia.
    + intros i Hi. rewrite !load8_store8, !(u32_small) by lia.
      replace (buf + n - 1 - j) with (buf + (n - 1 - j)) by lia.
      rewrite (Hv j), (Hv (n - 1 - j)) by lia. rewrite !u8_small by apply load8_range.
      replace ((j <? j) || (n - j <=? j)) with false by lia.
      replace ((n - 1 - j <? j) || (n - j <=? n - 1 - j)) with false by lia.
      destruct (decide (buf + i = buf + (n - 1 - j))) as [E1|E1]; [|destruct (decide (buf + i = buf + j)) as [E2|E2]].
      * replace ((i <? j + 1) || (n - (j + 1) <=? i)) with true by lia.
        f_equal. lia.
      * replace ((i <? j + 1) || (n - (j + 1) <=? i)) with true by lia.
        f_equal. lia.
      * rewrite Hv by lia. f_equal. f_equal.
        by replace ((i <? j + 1) || (n - (j + 1) <=? i))
          with ((i <? j) || (n - j <=? i)) by lia.
  - intros [[m1 p1] p2] (j & ? & Hj & -> & -> & _). wrap_lia.
  - eexists; split; [done|]. split; [|done]. intros i x Hi.
    pose proof (lookup_lt_Some _ _ _ Hi) as Hlt. rewrite length_reverse in Hlt.
    rewrite Hv by lia.
    apply reverse_lookup_Some in Hi as [Hi _].
    transitivity (load8 m (buf + (n - 1 - Z.of_nat i))).
    + destruct (_ || _) eqn:E; [done|]. f_equal. wrap_lia.
    + rewrite <-(Hh _ _ Hi). f_equal. lia.
Qed.

(** ** itoa and xtoa *)

Definition dec_char (d : Z) : Z := d + 48.
Definition hex_char (d : Z) : Z := hexchars !!! Z.to_nat d.
(** The decimal and the hexadecimal numeral of a word. *)
Definition dec (n : Z) : list Z := dec_char <$> digits 10 n.
Definition hex (n : Z) : list Z := hex_char <$> digits 16 n.

Lemma dec_char_range d : 0 ≤ d < 10 → 0 < dec_char d < 256.
Proof. unfold dec_char. lia. Qed.
Lemma hex_char_range d : 0 ≤ d < 16 → 0 < hex_char d < 256.
Proof.
  intros Hd. unfold hex_char.
  assert (∃ x, hexchars !! Z.to_nat d = Some x) as [x Hx].
  { apply lookup_lt_is_Some. simpl. lia. }
  rewrite (list_lookup_total_correct _ _ _ Hx). apply list_elem_of_lookup_2 in Hx.
  revert x Hx. apply Forall_forall. repeat constructor.
Qed.

Section numeral.
Context (base : Z) (dig : Z → Z).
Hypothesis Hbase : 1 < base.
Hypothesis Hdig : ∀ d, 0 ≤ d < base → 0 < dig d < 256.

Lemma numeral_length n : (0 < length (dig <$> digits base n) ≤ 32)%nat.
Proof using.
  unfold digits. rewrite length_fmap, length_reverse.
  pose proof (rdigits_length 32 base n). pose proof (rdigits_nonempty base n).
  destruct (rdigits 32 base n); [done|]. simpl in *. lia.
Qed.
Lemma numeral_range n : Forall (λ x, 0 < x < 256) (dig <$> digits base n).
Proof using Hbase Hdig.
  apply Forall_fmap. unfold digits. apply Forall_reverse.
  eapply Forall_impl; [by apply rdigits_range|]. intros d Hd. by apply Hdig.
Qed.

(** The loop, the terminator and the reversal together. *)
Lemma numeral_ok m num buf size :
  0 ≤ num < 4294967296 → 32 ≤ size → 0 ≤ buf → buf + 50 ≤ 4294967295 →
  ∃ m1 tmp n' m', do_while
    (λ '(m, tmp, num, i),
       Ok (store8 m tmp (dig (num mod base)), tmp ⊞ 1, num / base, i ⊞ 1))
    (λ '(m, tmp, num, i), (num >? 0) && (i <? size))
    (m, buf, num, 0)
    = Ok (m1, tmp, n', Z.of_nat (length (dig <$> digits base num))) ∧
    reverse_chars (store8 m1 tmp 0) (tmp ⊟ 1) buf = Ok m' ∧
    holds m' buf ((dig <$> digits base num) ++ [0]) ∧ changes_only buf 50 m m'.
Proof using Hbase Hdig.
  intros Hn Hs Hb1 Hb2.
  destruct (put_digits base dig m num buf size Hbase Hn Hs) as [n' ->].
  pose proof (numeral_range num) as Hr. pose proof (numeral_length num) as Hl.
  unfold digits in *. rewrite fmap_reverse in *.
  set (l := dig <$> rdigits 32 base num) in *.
  apply Forall_reverse in Hr. rewrite reverse_involutive in Hr. rewrite length_reverse in *.
  replace (length (rdigits 32 base num)) with (length l) by apply length_fmap.
  clearbody l.
  set (k := Z.of_nat (length l)).
  do 3 eexists. set (m1 := store8 _ _ 0).
  assert (Hm1 : m1 = write_bytes m buf (l ++ [0])).
  { rewrite write_bytes_app. simpl. subst m1 k. apply store8_addr, u32_idemp. }
  assert (Hh1 : holds m1 buf (l ++ [0])).
  { rewrite Hm1. apply write_bytes_holds; [|rewrite length_app; simpl; lia].
    apply Forall_app. split; [|by repeat constructor].
    eapply Forall_impl; [exact Hr|]. simpl. lia. }
  apply holds_app in Hh1 as [Hh1 H0].
  destruct (reverse_chars_ok m1 buf l) as (m' & Hrun & Hh & Hc);
    [lia|lia|by destruct l; [simpl in Hl; lia|]|done|].
  exists m'. split; [done|]. split; [exact Hrun|].
  assert (changes_only buf 50 m m1).
  { rewrite Hm1. apply changes_only_write; [lia| |lia]. rewrite length_app. simpl. lia. }
  split.
  - apply holds_app. split; [done|]. rewrite length_reverse.
    eapply holds_changes; [exact Hc| |exact H0].
    intros i Hi. simpl in Hi. unfold within. wrap_lia.
  - etrans; [done|]. intros x Hx. apply Hc. contradict Hx. unfold within in *. lia.
Qed.
End numeral.

Lemma itoa_ok m num buf :
  0 ≤ num < 4294967296 → 0 ≤ buf → buf + 50 ≤ 4294967295 →
  ∃ m', itoa m num buf NUM_BUF_MAX = Ok m' ∧ holds m' buf (dec num ++ [0]) ∧
    changes_only buf 50 m m'.
Proof.
  intros Hn Hb1 Hb2. unfold itoa.
  destruct (numeral_ok 10 dec_char ltac:(lia) dec_char_range m num buf NUM_BUF_MAX Hn
    ltac:(unfold NUM_BUF_MAX; lia) Hb1 Hb2) as (m1 & tmp & n' & m' & Hd & Hr & Hh & Hc).
  fold (dec num) in Hd, Hh. unfold dec_char in Hd. rewrite Hd.
  unfold mbind, outcome_bind. rewrite Hr. by exists m'.
Qed.

Lemma xtoa_ok m num buf :
  0 ≤ num < 4294967296 → 0 ≤ buf → buf + 50 ≤ 4294967295 →
  ∃ m', xtoa m num buf NUM_BUF_MAX = Ok (Z.of_nat (length (hex num)), m') ∧
    holds m' buf (hex num ++ [0]) ∧ changes_only buf 50 m m'.
Proof.
  intros Hn Hb1 Hb2. unfold xtoa.
  destruct (numeral_ok 16 hex_char ltac:(lia) hex_char_range m num buf NUM_BUF_MAX Hn
    ltac:(unfold NUM_BUF_MAX; lia) Hb1 Hb2) as (m1 & tmp & n' & m' & Hd & Hr & Hh & Hc).
  fold (hex num) in Hd, Hh. unfold hex_char in Hd. rewrite Hd.
  unfold mbind, outcome_bind. rewrite Hr. by exists m'.
Qed.

(** ** The copying loops *)

Lemma write_take_S m dst (l : list Z) (j : nat) x :
  l !! j = Some x →
  write_bytes m dst (take (S j) l) = store8 (write_bytes m dst (take j l)) (dst + Z.of_nat j) x.
Proof.
  intros Hj. rewrite (take_S_r l j x Hj), write_bytes_app. simpl.
  rewrite length_take_le; [done|]. apply lookup_lt_Some in Hj. lia.
Qed.

(** Writing at [dst] leaves what is read at [s] in place. *)
Lemma read_under_write m dst l (j k : nat) s :
  (j ≤ length l)%nat → 0 ≤ dst → dst + Z.of_nat (length l) ≤ 4294967295 →
  disj dst (Z.of_nat (length l)) s (Z.of_nat k + 1) →
  load8 (write_bytes m dst (take j l)) (s + Z.of_nat k) = load8 m (s + Z.of_nat k).
Proof.
  intros Hj ?? Hd. assert (length (take j l) = j) by (rewrite length_take_le; lia).
  apply write_bytes_out; [|lia].
  specialize (Hd (Z.of_nat k) ltac:(lia)). contradict Hd. unfold within in *. lia.
Qed.

Lemma disj_mono a n b k k' : disj a n b k → k' ≤ k → disj a n b k'.
Proof. intros H ? i Hi. apply H. lia. Qed.

Lemma copy_z_ok m dst tmp l :
  holds m tmp (l ++ [0]) → Forall (λ x, 0 < x < 256) l →
  0 ≤ tmp → tmp + Z.of_nat (length l) ≤ 4294967294 →
  0 ≤ dst → dst + Z.of_nat (length l) ≤ 4294967295 →
  disj dst (Z.of_nat (length l)) tmp (Z.of_nat (length l) + 1) →
  copy_z m dst tmp = Ok (write_bytes m dst l, dst + Z.of_nat (length l)).
Proof.
  intros Hh Hl ???? Hd. unfold copy_z.
  assert (Hrd : ∀ j x, (j ≤ length l)%nat → (l ++ [0]) !! j = Some x →
    load8 (write_bytes m dst (take j l)) (tmp + Z.of_nat j) = x).
  { intros j x Hj Hx. rewrite read_under_write; [by apply Hh|done|done|done|].
    eapply disj_mono; [done|lia]. }
  destruct (while_loop_total
    (λ (r : nat) '(m1, d, t), ∃ j, (j + r = length l)%nat ∧
       m1 = write_bytes m dst (take j l) ∧ d = dst + Z.of_nat j ∧ t = tmp + Z.of_nat j)
    (λ '(m, dstbuf, tmp), c_true (load8 m tmp))
    (λ '(m, dstbuf, tmp), Ok (store8 m dstbuf (load8 m tmp), dstbuf ⊞ 1, tmp ⊞ 1))
    (length l) (m, dst, tmp)) as ([[m1 d] t] & -> & (j & Hj & -> & -> & ->)).
  - unfold FUEL. lia.
  - exists 0%nat. rewrite take_0. split_and!; [lia|done|lia|lia].
  - intros r [[m1 d] t] _ (j & Hj & -> & -> & ->).
    destruct (lookup_lt_is_Some_2 l j ltac:(lia)) as [x Hx].
    rewrite (Hrd j x) by (lia || by apply lookup_app_l_Some).
    pose proof (proj1 (Forall_lookup _ _) Hl j x Hx) as Hxr. cbn beta in Hxr. split.
    + unfold c_true. destruct (Z.eqb_spec x 0); [lia|done].
    + eexists; split; [done|]. exists (S j).
      rewrite (write_take_S _ _ _ _ x Hx), !u32_small by lia.
      split_and!; [lia|done|lia|lia].
  - intros [[m1 d] t] (j & Hj & -> & -> & ->).
    rewrite (Hrd j 0); [done|lia|]. rewrite lookup_app_r by lia.
    by replace (j - length l)%nat with 0%nat by lia.
  - unfold mbind, outcome_bind. rewrite take_ge by lia. do 2 f_equal. lia.
Qed.

Lemma copy_n_ok m dst s l :
  holds m s l → Z.of_nat (length l) < 2147483648 →
  0 ≤ s → s + Z.of_nat (length l) ≤ 4294967295 →
  0 ≤ dst → dst + Z.of_nat (length l) ≤ 4294967295 →
  disj dst (Z.of_nat (length l)) s (Z.of_nat (length l)) →
  copy_n m dst s (Z.of_nat (length l)) = Ok (write_bytes m dst l, dst + Z.of_nat (length l)).
Proof.
  intros Hh Hl ???? Hd. unfold copy_n.
  destruct (while_loop_total
    (λ (r : nat) '(m1, d, t, i), ∃ j, (j + r = length l)%nat ∧ i = Z.of_nat r ∧
       m1 = write_bytes m dst (take j l) ∧ d = dst + Z.of_nat j ∧ t = s + Z.of_nat j)
    (λ '(m, dstbuf, s, i), i >? 0)
    (λ '(m, dstbuf, s, i), Ok (store8 m dstbuf (load8 m s), dstbuf ⊞ 1, s ⊞ 1, s32 (i - 1)))
    (length l) (m, dst, s, Z.of_nat (length l)))
    as ([[[m1 d] t] i] & -> & (j & Hj & _ & -> & -> & _)).
  - unfold FUEL. lia.
  - exists 0%nat. rewrite take_0. split_and!; [lia|done|done|lia|lia].
  - intros r [[[m1 d] t] i] _ (j & Hj & -> & -> & -> & ->). split; [done|].
    destruct (lookup_lt_is_Some_2 l j ltac:(lia)) as [x Hx].
    rewrite read_under_write by (lia || (eapply disj_mono; [exact Hd|lia])).
    rewrite (Hh j x Hx).
    eexists; split; [done|]. exists (S j).
    rewrite (write_take_S _ _ _ _ x Hx), !u32_small, s32_small by lia.
    split_and!; [lia|lia|done|lia|lia].
  - by intros [[[m1 d] t] i] (j & Hj & -> & _).
  - unfold mbind, outcome_bind. rewrite take_ge by lia. do 2 f_equal. lia.
Qed.

Lemma put_padding_ok m dst padding (n : nat) :
  0 ≤ dst → dst + Z.of_nat n ≤ 4294967295 →
  put_padding m dst padding (Z.of_nat n)
  = Ok (write_bytes m dst (replicate n padding), dst + Z.of_nat n).
Proof.
  intros ??. unfold put_padding.
  destruct (while_loop_total
    (λ (r : nat) '(m1, d, i), ∃ j, (j + r = n)%nat ∧ i = Z.of_nat r ∧
       m1 = write_bytes m dst (replicate j padding) ∧ d = dst + Z.of_nat j)
    (λ '(m, dstbuf, padding_len), c_true padding_len)
    (λ '(m, dstbuf, padding_len),
       Ok (store8 m dstbuf padding, dstbuf ⊞ 1, padding_len ⊟ 1))
    n (m, dst, Z.of_nat n)) as ([[m1 d] i] & -> & (j & Hj & _ & -> & ->)).
  - unfold FUEL. lia.
  - exists 0%nat. split_and!; [lia|done|done|lia].
  - intros r [[m1 d] i] _ (j & Hj & -> & -> & ->). split; [done|].
    eexists; split; [done|]. exists (S j).
    rewrite replicate_S_end, write_bytes_app, length_replicate, !u32_small by lia.
    split_and!; [lia|lia|done|lia].
  - by intros [[m1 d] i] (j & Hj & -> & _).
  - unfold mbind, outcome_bind. assert (j = n) as -> by lia. done.
Qed.

(** ** The width of a conversion *)

Lemma number_cons b d l : number b (d :: l) = d * b ^ Z.of_nat (length l) + number b l.
Proof.
  unfold number. simpl. generalize (d) as v. clear d.
  assert (∀ v, foldl (λ v d, v * b + d) v l = v * b ^ Z.of_nat (length l) + foldl (λ v d, v * b + d) 0 l) as H.
  { induction l as [|d l IH]; intros v; cbn [foldl length]; [rewrite Z.pow_0_r; lia|].
    rewrite IH, (IH (0 * b + d)), Nat2Z.inj_succ, Z.pow_succ_r by lia. ring. }
  intros v. apply H.
Qed.

Lemma is_digit_dec d : 0 ≤ d < 10 → is_digit (dec_char d) = true.
Proof. unfold is_digit, dec_char. lia. Qed.

(** The digits after the first one end in [num_buf] as characters. *)
Lemma width_copy m fmt nb ds c :
  Forall (λ d, 0 ≤ d < 10) ds → (length ds ≤ 50)%nat → is_digit c = false →
  holds m fmt ((dec_char <$> ds) ++ [c]) →
  0 ≤ fmt → fmt + Z.of_nat (length ds) ≤ 4294967294 → 0 ≤ nb → nb + 50 ≤ 4294967295 →
  disj nb 50 fmt (Z.of_nat (length ds) + 1) →
  while_loop
    (λ '(m, fmt, tmp), is_digit (load8 m fmt))
    (λ '(m, fmt, tmp),
       if tmp <? nb + NUM_BUF_MAX
       then Ok (store8 m tmp (load8 m fmt), fmt ⊞ 1, tmp ⊞ 1)
       else UB "num_buf out of bounds")
    (m, fmt, nb)
  = Ok (write_bytes m nb (dec_char <$> ds), fmt + Z.of_nat (length ds), nb + Z.of_nat (length ds)).
Proof.
  intros Hds Hl Hc Hh ???? Hd. set (l := dec_char <$> ds) in *.
  assert (Hll : length l = length ds) by apply length_fmap. rewrite <-Hll in *.
  assert (Hrd : ∀ j x, (j ≤ length l)%nat → (l ++ [c]) !! j = Some x →
    load8 (write_bytes m nb (take j l)) (fmt + Z.of_nat j) = x).
  { intros j x Hj Hx. rewrite read_under_write; [by apply Hh|done|done|lia|].
    intros i Hi Hw. apply (Hd i ltac:(lia)). unfold within in *. lia. }
  destruct (while_loop_total
    (λ (r : nat) '(m1, f, t), ∃ j, (j + r = length l)%nat ∧
       m1 = write_bytes m nb (take j l) ∧ f = fmt + Z.of_nat j ∧ t = nb + Z.of_nat j)
    (λ '(m, fmt, tmp), is_digit (load8 m fmt))
    (λ '(m, fmt, tmp),
       if tmp <? nb + NUM_BUF_MAX
       then Ok (store8 m tmp (load8 m fmt), fmt ⊞ 1, tmp ⊞ 1)
       else UB "num_buf out of bounds")
    (length l) (m, fmt, nb)) as ([[m1 f] t] & -> & (j & Hj & -> & -> & ->)).
  - unfold FUEL. lia.
  - exists 0%nat. rewrite take_0. split_and!; [lia|done|lia|lia].
  - intros r [[m1 f] t] _ (j & Hj & -> & -> & ->).
    destruct (lookup_lt_is_Some_2 l j ltac:(lia)) as [x Hx].
    rewrite (Hrd j x) by (lia || by apply lookup_app_l_Some).
    pose proof Hx as Hx'. unfold l in Hx'. rewrite list_lookup_fmap in Hx'.
    destruct (ds !! j) as [d|] eqn:Hdj; [|done]. injection Hx' as <-.
    pose proof (proj1 (Forall_lookup _ _) Hds j d Hdj) as Hdr.
    rewrite is_digit_dec by done. split; [done|].
    replace (nb + Z.of_nat j <? nb + NUM_BUF_MAX) with true
      by (unfold NUM_BUF_MAX; symmetry; apply Z.ltb_lt; lia).
    eexists; split; [done|]. exists (S j).
    rewrite (write_take_S _ _ _ _ _ Hx), !u32_small by lia.
    split_and!; [lia|done|lia|lia].
  - intros [[m1 f] t] (j & Hj & -> & -> & ->).
    rewrite (Hrd j c); [done|lia|]. rewrite lookup_app_r by lia.
    by replace (j - length l)%nat with 0%nat by lia.
  - assert (j = length l) as -> by lia. by rewrite firstn_all.
Qed.

(** Summing them up from the last to the first gives their number. *)
Lemma width_value m nb ds :
  holds m nb (dec_char <$> ds) → Forall (λ d, 0 ≤ d < 10) ds → (length ds ≤ 50)%nat →
  0 < nb → nb + 50 ≤ 4294967295 →
  ∃ i t, while_loop
    (λ '(padding_count, i, tmp), tmp >=? nb)
    (λ '(padding_count, i, tmp),
       Ok (padding_count ⊞ i * (load8 m tmp - 48), i ⊠ 10, tmp ⊟ 1))
    (0, 1, nb + Z.of_nat (length ds) ⊟ 1)
  = Ok (u32 (number 10 ds), i, t).
Proof.
  intros Hh Hds Hl ??.
  destruct (while_loop_total
    (λ (r : nat) '(pc, i, t), (r ≤ length ds)%nat ∧ t = nb + Z.of_nat r - 1 ∧
       pc = u32 (number 10 (drop r ds)) ∧ i = u32 (10 ^ Z.of_nat (length (drop r ds))))
    (λ '(padding_count, i, tmp), tmp >=? nb)
    (λ '(padding_count, i, tmp),
       Ok (padding_count ⊞ i * (load8 m tmp - 48), i ⊠ 10, tmp ⊟ 1))
    (length ds) (0, 1, nb + Z.of_nat (length ds) ⊟ 1))
    as ([[pc i] t] & -> & (_ & -> & -> & ->)).
  - unfold FUEL. lia.
  - rewrite drop_all, u32_small by lia. by split_and!.
  - intros r [[pc i] t] _ (Hr & -> & -> & ->). split; [apply Z.geb_le; lia|].
    destruct (lookup_lt_is_Some_2 ds r ltac:(lia)) as [d Hd].
    replace (nb + Z.of_nat (S r) - 1) with (nb + Z.of_nat r) by lia.
    rewrite (Hh r (dec_char d)) by (by rewrite list_lookup_fmap, Hd).
    eexists; split; [done|]. rewrite (drop_S _ _ _ Hd), number_cons. cbn [length].
    rewrite Nat2Z.inj_succ, Z.pow_succ_r by lia. unfold dec_char.
    split_and!; [lia|rewrite u32_small; lia| |].
    + rewrite u32_add_l. unfold u32. rewrite Zplus_mod, Zmult_mod_idemp_l, <-Zplus_mod.
      f_equal. lia.
    + unfold u32. rewrite Zmult_mod_idemp_l. f_equal. lia.
  - intros [[pc i] t] (_ & -> & _). rewrite Z.geb_leb. apply Z.leb_gt. lia.
  - eauto.
Qed.

(** ** The reference: a format as a list of pieces *)

Inductive conv := Cs | Cc | Cd | Cu | Cx | Other (c : Z).
Inductive piece :=
| Lit (c : Z)
| Conv (width : option (Z * list Z)) (k : conv).
(** The variable arguments: a word, a pointer to a string, a null pointer. *)
Inductive arg := AWord (n : Z) | AStr (a : Z) (l : list Z) | ANull.

Definition conv_char (k : conv) : Z :=
  match k with
  | Cs => 115 | Cc => 99 | Cd => 100 | Cu => 117 | Cx => 120 | Other c => c
  end.
Definition width_chars (width : option (Z * list Z)) : list Z :=
  match width with
  | None => []
  | Some (p, ds) => dec_char p :: (dec_char <$> ds)
  end.
Definition piece_chars (p : piece) : list Z :=
  match p with
  | Lit c => [c]
  | Conv width k => 37 :: width_chars width ++ [conv_char k]
  end.
(** The format string of a list of pieces *)
Definition format (ps : list piece) : list Z := concat (piece_chars <$> ps).
Definition arg_word (a : arg) : Z :=
  match a with AWord n => n | AStr a _ => a | ANull => 0 end.

Definition conv_ok (k : conv) : bool :=
  match k with
  | Other c =>
      (0 <? c) && (c <? 256) && negb (is_digit c)
      && negb (bool_decide (c ∈ [115; 99; 100; 117; 120]))
  | _ => true
  end.
Definition piece_ok (p : piece) : bool :=
  match p with
  | Lit c => (0 <? c) && (c <? 256) && negb (c =? 37)
  | Conv None k => conv_ok k
  | Conv (Some (p, ds)) k =>
      conv_ok k && forallb (λ d, (0 <=? d) && (d <? 10)) (p :: ds)
      && (length ds <=? 50)%nat
  end.

Definition null_chars : list Z := [110; 117; 108; 108].

(** What one conversion prints with padding [pad] and width [cnt], how much of
    it the returned count includes, and the arguments left. *)
Definition conv_out (pad cnt : Z) (k : conv) (args : list arg)
    : option (list Z * Z * list arg) :=
  match k, args with
  | Cs, AStr _ l :: args' => Some (l, Z.of_nat (length l), args')
  | Cs, ANull :: args' => Some (null_chars, 4, args')
  | Cc, AWord n :: args' => Some ([u8 n], 1, args')
  | (Cd | Cu), AWord n :: args' => Some (dec (u32 n), 0, args')
  | Cx, AWord n :: args' =>
      let h := hex (u32 n) in
      Some (replicate (Z.to_nat cnt - length h) pad ++ h, 0, args')
  | Other c, _ => Some (if c =? 37 then ([], 0, args) else ([37], 1, args))
  | _, _ => None
  end.

Definition width_state (pad cnt : Z) (width : option (Z * list Z)) : Z * Z :=
  match width with
  | None => (pad, cnt)
  | Some (p, ds) => (dec_char p, u32 (number 10 ds))
  end.

(** The characters printed and the count returned. The padding of one
    conversion stays in force for the later ones. *)
Fixpoint expand (pad cnt : Z) (ps : list piece) (args : list arg)
    : option (list Z * Z) :=
  match ps with
  | [] => Some ([], 0)
  | Lit c :: ps' =>
      '(o, w) ← expand pad cnt ps' args; Some (c :: o, 1 + w)
  | Conv width k :: ps' =>
      let '(pad, cnt) := width_state pad cnt width in
      '(l, w, args') ← conv_out pad cnt k args;
      '(o, w') ← expand pad cnt ps' args';
      Some (l ++ o, w + w')
  end.

(** ** vsprintf_s refines the expansion *)
Section refine.
Context (lit_null nb dst0 size : Z) (m0 : mem).

Definition reg (a n : Z) : Prop := 0 < a ∧ a + n ≤ 4294967295.
Definition apart (a n b k : Z) : Prop := a + n ≤ b ∨ b + k ≤ a.
(** A range the function only reads: outside the buffer and [num_buf]. *)
Definition readable (a n : Z) : Prop := reg a n ∧ apart dst0 size a n ∧ apart nb 50 a n.
Definition cstr (a : Z) (l : list Z) : Prop :=
  holds m0 a (l ++ [0]) ∧ Forall (λ x, 0 < x < 256) l ∧
  readable a (Z.of_nat (length l) + 1).
Definition arg_ok (a : arg) : Prop :=
  match a with
  | AWord n => True
  | AStr a l => cstr a l
  | ANull => True
  end.

Hypothesis Hdst : reg dst0 size.
Hypothesis Hnb : reg nb 50.
Hypothesis Hdn : apart dst0 size nb 50.
Hypothesis Hsize : size < 2147483648.
Hypothesis Hnull : cstr lit_null null_chars.

(** [out] has been printed and nothing but the buffer and [num_buf] changed. *)
Definition printed (m : mem) (out : list Z) : Prop :=
  holds m dst0 out ∧
  ∀ x, ¬ within dst0 size x → ¬ within nb 50 x → load8 m x = load8 m0 x.

Lemma apart_disj a n b k : reg a n → reg b k → apart a n b k → disj a n b k.
Proof using. intros [??] [??] ?. apply disj_linear; unfold apart in *; lia. Qed.

Lemma printed_write m out l :
  printed m out → Z.of_nat (length out + length l) ≤ size →
  Forall (λ x, 0 ≤ x < 256) l →
  printed (write_bytes m (dst0 + Z.of_nat (length out)) l) (out ++ l).
Proof using Hdst Hdn Hnb Hsize.
  destruct Hdst as [??]. intros [Hh Ho] Hl Hr. split.
  - apply holds_app. split.
    + intros i x Hi. rewrite write_bytes_out; [by apply Hh| |lia].
      apply lookup_lt_Some in Hi. unfold within. wrap_lia.
    + apply write_bytes_holds; [done|lia].
  - intros x Hx1 Hx2. rewrite write_bytes_out; [by apply Ho| |lia].
    contradict Hx1. unfold within in *. wrap_lia.
Qed.

Lemma printed_nb m m' out :
  printed m out → Z.of_nat (length out) ≤ size → changes_only nb 50 m m' → printed m' out.
Proof using Hdst Hdn Hnb Hsize.
  intros [Hh Ho] Hl Hc. split.
  - eapply holds_changes; [done| |done].
    intros i Hi. destruct Hdst, Hnb. unfold within, apart in *. wrap_lia.
  - intros x Hx1 Hx2. rewrite Hc by done. by apply Ho.
Qed.

Lemma printed_read m out a l :
  printed m out → readable a (Z.of_nat (length l)) → holds m0 a l → holds m a l.
Proof using Hdst Hdn Hnb Hsize.
  intros [_ Ho] (Hr & H1 & H2) Hh i x Hi. pose proof (lookup_lt_Some _ _ _ Hi).
  rewrite Ho; [by apply Hh|..].
  - apply (apart_disj dst0 size a (Z.of_nat (length l)) Hdst Hr H1). lia.
  - apply (apart_disj nb 50 a (Z.of_nat (length l)) Hnb Hr H2). lia.
Qed.
(** The state between two pieces: [out] printed so far with count [w], the
    format at [fmt], the padding and the arguments left. *)
Definition at_piece (out : list Z) (w fmt pad cnt : Z) (args : list arg) (s : vst) : Prop :=
  printed (v_mem s) out ∧ v_dst s = dst0 + Z.of_nat (length out) ∧ v_written s = w ∧
  0 ≤ w ≤ Z.of_nat (length out) ∧
  v_fmt s = fmt ∧ v_padding s = pad ∧ v_pcount s = cnt ∧ v_args s = arg_word <$> args.

Lemma copy_num m out l :
  printed m out → holds m nb (l ++ [0]) → Forall (λ x, 0 < x < 256) l →
  (length l ≤ 32)%nat → Z.of_nat (length out + length l) ≤ size →
  copy_z m (dst0 + Z.of_nat (length out)) nb =
    Ok (write_bytes m (dst0 + Z.of_nat (length out)) l,
        dst0 + Z.of_nat (length (out ++ l))).
Proof using Hdst Hdn Hnb Hsize.
  intros Hp Hh Hl Hlen Hs. destruct Hdst, Hnb. rewrite (copy_z_ok _ _ _ l Hh Hl); [|lia..|].
  - rewrite length_app. do 2 f_equal. lia.
  - apply disj_linear; unfold apart in *; lia.
Qed.

Lemma conv_s_ok m out (l : list Z) str :
  printed m out → cstr str l → Z.of_nat (length out + length l) < size →
  copy_n m (dst0 + Z.of_nat (length out)) str (Z.of_nat (length l)) =
    Ok (write_bytes m (dst0 + Z.of_nat (length out)) l, dst0 + Z.of_nat (length (out ++ l))).
Proof using Hdst Hdn Hnb Hsize.
  intros Hp (Hh & Hr & (Hreg & Ha1 & Ha2)) Hs. pose proof Hdst as [??].
  pose proof Hreg as [??].
  assert (Hm : holds m str (l ++ [0])).
  { eapply printed_read; [done| |done]. rewrite length_app.
    replace (Z.of_nat (length l + length [0])) with (Z.of_nat (length l) + 1)
      by (simpl; lia). done. }
  apply holds_app in Hm as [Hm _].
  rewrite (copy_n_ok _ _ _ l Hm); [|lia..|].
  - rewrite length_app. do 2 f_equal. lia.
  - apply disj_linear; unfold apart in *; lia.
Qed.

Lemma strlen_cstr m out str l :
  printed m out → cstr str l → strlen m str = Ok (Z.of_nat (length l)).
Proof using Hdst Hdn Hnb Hsize.
  intros Hp (Hh & Hr & (Hreg & Ha1 & Ha2)). pose proof Hreg as [Hreg1 Hreg2].
  assert (Hm : holds m str (l ++ [0])).
  { eapply printed_read; [done| |done]. rewrite length_app.
    replace (Z.of_nat (length l + length [0])) with (Z.of_nat (length l) + 1)
      by (simpl; lia). done. }
  apply holds_app in Hm as [Hm Hz].
  apply strlen_first_nul; [|lia]. split_and!; [lia| |].
  - intros i Hi. destruct (lookup_lt_is_Some_2 l (Z.to_nat i) ltac:(lia)) as [x Hx].
    pose proof (proj1 (Forall_lookup _ _) Hr _ _ Hx) as Hxr. cbn beta in Hxr.
    specialize (Hm _ _ Hx). rewrite Z2Nat.id in Hm by lia. lia.
  - specialize (Hz 0%nat 0 eq_refl). by rewrite Z.add_0_r in Hz.
Qed.
(** Printing [l], which counts for [w'], keeps the state between pieces. *)
Lemma at_piece_write out w w' fmt pad cnt args m l :
  printed m out → 0 ≤ w ≤ Z.of_nat (length out) → 0 ≤ w' ≤ Z.of_nat (length l) →
  Z.of_nat (length out + length l) < size → Forall (λ x, 0 ≤ x < 256) l →
  at_piece (out ++ l) (w + w') fmt pad cnt args
    (Vst (write_bytes m (dst0 + Z.of_nat (length out)) l) fmt
       (dst0 + Z.of_nat (length (out ++ l))) (w + w') pad cnt (arg_word <$> args)).
Proof using Hdst Hdn Hnb Hsize.
  intros Hp Hw Hw' Hs Hl. split_and!; try done; cbn [v_mem]; [|lia|rewrite length_app; lia].
  apply printed_write; [done|lia|done].
Qed.

Lemma byte_weaken (l : list Z) : Forall (λ x, 0 < x < 256) l → Forall (λ x, 0 ≤ x < 256) l.
Proof using. intros H. eapply Forall_impl; [exact H|]. simpl. lia. Qed.

Lemma put_string_ok out w fmt pad cnt args str l m :
  printed m out → 0 ≤ w ≤ Z.of_nat (length out) → cstr str l →
  Z.of_nat (length out + length l) < size →
  put_string size str (Z.of_nat (length l))
    (Vst m fmt (dst0 + Z.of_nat (length out)) w pad cnt (arg_word <$> args))
  = Ok (Vst (write_bytes m (dst0 + Z.of_nat (length out)) l) fmt
       (dst0 + Z.of_nat (length (out ++ l))) (w + Z.of_nat (length l)) pad cnt
       (arg_word <$> args)).
Proof using Hdst Hdn Hnb Hsize.
  intros Hp Hw Hstr Hs. unfold put_string.
  destruct l as [|x l0] eqn:El.
  - cbn [c_true length write_bytes]. rewrite app_nil_r, Z.add_0_r. done.
  - rewrite <-El in *. unfold c_true.
    destruct (Z.eqb_spec (Z.of_nat (length l)) 0); [subst; simpl in *; lia|].
    cbn [negb]. rewrite (u32_small (_ + w)) by lia.
    replace (Z.of_nat (length l) + w >? size) with false
      by (symmetry; rewrite Z.gtb_ltb; apply Z.ltb_ge; lia).
    rewrite (conv_s_ok _ _ _ _ Hp Hstr Hs). unfold mbind, outcome_bind.
    by rewrite u32_small by lia.
Qed.

Lemma convert_dec_ok out w fmt pad cnt args m n :
  printed m out → 0 ≤ w ≤ Z.of_nat (length out) →
  Z.of_nat (length out + length (dec (u32 n))) < size →
  ∃ s', (m ← itoa m (u32 n) nb NUM_BUF_MAX;
         '(m, dst) ← copy_z m (dst0 + Z.of_nat (length out)) nb;
         Ok (Vst m fmt dst w pad cnt (arg_word <$> args))) = Ok s' ∧
    at_piece (out ++ dec (u32 n)) (w + 0) fmt pad cnt args s'.
Proof using Hdst Hdn Hnb Hsize.
  intros Hp Hw Hs. pose proof Hnb as [??].
  destruct (itoa_ok m (u32 n) nb (u32_range n)) as (m1 & -> & Hh & Hc); [lia|lia|].
  unfold mbind, outcome_bind.
  pose proof (numeral_length 10 dec_char (u32 n)).
  pose proof (numeral_range 10 dec_char ltac:(lia) dec_char_range (u32 n)).
  fold (dec (u32 n)) in *.
  assert (Hp1 : printed m1 out) by (eapply printed_nb; [exact Hp|lia|exact Hc]).
  rewrite (copy_num m1 out (dec (u32 n)) Hp1 Hh) by (done || lia).
  eexists; split; [done|]. rewrite <-(Z.add_0_r w) at 2.
  apply at_piece_write; [done|done|lia|done|by apply byte_weaken].
Qed.

Lemma convert_hex_ok out w fmt pad cnt args m n :
  printed m out → 0 ≤ w ≤ Z.of_nat (length out) → 0 ≤ pad < 256 → 0 ≤ cnt < 4294967296 →
  let h := replicate (Z.to_nat cnt - length (hex (u32 n))) pad ++ hex (u32 n) in
  Z.of_nat (length out + length h) < size →
  ∃ s', ('(num_len, m) ← xtoa m (u32 n) nb NUM_BUF_MAX;
         '(m, dst) ← (if num_len <? cnt
           then put_padding m (dst0 + Z.of_nat (length out)) pad (cnt ⊟ num_len)
           else Ok (m, dst0 + Z.of_nat (length out)));
         '(m, dst) ← copy_z m dst nb;
         Ok (Vst m fmt dst w pad cnt (arg_word <$> args))) = Ok s' ∧
    at_piece (out ++ h) (w + 0) fmt pad cnt args s'.
Proof using Hdst Hdn Hnb Hsize.
  intros Hp Hw Hpad Hcnt h Hs. pose proof Hnb as [??]. pose proof Hdst as [??].
  destruct (xtoa_ok m (u32 n) nb (u32_range n)) as (m1 & -> & Hh & Hc); [lia|lia|].
  unfold mbind, outcome_bind.
  pose proof (numeral_length 16 hex_char (u32 n)).
  pose proof (numeral_range 16 hex_char ltac:(lia) hex_char_range (u32 n)) as Hr.
  fold (hex (u32 n)) in *. subst h. generalize dependent (hex (u32 n)). intros hx Hs Hh Hlen Hr.
  set (k := (Z.to_nat cnt - length hx)%nat) in *.
  rewrite length_app, length_replicate in Hs.
  assert (Hp1 : printed m1 out) by (eapply printed_nb; [exact Hp|lia|exact Hc]).
  set (D := dst0 + Z.of_nat (length out)).
  assert ((if Z.of_nat (length hx) <? cnt
    then put_padding m1 D pad (cnt ⊟ Z.of_nat (length hx)) else Ok (m1, D))
    = Ok (write_bytes m1 D (replicate k pad), D + Z.of_nat k)) as ->.
  { destruct (Z.ltb_spec (Z.of_nat (length hx)) cnt).
    - rewrite u32_small by lia.
      replace (cnt - Z.of_nat (length hx)) with (Z.of_nat k) by lia.
      apply put_padding_ok; lia.
    - replace k with 0%nat by lia. by rewrite Z.add_0_r. }
  assert (Hp2 : printed (write_bytes m1 D (replicate k pad)) (out ++ replicate k pad)).
  { apply printed_write; [done|rewrite length_replicate; lia|by apply Forall_replicate]. }
  assert (Hh2 : holds (write_bytes m1 D (replicate k pad)) nb (hx ++ [0])).
  { eapply (holds_changes dst0 size); [|apply disj_linear|exact Hh].
    - apply changes_only_write; rewrite ?length_replicate; lia.
    - lia. - lia. - lia. - rewrite length_app; simpl; lia.
    - unfold apart in Hdn. rewrite length_app. simpl. lia. }
  assert (HD : D + Z.of_nat k = dst0 + Z.of_nat (length (out ++ replicate k pad)))
    by (rewrite length_app, length_replicate; lia).
  rewrite HD, (copy_num _ _ hx Hp2 Hh2 Hr) by (rewrite ?length_app, ?length_replicate; lia).
  eexists; split; [done|]. rewrite <-(Z.add_0_r w) at 2. rewrite app_assoc.
  apply at_piece_write;
    [done|rewrite length_app; lia|lia|rewrite length_app, length_replicate; lia|
     by apply byte_weaken].
Qed.

Lemma va_arg_cons a args : va_arg (a :: args) = Ok (a, args).
Proof using. reflexivity. Qed.

(** The branch of the [switch] is chosen by rewriting, not by evaluation. *)
Ltac pick_conv :=
  repeat first
    [ rewrite Z.eqb_refl
    | match goal with
      |- context [?a =? ?b] => rewrite (proj2 (Z.eqb_neq a b)) by done
      end ];
  cbv beta iota delta [orb].

(** A conversion prints what the reference says. *)
Lemma convert_ok k out w fmt pad cnt args s l w' args' :
  conv_ok k = true → at_piece out w fmt pad cnt args s →
  load8 (v_mem s) fmt = conv_char k → Forall arg_ok args →
  0 ≤ pad < 256 → 0 ≤ cnt < 4294967296 →
  conv_out pad cnt k args = Some (l, w', args') →
  Z.of_nat (length out + length l) < size →
  ∃ s', convert lit_null nb size s = Ok s' ∧
    at_piece (out ++ l) (w + w') fmt pad cnt args' s' ∧ Forall arg_ok args'.
Proof using Hdst Hdn Hnb Hsize Hnull.
  destruct s as [m fmt' dst w1 pad' cnt' vargs].
  intros Hk (Hp & Hd & Hw & Hwr & Hf & Hpad & Hcnt & Ha) Hc Hargs Hpr Hcr Ho Hs.
  simpl in *. subst. unfold convert. rewrite Hc. pose proof Hdst as [??].
  destruct k; cbn [conv_char] in *.
  - (* %s *) pick_conv.
    destruct args as [|[n|a la|] args]; try done; injection Ho as <- <- <-;
      inversion_clear Hargs as [|?? Ha Hargs']; rewrite fmap_cons, va_arg_cons, bind_Ok; cbn [arg_word].
    + pose proof Ha as (_ & _ & ([Ha0 ?] & _)). simpl in Ha0.
      destruct (Z.eqb_spec a 0) as [|_]; [lia|].
      rewrite (strlen_cstr _ _ _ _ Hp Ha). unfold mbind, outcome_bind.
      rewrite s32_small by lia. rewrite (put_string_ok out w fmt pad cnt args) by done.
      eexists; split; [done|]. split; [|done].
      apply at_piece_write; try done; [lia|by apply byte_weaken; apply Ha].
    + unfold mbind, outcome_bind. cbn [Z.eqb].
      rewrite (put_string_ok out w fmt pad cnt args _ null_chars) by done.
      eexists; split; [done|]. split; [|done].
      apply at_piece_write; try done; by repeat constructor.
  - (* %c *) pick_conv.
    destruct args as [|[n|a la|] args]; try done; injection Ho as <- <- <-.
    inversion_clear Hargs as [|?? Ha Hargs']. rewrite fmap_cons, va_arg_cons, bind_Ok; cbn [arg_word]. eexists; split; [done|]. split; [|done].
    simpl in Hs. rewrite !u32_small by lia.
    replace (dst0 + Z.of_nat (length out) + 1)
      with (dst0 + Z.of_nat (length (out ++ [u8 n]))) by (rewrite length_app; simpl; lia).
    apply (at_piece_write out w 1 fmt pad cnt args m [u8 n]); try done.
    repeat constructor; apply u8_range.
  - (* %d *) pick_conv.
    destruct args as [|[n|a la|] args]; try done; injection Ho as <- <- <-.
    inversion_clear Hargs as [|?? Ha Hargs']. rewrite fmap_cons, va_arg_cons, bind_Ok; cbn [arg_word].
    destruct (convert_dec_ok out w fmt pad cnt args m n Hp Hwr Hs) as (s' & Hr & Hat).
    by exists s'.
  - (* %u *) pick_conv.
    destruct args as [|[n|a la|] args]; try done; injection Ho as <- <- <-.
    inversion_clear Hargs as [|?? Ha Hargs']. rewrite fmap_cons, va_arg_cons, bind_Ok; cbn [arg_word].
    destruct (convert_dec_ok out w fmt pad cnt args m n Hp Hwr Hs) as (s' & Hr & Hat).
    by exists s'.
  - (* %x *) pick_conv.
    destruct args as [|[n|a la|] args]; try done; injection Ho as <- <- <-.
    inversion_clear Hargs as [|?? Ha Hargs']. rewrite fmap_cons, va_arg_cons, bind_Ok; cbn [arg_word].
    destruct (convert_hex_ok out w fmt pad cnt args m n Hp Hwr Hpr Hcr Hs)
      as (s' & Hr & Hat). by exists s'.
  - (* other *)
    assert (Hne : c ≠ 115 ∧ c ≠ 99 ∧ c ≠ 100 ∧ c ≠ 117 ∧ c ≠ 120).
    { apply andb_true_iff in Hk as [_ Hk]. apply negb_true_iff, bool_decide_eq_false in Hk.
      set_solver. }
    destruct Hne as (?&?&?&?&?). rewrite !(proj2 (Z.eqb_neq _ _)) by done.
    cbn [orb]. revert Ho. unfold conv_out.
    destruct (Z.eqb_spec c 37) as [->|Hc37]; intros [= <- <- <-]; cbn [negb].
    + eexists; split; [done|]. split; [|done]. rewrite app_nil_r, Z.add_0_r.
      split_and!; (done || lia).
    + eexists; split; [done|]. split; [|done]. simpl in Hs. rewrite !u32_small by lia.
      replace (dst0 + Z.of_nat (length out) + 1)
        with (dst0 + Z.of_nat (length (out ++ [37]))) by (rewrite length_app; simpl; lia).
      apply (at_piece_write out w 1 fmt pad cnt args m [37]); try done; by repeat constructor.
Qed.
Lemma conv_not_digit k : conv_ok k = true → is_digit (conv_char k) = false.
Proof using. destruct k; [done..|]. unfold conv_ok. cbn [conv_char]. intros H.
  destruct (is_digit c); [|done]. by rewrite andb_false_r in H.
Qed.
Lemma piece_width_ok p ds k :
  piece_ok (Conv (Some (p, ds)) k) = true →
  conv_ok k = true ∧ 0 ≤ p < 10 ∧ Forall (λ d, 0 ≤ d < 10) ds ∧ (length ds ≤ 50)%nat.
Proof using.
  unfold piece_ok. intros [[Hk Hd]%andb_true_iff Hl]%andb_true_iff.
  rewrite forallb_forall in Hd. split_and!; [done| | | |].
  - pose proof (Hd p ltac:(by left)). lia.
  - pose proof (Hd p ltac:(by left)). lia.
  - apply Forall_forall. intros d Hin. pose proof (Hd d) as H.
    specialize (H ltac:(by right; apply list_elem_of_In)). simpl in H. lia.
  - by apply Nat.leb_le in Hl.
Qed.

(** The width, when there is one, goes into the padding. *)
Lemma parse_padding_ok width k out w fmt pad cnt args s :
  piece_ok (Conv width k) = true → at_piece out w fmt pad cnt args s →
  holds m0 fmt (width_chars width ++ [conv_char k]) →
  readable fmt (Z.of_nat (length (width_chars width)) + 1) →
  Z.of_nat (length out) < size →
  ∃ s', parse_padding nb s = Ok s' ∧
    at_piece out w (fmt + Z.of_nat (length (width_chars width)))
      (width_state pad cnt width).1 (width_state pad cnt width).2 args s'.
Proof using Hdst Hdn Hnb Hsize.
  destruct s as [m fmt' dst w1 pad' cnt' vargs].
  intros Hk (Hp & Hd & Hw & Hwr & Hf & Hpad & Hcnt & Ha) Hh Hreg Hs.
  cbn [v_mem v_fmt v_dst v_written v_padding v_pcount v_args] in *. subst.
  assert (Hm : holds m fmt (width_chars width ++ [conv_char k])).
  { eapply printed_read; [done| |done]. rewrite length_app, Nat2Z.inj_add. done. }
  unfold parse_padding. cbn [v_mem v_fmt v_dst v_written v_padding v_pcount v_args].
  destruct width as [[p ds]|]; cbn [width_chars width_state fst snd app length] in *.
  - destruct (piece_width_ok _ _ _ Hk) as (Hk' & Hp0 & Hds & Hlen).
    apply holds_cons in Hm as [H0 Hm]. rewrite H0, is_digit_dec by done.
    rewrite length_fmap in *. destruct Hreg as ([Hf1 Hf2] & Ha1 & Ha2).
    pose proof Hnb as [??]. rewrite (u32_small (fmt + 1)) by lia.
    rewrite (width_copy m (fmt + 1) nb ds (conv_char k) Hds Hlen (conv_not_digit _ Hk') Hm)
      by (lia || (apply disj_linear; unfold apart in *; lia)).
    rewrite bind_Ok.
    assert (Hn : holds (write_bytes m nb (dec_char <$> ds)) nb (dec_char <$> ds)).
    { apply write_bytes_holds; [|rewrite length_fmap; lia]. apply Forall_fmap.
      eapply Forall_impl; [exact Hds|]. intros d Hd'. pose proof (dec_char_range d Hd').
      simpl. lia. }
    destruct (width_value _ nb ds Hn Hds Hlen) as (i & t & ->); [lia|lia|].
    rewrite bind_Ok. eexists; split; [done|].
    split_and!; cbn [v_mem v_fmt v_dst v_written v_padding v_pcount v_args];
      [|done|done|lia|lia|lia|done|done|done].
    eapply printed_nb; [exact Hp|lia|].
    apply changes_only_write; [lia|rewrite length_fmap; lia|lia].
  - apply holds_cons in Hm as [H0 _]. rewrite H0, conv_not_digit by done.
    eexists; split; [done|]. rewrite Z.add_0_r. split_and!; (done || lia).
Qed.

(** One turn of the loop prints one piece. *)
Lemma step_ok pc ps out w fmt pad cnt args s o w' :
  piece_ok pc = true → at_piece out w fmt pad cnt args s →
  holds m0 fmt (piece_chars pc) → readable fmt (Z.of_nat (length (piece_chars pc))) →
  Forall arg_ok args → 0 ≤ pad < 256 → 0 ≤ cnt < 4294967296 →
  expand pad cnt (pc :: ps) args = Some (o, w') →
  Z.of_nat (length out + length o) < size →
  ∃ s' l w1 pad' cnt' args' o', vsprintf_step lit_null nb size s = Ok s' ∧
    at_piece (out ++ l) (w + w1) (fmt + Z.of_nat (length (piece_chars pc))) pad' cnt' args' s' ∧
    Forall arg_ok args' ∧ 0 ≤ pad' < 256 ∧ 0 ≤ cnt' < 4294967296 ∧
    expand pad' cnt' ps args' = Some (o', w' - w1) ∧ o = l ++ o'.
Proof using Hdst Hdn Hnb Hsize Hnull.
  intros Hpc Hat Hh Hreg Hargs Hpad Hcnt He Hs.
  pose proof Hdst as [??]. pose proof Hreg as ([Hf1 Hf2] & Ha1 & Ha2).
  pose proof Hat as (Hp & _).
  assert (Hm : holds (v_mem s) fmt (piece_chars pc)) by (by eapply printed_read).
  destruct pc as [c|width k]; cbn [piece_chars] in *.
  - cbn [expand] in He. destruct (expand pad cnt ps args) as [[o1 w1]|] eqn:E; [|done].
    injection He as <- <-. cbn [length] in *.
    assert (0 < c < 256 ∧ c ≠ 37) as [Hc ?] by (simpl in Hpc; lia).
    apply holds_cons in Hm as [Hm _].
    destruct s as [m fmt' dst w2 pad' cnt' vargs].
    destruct Hat as (_ & Hd & Hw & Hwr & Hf & Hpa & Hcn & Ha).
    cbn [v_mem v_fmt v_dst v_written v_padding v_pcount v_args] in *.
    subst dst w2 fmt' pad' cnt' vargs.
    unfold vsprintf_step. rewrite Hm, (proj2 (Z.eqb_neq c 37)) by done. cbn [negb].
    rewrite !u32_small by lia.
    exists (Vst (store8 m (dst0 + Z.of_nat (length out)) c) (fmt + 1)
       (dst0 + Z.of_nat (length out) + 1) (w + 1) pad cnt (arg_word <$> args)).
    exists [c], 1, pad, cnt, args, o1. split; [done|].
    split; [|split_and!; (done || lia || by replace (1 + w1 - 1) with w1 by lia)].
    replace (dst0 + Z.of_nat (length out) + 1)
      with (dst0 + Z.of_nat (length (out ++ [c]))) by (rewrite length_app; simpl; lia).
    apply (at_piece_write out w 1 (fmt + 1) pad cnt args m [c]); try done; [simpl; lia|].
    repeat constructor; lia.
  - apply holds_cons in Hm as [Hm _]. apply holds_cons in Hh as [_ Hh].
    cbn [expand] in He. destruct (width_state pad cnt width) as [pad1 cnt1] eqn:Ew.
    destruct (conv_out pad1 cnt1 k args) as [[[l w1] args1]|] eqn:Ec; [|done].
    cbn [mbind option_bind] in He.
    destruct (expand pad1 cnt1 ps args1) as [[o1 w2]|] eqn:E; [|done].
    injection He as <- <-. cbn [length] in *. rewrite !length_app in *. cbn [length] in *.
    destruct s as [m fmt' dst w3 pad' cnt' vargs].
    assert (Hat1 : at_piece out w (fmt + 1) pad cnt args
      (Vst m (fmt' ⊞ 1) dst w3 pad' cnt' vargs)).
    { destruct Hat as (_ & Hd & Hw & Hwr & Hf & Hpa & Hcn & Ha).
      cbn [v_mem v_fmt v_dst v_written v_padding v_pcount v_args] in *. subst.
      rewrite u32_small by lia. split_and!; (done || lia). }
    unfold vsprintf_step. destruct Hat as (_ & _ & _ & _ & Hf & _).
    cbn [v_mem v_fmt] in *. subst fmt'. rewrite Hm, Z.eqb_refl. cbn [negb].
    destruct (parse_padding_ok width k out w (fmt + 1) pad cnt args _ Hpc Hat1 Hh)
      as (s1 & -> & Hat2); [|lia|].
    { split_and!; [split; lia|..]; unfold apart in *; lia. }
    rewrite bind_Ok. rewrite Ew in Hat2. cbn [fst snd] in Hat2.
    assert (0 ≤ pad1 < 256 ∧ 0 ≤ cnt1 < 4294967296) as [Hp1 Hc1].
    { destruct width as [[p ds]|]; simpl in Ew; injection Ew as <- <-; [|done].
      destruct (piece_width_ok _ _ _ Hpc) as (_ & Hp0 & _). pose proof (dec_char_range p Hp0).
      split; [lia|apply u32_range]. }
    assert (Hlc : load8 (v_mem s1) (fmt + 1 + Z.of_nat (length (width_chars width))) = conv_char k).
    { apply holds_app in Hh as [_ Hh].
      eapply printed_read in Hh; [|apply Hat2|].
      - by apply holds_cons in Hh as [Hh _].
      - split_and!; [split; simpl; lia|..]; unfold apart in *; simpl; lia. }
    destruct (convert_ok k out w (fmt + 1 + Z.of_nat (length (width_chars width)))
      pad1 cnt1 args s1 l w1 args1) as (s2 & -> & Hat3 & Hargs1);
      [by destruct width as [[p ds]|]; [apply (piece_width_ok _ _ _ Hpc)|]|done|done|done|done|
       done|done|lia|].
    rewrite bind_Ok. destruct s2 as [m2 f2 d2 w3' p2 c2 a2].
    eexists _, l, w1, pad1, cnt1, args1, o1. split; [done|].
    split; [|split_and!; (done || lia || by replace (w1 + w2 - w1) with w2 by lia)].
    destruct Hat3 as (? & ? & ? & ? & Hf2' & ?).
    cbn [v_mem v_fmt v_dst v_written v_padding v_pcount v_args] in *. subst f2.
    simpl in Hf2.
    split_and!; cbn [v_mem v_fmt v_dst v_written v_padding v_pcount v_args]; try tauto; try lia.
    rewrite u32_small by lia. cbn [length]. lia.
Qed.

Lemma piece_chars_cons pc :
  piece_ok pc = true → ∃ c rest, piece_chars pc = c :: rest ∧ 0 < c.
Proof using.
  destruct pc as [c|width k]; intros H; [|by eexists _, _].
  exists c, []. split; [done|]. simpl in H. lia.
Qed.
Lemma format_length ps :
  forallb piece_ok ps = true → (length ps ≤ length (format ps))%nat.
Proof using.
  induction ps as [|pc ps IH]; [simpl; lia|].
  cbn [forallb]. intros [Hpc Hps]%andb_true_iff. specialize (IH Hps).
  change (format (pc :: ps)) with (piece_chars pc ++ format ps). rewrite length_app.
  destruct (piece_chars_cons pc Hpc) as (c & rest & -> & _). simpl. lia.
Qed.

(** The whole call, for a format given by its pieces. *)
Lemma vsprintf_ok fmt ps args o w :
  forallb piece_ok ps = true → cstr fmt (format ps) → Forall arg_ok args →
  expand 32 0 ps args = Some (o, w) → Z.of_nat (length o) + 1 < size →
  ∃ m', vsprintf_s lit_null nb m0 dst0 size fmt (arg_word <$> args) = Ok (w, m') ∧
    printed m' (o ++ [0]).
Proof using Hdst Hdn Hnb Hsize Hnull.
  intros Hps (Hh & Hbytes & Hreg) Hargs He Hs. unfold vsprintf_s.
  set (I := λ (r : nat) (s : vst), ∃ ps' pre out w1 pad cnt args' o',
    length ps' = r ∧ format ps = pre ++ format ps' ∧ forallb piece_ok ps' = true ∧
    at_piece out w1 (fmt + Z.of_nat (length pre)) pad cnt args' s ∧ Forall arg_ok args' ∧
    0 ≤ pad < 256 ∧ 0 ≤ cnt < 4294967296 ∧
    expand pad cnt ps' args' = Some (o', w - w1) ∧ o = out ++ o').
  destruct (while_loop_total I
    (λ s, c_true (load8 (v_mem s) (v_fmt s)) && (v_written s <? size ⊟ 1))
    (vsprintf_step lit_null nb size) (length ps)
    (Vst m0 fmt dst0 0 32 0 (arg_word <$> args))) as (s & -> & HI).
  - pose proof (format_length ps Hps). destruct Hreg as ([??] & _). unfold FUEL. lia.
  - exists ps, [], [], 0, 32, 0, args, o. rewrite Z.sub_0_r.
    split_and!; try done; try lia.
    split_and!; cbn [v_mem v_dst v_fmt v_written v_padding v_pcount v_args length]; try done; lia.
  - intros r s _ (ps' & pre & out & w1 & pad & cnt & args' & o' & Hr & Hf & Hps' & Hat & Hrest).
    destruct Hrest as (Hargs' & Hpad & Hcnt & He' & ->).
    destruct ps' as [|pc ps']; [done|]. injection Hr as Hr.
    cbn [forallb] in Hps'. apply andb_true_iff in Hps' as [Hpc Hps'].
    rewrite length_app in Hs.
    assert (Hf' : format ps = pre ++ piece_chars pc ++ format ps') by done.
    rewrite Hf' in Hh, Hbytes, Hreg. rewrite <-!app_assoc in Hh.
    apply holds_app in Hh as [_ Hh]. apply holds_app in Hh as [Hh _].
    rewrite !length_app, !Nat2Z.inj_add in Hreg.
    pose proof Hreg as ([??] & Hap1 & Hap2). unfold apart in Hap1, Hap2.
    assert (Hreg' : readable (fmt + Z.of_nat (length pre)) (Z.of_nat (length (piece_chars pc)))).
    { split_and!; [split; lia|..]; unfold apart; lia. }
    destruct (step_ok pc ps' out w1 _ pad cnt args' s o' (w - w1) Hpc Hat Hh Hreg' Hargs'
      Hpad Hcnt He') as (s' & l & w2 & pad' & cnt' & args2 & o2 & Hstep & Hat' & Hargs2 &
      Hpad' & Hcnt' & He2 & ->); [lia|].
    split.
    + apply andb_true_iff. destruct Hat as (Hp & _ & Hw & Hwr & Hfm & _). split.
      * eapply printed_read in Hh; [|exact Hp|exact Hreg']. rewrite Hfm.
        destruct (piece_chars_cons pc Hpc) as (c & rest & Hc & Hc0). rewrite Hc in Hh.
        apply holds_cons in Hh as [-> _]. unfold c_true.
        by rewrite (proj2 (Z.eqb_neq c 0)) by lia.
      * rewrite Hw. apply Z.ltb_lt. destruct Hdst. rewrite u32_small; lia.
    + exists s'. split; [done|].
      exists ps', (pre ++ piece_chars pc), (out ++ l), (w1 + w2), pad', cnt', args2, o2.
      rewrite <-!app_assoc. split_and!; try done; try lia.
      * rewrite length_app, Nat2Z.inj_add, Z.add_assoc. exact Hat'.
      * by replace (w - (w1 + w2)) with (w - w1 - w2) by lia.
  - intros s (ps' & pre & out & w1 & pad & cnt & args' & o' & Hr & Hf & _ & Hat & _).
    apply nil_length_inv in Hr as ->. unfold format in Hf at 2. simpl in Hf.
    rewrite app_nil_r in Hf. apply andb_false_iff. left.
    destruct Hat as (Hp & _ & _ & _ & -> & _). rewrite <-Hf.
    eapply printed_read in Hh; [|exact Hp|by rewrite length_app, Nat2Z.inj_add].
    apply holds_app in Hh as [_ Hh]. apply holds_cons in Hh as [-> _]. done.
  - destruct HI as (ps' & pre & out & w1 & pad & cnt & args' & o' & Hr & _ & _ & Hat & Hrest).
    destruct Hrest as (_ & _ & _ & He' & ->). apply nil_length_inv in Hr as ->.
    injection He' as <- Hw. rewrite app_nil_r in *. rewrite bind_Ok.
    destruct Hat as (Hp & -> & Hw1 & _). eexists. split; [do 2 f_equal; lia|].
    apply (printed_write _ out [0]); [done|simpl; lia|by repeat constructor].
Qed.
End refine.

(** ** What the functions promise *)

(** C6. vsprintf_s implements the expansion of its format: for every format
    without a trailing ['%'] whose expansion leaves room for the terminator in
    the buffer, and any arguments of the kinds the conversions ask for, the
    call returns, the buffer holds exactly the expansion followed by a NUL, the
    result is the count of the expansion, and no byte outside the buffer and
    the local [num_buf] has changed. *)
Theorem vsprintf_s_expands (lit_null nb dst size fmt : Z) (m : mem)
    (ps : list piece) (args : list arg) (o : list Z) (w : Z) :
  reg dst size → reg nb 50 → apart dst size nb 50 → size < 2147483648 →
  cstr nb dst size m lit_null null_chars →
  cstr nb dst size m fmt (format ps) →
  Forall (arg_ok nb dst size m) args →
  forallb piece_ok ps = true →
  expand 32 0 ps args = Some (o, w) →
  Z.of_nat (length o) + 1 < size →
  ∃ m', vsprintf_s lit_null nb m dst size fmt (arg_word <$> args) = Ok (w, m') ∧
    holds m' dst (o ++ [0]) ∧
    ∀ x, ¬ within dst size x → ¬ within nb 50 x → load8 m' x = load8 m x.
Proof.
  intros Hd Hn Hdn Hs Hnull Hfmt Hargs Hps He Ho.
  exact (vsprintf_ok lit_null nb dst size m Hd Hn Hdn Hs Hnull fmt ps args o w
    Hps Hfmt Hargs He Ho).
Qed.

(** Itoa and xtoa write the numeral of the number: for every word the
    calls return with [num_buf] holding digits followed by a NUL, xtoa also
    returns how many there are, and reading the digits back in base ten and in
    base sixteen gives the number. *)
Theorem numerals_denote (m : mem) (num buf : Z) :
  0 ≤ num < 4294967296 → 0 ≤ buf → buf + 50 ≤ 4294967295 →
  (∃ m', itoa m num buf NUM_BUF_MAX = Ok m' ∧
     ∃ ds, holds m' buf (((λ d, d + 48) <$> ds) ++ [0]) ∧
       Forall (λ d, 0 ≤ d < 10) ds ∧ number 10 ds = num) ∧
  (∃ m', ∃ ds, xtoa m num buf NUM_BUF_MAX = Ok (Z.of_nat (length ds), m') ∧
     holds m' buf (((λ d, hexchars !!! Z.to_nat d) <$> ds) ++ [0]) ∧
     Forall (λ d, 0 ≤ d < 16) ds ∧ number 16 ds = num).
Proof.
  intros Hn Hb1 Hb2. split.
  - destruct (itoa_ok m num buf Hn Hb1 Hb2) as (m' & -> & Hh & _).
    exists m'. split; [done|]. exists (digits 10 num). split_and!; [exact Hh| |].
    + apply Forall_reverse, rdigits_range. lia.
    + apply digits_number; lia.
  - destruct (xtoa_ok m num buf Hn Hb1 Hb2) as (m' & -> & Hh & _).
    exists m', (digits 16 num). split_and!; [|exact Hh| |].
    + unfold hex. by rewrite length_fmap.
    + apply Forall_reverse, rdigits_range. lia.
    + apply digits_number; lia.
Qed.

(** A memory with "null" at 0x100 and a format and a string after it. *)
Definition demo_mem (fmt str : list Z) : mem :=
  write_bytes (write_bytes (write_bytes ∅ 256 (null_chars ++ [0])) 512 (fmt ++ [0]))
    1024 (str ++ [0]).


(** A width stays in force: after a padded "%04x" a plain "%x" is padded
    too, and "%%" prints nothing at all. *)
Theorem padding_is_sticky :
  ∃ m', vsprintf_s 256 4096
      (demo_mem (format [Conv (Some (0, [4])) Cx; Lit 32; Conv None Cx;
                         Conv None (Other 37)]) [])
      8192 64 512 [10; 11] = Ok (1, m') ∧
    read_bytes m' 8192 10 = [48; 48; 48; 97; 32; 48; 48; 48; 98; 0].
Proof. eexists; (split; [vm_compute; reflexivity|vm_compute; reflexivity]). Qed.

Definition demo_ps : list piece :=
  [Lit 91; Conv (Some (0, [4])) Cx; Lit 93; Conv None Cs; Conv None Cd; Conv None Cs].
Definition demo_args : list arg := [AWord 255; AStr 1024 [104; 105]; AWord 4096; ANull].

Lemma forall_check {A} (P : A → Prop) (f : A → bool) l :
  (∀ x, f x = true → P x) → forallb f l = true → Forall P l.
Proof.
  intros H Hl. apply Forall_forall. intros x Hx. apply H.
  eapply forallb_forall; [exact Hl|by apply list_elem_of_In].
Qed.

Lemma holds_check m a l : read_bytes m a (Z.of_nat (length l)) = l → holds m a l.
Proof.
  intros H i x Hi. pose proof (lookup_lt_Some _ _ _ Hi).
  rewrite <-H, lookup_read_bytes in Hi by lia. by injection Hi.
Qed.

Lemma cstr_check nb dst size m a l :
  read_bytes m a (Z.of_nat (length (l ++ [0]))) = l ++ [0] →
  forallb (λ x, (0 <? x) && (x <? 256)) l = true →
  readable nb dst size a (Z.of_nat (length l) + 1) → cstr nb dst size m a l.
Proof.
  intros H1 H2 H3. split_and!; [by apply holds_check|..|done].
  eapply forall_check; [|exact H2]. simpl. lia.
Qed.

Lemma vsprintf_s_expands_witness :
  expand 32 0 demo_ps demo_args =
    Some ([91; 48; 48; 102; 102; 93; 104; 105; 52; 48; 57; 54; 110; 117; 108; 108], 8) ∧
  ∃ m', vsprintf_s 256 4096 (demo_mem (format demo_ps) [104; 105]) 8192 64 512
      (arg_word <$> demo_args) = Ok (8, m') ∧
    holds m' 8192 ([91; 48; 48; 102; 102; 93; 104; 105; 52; 48; 57; 54; 110; 117; 108; 108]
      ++ [0]) ∧
    ∀ x, ¬ within 8192 64 x → ¬ within 4096 50 x →
      load8 m' x = load8 (demo_mem (format demo_ps) [104; 105]) x.
Proof.
  split; [vm_compute; reflexivity|].
  apply (vsprintf_s_expands 256 4096 8192 64 512 (demo_mem (format demo_ps) [104; 105])
    demo_ps demo_args).
  - split; lia.
  - split; lia.
  - right; lia.
  - lia.
  - apply cstr_check; [vm_compute; reflexivity|reflexivity|].
    split_and!; [split; simpl; lia|right; simpl; lia|right; simpl; lia].
  - apply cstr_check; [vm_compute; reflexivity|reflexivity|].
    split_and!; [split; vm_compute; done|right; vm_compute; done|right; vm_compute; done].
  - repeat (apply Forall_cons; split); [exact I| |exact I|exact I|apply Forall_nil_2].
    apply (cstr_check 4096 8192 64 _ 1024 [104; 105]); [vm_compute; reflexivity|reflexivity|].
    split_and!; [split; simpl; lia|right; simpl; lia|right; simpl; lia].
  - reflexivity.
  - vm_compute; reflexivity.
  - simpl; lia.
Defined.

Lemma numerals_denote_witness :
  (∃ m', itoa ∅ 1234 4096 NUM_BUF_MAX = Ok m' ∧
     ∃ ds, holds m' 4096 (((λ d, d + 48) <$> ds) ++ [0]) ∧
       Forall (λ d, 0 ≤ d < 10) ds ∧ number 10 ds = 1234) ∧
  (∃ m', ∃ ds, xtoa ∅ 1234 4096 NUM_BUF_MAX = Ok (Z.of_nat (length ds), m') ∧
     holds m' 4096 (((λ d, hexchars !!! Z.to_nat d) <$> ds) ++ [0]) ∧
     Forall (λ d, 0 ≤ d < 16) ds ∧ number 16 ds = 1234).
Proof. apply (numerals_denote ∅ 1234 4096); lia. Defined.
