(* ===== verification/Console.v ===== *)
(** * Console: the VGA text console and kprintf

    arch/i686/drivers/vga.c, kern/kprint.c and [panic] of kern/util.c. The
    console is the static variables of the driver next to the memory its text
    buffer lies in; a cell is the two bytes of a [vga_char_t]. The reference is
    a screen, a list of cells with a cursor. *)

From S2P Require Import Prelude Machine CString Printf.

Definition VGA_WIDTH : Z := 80.
Definition VGA_HEIGHT : Z := 25.
Definition VGA_TOTAL : Z := u16 (VGA_HEIGHT * VGA_WIDTH).

(** [vga_char_t]: the character, then the colour *)
Definition vga_char (character color_attrib : Z) : Z :=
  u8 character + 256 * u8 color_attrib.

(** The static variables of vga.c and the memory *)
Record console := Console {
  c_mem : mem;
  term_buff : Z;
  vga_cmd_port : Z;
  c_x : Z;
  c_y : Z;
  cursor_x : Z;
  cursor_y : Z;
  color_attrib : Z;
}.

(** The variables as the image initialises them, vga.c:16-26 *)
Definition console_boot (m : mem) : console :=
  Console m 0 0 0 0 0 0 (Z.lor (Z.shiftl 0 4) 15).

Definition c_with_mem (f : mem → mem) (c : console) : console :=
  Console (f (c_mem c)) (term_buff c) (vga_cmd_port c) (c_x c) (c_y c)
    (cursor_x c) (cursor_y c) (color_attrib c).
Definition c_with_pos (x y : Z) (c : console) : console :=
  Console (c_mem c) (term_buff c) (vga_cmd_port c) x y
    (cursor_x c) (cursor_y c) (color_attrib c).

Definition cell_addr (t i : Z) : Z := t + 2 * i.
Definition blank : Z := vga_char 32 0.

(** vga.c:57 *)
Definition console_clear_screen (c : console) : outcome console :=
  '(m, _) ← while_loop
    (λ '(m, i), i <? VGA_TOTAL)
    (λ '(m, i), Ok (store16 m (cell_addr (term_buff c) i) blank, u16 (i + 1)))
    (c_mem c, 0);
  Ok (c_with_mem (λ _, m) c).

(** vga.c:28; [__console_debug] is a symbol of the linker script *)
Definition console_init (console_debug : Z) (c : console) : outcome console :=
  console_clear_screen
    (Console (c_mem c) console_debug (u32 (console_debug + 0x3D4)) (c_x c) (c_y c)
       (cursor_x c) (cursor_y c) (color_attrib c)).

(** vga.c:38 *)
Definition console_set_ports (term cmd : Z) (c : console) : console :=
  Console (c_mem c) term cmd (c_x c) (c_y c) (cursor_x c) (cursor_y c) (color_attrib c).

(** vga.c:44 *)
Definition console_move_cursor (x y : Z) (c : console) : console :=
  let new_location := u16 (x * 80 + y) in
  let p := vga_cmd_port c in
  let m := store8 (c_mem c) p 14 in
  let m := store8 m (p + 1) (Z.shiftr new_location 8) in
  let m := store8 m p 15 in
  let m := store8 m (p + 1) (Z.land new_location 0xFF) in
  Console m (term_buff c) p (c_x c) (c_y c) x y (color_attrib c).

(** vga.c:67 *)
Definition console_set_color (forecolor backcolor : Z) (c : console) : console :=
  Console (c_mem c) (term_buff c) (vga_cmd_port c) (c_x c) (c_y c)
    (cursor_x c) (cursor_y c) (u8 (Z.lor (Z.shiftl backcolor 4) forecolor)).

(** vga.c:72 *)
Definition console_scroll (c : console) : outcome console :=
  let t := term_buff c in
  '(m, _) ← while_loop
    (λ '(m, i), i <? VGA_WIDTH * (VGA_HEIGHT - 1))
    (λ '(m, i),
       Ok (store16 m (cell_addr t i) (load16 m (cell_addr t (i + VGA_WIDTH))), u16 (i + 1)))
    (c_mem c, 0);
  '(m, _) ← while_loop
    (λ '(m, j), j <? VGA_TOTAL)
    (λ '(m, j), Ok (store16 m (cell_addr t j) blank, u16 (j + 1)))
    (m, u16 (VGA_WIDTH * (VGA_HEIGHT - 1)));
  Ok (c_with_mem (λ _, m) c).

(** The body of the loop of vga.c:93 for the character [ch] *)
Definition console_put (attrib ch : Z) (c : console) : outcome console :=
  if ch =? 10 then Ok (c_with_pos 0 (u16 (c_y c + 1)) c)
  else if ch =? 13 then Ok (c_with_pos 0 (c_y c) c)
  else
    let c := if c_x c >=? VGA_WIDTH then c_with_pos 0 (u16 (c_y c + 1)) c else c in
    c ← (if c_y c >=? VGA_HEIGHT then
           c ← console_scroll c; Ok (c_with_pos (c_x c) (u16 (c_y c - 1)) c)
         else Ok c);
    let c := c_with_pos (u16 (c_x c + 1)) (c_y c) c in
    Ok (c_with_mem (λ m,
          store16 m (cell_addr (term_buff c) (c_y c * VGA_WIDTH + c_x c))
            (vga_char ch attrib)) c).

(** vga.c:85 *)
Definition console_write_string (str : Z) (c : console) : outcome console :=
  n ← strlen (c_mem c) str;
  '(c, _) ← while_loop
    (λ '(c', i), i <? n)
    (λ '(c', i),
       c' ← console_put (color_attrib c) (load8 (c_mem c') (str + i)) c';
       Ok (c', i ⊞ 1))
    (c, 0);
  Ok c.

Definition KPRINT_BUFF_LEN : Z := 1024.
(** ['\n'] in a literal *)
Definition newline : string := String (Ascii.ascii_of_nat 10) EmptyString.

(** kprint.c:11; [buff] and [num_buf] are the stack frames of the call *)
Definition kprintf (lit_null num_buf buff fmt : Z) (args : list Z) (c : console)
    : outcome (Z * console) :=
  '(print_size, m) ← vsprintf_s lit_null num_buf (c_mem c) buff KPRINT_BUFF_LEN fmt args;
  c ← console_write_string buff (c_with_mem (λ _, m) c);
  Ok (print_size, c).

(** ** The reference: a screen of cells

    The 2000 cells of the text buffer and the one after them, which the driver
    also reaches. *)
Record screen := Screen { cells : list Z; s_x : Z; s_y : Z }.

Definition scroll_cells (l : list Z) : list Z :=
  take 1920 (drop 80 l) ++ replicate 80 blank ++ drop 2000 l.

(** [None]: the character falls outside the cells *)
Definition draw (attrib ch : Z) (s : screen) : option screen :=
  if ch =? 10 then Some (Screen (cells s) 0 (s_y s + 1))
  else if ch =? 13 then Some (Screen (cells s) 0 (s_y s))
  else
    let '(x, y) := if 80 <=? s_x s then (0, s_y s + 1) else (s_x s, s_y s) in
    let '(l, y) := if 25 <=? y then (scroll_cells (cells s), y - 1) else (cells s, y) in
    let i := y * 80 + x + 1 in
    if i <=? 2000 then Some (Screen (<[Z.to_nat i := vga_char ch attrib]> l) (x + 1) y)
    else None.

Fixpoint draws (attrib : Z) (str : list Z) (s : screen) : option screen :=
  match str with
  | [] => Some s
  | ch :: str' => draw attrib ch s ≫= draws attrib str'
  end.

(** ** The driver refines the screen *)

(** The cells the memory holds at [t] *)
Definition cells_at (m : mem) (t : Z) (l : list Z) : Prop :=
  ∀ (i : nat) v, l !! i = Some v → load16 m (cell_addr t (Z.of_nat i)) = v.

Section driver.
Context (t : Z).
Hypothesis Ht : 0 ≤ t ∧ t + 4002 ≤ 4294967296.

(** Storing a cell is an update of the list. *)
Lemma cells_at_store m l (i : nat) v :
  cells_at m t l → length l = 2001%nat → (i < 2001)%nat → 0 ≤ v < 65536 →
  cells_at (store16 m (cell_addr t (Z.of_nat i)) v) t (<[i := v]> l).
Proof using Ht.
  intros Hl Hlen Hi Hv j w Hj. destruct (decide (j = i)) as [->|Hne].
  - rewrite list_lookup_insert_eq in Hj by lia. injection Hj as <-.
    rewrite load16_store16_eq. by apply u16_small.
  - rewrite list_lookup_insert_ne in Hj by done. rewrite load16_store16_disj; [by apply Hl|].
    pose proof (lookup_lt_Some _ _ _ Hj). apply disj_linear; unfold cell_addr; lia.
Qed.

Lemma changes_only_cell m m' (i : Z) v :
  changes_only t 4002 m m' → 0 ≤ i ≤ 2000 →
  changes_only t 4002 m (store16 m' (cell_addr t i) v).
Proof using. intros H Hi. apply changes_only_store16; [done|unfold cell_addr; lia..]. Qed.

Lemma vga_char_range ch a : 0 ≤ vga_char ch a < 65536.
Proof using. unfold vga_char. pose proof (u8_range ch). pose proof (u8_range a). lia. Qed.

(** A loop that blanks the cells from [a] up to [b]. *)
Lemma fill_cells (a b : nat) m l :
  cells_at m t l → length l = 2001%nat → (a ≤ b ≤ 2000)%nat →
  ∃ m' i', while_loop
    (λ '(m, j), j <? Z.of_nat b)
    (λ '(m, j), Ok (store16 m (cell_addr t j) blank, u16 (j + 1)))
    (m, Z.of_nat a) = Ok (m', i') ∧
    cells_at m' t (take a l ++ replicate (b - a) blank ++ drop b l) ∧
    changes_only t 4002 m m'.
Proof using Ht.
  intros Hl Hlen Hab.
  destruct (while_loop_total
    (λ (r : nat) '(m1, j), ∃ k, (a ≤ k)%nat ∧ (k + r = b)%nat ∧ j = Z.of_nat k ∧
       changes_only t 4002 m m1 ∧
       cells_at m1 t (take a l ++ replicate (k - a) blank ++ drop k l))
    (λ '(m, j), j <? Z.of_nat b)
    (λ '(m, j), Ok (store16 m (cell_addr t j) blank, u16 (j + 1)))
    (b - a)%nat (m, Z.of_nat a)) as ([m' i'] & -> & (k & _ & Hk & _ & Hc & Hl')).
  - unfold FUEL. lia.
  - exists a. rewrite Nat.sub_diag. simpl. rewrite take_drop. split_and!; (done || lia).
  - intros r [m1 j] _ (k & Hak & Hk & -> & Hc & Hl1). split; [by apply Z.ltb_lt; lia|].
    eexists; split; [done|]. exists (S k).
    assert (Hlen1 : length (take a l ++ replicate (k - a) blank ++ drop k l) = 2001%nat).
    { rewrite !length_app, length_take, length_replicate, length_drop. lia. }
    split_and!; [lia|lia|rewrite u16_small; lia|apply changes_only_cell; [done|lia]|].
    pose proof (cells_at_store m1 _ k blank Hl1 Hlen1 ltac:(lia) (vga_char_range _ _)) as Hs.
    replace (take a l ++ replicate (S k - a) blank ++ drop (S k) l) with
      (<[k := blank]> (take a l ++ replicate (k - a) blank ++ drop k l)); [done|].
    destruct (lookup_lt_is_Some_2 l k ltac:(lia)) as [x Hx].
    rewrite (drop_S _ _ _ Hx), app_assoc.
    replace (S k - a)%nat with (S (k - a)) by lia. rewrite replicate_S_end, <-!app_assoc.
    rewrite app_assoc. rewrite insert_app_r_alt; rewrite length_app, length_take, length_replicate; [|lia].
    replace (k - (a `min` length l + (k - a)))%nat with 0%nat by lia. simpl.
    by rewrite <-app_assoc.
  - intros [m1 j] (k & _ & Hk & -> & _). apply Z.ltb_ge. lia.
  - exists m', i'. split; [done|]. by replace b with k by lia.
Qed.
(** The loop that moves the rows up. *)
Lemma move_rows m l :
  cells_at m t l → length l = 2001%nat →
  ∃ m' i', while_loop
    (λ '(m, i), i <? VGA_WIDTH * (VGA_HEIGHT - 1))
    (λ '(m, i),
       Ok (store16 m (cell_addr t i) (load16 m (cell_addr t (i + VGA_WIDTH))), u16 (i + 1)))
    (m, 0) = Ok (m', i') ∧
    cells_at m' t (take 1920 (drop 80 l) ++ drop 1920 l) ∧ changes_only t 4002 m m'.
Proof using Ht.
  intros Hl Hlen.
  destruct (while_loop_total
    (λ (r : nat) '(m1, i), ∃ k, (k + r = 1920)%nat ∧ i = Z.of_nat k ∧
       changes_only t 4002 m m1 ∧ cells_at m1 t (take k (drop 80 l) ++ drop k l))
    (λ '(m, i), i <? VGA_WIDTH * (VGA_HEIGHT - 1))
    (λ '(m, i),
       Ok (store16 m (cell_addr t i) (load16 m (cell_addr t (i + VGA_WIDTH))), u16 (i + 1)))
    1920%nat (m, 0)) as ([m' i'] & -> & (k & Hk & _ & Hc & Hl')).
  - unfold FUEL. lia.
  - exists 0%nat. rewrite take_0. by split_and!.
  - intros r [m1 i] _ (k & Hk & -> & Hc & Hl1).
    split; [apply Z.ltb_lt; unfold VGA_WIDTH, VGA_HEIGHT; lia|].
    assert (Hlt : length (take k (drop 80 l)) = k)
      by (rewrite length_take, length_drop; lia).
    destruct (lookup_lt_is_Some_2 l (k + 80)%nat ltac:(lia)) as [x Hx].
    destruct (lookup_lt_is_Some_2 l k ltac:(lia)) as [y Hy].
    assert (Hx1 : load16 m1 (cell_addr t (Z.of_nat k + VGA_WIDTH)) = x).
    { replace (Z.of_nat k + VGA_WIDTH) with (Z.of_nat (k + 80)) by (unfold VGA_WIDTH; lia).
      apply Hl1. rewrite lookup_app_r, lookup_drop, Hlt by lia. rewrite <-Hx. f_equal. lia. }
    assert (Hxr : 0 ≤ x < 65536) by (rewrite <-Hx1; apply load16_range).
    rewrite Hx1. eexists; split; [done|]. exists (S k).
    split_and!; [lia|rewrite u16_small; lia|apply changes_only_cell; [done|lia]|].
    replace (take (S k) (drop 80 l) ++ drop (S k) l)
      with (<[k := x]> (take k (drop 80 l) ++ drop k l)).
    + apply cells_at_store; [done| |lia|done].
      rewrite length_app, Hlt, length_drop. lia.
    + rewrite (take_S_r _ _ x) by (rewrite lookup_drop, <-Hx; f_equal; lia).
      rewrite (drop_S _ _ _ Hy), insert_app_r_alt, Hlt, Nat.sub_diag by lia.
      by rewrite <-app_assoc.
  - intros [m1 j] (k & Hk & -> & _). apply Z.ltb_ge. unfold VGA_WIDTH, VGA_HEIGHT. lia.
  - exists m', i'. split; [done|]. by replace 1920%nat with k by lia.
Qed.

Lemma console_scroll_ok c l :
  term_buff c = t → cells_at (c_mem c) t l → length l = 2001%nat →
  ∃ m', console_scroll c = Ok (c_with_mem (λ _, m') c) ∧
    cells_at m' t (scroll_cells l) ∧ changes_only t 4002 (c_mem c) m'.
Proof using Ht.
  intros Hc Hl Hlen. unfold console_scroll. rewrite Hc.
  destruct (move_rows (c_mem c) l Hl Hlen) as (m1 & i1 & -> & Hl1 & Hc1).
  unfold mbind at 1, outcome_bind at 1.
  assert (Hlt : length (take 1920 (drop 80 l)) = 1920%nat)
    by (rewrite length_take, length_drop; lia).
  destruct (fill_cells 1920 2000 m1 _ Hl1) as (m2 & i2 & Hrun & Hl2 & Hc2);
    [rewrite length_app, Hlt, length_drop; lia|lia|].
  change VGA_TOTAL with (Z.of_nat 2000).
  change (u16 (VGA_WIDTH * (VGA_HEIGHT - 1))) with (Z.of_nat 1920).
  rewrite Hrun. unfold mbind, outcome_bind. exists m2. split; [done|].
  split; [|by etrans].
  rewrite take_app_length', drop_app_ge, Hlt, drop_drop in Hl2 by lia. exact Hl2.
Qed.

Lemma scroll_cells_length l : length l = 2001%nat → length (scroll_cells l) = 2001%nat.
Proof using.
  intros H. unfold scroll_cells.
  rewrite !length_app, length_take, length_replicate, !length_drop. lia.
Qed.

(** The driver [c] shows the screen [s]. *)
Definition shows (c : console) (s : screen) : Prop :=
  term_buff c = t ∧ length (cells s) = 2001%nat ∧ cells_at (c_mem c) t (cells s) ∧
  c_x c = s_x s ∧ c_y c = s_y s ∧ 0 ≤ s_x s ≤ 80 ∧ 0 ≤ s_y s < 65000.

(** What a call of the driver leaves alone. *)
Definition keeps (c c' : console) : Prop :=
  changes_only t 4002 (c_mem c) (c_mem c') ∧ vga_cmd_port c' = vga_cmd_port c ∧
  color_attrib c' = color_attrib c.
#[local] Instance keeps_preorder : PreOrder keeps.
Proof using.
  split; [by intros c; split_and!|]. intros a b c (H1 & H2 & H3) (H4 & H5 & H6).
  split_and!; [by etrans|congruence..].
Qed.

(** After the wrap: scroll if the row is past the last one, then draw. *)
Lemma put_cell_ok attrib ch c x y l i :
  term_buff c = t → length l = 2001%nat → cells_at (c_mem c) t l →
  c_x c = x → c_y c = y → 0 ≤ x < 80 → 0 ≤ y < 65000 →
  let l' := if 25 <=? y then scroll_cells l else l in
  let y' := if 25 <=? y then y - 1 else y in
  i = y' * 80 + x + 1 → i ≤ 2000 →
  ∃ c', (c ← (if c_y c >=? VGA_HEIGHT then
                c ← console_scroll c; Ok (c_with_pos (c_x c) (u16 (c_y c - 1)) c)
              else Ok c);
         Ok (c_with_mem (λ m,
           store16 m (cell_addr (term_buff c) (c_y c * VGA_WIDTH + u16 (c_x c + 1)))
             (vga_char ch attrib)) (c_with_pos (u16 (c_x c + 1)) (c_y c) c))) = Ok c' ∧
    shows c' (Screen (<[Z.to_nat i := vga_char ch attrib]> l') (x + 1) y') ∧ keeps c c'.
Proof using Ht.
  intros Hb Hlen Hl Hx Hy Hxr Hyr l' y' Hi Hi2.
  assert (0 ≤ y' ≤ y) by (subst y'; destruct (Z.leb_spec 25 y); lia).
  assert (∃ c1, (if c_y c >=? VGA_HEIGHT then
     c ← console_scroll c; Ok (c_with_pos (c_x c) (u16 (c_y c - 1)) c) else Ok c) = Ok c1 ∧
    term_buff c1 = t ∧ c_x c1 = x ∧ c_y c1 = y' ∧ length l' = 2001%nat ∧
    cells_at (c_mem c1) t l' ∧ keeps c c1) as (c1 & -> & Hb1 & Hx1 & Hy1 & Hlen1 & Hl1 & Hk1).
  { rewrite Hy, Z.geb_leb. unfold VGA_HEIGHT. subst l' y'.
    destruct (Z.leb_spec 25 y).
    - destruct (console_scroll_ok c l Hb Hl Hlen) as (m1 & -> & Hl1 & Hc1).
      rewrite bind_Ok. eexists; split; [done|]. simpl. rewrite u16_small by lia.
      split_and!; try done; [lia|by apply scroll_cells_length].
    - exists c. split_and!; try done. }
  rewrite bind_Ok. eexists; split; [done|].
  rewrite Hb1, Hx1, Hy1, (u16_small (x + 1)) by lia. unfold VGA_WIDTH.
  replace (y' * 80 + (x + 1)) with (Z.of_nat (Z.to_nat i)) by lia.
  split.
  - split_and!; simpl; try done; try lia.
    + by rewrite length_insert.
    + apply cells_at_store; [done|done|lia|apply vga_char_range].
  - etrans; [exact Hk1|]. split_and!; [|done|done]. simpl.
    apply changes_only_cell; [done|lia].
Qed.

Ltac in_screen H :=
  match type of H with
  | (if ?a <=? 2000 then _ else _) = _ =>
      destruct (Z.leb_spec a 2000); [by injection H as <-|done]
  end.

Lemma console_put_ok attrib ch c s s' :
  shows c s → s_y s < 64000 → draw attrib ch s = Some s' →
  ∃ c', console_put attrib ch c = Ok c' ∧ shows c' s' ∧ keeps c c'.
Proof using Ht.
  intros (Hb & Hlen & Hl & Hx & Hy & Hxr & Hyr) Hy2 Hd. unfold draw in Hd. unfold console_put.
  destruct (ch =? 10); [|destruct (ch =? 13)].
  - injection Hd as <-. eexists; split; [done|]. split; [|by split_and!].
    rewrite Hy, u16_small by lia. split_and!; try done; simpl; lia.
  - injection Hd as <-. eexists; split; [done|]. split; [|by split_and!].
    split_and!; try done; simpl; lia.
  - assert (Hw : (c_x c >=? VGA_WIDTH) = (80 <=? s_x s)) by (rewrite Hx; apply Z.geb_leb).
    rewrite Hw. destruct (Z.leb_spec 80 (s_x s)).
    + set (y' := if 25 <=? s_y s + 1 then s_y s + 1 - 1 else s_y s + 1) in *.
      assert (Hi : y' * 80 + 0 + 1 ≤ 2000 ∧ s' = Screen (<[Z.to_nat (y' * 80 + 0 + 1) :=
        vga_char ch attrib]> (if 25 <=? s_y s + 1 then scroll_cells (cells s) else cells s))
        (0 + 1) y').
      { subst y'. destruct (25 <=? s_y s + 1); cbn beta iota zeta in Hd;
          in_screen Hd. }
      destruct Hi as [Hi ->].
      destruct (put_cell_ok attrib ch (c_with_pos 0 (u16 (c_y c + 1)) c) 0 (s_y s + 1)
        (cells s) (y' * 80 + 0 + 1)) as (c' & Hrun & Hs & Hk);
        [done|done|done|done|simpl; rewrite Hy; apply u16_small; lia|lia|lia|done|done|].
      exists c'. split_and!; [exact Hrun|exact Hs|exact Hk].
    + set (y' := if 25 <=? s_y s then s_y s - 1 else s_y s) in *.
      assert (Hi : y' * 80 + s_x s + 1 ≤ 2000 ∧ s' = Screen (<[Z.to_nat (y' * 80 + s_x s + 1) :=
        vga_char ch attrib]> (if 25 <=? s_y s then scroll_cells (cells s) else cells s))
        (s_x s + 1) y').
      { subst y'. destruct (25 <=? s_y s); cbn beta iota zeta in Hd;
          in_screen Hd. }
      destruct Hi as [Hi ->].
      destruct (put_cell_ok attrib ch c (s_x s) (s_y s) (cells s) (y' * 80 + s_x s + 1))
        as (c' & Hrun & Hs & Hk); [done|done|done|done|done|lia|lia|done|done|].
      exists c'. split_and!; [exact Hrun|exact Hs|exact Hk].
Qed.
Lemma draw_bounds attrib ch s s' :
  0 ≤ s_x s ≤ 80 → 0 ≤ s_y s → draw attrib ch s = Some s' →
  0 ≤ s_y s' ≤ s_y s + 1.
Proof using.
  intros Hx Hy. unfold draw.
  destruct (ch =? 10); [intros [= <-]; simpl; lia|].
  destruct (ch =? 13); [intros [= <-]; simpl; lia|].
  destruct (80 <=? s_x s); [destruct (Z.leb_spec 25 (s_y s + 1))|destruct (Z.leb_spec 25 (s_y s))];
    cbn beta iota zeta; intros H';
    match type of H' with (if ?b then _ else _) = _ => destruct b; [|done] end;
    injection H' as <-; simpl; lia.
Qed.

(** The loop over the characters of the string. *)
Lemma write_loop_ok attrib str l c s s' :
  shows c s → s_y s + Z.of_nat (length l) < 64000 → color_attrib c = attrib →
  holds (c_mem c) str l → disj t 4002 str (Z.of_nat (length l)) →
  draws attrib l s = Some s' →
  ∃ c' i', while_loop
    (λ '(c', i), i <? Z.of_nat (length l))
    (λ '(c', i),
       c' ← console_put attrib (load8 (c_mem c') (str + i)) c';
       Ok (c', i ⊞ 1))
    (c, 0) = Ok (c', i') ∧ shows c' s' ∧ keeps c c'.
Proof using Ht.
  intros Hs Hy Hatt Hh Hd Hdr. pose proof Hs as (_ & _ & _ & _ & _ & _ & Hy0).
  destruct (while_loop_total
    (λ (r : nat) '(c1, i), ∃ s1 (k : nat), (k + r = length l)%nat ∧ i = Z.of_nat k ∧
       shows c1 s1 ∧ keeps c c1 ∧ s_y s1 ≤ s_y s + Z.of_nat k ∧
       draws attrib (drop k l) s1 = Some s')
    (λ '(c', i), i <? Z.of_nat (length l))
    (λ '(c', i),
       c' ← console_put attrib (load8 (c_mem c') (str + i)) c';
       Ok (c', i ⊞ 1))
    (length l) (c, 0)) as ([c' i'] & -> & (s1 & k & Hk & _ & Hs1 & Hk1 & _ & Hdr1)).
  - unfold FUEL. lia.
  - exists s, 0%nat. rewrite drop_0. split_and!; (done || lia).
  - intros r [c1 i] _ (s1 & k & Hk & -> & Hs1 & Hk1 & Hy1 & Hdr1).
    split; [apply Z.ltb_lt; lia|].
    destruct (lookup_lt_is_Some_2 l k ltac:(lia)) as [ch Hch].
    rewrite (drop_S _ _ _ Hch) in Hdr1. cbn [draws] in Hdr1.
    destruct (draw attrib ch s1) as [s2|] eqn:Hdraw; [|done].
    assert (load8 (c_mem c1) (str + Z.of_nat k) = ch) as ->.
    { destruct Hk1 as (Hc1 & _). rewrite Hc1; [by apply Hh|]. apply Hd. lia. }
    destruct (console_put_ok attrib ch c1 s1 s2 Hs1) as (c2 & -> & Hs2 & Hk2); [lia|done|].
    rewrite bind_Ok. eexists; split; [done|]. exists s2, (S k).
    destruct Hs1 as (_ & _ & _ & _ & _ & Hx1 & Hy1').
    pose proof (draw_bounds _ _ _ _ Hx1 (proj1 Hy1') Hdraw).
    split_and!; [lia|rewrite u32_small; lia|done|by etrans|lia|done].
  - intros [c1 i] (s1 & k & Hk & -> & _). apply Z.ltb_ge. lia.
  - exists c', i'. rewrite drop_ge in Hdr1 by lia. injection Hdr1 as <-. by split_and!.
Qed.

Lemma console_write_ok str l c s s' :
  shows c s → s_y s + Z.of_nat (length l) < 64000 →
  holds (c_mem c) str (l ++ [0]) → Forall (λ x, 0 < x < 256) l →
  disj t 4002 str (Z.of_nat (length l)) →
  draws (color_attrib c) l s = Some s' →
  ∃ c', console_write_string str c = Ok c' ∧ shows c' s' ∧ keeps c c'.
Proof using Ht.
  intros Hs Hy Hh Hl Hd Hdr. unfold console_write_string.
  apply holds_app in Hh as [Hh Hz].
  rewrite (strlen_first_nul _ _ (Z.of_nat (length l))).
  - rewrite bind_Ok.
    destruct (write_loop_ok _ str l c s s' Hs Hy eq_refl Hh Hd Hdr) as (c' & i' & -> & Hs' & Hk).
    rewrite bind_Ok. by exists c'.
  - split_and!; [lia| |].
    + intros i Hi. destruct (lookup_lt_is_Some_2 l (Z.to_nat i) ltac:(lia)) as [x Hx].
      pose proof (proj1 (Forall_lookup _ _) Hl _ _ Hx) as Hxr. cbn beta in Hxr.
      specialize (Hh _ _ Hx). rewrite Z2Nat.id in Hh by lia. lia.
    + specialize (Hz 0%nat 0 eq_refl). by rewrite Z.add_0_r in Hz.
  - destruct Hs as (_ & _ & _ & _ & _ & _ & ?). lia.
Qed.
End driver.

(** ** Strings that stay on the screen *)

(** No two newlines without a drawn character between them; [pending]: a
    newline has not been followed by one yet. *)
Fixpoint calm (pending : bool) (str : list Z) : bool :=
  match str with
  | [] => true
  | ch :: str' =>
      if ch =? 10 then negb pending && calm true str'
      else if ch =? 13 then calm pending str'
      else calm false str'
  end.

Lemma calm_draws attrib str (pending : bool) s :
  calm pending str = true → 0 ≤ s_x s ≤ 80 → 0 ≤ s_y s →
  (if pending then s_x s = 0 ∧ s_y s ≤ 25 else s_y s ≤ 24) →
  ∃ s', draws attrib str s = Some s' ∧ 0 ≤ s_x s' ≤ 80 ∧ 0 ≤ s_y s' ≤ 25.
Proof.
  revert pending s. induction str as [|ch str IH]; intros pending s Hc Hx Hy Hp.
  - exists s. split; [done|]. destruct pending; lia.
  - cbn [calm draws] in *. unfold draw.
    destruct (ch =? 10); [|destruct (ch =? 13)].
    + apply andb_true_iff in Hc as [Hn Hc]. destruct pending; [done|].
      apply (IH true); simpl; (done || lia).
    + apply (IH pending); simpl; [done|lia|lia|]. by destruct pending; [split; [|lia]|].
    + destruct (Z.leb_spec 80 (s_x s)) as [H80|H80].
      * destruct pending; [lia|].
        destruct (Z.leb_spec 25 (s_y s + 1)) as [H25|H25]; cbn beta iota zeta.
        -- replace ((s_y s + 1 - 1) * 80 + 0 + 1 <=? 2000) with true by lia.
           apply (IH false); simpl; (done || lia).
        -- replace ((s_y s + 1) * 80 + 0 + 1 <=? 2000) with true by lia.
           apply (IH false); simpl; (done || lia).
      * destruct (Z.leb_spec 25 (s_y s)) as [H25|H25]; cbn beta iota zeta.
        -- destruct pending; [|lia]. destruct Hp as [Hp0 Hp].
           replace ((s_y s - 1) * 80 + s_x s + 1 <=? 2000) with true by lia.
           apply (IH false); simpl; (done || lia).
        -- replace (s_y s * 80 + s_x s + 1 <=? 2000) with true by (destruct pending; lia).
           apply (IH false); simpl; (done || lia).
Qed.

(** A line without control characters that fits the row appears from left to
    right, starting with the cell after the cursor. *)
Lemma line_draws attrib str s :
  Forall (λ ch, ch ≠ 10 ∧ ch ≠ 13) str →
  0 ≤ s_x s → s_x s + Z.of_nat (length str) ≤ 80 → 0 ≤ s_y s ≤ 24 →
  draws attrib str s = Some (Screen
    (list_inserts (Z.to_nat (s_y s * 80 + s_x s + 1)) ((λ ch, vga_char ch attrib) <$> str)
       (cells s)) (s_x s + Z.of_nat (length str)) (s_y s)).
Proof.
  revert s. induction str as [|ch str IH]; intros s Hs Hx Hl Hy.
  - simpl. rewrite Z.add_0_r. by destruct s.
  - inversion Hs as [|?? [H10 H13] Hs']; subst. cbn [draws length] in *. unfold draw.
    rewrite !(proj2 (Z.eqb_neq _ _)) by done.
    destruct (Z.leb_spec 80 (s_x s)); [lia|]. destruct (Z.leb_spec 25 (s_y s)); [lia|].
    cbn beta iota zeta. replace (s_y s * 80 + s_x s + 1 <=? 2000) with true by lia.
    cbn [mbind option_bind]. rewrite IH by (simpl; (done || lia)). simpl. do 2 f_equal; [|lia].
    rewrite <-list_insert_inserts_lt by lia. do 2 f_equal. lia.
Qed.

(** ** What the console promises *)

Lemma console_init_ok t c :
  0 ≤ t ∧ t + 4002 ≤ 4294967296 → c_x c = 0 → c_y c = 0 →
  ∃ c', console_init t c = Ok c' ∧
    shows t c' (Screen (replicate 2000 blank ++ [load16 (c_mem c) (cell_addr t 2000)]) 0 0) ∧
    changes_only t 4002 (c_mem c) (c_mem c') ∧ color_attrib c' = color_attrib c.
Proof.
  intros Ht Hx Hy. unfold console_init, console_clear_screen. cbn [term_buff c_mem].
  set (l := (λ i, load16 (c_mem c) (cell_addr t i)) <$> seqZ 0 2001).
  assert (Hlen : length l = 2001%nat) by (unfold l; by rewrite length_fmap, length_seqZ).
  assert (Hnth : ∀ i : nat, (i < 2001)%nat → l !! i = Some (load16 (c_mem c) (cell_addr t (Z.of_nat i)))).
  { intros i Hi. unfold l. rewrite list_lookup_fmap, lookup_seqZ_lt by lia. done. }
  assert (Hl : cells_at (c_mem c) t l).
  { intros i v Hi. pose proof (lookup_lt_Some _ _ _ Hi).
    rewrite Hnth in Hi by lia. by injection Hi. }
  destruct (fill_cells t Ht 0 2000 (c_mem c) l Hl Hlen) as (m' & i' & Hrun & Hl' & Hc); [lia|].
  change (Z.of_nat 2000) with VGA_TOTAL in Hrun. change (Z.of_nat 0) with 0 in Hrun.
  rewrite Hrun, bind_Ok. eexists; split; [reflexivity|]. split; [|exact (conj Hc eq_refl)].
  rewrite (drop_S _ _ _ (Hnth 2000%nat ltac:(lia))), drop_ge in Hl' by lia.
  rewrite take_0, Nat.sub_0_r in Hl'.
  split_and!; cbn [term_buff c_with_mem cells c_mem c_x c_y s_x s_y];
    [done| |exact Hl'|done|done|lia..].
  rewrite length_app, length_replicate. done.
Qed.

(** After console_init the screen is blank: every cell of the 80x25 text
    buffer is a space, the cursor is at the origin, and only the text buffer
    was written. *)
Theorem console_init_blank (t : Z) (m : mem) :
  0 ≤ t → t + 4002 ≤ 4294967296 →
  ∃ c', console_init t (console_boot m) = Ok c' ∧
    shows t c' (Screen (replicate 2000 blank ++ [load16 m (cell_addr t 2000)]) 0 0) ∧
    changes_only t 4002 m (c_mem c').
Proof.
  intros ??. destruct (console_init_ok t (console_boot m)) as (c' & Hr & Hs & Hc & _);
    [lia|reflexivity|reflexivity|].
  exists c'. exact (conj Hr (conj Hs Hc)).
Qed.

(** C17. console_write_string draws its string: for every string in which each
    newline is followed by a drawn character before the next one, from a
    cursor on the screen, the call returns, the screen is the one the
    reference draws character by character with the lines scrolling up, and
    nothing outside the text buffer and the cell after it is written. *)
Theorem console_write_string_draws (t str : Z) (l : list Z) (c : console) (s : screen) :
  0 ≤ t → t + 4002 ≤ 4294967296 →
  shows t c s → s_y s ≤ 24 → Z.of_nat (length l) ≤ 60000 →
  holds (c_mem c) str (l ++ [0]) → Forall (λ x, 0 < x < 256) l →
  disj t 4002 str (Z.of_nat (length l)) → calm false l = true →
  ∃ s' c', draws (color_attrib c) l s = Some s' ∧
    console_write_string str c = Ok c' ∧ shows t c' s' ∧ s_y s' ≤ 25 ∧
    changes_only t 4002 (c_mem c) (c_mem c').
Proof.
  intros Ht1 Ht2 Hs Hy Hl Hh Hb Hd Hc.
  pose proof Hs as (_ & _ & _ & _ & _ & Hx & Hy0).
  destruct (calm_draws (color_attrib c) l false s Hc Hx) as (s' & Hdr & Hx' & Hy'); [lia|lia|].
  destruct (console_write_ok t (conj Ht1 Ht2) str l c s s' Hs) as (c' & Hr & Hs' & Hk & _);
    [lia|done|done|done|done|].
  exists s', c'. split_and!; [done|done|done|lia|done].
Qed.

(** kprintf draws the expansion of its format; it writes the text buffer and its
    own stack frame only. *)
Lemma kprintf_ok t lit_null nb buff fmt c s s' ps args o w :
  0 ≤ t ∧ t + 4002 ≤ 4294967296 → shows t c s → s_y s ≤ 60000 →
  reg buff KPRINT_BUFF_LEN → reg nb 50 → apart buff KPRINT_BUFF_LEN nb 50 →
  apart t 4002 buff KPRINT_BUFF_LEN → apart t 4002 nb 50 →
  cstr nb buff KPRINT_BUFF_LEN (c_mem c) lit_null null_chars →
  cstr nb buff KPRINT_BUFF_LEN (c_mem c) fmt (format ps) →
  Forall (arg_ok nb buff KPRINT_BUFF_LEN (c_mem c)) args →
  forallb piece_ok ps = true → expand 32 0 ps args = Some (o, w) →
  Forall (λ ch, 0 < ch < 256) o → Z.of_nat (length o) + 1 < KPRINT_BUFF_LEN →
  draws (color_attrib c) o s = Some s' →
  ∃ c', kprintf lit_null nb buff fmt (arg_word <$> args) c = Ok (w, c') ∧ shows t c' s' ∧
    color_attrib c' = color_attrib c ∧
    ∀ x, ¬ within t 4002 x → ¬ within buff KPRINT_BUFF_LEN x → ¬ within nb 50 x →
      load8 (c_mem c') x = load8 (c_mem c) x.
Proof.
  intros Ht Hs Hy Hb Hn Hbn Htb Htn Hnull Hfmt Hargs Hps He Ho Hlo Hdr.
  pose proof Hs as (Htb' & Hlen & Hcells & Hx & Hy' & Hx0 & Hy0).
  unfold KPRINT_BUFF_LEN in *. unfold kprintf, KPRINT_BUFF_LEN.
  destruct (vsprintf_ok lit_null nb buff 1024 (c_mem c) Hb Hn Hbn ltac:(lia) Hnull fmt ps
    args o w Hps Hfmt Hargs He ltac:(lia)) as (m' & -> & Hh & Hout).
  rewrite bind_Ok. destruct Hb as [??], Hn as [??]. unfold apart in *.
  assert (Hs1 : shows t (c_with_mem (λ _, m') c) s).
  { split_and!; try done; [|lia..]. intros i v Hi. rewrite <-(Hcells i v Hi).
    pose proof (lookup_lt_Some _ _ _ Hi).
    apply load16_ext. intros j Hj. apply Hout; unfold cell_addr, within; wrap_lia. }
  destruct (console_write_ok t Ht buff o (c_with_mem (λ _, m') c) s s' Hs1
    ltac:(lia) Hh Ho ltac:(apply disj_linear; lia) Hdr) as (c' & -> & Hs' & Hk & _ & Hco).
  rewrite bind_Ok. exists c'. split_and!; [done|done|exact Hco|].
  intros x Hxt Hxb Hxn. rewrite Hk by done. by apply Hout.
Qed.

(** Kprintf puts a line on the screen: when the expansion of the format
    has no control characters and fits what is left of the cursor's row, the
    call returns the count of the expansion, its characters stand in the cells
    from the one after the cursor on, left to right in the current colour, the
    cursor follows them and every other cell keeps its content. *)
Theorem kprintf_prints_line (t lit_null nb buff fmt : Z) (c : console) (s : screen)
    (ps : list piece) (args : list arg) (o : list Z) (w : Z) :
  0 ≤ t → t + 4002 ≤ 4294967296 → shows t c s → s_y s ≤ 24 →
  reg buff KPRINT_BUFF_LEN → reg nb 50 → apart buff KPRINT_BUFF_LEN nb 50 →
  apart t 4002 buff KPRINT_BUFF_LEN → apart t 4002 nb 50 →
  cstr nb buff KPRINT_BUFF_LEN (c_mem c) lit_null null_chars →
  cstr nb buff KPRINT_BUFF_LEN (c_mem c) fmt (format ps) →
  Forall (arg_ok nb buff KPRINT_BUFF_LEN (c_mem c)) args →
  forallb piece_ok ps = true → expand 32 0 ps args = Some (o, w) →
  Forall (λ ch, 31 < ch < 256) o → s_x s + Z.of_nat (length o) ≤ 80 →
  ∃ c', kprintf lit_null nb buff fmt (arg_word <$> args) c = Ok (w, c') ∧
    shows t c' (Screen
      (list_inserts (Z.to_nat (s_y s * 80 + s_x s + 1))
         ((λ ch, vga_char ch (color_attrib c)) <$> o) (cells s))
      (s_x s + Z.of_nat (length o)) (s_y s)).
Proof.
  intros Ht1 Ht2 Hs Hy Hb Hn Hbn Htb Htn Hnull Hfmt Hargs Hps He Ho Hfit.
  pose proof Hs as (_ & _ & _ & _ & _ & Hx0 & Hy0).
  assert (Hdr := line_draws (color_attrib c) o s).
  specialize (Hdr ltac:(eapply Forall_impl; [exact Ho|]; simpl; lia) ltac:(lia) Hfit ltac:(lia)).
  destruct (kprintf_ok t lit_null nb buff fmt c s _ ps args o w (conj Ht1 Ht2) Hs ltac:(lia)
    Hb Hn Hbn Htb Htn Hnull Hfmt Hargs Hps He
    ltac:(eapply Forall_impl; [exact Ho|]; simpl; lia) ltac:(unfold KPRINT_BUFF_LEN; lia) Hdr) as (c' & Hr & Hs' & _).
  by exists c'.
Qed.

(** The bytes at [a] after a call that returned *)
Definition read_after (r : outcome console) (a n : Z) : option (list Z) :=
  match r with
  | Ok c => Some (read_bytes (c_mem c) a n)
  | _ => None
  end.


(** ** The hypotheses can be met *)

(** A blank console at 0xB8000 over a memory. *)
Definition demo_console (m : mem) : console := Console m 0xB8000 0 0 0 0 0 15.
Definition demo_screen : screen := Screen (replicate 2001 0) 0 0.

(** The bytes of a memory above an address, all zero *)
Lemma zero_above (m : mem) b :
  map_fold (λ k _ acc, (k <? b) && acc) true m = true →
  0 ≤ b → ∀ x, b ≤ x < 4294967296 → load8 m x = 0.
Proof.
  intros Hf Hb x Hx. unfold load8. rewrite u32_small by lia.
  destruct (m !! x) as [v|] eqn:E; [|done]. exfalso. revert Hf E.
  apply (map_fold_weak_ind (λ acc m, acc = true → m !! x = Some v → False)).
  - by rewrite lookup_empty.
  - intros k v' m' acc Hk IH [Hlt Hacc]%andb_true_iff.
    destruct (decide (k = x)) as [->|Hne]; [lia|]. rewrite lookup_insert_ne by done. by apply IH.
Qed.

Lemma demo_shows m :
  map_fold (λ k _ acc, (k <? 0xB8000) && acc) true m = true →
  shows 0xB8000 (demo_console m) demo_screen.
Proof.
  intros Hm'. pose proof (zero_above m 0xB8000 Hm' ltac:(lia)) as Hm. split_and!; cbn [demo_console demo_screen term_buff cells c_mem c_x c_y s_x s_y];
    [done|by rewrite length_replicate| |done|done|lia..].
  intros i v [-> Hi]%lookup_replicate. unfold load16, cell_addr. rewrite !Hm by lia. done.
Qed.

Lemma console_init_blank_witness :
  ∃ c', console_init 0xB8000 (console_boot ∅) = Ok c' ∧
    shows 0xB8000 c' (Screen (replicate 2000 blank ++ [load16 ∅ (cell_addr 0xB8000 2000)]) 0 0) ∧
    changes_only 0xB8000 4002 ∅ (c_mem c').
Proof. apply (console_init_blank 0xB8000 ∅); lia. Defined.

(** "hi\nyou" at 0x1000 *)
Definition demo_text : list Z := [104; 105; 10; 121; 111; 117].
Lemma console_write_string_draws_witness :
  let c := demo_console (write_bytes ∅ 4096 (demo_text ++ [0])) in
  ∃ s' c', draws (color_attrib c) demo_text demo_screen = Some s' ∧
    console_write_string 4096 c = Ok c' ∧ shows 0xB8000 c' s' ∧ s_y s' ≤ 25 ∧
    changes_only 0xB8000 4002 (c_mem c) (c_mem c').
Proof.
  cbv zeta.
  apply (console_write_string_draws 0xB8000 4096 demo_text
    (demo_console (write_bytes ∅ 4096 (demo_text ++ [0]))) demo_screen).
  - lia.
  - lia.
  - apply demo_shows. vm_compute. reflexivity.
  - simpl. lia.
  - simpl. lia.
  - apply holds_check. vm_compute. reflexivity.
  - apply (forall_check _ (λ x, (0 <? x) && (x <? 256))); [simpl; lia|reflexivity].
  - apply disj_linear; simpl; lia.
  - reflexivity.
Defined.

Lemma kprintf_prints_line_witness :
  let c := demo_console (demo_mem (format demo_ps) [104; 105]) in
  ∃ o c', expand 32 0 demo_ps demo_args = Some (o, 8) ∧
    kprintf 256 4096 8192 512 (arg_word <$> demo_args) c = Ok (8, c') ∧
    shows 0xB8000 c' (Screen
      (list_inserts 1 ((λ ch, vga_char ch 15) <$> o) (replicate 2001 0)) 16 0).
Proof.
  cbv zeta. eexists.
  destruct (kprintf_prints_line 0xB8000 256 4096 8192 512
    (demo_console (demo_mem (format demo_ps) [104; 105])) demo_screen demo_ps demo_args
    [91; 48; 48; 102; 102; 93; 104; 105; 52; 48; 57; 54; 110; 117; 108; 108] 8)
    as (c' & Hr & Hs).
  - lia.
  - lia.
  - apply demo_shows. vm_compute. reflexivity.
  - simpl. lia.
  - split; unfold KPRINT_BUFF_LEN; lia.
  - split; lia.
  - right. lia.
  - right. unfold KPRINT_BUFF_LEN. lia.
  - right. lia.
  - apply cstr_check; [vm_compute; reflexivity|reflexivity|].
    split_and!; [split; simpl; lia|right; simpl; lia|right; simpl; lia].
  - apply cstr_check; [vm_compute; reflexivity|reflexivity|].
    split_and!; [split; vm_compute; done|right; vm_compute; done|right; vm_compute; done].
  - repeat (apply Forall_cons; split); [exact I| |exact I|exact I|apply Forall_nil_2].
    apply cstr_check; [vm_compute; reflexivity|reflexivity|].
    split_and!; [split; simpl; lia|right; simpl; lia|right; simpl; lia].
  - reflexivity.
  - vm_compute. reflexivity.
  - apply (forall_check _ (λ x, (31 <? x) && (x <? 256))); [simpl; lia|reflexivity].
  - simpl. lia.
  - exists c'. split; [vm_compute; reflexivity|]. split; [exact Hr|exact Hs].
Defined.
