(* ===== verification/Panic.v ===== *)
(** * Panic: the report of a panic and the stack trace

    kern/util.c, arch/i686/panic.c and arch/i686/trace.asm: the message, the
    control registers and the return addresses found on the chain of frame
    pointers are printed, then the processor stops. The components above stop at
    the call ([Prelude.panic]); this is what the call does. *)

From S2P Require Import Prelude Machine CString Printf Console.

Definition MAX_STACK_TRACE_SIZE : Z := 32.

(** The registers of the walk: %edi, %ecx, %ebx, %eax; [looping] is false once
    [loop] has fallen through. *)
Record walk_st := WalkSt {
  w_mem : mem; w_edi : Z; w_ecx : Z; w_ebx : Z; w_eax : Z; w_looping : bool;
}.

(** trace.asm:20, one round from [.descent] to [loop] *)
Definition descent (w : walk_st) : outcome walk_st :=
  let edx := load32 (w_mem w) (w_ebx w + 4) in
  let ebx := load32 (w_mem w) (w_ebx w) in
  let m := store32 (w_mem w) (w_edi w) edx in
  let ecx := w_ecx w ⊟ 1 in
  Ok (WalkSt m (w_edi w ⊞ 4) ecx ebx (w_eax w ⊞ 1) (c_true ecx)).

(** trace.asm:5; [ebp] is the frame pointer of the caller *)
Definition arch_stack_walk (ebp arr maxcnt : Z) (m : mem) : outcome (Z * mem) :=
  w ← while_loop (λ w, w_looping w && negb (w_ebx w =? 0)) descent
        (WalkSt m arr maxcnt ebp 0 true);
  Ok (w_eax w, w_mem w).

(** arch_crt.h:7 and crt.c:9, the value C functions keep in their frame *)
Definition ARCH_STACK_CHK_GUARD : Z := 0x0000debe0.
Definition __stack_chk_guard : Z := u32 ARCH_STACK_CHK_GUARD.

Section panic.
(** The addresses of the literals, the stack frame of kprintf, the static array
    of panic.c, the frame pointer of stack_trace, the control registers *)
Context (lit : string → Z) (lit_null num_buf buff saved_eips ebp : Z)
  (cr0 cr2 cr3 cr4 : Z).

Definition print (format : string) (args : list Z) : M console Z :=
  kprintf lit_null num_buf buff (lit format) args.

Definition panic_format : string := "!!!PANIC!!!" +:+ newline +:+ "%s" +:+ newline.
Definition fmt_string : string :=
  "cr0: 0x%08x" +:+ newline +:+ "cr2: 0x%08x" +:+ newline +:+
  "cr3: 0x%08x" +:+ newline +:+ "cr4: 0x%08x" +:+ newline.
Definition trace_title : string := "Stack trace:" +:+ newline.
Definition trace_format : string := "0x%08x" +:+ newline.

(** panic.c:16, one line *)
Definition trace_line (i : Z) : M console unit :=
  eip ← gets (λ c, load32 (c_mem c) (saved_eips + 4 * i));
  _ ← print trace_format [eip];
  mret tt.

(** panic.c:11 *)
Definition stack_trace : M console unit :=
  no_callers ← (λ c,
    '(n, m) ← arch_stack_walk ebp saved_eips MAX_STACK_TRACE_SIZE (c_mem c);
    Ok (n, c_with_mem (λ _, m) c));
  _ ← print trace_title [];
  mfor (reverse (seqZ 0 no_callers)) trace_line.

(** panic.c:21 *)
Definition arch_panic_hook : M console unit :=
  _ ← print fmt_string [cr0; cr2; cr3; cr4];
  stack_trace.

(** util.c:7: what is printed, and the stop *)
Definition panic_report (msg : Z) : M console unit :=
  _ ← print panic_format [msg];
  arch_panic_hook.
Definition panic (msg : Z) : M console unit :=
  _ ← panic_report msg;
  halt.

(** crt.c:11; called by a C function that finds its stack frame overwritten *)
Definition __stack_chk_fail : M console unit :=
  panic (lit "Kernel stack smashing detected!").
End panic.

(** ** The walk *)

(** The return addresses of at most [n] frames, the innermost first, and the
    addresses of those frames *)
Fixpoint frames_of (n : nat) (m : mem) (ebp : Z) : list Z :=
  match n with
  | O => []
  | S n' => if ebp =? 0 then [] else ebp :: frames_of n' m (load32 m ebp)
  end.
Definition backtrace (n : nat) (m : mem) (ebp : Z) : list Z :=
  (λ fp, load32 m (fp + 4)) <$> frames_of n m ebp.

(** The array holds the words of [l]. *)
Definition words_at (m : mem) (a : Z) (l : list Z) : Prop :=
  ∀ (i : nat) v, l !! i = Some v → load32 m (a + 4 * Z.of_nat i) = v.

Lemma frames_of_length n m ebp : (length (frames_of n m ebp) ≤ n)%nat.
Proof.
  revert ebp. induction n as [|n IH]; intros ebp; simpl; [lia|].
  destruct (ebp =? 0); simpl; [lia|]. specialize (IH (load32 m ebp)). lia.
Qed.

(** Memories that agree on the frames have the same chain. *)
Lemma frames_of_ext n m m' ebp :
  Forall (λ fp, load32 m' fp = load32 m fp ∧ load32 m' (fp + 4) = load32 m (fp + 4))
    (frames_of n m ebp) →
  frames_of n m' ebp = frames_of n m ebp ∧ backtrace n m' ebp = backtrace n m ebp.
Proof.
  intros H. assert (Hf : frames_of n m' ebp = frames_of n m ebp).
  { revert ebp H. induction n as [|n IH]; intros ebp H; [done|]. simpl in *.
    destruct (ebp =? 0); [done|]. apply Forall_cons in H as [[H1 _] H]. rewrite H1.
    f_equal. by apply IH. }
  split; [done|]. unfold backtrace. rewrite Hf. apply list_fmap_ext.
  intros i fp Hi. by apply (Forall_lookup_1 _ _ _ _ H Hi).
Qed.

Section walk.
(** The array of [n] words; the frames of the chain lie outside it. *)
Context (arr : Z) (n : nat) (m0 : mem) (ebp : Z).
Context (Hn : (0 < n)%nat) (Harr : 0 ≤ arr) (Hend : arr + 4 * Z.of_nat n ≤ 4294967295).
Context (Hout : Forall (λ fp, disj arr (4 * Z.of_nat n) fp 4 ∧
                              disj arr (4 * Z.of_nat n) (fp + 4) 4) (frames_of n m0 ebp)).

(** After some rounds: [done] has been stored, the chain goes on at %ebx. *)
Definition walked (k : nat) (stored : list Z) (w : walk_st) : Prop :=
  words_at (w_mem w) arr stored ∧ changes_only arr (4 * Z.of_nat n) m0 (w_mem w) ∧
  (length stored + k = n)%nat ∧ w_edi w = arr + 4 * Z.of_nat (length stored) ∧
  w_ecx w = Z.of_nat k ∧ w_eax w = Z.of_nat (length stored) ∧ w_looping w = c_true (Z.of_nat k) ∧
  stored ++ backtrace k m0 (w_ebx w) = backtrace n m0 ebp ∧
  Forall (λ fp, disj arr (4 * Z.of_nat n) fp 4 ∧ disj arr (4 * Z.of_nat n) (fp + 4) 4)
    (frames_of k m0 (w_ebx w)).

Lemma descent_ok k stored w :
  walked (S k) stored w → w_ebx w ≠ 0 →
  ∃ w' e, descent w = Ok w' ∧ walked k (stored ++ [e]) w'.
Proof using Harr Hend Hn.
  intros (Hw & Ho & Hlen & Hdi & Hcx & Hax & _ & Hb & Hf) Hbx. unfold descent.
  unfold backtrace in Hb. cbn [frames_of] in *. rewrite (proj2 (Z.eqb_neq _ _) Hbx) in *.
  apply Forall_cons in Hf as [[Hf1 Hf2] Hf]. rewrite fmap_cons in Hb.
  rewrite (changes_only_load32 _ _ _ _ _ Ho Hf1), (changes_only_load32 _ _ _ _ _ Ho Hf2).
  eexists _, _. split; [reflexivity|]. split_and!; cbn [w_mem w_edi w_ecx w_eax w_looping w_ebx].
  - intros i v. rewrite lookup_app_Some, Hdi.
    intros [Hv|[Hi [Hi0 Hv]%list_lookup_singleton_Some]].
    + pose proof (lookup_lt_Some _ _ _ Hv).
      rewrite load32_store32_disj; [by apply Hw|]. apply disj_linear; lia.
    + replace i with (length stored) by lia. rewrite load32_store32_eq. subst v.
      apply u32_small, load32_range.
  - rewrite Hdi. apply changes_only_store32; [done|lia..].
  - rewrite length_app. simpl. lia.
  - rewrite length_app, Hdi, u32_small; simpl; lia.
  - rewrite Hcx, u32_small; lia.
  - rewrite length_app, Hax, u32_small; simpl; lia.
  - rewrite Hcx, u32_small by lia. f_equal. lia.
  - rewrite <-app_assoc. exact Hb.
  - exact Hf.
Qed.

Lemma arch_stack_walk_ok :
  ∃ m, arch_stack_walk ebp arr (Z.of_nat n) m0 =
      Ok (Z.of_nat (length (backtrace n m0 ebp)), m) ∧
    words_at m arr (backtrace n m0 ebp) ∧ changes_only arr (4 * Z.of_nat n) m0 m.
Proof using All.
  unfold arch_stack_walk.
  loop_rule (λ w, ∃ k stored, walked k stored w) (λ w : walk_st, Z.to_nat (w_ecx w))
    as w (k & stored & Hw) Hstop.
  - cbn. unfold FUEL. lia.
  - exists n, []. split_and!; cbn; try done; try lia.
    destruct n; [lia|]. unfold c_true. by rewrite (proj2 (Z.eqb_neq _ _)) by lia.
  - intros w (k & stored & Hw) [Hl Hb%negb_true_iff%Z.eqb_neq]%andb_true_iff.
    pose proof Hw as (_ & _ & _ & _ & Hcx & _ & Hlk & _). destruct k as [|k].
    + rewrite Hlk in Hl. done.
    + destruct (descent_ok k stored w Hw Hb) as (w' & e & E & Hw'). exists w'.
      split; [exact E|]. split; [by exists k, (stored ++ [e])|].
      destruct Hw' as (_ & _ & _ & _ & Hcx' & _). lia.
  - destruct Hw as (Hw & Ho & Hlen & _ & _ & Hax & Hlk & Hbt & _).
    assert (backtrace k m0 (w_ebx w) = []) as Hnil.
    { rewrite andb_false_iff, negb_false_iff, Z.eqb_eq, Hlk in Hstop. unfold backtrace.
      destruct Hstop as [Hk|Hz]; [|by destruct k; simpl; rewrite ?Hz].
      destruct k; [done|]. revert Hk. unfold c_true. by rewrite (proj2 (Z.eqb_neq _ _)) by lia. }
    rewrite Hnil, app_nil_r in Hbt. subst stored. rewrite bind_Ok, Hax. by exists (w_mem w).
Qed.
End walk.
