(* ===== verification/PanicProps.v ===== *)
(** * PanicProps: what a panic shows

    The report of a panic as text, and that the calls of kprintf draw it. *)

From S2P Require Import Prelude Machine CString Printf Console Panic.

(** The characters of a literal *)
Definition chars (s : string) : list Z :=
  (λ c, Z.of_nat (Ascii.nat_of_ascii c)) <$> String.list_ascii_of_string s.

(** A word as eight hexadecimal digits *)
Definition hex8 (n : Z) : list Z :=
  let h := hex (u32 n) in replicate (8 - length h) 48 ++ h.
Definition word_line (n : Z) : list Z := chars "0x" ++ hex8 n ++ [10].

(** ** Plain characters: neither a newline nor a return *)

Definition plain (ch : Z) : Prop := 13 < ch < 256.

Lemma hex_char_plain d : 0 ≤ d < 16 → plain (hex_char d).
Proof.
  intros Hd. unfold hex_char, plain.
  assert (∃ x, hexchars !! Z.to_nat d = Some x) as [x Hx].
  { apply lookup_lt_is_Some. simpl. lia. }
  rewrite (list_lookup_total_correct _ _ _ Hx). apply list_elem_of_lookup_2 in Hx.
  revert x Hx. apply Forall_forall. repeat constructor.
Qed.
Lemma hex8_plain n : Forall plain (hex8 n).
Proof.
  unfold hex8, hex, digits. apply Forall_app. split.
  - apply Forall_replicate. unfold plain. lia.
  - apply Forall_fmap, Forall_reverse.
    eapply Forall_impl; [by apply rdigits_range|]. intros d Hd. by apply hex_char_plain.
Qed.
Lemma hex8_length n : (0 < length (hex8 n) ≤ 40)%nat.
Proof.
  unfold hex8. rewrite length_app, length_replicate.
  pose proof (numeral_length 16 hex_char (u32 n)) as H. fold (hex (u32 n)) in H. lia.
Qed.

Lemma plain_range l : Forall plain l → Forall (λ x, 0 < x < 256) l.
Proof. intros H. eapply Forall_impl; [exact H|]. unfold plain. simpl. lia. Qed.

(** Drawn characters settle a pending newline. *)
Lemma calm_plain (p : bool) l k : Forall plain l → l ≠ [] → calm p (l ++ k) = calm false k.
Proof.
  intros Hl. revert p. induction Hl as [|ch l Hch Hl IH]; intros p Hne; [done|].
  cbn [calm app]. unfold plain in Hch.
  rewrite (proj2 (Z.eqb_neq ch 10)), (proj2 (Z.eqb_neq ch 13)) by lia.
  destruct l as [|ch' l]; [done|]. by apply IH.
Qed.
Lemma calm_prefix (p : bool) l k : calm p (l ++ k) = true → calm p l = true.
Proof.
  revert p. induction l as [|ch l IH]; intros p; [done|]. cbn [calm app].
  destruct (ch =? 10), (ch =? 13); rewrite ?andb_true_iff; try apply IH.
  - intros [? ?]. split; [done|by apply IH].
  - intros [? ?]. split; [done|by apply IH].
Qed.

Lemma word_line_chars n : Forall (λ x, 0 < x < 256) (word_line n).
Proof.
  unfold word_line. rewrite !Forall_app. split_and!; [|apply plain_range, hex8_plain|].
  all: apply (forall_check _ (λ x, (0 <? x) && (x <? 256))); [simpl; lia|reflexivity].
Qed.
Lemma calm_word_line n k : calm true (word_line n ++ k) = calm true k.
Proof.
  unfold word_line. rewrite <-!app_assoc, app_assoc.
  assert (Hne : chars "0x" ++ hex8 n ≠ []) by done.
  rewrite calm_plain; [done| |done]. apply Forall_app. split; [|apply hex8_plain].
  apply (forall_check _ (λ x, (13 <? x) && (x <? 256))); [unfold plain; simpl; lia|reflexivity].
Qed.
Lemma calm_word_lines ns : calm true (concat (word_line <$> ns)) = true.
Proof. induction ns as [|n ns IH]; [done|]. rewrite fmap_cons. cbn [concat]. by rewrite calm_word_line. Qed.

Lemma draws_app attr l k s : draws attr (l ++ k) s = draws attr l s ≫= draws attr k.
Proof.
  revert s. induction l as [|ch l IH]; intros s; [done|]. cbn [draws app].
  destruct (draw attr ch s) as [s'|]; [apply IH|done].
Qed.

(** ** The formats *)

Definition panic_pieces : list piece :=
  (Lit <$> chars ("!!!PANIC!!!" +:+ newline)) ++ [Conv None Cs; Lit 10].
Definition reg_pieces (name : string) : list piece :=
  (Lit <$> chars (name +:+ ": 0x")) ++ [Conv (Some (0, [8])) Cx; Lit 10].
Definition fmt_pieces : list piece :=
  reg_pieces "cr0" ++ reg_pieces "cr2" ++ reg_pieces "cr3" ++ reg_pieces "cr4".
Definition title_pieces : list piece := Lit <$> chars trace_title.
Definition word_pieces : list piece :=
  (Lit <$> chars "0x") ++ [Conv (Some (0, [8])) Cx; Lit 10].

Lemma formats_parse :
  format panic_pieces = chars panic_format ∧ format fmt_pieces = chars fmt_string ∧
  format title_pieces = chars trace_title ∧ format word_pieces = chars trace_format.
Proof. by vm_compute. Qed.
Lemma pieces_ok :
  forallb piece_ok panic_pieces = true ∧ forallb piece_ok fmt_pieces = true ∧
  forallb piece_ok title_pieces = true ∧ forallb piece_ok word_pieces = true.
Proof. by vm_compute. Qed.

(** ** The report *)

Definition panic_lines (msg : list Z) : list Z :=
  chars ("!!!PANIC!!!" +:+ newline) ++ msg ++ [10].
Definition reg_line (name : string) (v : Z) : list Z :=
  chars (name +:+ ": 0x") ++ hex8 v ++ [10].
Definition reg_lines (cr0 cr2 cr3 cr4 : Z) : list Z :=
  reg_line "cr0" cr0 ++ reg_line "cr2" cr2 ++ reg_line "cr3" cr3 ++ reg_line "cr4" cr4.
Definition report (msg : list Z) (cr0 cr2 cr3 cr4 : Z) (eips : list Z) : list Z :=
  panic_lines msg ++ reg_lines cr0 cr2 cr3 cr4 ++ chars trace_title ++
  concat (word_line <$> reverse eips).

(** Literal characters come out as they are. *)
Lemma expand_lits pad cnt l ps args o w :
  expand pad cnt ps args = Some (o, w) →
  expand pad cnt ((Lit <$> l) ++ ps) args = Some (l ++ o, Z.of_nat (length l) + w).
Proof.
  intros E. induction l as [|ch l IH]; [done|]. rewrite fmap_cons. cbn [app expand].
  rewrite IH. simpl. do 2 f_equal. lia.
Qed.
Lemma expand_line pad cnt n ps args o w :
  expand 48 8 ps args = Some (o, w) →
  expand pad cnt ([Conv (Some (0, [8])) Cx; Lit 10] ++ ps) (AWord n :: args) =
    Some (hex8 n ++ [10] ++ o, 1 + w).
Proof.
  intros E. cbn [app expand width_state conv_out]. change (dec_char 0) with 48.
  change (u32 (number 10 [8])) with 8. cbn [mbind option_bind]. rewrite E. reflexivity.
Qed.
Lemma expand_reg pad cnt name v ps args o w :
  expand 48 8 ps args = Some (o, w) →
  expand pad cnt (reg_pieces name ++ ps) (AWord v :: args) =
    Some (reg_line name v ++ o, Z.of_nat (length (chars (name +:+ ": 0x"))) + (1 + w)).
Proof.
  intros E. unfold reg_pieces, reg_line. rewrite <-!app_assoc.
  by apply expand_lits, expand_line.
Qed.

Lemma expand_panic a l :
  expand 32 0 panic_pieces [AStr a l] = Some (panic_lines l, 12 + (Z.of_nat (length l) + 1)).
Proof. apply (expand_lits 32 0 (chars ("!!!PANIC!!!" +:+ newline))). reflexivity. Qed.
Lemma expand_regs cr0 cr2 cr3 cr4 :
  ∃ w, expand 32 0 fmt_pieces [AWord cr0; AWord cr2; AWord cr3; AWord cr4] =
    Some (reg_lines cr0 cr2 cr3 cr4, w).
Proof.
  eexists. unfold fmt_pieces, reg_lines. do 3 apply expand_reg.
  rewrite <-(app_nil_r (reg_pieces "cr4")), <-(app_nil_r (reg_line "cr4" cr4)).
  by apply expand_reg.
Qed.
Lemma expand_title : expand 32 0 title_pieces [] = Some (chars trace_title, 13).
Proof. by vm_compute. Qed.
Lemma expand_word n : expand 32 0 word_pieces [AWord n] = Some (word_line n, 3).
Proof.
  exact (expand_lits 32 0 (chars "0x") _ _ _ _ (expand_line 32 0 n [] [] [] 0 eq_refl)).
Qed.

(** ** The calls *)

Section report.
Context (t lit_null nb buff saved : Z) (lit : string → Z).

(** The text buffer, kprintf's stack frame and the array of panic.c *)
Record areas : Prop := Areas {
  ar_t : 0 ≤ t ∧ t + 4002 ≤ 4294967296;
  ar_buff : reg buff KPRINT_BUFF_LEN;
  ar_nb : reg nb 50;
  ar_saved : reg saved 128;
  ar_buff_nb : apart buff KPRINT_BUFF_LEN nb 50;
  ar_t_buff : apart t 4002 buff KPRINT_BUFF_LEN;
  ar_t_nb : apart t 4002 nb 50;
  ar_saved_t : apart saved 128 t 4002;
  ar_saved_buff : apart saved 128 buff KPRINT_BUFF_LEN;
  ar_saved_nb : apart saved 128 nb 50;
}.

(** What the calls of kprintf leave alone, and what the whole report does *)
Definition unprinted (x : Z) : Prop :=
  ¬ within t 4002 x ∧ ¬ within buff KPRINT_BUFF_LEN x ∧ ¬ within nb 50 x.
Definition untouched (x : Z) : Prop := unprinted x ∧ ¬ within saved 128 x.
Definition same (m m' : mem) : Prop := ∀ x, untouched x → load8 m' x = load8 m x.

(** A string the report prints or formats with *)
Definition text (m : mem) (a : Z) (l : list Z) : Prop :=
  cstr nb buff KPRINT_BUFF_LEN m a l ∧
  apart t 4002 a (Z.of_nat (length l) + 1) ∧ apart saved 128 a (Z.of_nat (length l) + 1).

Context (HA : areas).

Lemma range_untouched a n i :
  reg a n → apart buff KPRINT_BUFF_LEN a n → apart nb 50 a n → apart t 4002 a n →
  apart saved 128 a n → 0 ≤ i < n → untouched (a + i).
Proof using HA.
  destruct HA as [? [??] [??] [??] _ _ _ _ _ _].
  unfold untouched, unprinted, apart, within, reg in *. intros [??] ?????.
  split_and!; wrap_lia.
Qed.

Lemma text_same m m' a l : same m m' → text m a l → text m' a l.
Proof using HA.
  intros Hm ((Hh & Hl & Hr & Hb & Hn) & Ht & Hs). split; [|done].
  split_and!; try done. intros i x Hi. pose proof (lookup_lt_Some _ _ _ Hi) as Hlt.
  rewrite length_app in Hlt. simpl in Hlt. rewrite Hm; [by apply Hh|].
  apply (range_untouched a (Z.of_nat (length l) + 1)); try done. lia.
Qed.

Definition arg_text (m : mem) (a : arg) : Prop :=
  match a with AStr a l => text m a l | _ => True end.

(** The screen and the memory the panic starts from *)
Context (s0 : screen) (attr : Z) (m0 : mem).
Context (Hx0 : 0 ≤ s_x s0 ≤ 80) (Hy0 : 0 ≤ s_y s0 ≤ 24).
Context (Hnull : text m0 lit_null null_chars).

(** The console after [l] has been reported *)
Definition reported (l : list Z) (c : console) : Prop :=
  (∃ s, draws attr l s0 = Some s ∧ shows t c s) ∧ color_attrib c = attr ∧ same m0 (c_mem c).

Lemma print_ok f fmt ps args o w l c :
  reported l c → lit f = fmt → text m0 fmt (format ps) → Forall (arg_text m0) args →
  forallb piece_ok ps = true → expand 32 0 ps args = Some (o, w) →
  Forall (λ ch, 0 < ch < 256) o → Z.of_nat (length o) < 1023 → calm false (l ++ o) = true →
  ∃ c', print lit lit_null nb buff f (arg_word <$> args) c = Ok (w, c') ∧
    reported (l ++ o) c' ∧ ∀ x, unprinted x → load8 (c_mem c') x = load8 (c_mem c) x.
Proof using HA Hx0 Hy0 Hnull.
  intros ((s & Hd & Hs) & Hattr & Hm) <- Hf Ha Hps He Ho Hlen Hcalm.
  destruct (calm_draws attr (l ++ o) false s0 Hcalm Hx0) as (s' & Hd' & _ & _); [lia|lia|].
  destruct (calm_draws attr l false s0 (calm_prefix _ _ _ Hcalm) Hx0) as (s1 & Hd1 & _ & Hy1);
    [lia|lia|]. rewrite Hd in Hd1. injection Hd1 as <-.
  rewrite draws_app, Hd in Hd'. destruct HA as [Ht Hb Hn _ Hbn Htb Htn _ _ _].
  destruct (kprintf_ok t lit_null nb buff (lit f) c s s' ps args o w Ht Hs ltac:(lia) Hb Hn Hbn
    Htb Htn) as (c' & E & Hs' & Hattr' & Hout); try done.
  - by apply (text_same m0).
  - by apply (text_same m0).
  - eapply Forall_impl; [exact Ha|]. intros [] Harg; try done. by apply (text_same m0).
  - unfold KPRINT_BUFF_LEN. lia.
  - rewrite Hattr. exact Hd'.
  - exists c'. unfold reported. split_and!; [exact E| |congruence| |intros x (?&?&?); by apply Hout].
    + exists s'. split; [|done]. by rewrite draws_app, Hd.
    + intros x Hx. pose proof Hx as ((?&?&?)&_). rewrite Hout by done. by apply Hm.
Qed.

Lemma words_kept m m' ws :
  (length ws ≤ 32)%nat → (∀ x, unprinted x → load8 m' x = load8 m x) →
  words_at m saved ws → words_at m' saved ws.
Proof using HA.
  intros Hl Hm Hw i v Hi. pose proof (lookup_lt_Some _ _ _ Hi). rewrite <-(Hw i v Hi).
  destruct HA as [? [??] [??] [??] _ _ _ Ht Hb Hn]. unfold apart, KPRINT_BUFF_LEN in *.
  apply load32_ext. intros j Hj. apply Hm. unfold unprinted, within, KPRINT_BUFF_LEN.
  split_and!; wrap_lia.
Qed.

Lemma trace_lines_ok (k : nat) ws l c :
  text m0 (lit trace_format) (chars trace_format) → (length ws ≤ 32)%nat → (k ≤ length ws)%nat →
  reported l c → words_at (c_mem c) saved ws →
  calm false (l ++ concat (word_line <$> reverse (take k ws))) = true →
  ∃ c', mfor (reverse (seqZ 0 (Z.of_nat k)))
      (trace_line lit lit_null nb buff saved) c = Ok (tt, c') ∧
    reported (l ++ concat (word_line <$> reverse (take k ws))) c'.
Proof using HA Hx0 Hy0 Hnull.
  intros Hf Hl. revert l c. induction k as [|k IH]; intros l c Hk Hr Hw Hcalm.
  { exists c. by rewrite app_nil_r. }
  destruct (lookup_lt_is_Some_2 ws k) as [e He]; [lia|].
  rewrite (take_S_r _ _ _ He), reverse_snoc, fmap_cons in *. cbn [concat] in *.
  rewrite app_assoc in *. rewrite seqZ_S, reverse_snoc. cbn [mfor].
  destruct (print_ok trace_format (lit trace_format) word_pieces [AWord e] (word_line e) 3 l c
    Hr eq_refl) as (c' & E & Hr' & Hkeep).
  - by rewrite (proj2 (proj2 (proj2 formats_parse))).
  - by repeat constructor.
  - apply pieces_ok.
  - apply expand_word.
  - apply word_line_chars.
  - unfold word_line. rewrite !length_app. pose proof (hex8_length e). simpl. lia.
  - by apply calm_prefix in Hcalm.
  - destruct (IH (l ++ word_line e) c') as (c'' & E' & Hr''); [lia|done| |done|].
    + by apply (words_kept (c_mem c)).
    + exists c''. split; [|done]. rewrite (bind_Ok_M _ _ _ tt c'); [done|].
      unfold trace_line. rewrite gets_bind, Z.add_0_l, (Hw k e He).
      by rewrite (bind_Ok_M _ _ _ _ _ E).
Qed.

(** ** The whole report *)

Record literals : Prop := Literals {
  li_panic : text m0 (lit panic_format) (chars panic_format);
  li_regs : text m0 (lit fmt_string) (chars fmt_string);
  li_title : text m0 (lit trace_title) (chars trace_title);
  li_trace : text m0 (lit trace_format) (chars trace_format);
}.

Context (HL : literals) (ebp cr0 cr2 cr3 cr4 : Z).
(** The frames of the chain lie apart from everything the report writes. *)
Context (Hframes : Forall (λ fp, ∀ i, 0 ≤ i < 8 → untouched (fp + i)) (frames_of 32 m0 ebp)).

Lemma backtrace_same m :
  same m0 m → backtrace 32 m ebp = backtrace 32 m0 ebp ∧
  frames_of 32 m ebp = frames_of 32 m0 ebp.
Proof using Hframes.
  intros Hm. destruct (frames_of_ext 32 m0 m ebp) as [? ?]; [|done].
  eapply Forall_impl; [exact Hframes|]. intros fp Hfp.
  split; apply load32_ext; intros i Hi; rewrite Hm; try done.
  - apply Hfp. lia.
  - rewrite <-Z.add_assoc. apply Hfp. lia.
Qed.

Lemma stack_trace_ok l c :
  reported l c →
  calm false (l ++ chars trace_title ++
    concat (word_line <$> reverse (backtrace 32 m0 ebp))) = true →
  ∃ c', stack_trace lit lit_null nb buff saved ebp c = Ok (tt, c') ∧
    reported (l ++ chars trace_title ++
      concat (word_line <$> reverse (backtrace 32 m0 ebp))) c'.
Proof using HA Hx0 Hy0 Hnull HL Hframes.
  intros ((s & Hd & Hs) & Hattr & Hm) Hcalm. destruct (backtrace_same _ Hm) as [Hb Hfr].
  pose proof HA as [_ _ _ [Hs0 Hs1] _ _ _ Hst _ _]. unfold apart in Hst.
  destruct (arch_stack_walk_ok saved 32 (c_mem c) ebp ltac:(lia) ltac:(lia) ltac:(lia))
    as (m & E & Hw & Ho).
  { rewrite Hfr. eapply Forall_impl; [exact Hframes|]. intros fp Hfp.
    split; intros i Hi; rewrite <-?Z.add_assoc; apply Hfp; lia. }
  rewrite Hb in E, Hw. set (bt := backtrace 32 m0 ebp) in *.
  assert (Hlen : (length bt ≤ 32)%nat).
  { subst bt. unfold backtrace. rewrite length_fmap. apply frames_of_length. }
  change (Z.of_nat 32) with MAX_STACK_TRACE_SIZE in E. unfold stack_trace. erewrite bind_Ok_M; [|rewrite E; reflexivity].
  assert (Hr : reported l (c_with_mem (λ _, m) c)).
  { split_and!; [|done|].
    - exists s. split; [done|]. destruct Hs as (? & ? & Hc & ?). split_and!; try tauto.
      intros i v Hi. rewrite <-(Hc i v Hi). pose proof (lookup_lt_Some _ _ _ Hi).
      apply load16_ext. intros j Hj. apply Ho. unfold cell_addr, within.
      pose proof (ar_t HA). wrap_lia.
    - intros x Hx. etransitivity; [exact (Ho x (proj2 Hx))|]. by apply Hm. }
  rewrite app_assoc in Hcalm |- *.
  destruct (print_ok trace_title (lit trace_title) title_pieces [] (chars trace_title) 13 l
    (c_with_mem (λ _, m) c) Hr eq_refl) as (c1 & E1 & Hr1 & Hk1).
  - rewrite (proj1 (proj2 (proj2 formats_parse))). apply HL.
  - constructor.
  - apply pieces_ok.
  - apply expand_title.
  - apply (forall_check _ (λ x, (0 <? x) && (x <? 256))); [simpl; lia|reflexivity].
  - by vm_compute.
  - by apply calm_prefix in Hcalm.
  - rewrite (bind_Ok_M _ _ _ _ _ E1).
    destruct (trace_lines_ok (length bt) bt (l ++ chars trace_title) c1) as (c2 & E2 & Hr2);
      try done; rewrite ?take_ge by lia; try done.
    + apply HL.
    + by apply (words_kept m).
    + rewrite take_ge in Hr2 by lia. exists c2. split; [exact E2|exact Hr2].
Qed.

Lemma report_calm msg eips :
  Forall plain msg → msg ≠ [] → calm false (report msg cr0 cr2 cr3 cr4 eips) = true.
Proof using.
  intros Hm Hne. unfold report, panic_lines, reg_lines, reg_line. rewrite <-!app_assoc.
  change (calm false (chars ("!!!PANIC!!!" +:+ newline) ++ ?k)) with (calm true k).
  rewrite calm_plain by done.
  assert (Hreg : ∀ name v k, Forall plain (chars (name +:+ ": 0x")) →
    calm true (chars (name +:+ ": 0x") ++ hex8 v ++ [10] ++ k) = calm true k).
  { intros name v k Hn. rewrite app_assoc, calm_plain; [done| |].
    - apply Forall_app. split; [done|apply hex8_plain].
    - intros E%app_nil. pose proof (hex8_length v). destruct E as [_ E]. rewrite E in H. simpl in H. lia. }
  change (calm false ([10] ++ ?k)) with (calm true k).
  rewrite !Hreg by (apply (forall_check _ (λ x, (13 <? x) && (x <? 256)));
    [unfold plain; simpl; lia|reflexivity]).
  change (calm true (chars trace_title ++ ?k)) with (calm true k). apply calm_word_lines.
Qed.

Lemma panic_report_ok msg_addr msg c :
  text m0 msg_addr msg → Forall plain msg → msg ≠ [] → (length msg ≤ 1000)%nat →
  reported [] c →
  ∃ c', panic_report lit lit_null nb buff saved ebp cr0 cr2 cr3 cr4 msg_addr c = Ok (tt, c') ∧
    reported (report msg cr0 cr2 cr3 cr4 (backtrace 32 m0 ebp)) c'.
Proof using HA Hx0 Hy0 Hnull HL Hframes.
  intros Hmsg Hp Hne Hlen Hr.
  pose proof (report_calm msg (backtrace 32 m0 ebp) Hp Hne) as Hcalm. unfold report in *.
  destruct formats_parse as (F1 & F2 & _). destruct pieces_ok as (P1 & P2 & _).
  destruct (print_ok panic_format (lit panic_format) panic_pieces [AStr msg_addr msg]
    (panic_lines msg) (12 + (Z.of_nat (length msg) + 1)) [] c Hr eq_refl) as (c1 & E1 & Hr1 & _).
  - rewrite F1. apply HL.
  - constructor; [exact Hmsg|constructor].
  - exact P1.
  - apply expand_panic.
  - unfold panic_lines. rewrite !Forall_app. split_and!; [|by apply plain_range|];
      apply (forall_check _ (λ x, (0 <? x) && (x <? 256))); (simpl; lia) || reflexivity.
  - unfold panic_lines. rewrite !length_app. change (length (chars _)) with 12%nat. simpl. lia.
  - by apply calm_prefix in Hcalm.
  - cbn [app] in Hr1. rewrite app_assoc in Hcalm |- *.
    destruct (expand_regs cr0 cr2 cr3 cr4) as [w Hw].
    destruct (print_ok fmt_string (lit fmt_string) fmt_pieces
      [AWord cr0; AWord cr2; AWord cr3; AWord cr4] (reg_lines cr0 cr2 cr3 cr4) w
      (panic_lines msg) c1 Hr1 eq_refl) as (c2 & E2 & Hr2 & _).
    + rewrite F2. apply HL.
    + by repeat constructor.
    + exact P2.
    + exact Hw.
    + unfold reg_lines, reg_line. rewrite !Forall_app.
      split_and!; try apply plain_range, hex8_plain;
        apply (forall_check _ (λ x, (0 <? x) && (x <? 256))); (simpl; lia) || reflexivity.
    + unfold reg_lines, reg_line. rewrite !length_app. change (length (chars _)) with 7%nat.
      pose proof (hex8_length cr0). pose proof (hex8_length cr2). pose proof (hex8_length cr3).
      pose proof (hex8_length cr4). simpl. lia.
    + by apply calm_prefix in Hcalm.
    + destruct (stack_trace_ok _ c2 Hr2 Hcalm) as (c3 & E3 & Hr3).
      exists c3. split; [|exact Hr3]. unfold panic_report, arch_panic_hook.
      rewrite (bind_Ok_M _ _ _ _ _ E1), (bind_Ok_M _ _ _ _ _ E2). exact E3.
Qed.
End report.

(** C26. What a panic shows: the message between the banner and a newline, the four
    control registers and then the return addresses found along the chain of frame
    pointers, at most 32 and the outermost first, each as eight hexadecimal digits,
    are drawn on the screen in this order; apart from the screen, the stack frame of
    kprintf and the array of addresses no memory changes; then the processor stops. *)
Theorem panic_reports t lit_null nb buff saved lit s0 c ebp cr0 cr2 cr3 cr4 msg_addr msg :
  let m0 := c_mem c in
  areas t nb buff saved → 0 ≤ s_y s0 ≤ 24 → shows t c s0 →
  text t nb buff saved m0 lit_null null_chars → literals t nb buff saved lit m0 →
  Forall (λ fp, ∀ i, 0 ≤ i < 8 → untouched t nb buff saved (fp + i)) (frames_of 32 m0 ebp) →
  text t nb buff saved m0 msg_addr msg →
  Forall plain msg → msg ≠ [] → (length msg ≤ 1000)%nat →
  ∃ s' c', panic_report lit lit_null nb buff saved ebp cr0 cr2 cr3 cr4 msg_addr c = Ok (tt, c') ∧
    draws (color_attrib c) (report msg cr0 cr2 cr3 cr4 (backtrace 32 m0 ebp)) s0 = Some s' ∧
    shows t c' s' ∧ same t nb buff saved m0 (c_mem c') ∧
    panic lit lit_null nb buff saved ebp cr0 cr2 cr3 cr4 msg_addr c = Halt.
Proof.
  intros m0 HA Hy Hs Hnull HL Hf Hmsg Hp Hne Hlen.
  assert (Hx : 0 ≤ s_x s0 ≤ 80) by apply Hs.
  destruct (panic_report_ok t lit_null nb buff saved lit HA s0 (color_attrib c) m0 Hx Hy Hnull HL
    ebp cr0 cr2 cr3 cr4 Hf msg_addr msg c Hmsg Hp Hne Hlen)
    as (c' & E & (s' & Hd & Hs') & _ & Hm).
  { split_and!; [by exists s0|done|by intros x _]. }
  exists s', c'. split_and!; try done. unfold panic. by rewrite (bind_Ok_M _ _ _ _ _ E).
Qed.

(** ** A concrete panic *)

Definition demo_lit (s : string) : Z :=
  if String.eqb s panic_format then 0x200 else if String.eqb s fmt_string then 0x240
  else if String.eqb s trace_title then 0x2C0 else 0x2E0.
Definition demo_msg : list Z := chars "Out of free frames".
(** Two frames at 0x6000 and 0x6100 *)
Definition demo_panic_mem : mem :=
  let m := write_bytes ∅ 0x100 (null_chars ++ [0]) in
  let m := write_bytes m 0x200 (chars panic_format ++ [0]) in
  let m := write_bytes m 0x240 (chars fmt_string ++ [0]) in
  let m := write_bytes m 0x2C0 (chars trace_title ++ [0]) in
  let m := write_bytes m 0x2E0 (chars trace_format ++ [0]) in
  let m := write_bytes m 0x400 (demo_msg ++ [0]) in
  let m := store32 (store32 m 0x6000 0x6100) 0x6004 0xFE800123 in
  store32 (store32 m 0x6100 0) 0x6104 0xFE800456.

Lemma demo_areas : areas 0xB8000 4096 8192 0x4000.
Proof. split; unfold reg, apart, KPRINT_BUFF_LEN; lia. Qed.
Lemma demo_texts :
  text 0xB8000 4096 8192 0x4000 demo_panic_mem 0x100 null_chars ∧
  text 0xB8000 4096 8192 0x4000 demo_panic_mem 0x400 demo_msg ∧
  literals 0xB8000 4096 8192 0x4000 demo_lit demo_panic_mem.
Proof.
  assert (Hap : ∀ a n b k, (a + n <=? b) || (b + k <=? a) = true → apart a n b k).
  { intros a n b k. unfold apart. rewrite orb_true_iff, !Z.leb_le. done. }
  split_and!; [| |split].
  all: split_and!; [apply cstr_check; [by vm_compute|by vm_compute|]|by apply Hap..].
  all: split_and!; [split; vm_compute; congruence|by apply Hap..].
Qed.
Lemma demo_frames_of : frames_of 32 demo_panic_mem 0x6000 = [0x6000; 0x6100].
Proof. by vm_compute. Qed.

Lemma panic_reports_witness :
  ∃ s' c', panic_report demo_lit 0x100 4096 8192 0x4000 0x6000 0x80010011 0 0x1000 0 0x400
      (demo_console demo_panic_mem) = Ok (tt, c') ∧
    draws 15 (report demo_msg 0x80010011 0 0x1000 0 [0xFE800123; 0xFE800456]) demo_screen = Some s' ∧
    shows 0xB8000 c' s'.
Proof.
  destruct demo_texts as (Hn & Hm & HL).
  destruct (panic_reports 0xB8000 0x100 4096 8192 0x4000 demo_lit demo_screen
    (demo_console demo_panic_mem) 0x6000 0x80010011 0 0x1000 0 0x400 demo_msg)
    as (s' & c' & E & Hd & Hs & _).
  - exact demo_areas.
  - simpl. lia.
  - apply demo_shows. vm_compute. reflexivity.
  - exact Hn.
  - exact HL.
  - change (c_mem (demo_console demo_panic_mem)) with demo_panic_mem. rewrite demo_frames_of.
    repeat constructor; unfold within, KPRINT_BUFF_LEN; wrap_lia.
  - exact Hm.
  - apply (forall_check _ (λ x, (13 <? x) && (x <? 256))); [unfold plain; simpl; lia|reflexivity].
  - done.
  - vm_compute. lia.
  - exists s', c'. split; [exact E|]. split; [|exact Hs].
    assert (backtrace 32 demo_panic_mem 0x6000 = [0xFE800123; 0xFE800456]) as <-
      by (vm_compute; reflexivity). exact Hd.
Defined.
