(* ===== verification/Kmem.v ===== *)
(** * Kmem: the kernel's own address space

    kern/kmem.c: the sections of the kernel image, the screen and the heap are
    mapped into the kernel's page directory, the directory is loaded and the heap
    initialised; the handler of page faults reports and stops.

    The tables are built in physical memory, the console and the heap are used
    through their kernel addresses: the state has one memory for each. *)

From S2P Require Import Prelude Machine ArchPaging KInfo Exec Paging.
From S2P Require Kmalloc.
From S2P Require Import Printf Console.

(** A call of log (log.h:5): what it prints is the subject of Console and
    KcallProps; here it is recorded. *)
Record note := Note { n_level : string; n_line : Z; n_msg : string; n_args : list Z }.

Record kmem_st := KmemSt {
  km_log : list note;
  km_pg : paging_st;
  km_heap : Kmalloc.kheap;
}.
Definition on_pg {A} (c : P A) : M kmem_st A := λ s,
  '(a, pg) ← c (km_pg s); Ok (a, KmemSt (km_log s) pg (km_heap s)).
Definition on_heap {A} (c : M Kmalloc.kheap A) : M kmem_st A := λ s,
  '(a, h) ← c (km_heap s); Ok (a, KmemSt (km_log s) (km_pg s) h).
Definition km_note (n : note) : M kmem_st unit :=
  modify (λ s, KmemSt (km_log s ++ [n]) (km_pg s) (km_heap s)).

(** The symbols of link.ld that the code uses *)
Record ksyms := Ksyms {
  kernel_start : Z;
  ktable_end : Z;
  kernel_text_end : Z;
  kernel_bss_start : Z;
  kernel_bss_end : Z;
  kernel_rodata_end : Z;
  kernel_stack_guard_start : Z;
  kernel_stack_start : Z;
  kernel_stack_end : Z;
  console_debug : Z;
}.

(** kmem.c:28, not implemented yet *)
Definition mmap (vaddr paddr page_table_ptr flags : Z) : Z := 0.

Section kmem.
(** The tables of paging_utils.c, K_HIGH_VMA and the linker's symbols *)
Context (debug : bool) (boot_page_directory page_directory kernel_pt bootstrap_pt K_HIGH_VMA : Z)
  (y : ksyms).

Abbreviation KMAP := (kmap page_directory K_HIGH_VMA debug).

(** kmem.c:75; [info] is the static [kinfo] *)
Definition kmem_map_kernel_memory : P unit :=
  let kernel_data_end := kernel_stack_guard_start y in
  let rw := Z.lor KMAP_PROT_READ KMAP_PROT_WRITE in
  _ ← bootstrap_map_boot_modules page_directory kernel_pt bootstrap_pt K_HIGH_VMA;
  let kernel_start_phys := kernel_start y ⊟ K_HIGH_VMA in
  let curr_addr_phys := kernel_start_phys in
  let curr_addr := kernel_start y in
  (* .ktable *)
  let size := ktable_end y ⊟ kernel_start y in
  _ ← KMAP curr_addr curr_addr_phys size rw;
  let curr_addr_phys := curr_addr_phys ⊞ size in
  let curr_addr := curr_addr ⊞ size in
  (* .text *)
  let size := kernel_text_end y ⊟ ktable_end y in
  _ ← KMAP curr_addr curr_addr_phys size (Z.lor KMAP_PROT_READ KMAP_PROT_EXEC);
  let curr_addr_phys := curr_addr_phys ⊞ size in
  let curr_addr := curr_addr ⊞ size in
  (* .bss *)
  let size := kernel_bss_end y ⊟ kernel_bss_start y in
  _ ← KMAP curr_addr curr_addr_phys size rw;
  let curr_addr_phys := curr_addr_phys ⊞ size in
  let curr_addr := curr_addr ⊞ size in
  (* .rodata *)
  let size := kernel_rodata_end y ⊟ kernel_bss_end y in
  _ ← KMAP curr_addr curr_addr_phys size KMAP_PROT_READ;
  let curr_addr_phys := curr_addr_phys ⊞ size in
  let curr_addr := curr_addr ⊞ size in
  (* .data *)
  let size := kernel_data_end ⊟ kernel_rodata_end y in
  _ ← KMAP curr_addr curr_addr_phys size rw;
  let curr_addr_phys := curr_addr_phys ⊞ size in
  let curr_addr := curr_addr ⊞ size in
  (* stack guard page *)
  _ ← KMAP curr_addr 0 ARCH_PAGE_SIZE KMAP_PROT_NONE;
  let curr_addr := curr_addr ⊞ PAGE_SIZE in
  let curr_addr_phys := curr_addr_phys ⊞ PAGE_SIZE in
  (* .stack *)
  let size := kernel_stack_end y ⊟ kernel_stack_start y in
  _ ← KMAP curr_addr curr_addr_phys size rw;
  let curr_addr := curr_addr ⊞ size in
  _ ← KMAP (console_debug y) 0x000B8000 ARCH_PAGE_SIZE rw;
  let curr_addr := curr_addr ⊞ ARCH_PAGE_SIZE in
  maps ← gets (λ s, memmaps (p_kinfo s));
  match maps with
  | [] => ub "empty memory map"
  | e :: _ =>
      _ ← ASSERT debug (mm_len e >? CONF_KHEAP_SIZE);
      let kheap_start := curr_addr in
      _ ← KMAP kheap_start PAGE_ALLOCATE CONF_KHEAP_SIZE rw;
      modify (p_with_kinfo (λ k,
        with_kheap_range (MemRange kheap_start (range_end (kheap_range k))) k))
  end.

(** kmem.c:54; the static [kinfo] of this file and that of paging_utils.c point
    to the same structure *)
Definition kmem_init (info : kernel_info_t) : M kmem_st unit :=
  _ ← on_pg (bootstrap_init_kinfo info);
  _ ← km_note (Note "INFO" 60 "Remapping kernel" []);
  _ ← on_pg kmem_map_kernel_memory;
  _ ← on_pg (bootstrap_load_kernel_mappings page_directory);
  _ ← km_note (Note "INFO" 64 "Initializing kheap" []);
  start ← gets (λ s, range_start (kheap_range (p_kinfo (km_pg s))));
  on_heap (Kmalloc.kmalloc_init debug start CONF_KHEAP_SIZE).

(** kmem.c:68 *)
Definition kmem_init_cleanup : M kmem_st unit :=
  on_pg (bootstrap_load_boot_mappings boot_page_directory).
End kmem.

(** ** Page faults *)

Section page_fault.
(** The addresses of the literals, the stack frame of kprintf, %cr2 *)
Context (lit : string → Z) (lit_null num_buf buff : Z) (arch_get_faulting_addr : Z).

(** log.h:5 with level ERROR in kmem.c *)
Definition log_error (line : Z) (format : string) (args : list Z) : M console Z := λ c,
  kprintf lit_null num_buf buff (lit ("[ERROR:%s:%d] %s" +:+ newline))
    (lit "kmem.c" :: line :: lit format :: args) c.

(** kmem.c:33: what is printed, and the stop *)
Definition page_fault_report (err_code : Z) : M console unit :=
  let faulting_address := arch_get_faulting_addr in
  let present := c_bool (negb (c_true (Z.land err_code 0x1))) in
  let rw := Z.land err_code 0x2 in
  let us := Z.land err_code 0x4 in
  let id := Z.land err_code 0x10 in
  _ ← log_error 43 "Page fault at 0x%08x!" [faulting_address];
  _ ← log_error 44 ("Page not present: %d" +:+ newline +:+ "RO: %d" +:+ newline +:+
                    "User-mode: %d" +:+ newline +:+ "Cause: %s")
        [present; rw; us;
         if c_true id then lit "Instruction fetch" else lit "Direct access"];
  mret tt.
Definition page_fault_handler (err_code : Z) : M console unit :=
  _ ← page_fault_report err_code;
  halt.
End page_fault.
