(* ===== verification/KmemProps.v ===== *)
(** * KmemProps: the address space the kernel runs in

    kmem_map_kernel_memory makes the kernel's page directory translate exactly
    what a reference map of the address space says. *)

From S2P Require Import Prelude Machine ArchPaging KInfo Exec Paging PagingInv PagingProps Space.
From S2P Require Kmalloc KmallocClient.
From S2P Require Import Printf Console Kmem.

(** ** The requests the routine makes *)

(** An address outside a range *)
Lemma out_linear a n x :
  0 ≤ x < 4294967296 → 0 ≤ a → a + n ≤ 4294967296 → x < a ∨ a + n ≤ x → ¬ within a n x.
Proof. intros. unfold within. wrap_lia. Qed.

Section layout.
Context (page_directory kernel_pt bootstrap_pt K_HIGH_VMA : Z) (y : ksyms).
Abbreviation vma := K_HIGH_VMA.

(** What link.ld promises, for a kernel whose image ends in the first 4 MB above
    K_HIGH_VMA *)
Record kernel_layout : Prop := {
  kl_vma : 4194304 ≤ vma ∧ vma mod 4194304 = 0 ∧ vma + 20971520 ≤ 4294967296;
  kl_pages : kernel_start y mod 4096 = 0 ∧ ktable_end y mod 4096 = 0 ∧
    kernel_text_end y mod 4096 = 0 ∧ kernel_bss_end y mod 4096 = 0 ∧
    kernel_rodata_end y mod 4096 = 0 ∧ kernel_stack_guard_start y mod 4096 = 0 ∧
    kernel_stack_end y mod 4096 = 0;
  kl_order : vma < kernel_start y < ktable_end y ∧ ktable_end y < kernel_text_end y ∧
    kernel_bss_start y = kernel_text_end y ∧ kernel_bss_start y < kernel_bss_end y ∧
    kernel_bss_end y < kernel_rodata_end y ∧
    kernel_rodata_end y < kernel_stack_guard_start y ∧
    kernel_stack_start y = kernel_stack_guard_start y + 4096 ∧
    kernel_stack_start y < kernel_stack_end y ∧ console_debug y = kernel_stack_end y ∧
    kernel_stack_end y + 8192 ≤ vma + 4194304;
  kl_tables : Forall (λ t, kernel_start y ≤ t ∧ t + 4096 ≤ ktable_end y ∧ t mod 4096 = 0)
    [page_directory; kernel_pt; bootstrap_pt];
  kl_apart : page_directory ≠ kernel_pt ∧ page_directory ≠ bootstrap_pt ∧ kernel_pt ≠ bootstrap_pt;
}.

Definition heap_start : Z := kernel_stack_end y + 4096.

(** A part of the image at its place in physical memory *)
Definition image_req (lo hi flags : Z) : req := Req lo (lo - vma) (hi - lo) flags.
Definition kernel_reqs : list req := [
  image_req (kernel_start y) (ktable_end y) 3;
  image_req (ktable_end y) (kernel_text_end y) 9;
  image_req (kernel_bss_start y) (kernel_bss_end y) 3;
  image_req (kernel_bss_end y) (kernel_rodata_end y) 1;
  image_req (kernel_rodata_end y) (kernel_stack_guard_start y) 3;
  Req (kernel_stack_guard_start y) PAGE_ALLOCATE 4096 0;
  image_req (kernel_stack_start y) (kernel_stack_end y) 3;
  Req (console_debug y) 0xB8000 4096 3].
Definition heap_req : req := Req heap_start PAGE_ALLOCATE CONF_KHEAP_SIZE 3.

Hypothesis L : kernel_layout.

(** Pages of a request in addresses *)
Lemma covers_addr r v : req_ok r →
  covers r v ↔ r_vaddr r ≤ 4096 * v < r_vaddr r + r_size r.
Proof using. intros Hok. pose proof (req_bounds r Hok). unfold covers. lia. Qed.

Lemma image_req_ok lo hi flags :
  vma < lo < hi → hi ≤ vma + 4194304 → lo mod 4096 = 0 → hi mod 4096 = 0 →
  req_ok (image_req lo hi flags).
Proof using L.
  destruct L as [(V1 & V2 & V3) _ _ _ _]. intros H1 H2 H3 H4.
  assert (E : r_page (image_req lo hi flags) / 1024 = vma / 4194304 ∧
    r_page (image_req lo hi flags) mod 1024 + r_pages (image_req lo hi flags) ≤ 1024 ∧
    0 < r_pages (image_req lo hi flags) < 1024 ∧ vma / 4194304 ≤ 1019).
  { unfold r_page, r_pages. simpl. clear -V1 V2 V3 H1 H2 H3 H4. Z.to_euclidean_division_equations. lia. }
  destruct E as (E1 & E2 & E3 & E4). constructor.
  - constructor; simpl; clear -V1 V2 V3 H1 H2 H3 H4; Z.to_euclidean_division_equations; lia.
  - rewrite E1, (Z.div_small (r_pages _)) by lia. lia.
  - rewrite (Z.mod_small (r_pages _)) by lia. done.
Qed.

Lemma page_req_ok a paddr flags :
  vma < a → a + 4096 ≤ vma + 4194304 → a mod 4096 = 0 →
  0 ≤ paddr → paddr mod 4096 = 0 → paddr + 4096 ≤ 4294967296 → req_ok (Req a paddr 4096 flags).
Proof using L.
  intros H1 H2 H3 Hp0 Hp1 Hp2. destruct (image_req_ok a (a + 4096) flags) as [[R1 _ R3] R4 R5];
    [lia|lia|done|clear -H3; Z.to_euclidean_division_equations; lia|].
  unfold r_page, r_pages, image_req in *. simpl in *. rewrite Z.add_simpl_l in *.
  constructor; [constructor|..]; simpl; [lia|lia|done|done|done].
Qed.

Lemma heap_req_ok : req_ok heap_req.
Proof using L.
  destruct L as [(V1 & V2 & V3) HP HO _ _].
  assert (E : heap_start mod 4096 = 0 ∧ vma < heap_start < vma + 4194304).
  { destruct HP as (_ & _ & _ & _ & _ & _ & HP). clear -HP HO V1 V2 V3. unfold heap_start.
    Z.to_euclidean_division_equations. lia. }
  assert (E2 : r_page heap_req / 1024 = vma / 4194304 ∧ vma / 4194304 ≤ 1019 ∧ r_pages heap_req = 4096).
  { unfold r_page, r_pages, heap_req, CONF_KHEAP_SIZE. simpl r_vaddr. simpl r_size.
    clear -E V1 V2 V3. split_and!; [|clear E|reflexivity];
      Z.to_euclidean_division_equations; lia. }
  destruct E2 as (E1 & E2 & E3). constructor.
  - constructor; unfold heap_req, CONF_KHEAP_SIZE, PAGE_ALLOCATE; simpl; split_and!;
      [lia|apply E|lia|lia|reflexivity|lia|lia|reflexivity].
  - rewrite E1, E3. change (4096 / 1024) with 4. lia.
  - rewrite E3. change (4096 mod 1024) with 0. pose proof (Z.mod_pos_bound (r_page heap_req) 1024). lia.
Qed.

(** ** The tables at the start *)

Abbreviation pd := (kphys vma page_directory).
Abbreviation kp := (kphys vma kernel_pt).
Abbreviation bp := (kphys vma bootstrap_pt).

Lemma table_phys t : kernel_start y ≤ t → t + 4096 ≤ ktable_end y →
  kphys vma t = t - vma ∧ 0 < kphys vma t ∧ kphys vma t + 4096 ≤ 4194304.
Proof using L.
  destruct L as [(V1 & V2 & V3) _ HO _ _]. intros H1 H2. unfold kphys. rewrite u32_small; lia.
Qed.

Lemma tables_phys :
  pd = page_directory - vma ∧ kp = kernel_pt - vma ∧ bp = bootstrap_pt - vma ∧
  (0 < pd ∧ pd + 4096 ≤ ktable_end y - vma) ∧ (0 < kp ∧ kp + 4096 ≤ ktable_end y - vma) ∧
  (0 < bp ∧ bp + 4096 ≤ ktable_end y - vma) ∧ ktable_end y - vma ≤ 4194304 ∧
  pd mod 4096 = 0 ∧ kp mod 4096 = 0 ∧ bp mod 4096 = 0 ∧
  (pd + 4096 ≤ kp ∨ kp + 4096 ≤ pd) ∧ (pd + 4096 ≤ bp ∨ bp + 4096 ≤ pd) ∧
  (kp + 4096 ≤ bp ∨ bp + 4096 ≤ kp).
Proof using L.
  pose proof L as [(V1 & V2 & V3) _ HO HT HA].
  apply Forall_cons in HT as [(P1 & P2 & P3) HT]. apply Forall_cons in HT as [(K1 & K2 & K3) HT].
  apply Forall_cons in HT as [(B1 & B2 & B3) _].
  destruct (table_phys _ P1 P2) as (-> & ? & ?), (table_phys _ K1 K2) as (-> & ? & ?),
    (table_phys _ B1 B2) as (-> & ? & ?).
  split_and!; try lia; clear -V2 P3 K3 B3 HA; Z.to_euclidean_division_equations; lia.
Qed.

(** What the routine finds: enough frames behind the tables, modules the loader
    placed, and tables that are still empty *)
Record boot_ready (s : paging_st) (A n : Z) : Prop := {
  br_supply : supply s A n;
  br_behind : ktable_end y - vma ≤ A;
  br_enough : 6144 ≤ n;
  br_vma : kernel_high_vma (p_kinfo s) = vma;
  br_mods : 0 ≤ no_modules (p_kinfo s) ≤ Z.of_nat (length (modules (p_kinfo s))) ∧
    Forall module_ok (take (Z.to_nat (no_modules (p_kinfo s))) (modules (p_kinfo s)));
  br_empty : ∀ i, 0 ≤ i < 1024 →
    load32 (p_mem s) (entry pd i) = 0 ∧ load32 (p_mem s) (entry kp i) = 0;
}.

(** The pages identity-mapped at boot: the first megabyte and the modules *)
Definition boot_modules (k : kernel_info_t) : list boot_module :=
  take (Z.to_nat (no_modules k)) (modules k).
Definition boot_page (k : kernel_info_t) (v : Z) : bool :=
  (v <? 256) ||
  existsb (λ md, (start_paddr md <=? 4096 * v) && (4096 * v <? end_paddr md)) (boot_modules k).

Lemma boot_page_spec k v :
  if boot_page k v then v < 256 ∨ ∃ md, md ∈ boot_modules k ∧ module_page md v
  else 256 ≤ v ∧ ∀ md, md ∈ boot_modules k → ¬ module_page md v.
Proof using.
  unfold boot_page, module_page. destruct (Z.ltb_spec v 256); simpl; [by left|].
  destruct (existsb _ _) eqn:E.
  - apply existsb_exists in E as (md & Hin%list_elem_of_In & Hb). right. exists md. split; [done|]. lia.
  - split; [done|]. intros md Hin Hp. rewrite <-not_true_iff_false in E. apply E, existsb_exists.
    exists md. split; [by apply list_elem_of_In|]. lia.
Qed.

(** The directory entry of the kernel *)
Definition kernel_dir : Z := vma / 4194304.
Lemma kernel_dir_range : 0 < kernel_dir ≤ 1019.
Proof using L.
  destruct L as [(V1 & V2 & V3) _ _ _ _]. unfold kernel_dir.
  clear -V1 V2 V3. Z.to_euclidean_division_equations. lia.
Qed.

Lemma boot_tables_ok s A n :
  boot_ready s A n →
  ∃ m1, bootstrap_map_boot_modules page_directory kernel_pt bootstrap_pt vma s =
      Ok (tt, PagingSt m1 (p_kinfo s) (p_cr3 s)) ∧
    space pd (PagingSt m1 (p_kinfo s) (p_cr3 s)) A n ∧
    (∀ i, 0 ≤ i < 1024 → pde pd m1 i = if i =? 0 then bp + 3 else if i =? kernel_dir then kp + 3 else 0) ∧
    (∀ x, ¬ within pd 4096 x → ¬ within bp 4096 x → load8 m1 x = load8 (p_mem s) x) ∧
    (∀ v, 0 ≤ v < 1048576 → epte pd m1 v =
       if v <? 1024 then if boot_page (p_kinfo s) v then 4096 * v + 3 else 0 else 0).
Proof using L.
  intros [Hsup Hbeh Hn Hvma [Hno Hmods] Hz]. pose proof L as [(V1 & V2 & V3) _ _ _ _].
  destruct tables_phys as (Ep & Ek & Eb & Hp & Hk & Hb & Hke & Hpm & Hkm & Hbm & Hpk & Hpb & Hkb).
  destruct (boot_modules_identity page_directory kernel_pt bootstrap_pt vma s)
    as (m1 & Hrun & I1 & I2 & D0 & Dk & Hout); [lia|lia|lia|lia|lia|lia|done|].
  fold kernel_dir in Dk, Hout |- *. pose proof kernel_dir_range as Hd.
  set (d := kernel_dir) in *. set (s1 := PagingSt m1 (p_kinfo s) (p_cr3 s)).
  rewrite Hvma, <-Eb in D0. rewrite <-Ek in Dk. rewrite u32_small in D0, Dk by lia.
  replace (bp / 4096 * 4096) with bp in D0 by (clear -Hbm; Z.to_euclidean_division_equations; lia).
  replace (kp / 4096 * 4096) with kp in Dk by (clear -Hkm; Z.to_euclidean_division_equations; lia).
  destruct (entry_parts bp 3) as (_ & T0 & _ & P0); [lia|done|lia|].
  destruct (entry_parts kp 3) as (_ & Tk & _ & Pk); [lia|done|lia|].
  assert (Hpde : ∀ i, 0 ≤ i < 1024 → pde pd m1 i = if i =? 0 then bp + 3 else if i =? d then kp + 3 else 0).
  { intros i Hi. unfold pde. destruct (Z.eqb_spec i 0) as [->|N0]; [done|].
    destruct (Z.eqb_spec i d) as [->|Nd]; [done|]. rewrite <-(proj1 (Hz i Hi)).
    apply load32_ext. intros b Hb'. apply Hout; apply out_linear; unfold entry; clear -Hp Hb Hpb Hke Hi N0 Nd Hd Hb'; lia. }
  exists m1. split; [exact Hrun|]. split; [|split; [exact Hpde|split]].
  - constructor; [by destruct Hsup; constructor|]. destruct Hsup as [_ (? & ? & ? & ?)].
    constructor; [lia|lia| |].
    + intros i Hi. cbn [p_mem]. unfold table. rewrite (Hpde i Hi).
      destruct (Z.eqb_spec i 0); [|destruct (Z.eqb_spec i d); [|intros []; reflexivity]].
      * intros _. split; [exact P0|]. rewrite T0. lia.
      * intros _. split; [exact Pk|]. rewrite Tk. lia.
    + intros i j Hi Hj. cbn [p_mem]. unfold table. rewrite (Hpde i Hi), (Hpde j Hj).
      intros Hzi Hzj Hne. destruct (Z.eqb_spec i 0), (Z.eqb_spec j 0), (Z.eqb_spec i d), (Z.eqb_spec j d);
        try lia; rewrite ?T0, ?Tk; lia.
  - intros x X1 X2. apply Hout; [done|contradict X1..]; unfold within, entry in *;
      clear -X1 Hp Hd Hke; wrap_lia.
  - intros v Hv. unfold epte, pte, table.
    rewrite Hpde by (clear -Hv; Z.to_euclidean_division_equations; lia).
    destruct (Z.ltb_spec v 1024) as [Hlt|Hge].
    + rewrite (Z.div_small v), (Z.mod_small v) by lia. cbn [Z.eqb]. rewrite decide_False by lia. rewrite T0.
      pose proof (boot_page_spec (p_kinfo s) v) as Hbs. destruct (boot_page _ v).
      * apply I1; [lia|exact Hbs].
      * apply I2; [lia|apply Hbs].
    + assert (0 < v / 1024) by (clear -Hge; Z.to_euclidean_division_equations; lia).
      rewrite (proj2 (Z.eqb_neq (v / 1024) 0)) by lia. destruct (Z.eqb_spec (v / 1024) d); [|done].
      rewrite decide_False by lia. rewrite Tk. pose proof (Z.mod_pos_bound v 1024 ltac:(lia)) as Hm.
      rewrite <-(proj2 (Hz _ Hm)). apply load32_ext. intros b Hb'.
      apply Hout; apply out_linear; unfold entry; clear -Hp Hk Hb Hpk Hkb Hke Hm Hd Hb'; lia.
Qed.

(** ** The sequence of calls *)

Lemma u32_next a b : 0 ≤ b < 4294967296 → u32 (a + u32 (b - a)) = b.
Proof using. intros. wrap_lia. Qed.
Lemma u32_next_phys a b v : u32 (u32 (a - v) + u32 (b - a)) = u32 (b - v).
Proof using. rewrite u32_add_l, u32_add_r. f_equal. lia. Qed.

Lemma map_req_cons_inv debug info r rs s s' :
  mfor (r :: rs) (map_req debug info) s = Ok (tt, s') →
  ∃ a s1, bootstrap_mmap debug info (r_paddr r) (r_vaddr r) (r_size r) (r_flags r) s = Ok (a, s1) ∧
    mfor rs (map_req debug info) s1 = Ok (tt, s').
Proof using.
  cbn [mfor]. unfold map_req, mbind, M_bind.
  destruct (bootstrap_mmap _ _ _ _ _ _ s) as [[a s1]| | | |]; try discriminate.
  intros H. exists a, s1. split; [reflexivity|exact H].
Qed.

(** The addresses of the sections in order *)
Lemma image_bounds :
  Forall (λ a, 0 ≤ a < 4294967296 ∧ 0 ≤ a - vma < 4294967296)
    [kernel_start y; ktable_end y; kernel_text_end y; kernel_bss_start y; kernel_bss_end y;
     kernel_rodata_end y; kernel_stack_guard_start y; kernel_stack_start y; kernel_stack_end y;
     heap_start].
Proof using L.
  pose proof L as [(V1 & V2 & V3) _ HO _ _]. unfold heap_start.
  repeat (apply Forall_cons; split); try lia. apply Forall_nil_2.
Qed.

(** The routine is the boot mappings, the requests for the image and the screen,
    and the request for the heap. *)
Lemma kmem_map_run debug s m1 s2 s3 e rest :
  bootstrap_map_boot_modules page_directory kernel_pt bootstrap_pt vma s =
    Ok (tt, PagingSt m1 (p_kinfo s) (p_cr3 s)) →
  mfor kernel_reqs (map_req debug (k_exec_info page_directory vma))
    (PagingSt m1 (p_kinfo s) (p_cr3 s)) = Ok (tt, s2) →
  memmaps (p_kinfo s2) = e :: rest → CONF_KHEAP_SIZE < mm_len e →
  mfor [heap_req] (map_req debug (k_exec_info page_directory vma)) s2 = Ok (tt, s3) →
  kmem_map_kernel_memory debug page_directory kernel_pt bootstrap_pt vma y s =
    Ok (tt, p_with_kinfo (λ k, with_kheap_range
          (MemRange heap_start (range_end (kheap_range k))) k) s3).
Proof using L.
  intros E0 E1 Em El E2. pose proof L as [_ _ HO _ _].
  destruct HO as (O1 & O2 & Obss & O3 & O4 & O5 & Ostk & O6 & Ocon & O7).
  pose proof image_bounds as HB. repeat (apply Forall_cons in HB as [? HB]). clear HB.
  apply map_req_cons_inv in E2 as (ah & sh & Eh & E2). injection E2 as <-.
  unfold kernel_reqs in E1.
  repeat match goal with H : mfor (_ :: _) _ _ = _ |- _ =>
    apply map_req_cons_inv in H as (? & ? & ? & H) end.
  injection E1 as <-. unfold kmem_map_kernel_memory. cbv zeta.
  rewrite (bind_Ok_M _ _ _ _ _ E0). unfold image_req, heap_req in *. cbn [r_paddr r_vaddr r_size r_flags] in *.
  assert (Eg : u32 (kernel_stack_guard_start y + PAGE_SIZE) = kernel_stack_start y)
    by (rewrite Ostk; apply u32_small; unfold PAGE_SIZE, ARCH_PAGE_SIZE; lia).
  assert (Egp : u32 (u32 (kernel_stack_guard_start y - vma) + PAGE_SIZE) = u32 (kernel_stack_start y - vma)).
  { rewrite u32_add_l, Ostk. f_equal. unfold PAGE_SIZE, ARCH_PAGE_SIZE. lia. }
  assert (Ehp : u32 (kernel_stack_end y + ARCH_PAGE_SIZE) = heap_start)
    by (apply u32_small; unfold ARCH_PAGE_SIZE; unfold heap_start in *; lia).
  rewrite Obss in *. rewrite !u32_next_phys, !u32_next by lia. rewrite Eg, Egp, !u32_next, Ehp by lia.
  rewrite !u32_small by lia.
  repeat match goal with H : bootstrap_mmap _ _ _ _ _ _ ?s0 = Ok (_, ?s1) |- context [?s0] =>
    rewrite (bind_Ok_M _ _ _ _ _ H); clear H end.
  rewrite gets_bind, Em.
  assert (EA : ∀ st : paging_st, ASSERT debug (mm_len e >? CONF_KHEAP_SIZE) st = Ok (tt, st)).
  { intros st. unfold ASSERT. rewrite (proj2 (Z.gtb_lt _ _) El). by rewrite andb_false_r. }
  rewrite (bind_Ok_M _ _ _ _ _ (EA _)).
  rewrite (bind_Ok_M _ _ _ _ _ Eh). reflexivity.
Qed.

(** ** The reference map *)

Definition in_range (lo hi a : Z) : bool := (lo <=? a) && (a <? hi).

Lemma in_range_spec lo hi a : in_range lo hi a = true ↔ lo ≤ a < hi.
Proof using. unfold in_range. rewrite andb_true_iff, Z.leb_le, Z.ltb_lt. lia. Qed.

(** The protection of an address of the image: code and constants read-only *)
Definition image_flags (a : Z) : option Z :=
  if in_range (kernel_start y) (ktable_end y) a then Some 3
  else if in_range (ktable_end y) (kernel_text_end y) a then Some 1
  else if in_range (kernel_bss_start y) (kernel_bss_end y) a then Some 3
  else if in_range (kernel_bss_end y) (kernel_rodata_end y) a then Some 1
  else if in_range (kernel_rodata_end y) (kernel_stack_guard_start y) a then Some 3
  else if in_range (kernel_stack_start y) (kernel_stack_end y) a then Some 3
  else None.

Lemma image_flags_none a : image_flags a = None →
  ¬ kernel_start y ≤ a < ktable_end y ∧ ¬ ktable_end y ≤ a < kernel_text_end y ∧
  ¬ kernel_bss_start y ≤ a < kernel_bss_end y ∧ ¬ kernel_bss_end y ≤ a < kernel_rodata_end y ∧
  ¬ kernel_rodata_end y ≤ a < kernel_stack_guard_start y ∧
  ¬ kernel_stack_start y ≤ a < kernel_stack_end y.
Proof using.
  unfold image_flags. rewrite <-!in_range_spec.
  repeat match goal with |- context [if ?b then _ else _] => destruct b eqn:? end;
    [done..|]. intros _. split_and!; congruence.
Qed.

(** Page [v] of the kernel's address space, with the heap in the frames from [B]
    on: the frame and the flags, or nothing *)
Definition kernel_map (k : kernel_info_t) (B v : Z) : option (Z * Z) :=
  let a := 4096 * v in
  if v <? 1024 then if boot_page k v then Some (a, 3) else None
  else match image_flags a with
  | Some f => Some (a - vma, f)
  | None =>
      if in_range (console_debug y) (console_debug y + 4096) a then Some (0xB8000, 3)
      else if in_range heap_start (heap_start + CONF_KHEAP_SIZE) a
      then Some (B + (a - heap_start), 3)
      else None
  end.

(** ** All requests together *)

Definition all_reqs : list req := kernel_reqs ++ [heap_req].

Lemma all_reqs_ok : Forall req_ok all_reqs.
Proof using L.
  pose proof L as [HV HP HO _ _]. apply Forall_app. split; [|by apply Forall_singleton, heap_req_ok].
  destruct HV as (V1 & V2 & V3).
  destruct HP as (P1 & P2 & P3 & P4 & P5 & P6 & P7).
  destruct HO as (O1 & O2 & Obss & O3 & O4 & O5 & Ostk & O6 & Ocon & O7).
  assert (Pb : kernel_bss_start y mod 4096 = 0) by (by rewrite Obss).
  assert (Ps : kernel_stack_start y mod 4096 = 0).
  { rewrite Ostk. clear -P6. Z.to_euclidean_division_equations. lia. }
  assert (Pc : console_debug y mod 4096 = 0) by (by rewrite Ocon).
  unfold kernel_reqs. repeat (apply Forall_cons; split); try (apply image_req_ok; done || lia);
    try apply Forall_nil_2; apply page_req_ok; try done; unfold PAGE_ALLOCATE; lia.
Qed.

Lemma all_reqs_ascending : ascending (vma + 1) all_reqs ∧
  Forall (λ r, vma ≤ r_vaddr r < vma + 4194304) all_reqs.
Proof using L.
  pose proof L as [_ _ HO _ _]. destruct HO as (O1 & O2 & Obss & O3 & O4 & O5 & Ostk & O6 & Ocon & O7).
  unfold all_reqs, kernel_reqs, heap_req, heap_start, CONF_KHEAP_SIZE. simpl.
  split; [split_and!; done || lia|]. repeat (apply Forall_cons; split); try (simpl; lia).
  apply Forall_nil_2.
Qed.

Lemma all_reqs_dir r : r ∈ all_reqs → r_page r / 1024 = kernel_dir.
Proof using L.
  intros Hin. destruct all_reqs_ascending as [_ Hw]. rewrite Forall_forall in Hw.
  specialize (Hw r Hin). destruct L as [(V1 & V2 & V3) _ _ _ _]. unfold r_page, kernel_dir.
  clear -V1 V2 Hw. Z.to_euclidean_division_equations. lia.
Qed.

Lemma need_image r : r_pages r < 1024 → req_ok r → 4096 * need r = r_size r + 4096.
Proof using.
  intros H Hok. pose proof (req_bounds r Hok) as (_ & Es & _ & Hp & _). unfold need.
  rewrite (Z.div_small (r_pages r)) by lia. lia.
Qed.

Lemma all_reqs_needs : needs all_reqs ≤ 6144 ∧ needs kernel_reqs ≤ 2048.
Proof using L.
  pose proof all_reqs_ok as Hok. pose proof L as [(V1 & V2 & V3) _ HO _ _].
  destruct HO as (O1 & O2 & Obss & O3 & O4 & O5 & Ostk & O6 & Ocon & O7).
  assert (Hn : Forall (λ r, 4096 * need r = r_size r + 4096) kernel_reqs).
  { apply Forall_app in Hok as [Hok _]. unfold kernel_reqs in *.
    repeat (apply Forall_cons in Hok as [? Hok]; apply Forall_cons; split;
      [apply need_image; [unfold r_pages; simpl; apply Z.div_lt_upper_bound; lia|done]|]).
    apply Forall_nil_2. }
  unfold all_reqs. unfold kernel_reqs in Hn |- *.
  repeat (apply Forall_cons in Hn as [? Hn]). simpl r_size in *. simpl needs.
  change (need heap_req) with 4101. lia.
Qed.

(** The tables of the range exist and its pages are free at the start. *)
Lemma all_reqs_free m1 k :
  table pd m1 kernel_dir = kp →
  (∀ v, 0 ≤ v < 1048576 → epte pd m1 v =
     if v <? 1024 then if boot_page k v then 4096 * v + 3 else 0 else 0) →
  Forall (λ r, table pd m1 (r_page r / 1024) ≠ 0 ∧ ∀ v, covers r v → epte pd m1 v = 0) all_reqs.
Proof using L.
  intros Ht He. pose proof L as [(V1 & V2 & V3) _ _ _ _].
  destruct tables_phys as (_ & _ & _ & _ & Hk & _).
  pose proof all_reqs_ok as Hok. destruct all_reqs_ascending as [_ Hw].
  rewrite Forall_forall in Hok, Hw |- *. intros r Hin. specialize (Hok r Hin). specialize (Hw r Hin).
  pose proof (req_bounds r Hok) as (Ev & Es & Hp0 & Hp1 & Hp2).
  split; [rewrite all_reqs_dir, Ht by done; lia|]. intros v Hv. unfold covers in Hv. rewrite He by lia.
  rewrite (proj2 (Z.ltb_ge _ _)); [done|lia].
Qed.

(** ** What the unit translates at the end *)

Abbreviation kinfo_exec := (k_exec_info page_directory vma).

Section served.
Context (s1 s3 : paging_st) (A n u : Z).
Context (Hsp : space pd s1 A n) (Hm : maps kinfo_exec all_reqs s1 A n s3 u).

(** A page of a request that names its frames *)
Lemma walk_in v r f :
  r ∈ all_reqs → r_vaddr r ≤ 4096 * v < r_vaddr r + r_size r →
  r_paddr r ≠ 0 → mmap_flags (r_flags r) = f → Z.testbit f 0 = true →
  mmu_walk (p_mem s3) pd v = Some (r_paddr r + (4096 * v - r_vaddr r), f).
Proof using L Hsp Hm.
  intros Hr Hc Hp <- Hf. pose proof all_reqs_ok as Hok. destruct Hsp as [[_ (HA0 & HAm & _)] _].
  destruct (maps_walk kinfo_exec all_reqs s1 A n s3 u r Hok Hm HAm HA0 Hr) as (B' & _ & _ & Hwr).
  rewrite Forall_forall in Hok. pose proof (req_bounds r (Hok r Hr)).
  rewrite Hwr by (apply covers_addr; auto). rewrite Hf. unfold req_frame, PAGE_ALLOCATE.
  rewrite (proj2 (Z.eqb_neq _ _) Hp). do 2 f_equal. lia.
Qed.

(** A page of no request *)
Lemma walk_out v :
  0 ≤ v < 1048576 → (∀ r, r ∈ all_reqs → ¬ r_vaddr r ≤ 4096 * v < r_vaddr r + r_size r) →
  mmu_walk (p_mem s3) pd v = walk_entry (epte pd (p_mem s1) v).
Proof using L Hsp Hm.
  intros Hv Hno. pose proof all_reqs_ok as Hok. pose proof Hsp as [_ Hdir].
  etrans; [apply (maps_walk_out kinfo_exec all_reqs s1 A n s3 u v Hsp Hm Hv)|].
  - rewrite Forall_forall in Hok |- *. intros r Hr. rewrite covers_addr by auto. by apply Hno.
  - apply (walk_epte _ _ _ _ _ _ _ Hdir). clear -Hv. Z.to_euclidean_division_equations. lia.
Qed.

(** A page of the image *)
Lemma walk_image v (i : nat) lo hi fl f :
  all_reqs !! i = Some (image_req lo hi fl) →
  in_range lo hi (4096 * v) = true → vma < lo → mmap_flags fl = f → Z.testbit f 0 = true →
  mmu_walk (p_mem s3) pd v = Some (4096 * v - vma, f).
Proof using L Hsp Hm.
  intros Hi Hc%in_range_spec Hlo Hf Hb.
  rewrite (walk_in v (image_req lo hi fl) f);
    [|by apply (list_elem_of_lookup_2 _ i)|simpl; lia|simpl; lia|done|done].
  simpl. do 2 f_equal. lia.
Qed.
Lemma walk_image_flags v f :
  image_flags (4096 * v) = Some f → mmu_walk (p_mem s3) pd v = Some (4096 * v - vma, f).
Proof using L Hsp Hm.
  pose proof L as [(V1 & V2 & V3) _ (O1 & O2 & Obss & O3 & O4 & O5 & Ostk & O6 & Ocon & O7) _ _].
  unfold image_flags. intros H.
  destruct (in_range _ (ktable_end y) _) eqn:R;
    [injection H as <-; by eapply (walk_image v 0); [reflexivity|exact R|lia|..]|clear R].
  destruct (in_range _ (kernel_text_end y) _) eqn:R;
    [injection H as <-; by eapply (walk_image v 1); [reflexivity|exact R|lia|..]|clear R].
  destruct (in_range _ (kernel_bss_end y) _) eqn:R;
    [injection H as <-; by eapply (walk_image v 2); [reflexivity|exact R|lia|..]|clear R].
  destruct (in_range _ (kernel_rodata_end y) _) eqn:R;
    [injection H as <-; by eapply (walk_image v 3); [reflexivity|exact R|lia|..]|clear R].
  destruct (in_range _ (kernel_stack_guard_start y) _) eqn:R;
    [injection H as <-; by eapply (walk_image v 4); [reflexivity|exact R|lia|..]|clear R].
  destruct (in_range _ (kernel_stack_end y) _) eqn:R; [|done].
  injection H as <-. by eapply (walk_image v 6); [reflexivity|exact R|lia|..].
Qed.

Lemma walk_console v :
  in_range (console_debug y) (console_debug y + 4096) (4096 * v) = true →
  mmu_walk (p_mem s3) pd v = Some (0xB8000, 3).
Proof using L Hsp Hm.
  intros R%in_range_spec. rewrite (walk_in v (Req (console_debug y) 0xB8000 4096 3) 3);
    [|by apply (list_elem_of_lookup_2 _ 7)|simpl; lia|done|done|done].
  simpl r_paddr. simpl r_vaddr. do 2 f_equal.
  pose proof L as [_ (_ & _ & _ & _ & _ & _ & HP) (_ & _ & _ & _ & _ & _ & _ & _ & Ocon & _) _ _].
  rewrite <-Ocon in HP. clear -R HP. Z.to_euclidean_division_equations. lia.
Qed.

(** The page below the stack is not present. *)
Lemma walk_guard v :
  kernel_stack_guard_start y ≤ 4096 * v < kernel_stack_start y → mmu_walk (p_mem s3) pd v = None.
Proof using L Hsp Hm.
  intros Hg. pose proof all_reqs_ok as Hok. destruct Hsp as [[_ (HA0 & HAm & _)] _].
  pose proof L as [_ _ (_ & _ & _ & _ & _ & _ & Ostk & _) _ _].
  set (r := Req (kernel_stack_guard_start y) PAGE_ALLOCATE 4096 0).
  assert (Hr : r ∈ all_reqs) by (by apply (list_elem_of_lookup_2 _ 5)).
  destruct (maps_walk kinfo_exec all_reqs s1 A n s3 u r Hok Hm HAm HA0 Hr) as (B' & _ & _ & Hwr).
  rewrite Forall_forall in Hok. apply Hwr, covers_addr; [by apply Hok|simpl; lia].
Qed.

(** The pages of the first 4 MB are as they were. *)
Lemma walk_low v (k : kernel_info_t) :
  0 ≤ v < 1024 → epte pd (p_mem s1) v = (if boot_page k v then 4096 * v + 3 else 0) →
  mmu_walk (p_mem s3) pd v = if boot_page k v then Some (4096 * v, 3) else None.
Proof using L Hsp Hm.
  intros Hv He. destruct all_reqs_ascending as [_ Hw]. pose proof L as [(V1 & V2 & V3) _ _ _ _].
  rewrite walk_out, He; [|lia|].
  - destruct (boot_page k v); [|done].
    destruct (entry_parts (4096 * v) 3) as (_ & E1 & E2 & E3); [lia| |lia|].
    { clear. Z.to_euclidean_division_equations. lia. }
    unfold walk_entry. by rewrite E1, E2, E3.
  - intros r Hr Hc. rewrite Forall_forall in Hw. specialize (Hw r Hr). lia.
Qed.
End served.

(** The requests served, every page is translated as the map says. *)
Lemma walk_all s1 A n s3 u (k : kernel_info_t) :
  space pd s1 A n → maps kinfo_exec all_reqs s1 A n s3 u →
  (∀ v, 0 ≤ v < 1048576 → epte pd (p_mem s1) v =
     if v <? 1024 then if boot_page k v then 4096 * v + 3 else 0 else 0) →
  ∃ B, A ≤ B ∧ B mod 4096 = 0 ∧ B + CONF_KHEAP_SIZE ≤ A + 4096 * u ∧
    (∀ i, 0 ≤ i < 1024 → pde pd (p_mem s3) i ≠ 0 →
       table pd (p_mem s3) i + 4096 ≤ B ∨ B + CONF_KHEAP_SIZE ≤ table pd (p_mem s3) i) ∧
    ∀ v, 0 ≤ v < 1048576 → mmu_walk (p_mem s3) pd v = kernel_map k B v.
Proof using L.
  intros Hsp Hm He. pose proof all_reqs_ok as Hok. pose proof Hsp as [[_ (HA0 & HAm & _)] _].
  destruct (maps_walk kinfo_exec all_reqs s1 A n s3 u heap_req Hok Hm HAm HA0) as (B & HB & Hal & Hheap).
  { apply elem_of_app. right. by apply list_elem_of_singleton. }
  change (page_directory_of kinfo_exec) with pd in *.
  destruct (Hal eq_refl) as (HBm & Hbe & Htab). exists B. split_and!; try done. intros v Hv.
  specialize (He v Hv). unfold kernel_map. revert He. destruct (Z.ltb_spec v 1024) as [Hlt|Hge]; intros He.
  { eapply walk_low; [exact Hsp|exact Hm|lia|exact He]. }
  destruct (image_flags _) as [f|] eqn:Ef; [by apply (walk_image_flags s1 s3 A n u)|].
  destruct (in_range (console_debug y) _ _) eqn:R6; [by apply (walk_console s1 s3 A n u)|].
  destruct (in_range heap_start _ _) eqn:R7.
  { apply in_range_spec in R7. rewrite Hheap by (apply covers_addr; [apply heap_req_ok|exact R7]).
    pose proof (req_bounds heap_req heap_req_ok) as (Ev & _).
    change (heap_start = 4096 * r_page heap_req) in Ev.
    change (Some (B + 4096 * (v - r_page heap_req), 3) = Some (B + (4096 * v - heap_start), 3)).
    do 2 f_equal. lia. }
  destruct (decide (kernel_stack_guard_start y ≤ 4096 * v < kernel_stack_start y)) as [Hg|Hg];
    [by apply (walk_guard s1 s3 A n u)|].
  rewrite (walk_out s1 s3 A n u Hsp Hm v Hv), He; [done|]. rewrite <-Forall_forall.
  pose proof L as [_ _ HO _ _]. apply image_flags_none in Ef.
  apply not_true_iff_false in R6, R7. rewrite in_range_spec in R6, R7.
  unfold all_reqs, kernel_reqs, heap_req, CONF_KHEAP_SIZE in *.
  repeat (apply Forall_cons; split); try apply Forall_nil_2; simpl; lia.
Qed.

(** ** The tables at the end *)

(** The directory before the heap is mapped: the table of the identity mappings
    and the table of the kernel *)
Definition boot_pdes (m : mem) : Prop := ∀ i, 0 ≤ i < 1024 →
  pde pd m i = if i =? 0 then bp + 3 else if i =? kernel_dir then kp + 3 else 0.
(** An entry of these two *)
Definition boot_table (m : mem) (i : Z) : Prop :=
  i = 0 ∧ table pd m i = bp ∨ i = kernel_dir ∧ table pd m i = kp.

Lemma boot_pdes_table m i : boot_pdes m → 0 ≤ i < 1024 → pde pd m i ≠ 0 → boot_table m i.
Proof using L.
  intros He Hi Hz. destruct tables_phys as (_ & _ & _ & _ & Hk & Hb & Hke & _ & Hkm & Hbm & _).
  destruct (entry_parts bp 3) as (_ & T0 & _); [lia|done|lia|].
  destruct (entry_parts kp 3) as (_ & Tk & _); [lia|done|lia|].
  unfold boot_table, table. rewrite He in * by done.
  destruct (Z.eqb_spec i 0) as [->|]; [by left|].
  destruct (Z.eqb_spec i kernel_dir) as [->|]; [by right|done].
Qed.

(** The heap lies in the kernel's table and the four after it, which are new. *)
Lemma heap_span s : boot_pdes (p_mem s) →
  mmap_k kinfo_exec heap_start CONF_KHEAP_SIZE s = 5 ∧ missing pd (p_mem s) kernel_dir 5 = 4.
Proof using L.
  intros He. pose proof kernel_dir_range as Hd. pose proof heap_req_ok as Hok.
  assert (Ed : r_page heap_req / 1024 = kernel_dir).
  { apply all_reqs_dir, elem_of_app. right. by apply list_elem_of_singleton. }
  assert (Hz : pde pd (p_mem s) kernel_dir ≠ 0).
  { rewrite He, (proj2 (Z.eqb_neq _ 0)), Z.eqb_refl by lia.
    destruct tables_phys as (_ & _ & _ & _ & Hk & _). lia. }
  destruct (boot_pdes_table _ kernel_dir He ltac:(lia) Hz) as [[]|[_ Ht]]; [lia|].
  assert (Hq : 1 ≤ r_page heap_req mod 1024).
  { pose proof (req_bounds _ Hok) as (Ev & _). change (r_vaddr heap_req) with heap_start in Ev.
    destruct L as [(V1 & V2 & V3) _ HO _ _]. unfold kernel_dir, heap_start in *.
    clear -Ed Ev V1 V2 HO. Z.to_euclidean_division_equations. lia. }
  split.
  - change heap_start with (r_vaddr heap_req). change CONF_KHEAP_SIZE with (r_size heap_req).
    rewrite req_span; [|done|rewrite Ed; change (page_directory_of kinfo_exec) with pd; rewrite Ht].
    + change (r_pages heap_req) with 4096. destruct (Z.gtb_spec (r_page heap_req mod 1024 + 4096) 1024); [|lia].
      clear -Hq. Z.to_euclidean_division_equations. lia.
    + destruct tables_phys as (_ & _ & _ & _ & Hk & _). lia.
  - change 5 with (0 + 1 + 1 + 1 + 1 + 1). rewrite !missing_step by lia.
    change (missing _ _ _ 0) with 0. rewrite !(He (kernel_dir + _)) by lia.
    rewrite Z.add_0_r, (decide_False (P := (if kernel_dir =? 0 then _ else _) = 0)) by (by rewrite <-He by lia).
    repeat match goal with |- context [(?a =? 0)] => rewrite (proj2 (Z.eqb_neq a 0)) by lia end.
    repeat match goal with |- context [(?a =? kernel_dir)] => rewrite (proj2 (Z.eqb_neq a kernel_dir)) by lia end.
    rewrite !decide_True by done. reflexivity.
Qed.

Lemma heap_tables s A n s' u :
  boot_pdes (p_mem s) → (∀ v, covers heap_req v → epte pd (p_mem s) v = 0) →
  mapped_in kinfo_exec PAGE_ALLOCATE heap_start CONF_KHEAP_SIZE 3 s A n s' u →
  u = 4100 ∧ ∀ i, 0 ≤ i < 1024 → pde pd (p_mem s') i ≠ 0 →
    boot_table (p_mem s') i ∨
    kernel_dir < i ≤ kernel_dir + 4 ∧ A ≤ table pd (p_mem s') i ∧
      table pd (p_mem s') i + 4096 ≤ A + 4096 * u.
Proof using L.
  intros He Hf M. destruct (heap_span s He) as [Hk Hm]. pose proof kernel_dir_range as Hd.
  assert (Ed : heap_start / 4096 / 1024 = kernel_dir).
  { change (r_page heap_req / 1024 = kernel_dir).
    apply all_reqs_dir, elem_of_app. right. by apply list_elem_of_singleton. }
  split.
  - rewrite (mo_exact _ _ _ _ _ _ _ _ _ _ M), Hk. rewrite Ed.
    change (PAGE_ALLOCATE =? PAGE_ALLOCATE) with true.
    rewrite (free_all kinfo_exec (p_mem s) (heap_start / 4096) (CONF_KHEAP_SIZE / 4096)); [|done|exact Hf].
    change (page_directory_of kinfo_exec) with pd. by rewrite Hm.
  - intros i Hi Hz. destruct (decide (pde pd (p_mem s) i = 0)) as [E|E].
    + right. destruct (mo_new _ _ _ _ _ _ _ _ _ _ M i Hi E Hz) as (Hr & H1 & H2).
      rewrite Hk, Ed in Hr. pose proof (mo_first _ _ _ _ _ _ _ _ _ _ M).
      assert (i ≠ kernel_dir).
      { intros ->. rewrite He, (proj2 (Z.eqb_neq _ 0)), Z.eqb_refl in E by lia.
        destruct tables_phys as (_ & _ & _ & _ & Hkp & _). lia. }
      split; [lia|]. change (page_directory_of kinfo_exec) with pd in *. lia.
    + left. pose proof (boot_pdes_table _ i He Hi E) as Hb. unfold boot_table.
      assert (table pd (p_mem s') i = table pd (p_mem s) i) as ->; [|done].
      apply (table_same kinfo_exec). exact (mo_old _ _ _ _ _ _ _ _ _ _ M i Hi E).
Qed.

(** One frame for the guard page, four tables and 4096 pages for the heap *)
Definition kernel_frames : Z := 4101.

(** What the kernel's directory is at the end: it translates as the map says,
    and neither the heap nor a free frame overlaps a page table. *)
Record kernel_space (k : kernel_info_t) (s : paging_st) (A n : Z) : Prop := {
  ks_map : ∃ B, A ≤ B ∧ B mod 4096 = 0 ∧
    (∀ v, 0 ≤ v < 1048576 → mmu_walk (p_mem s) pd v = kernel_map k B v) ∧
    ∀ i, 0 ≤ i < 1024 → pde pd (p_mem s) i ≠ 0 →
      table pd (p_mem s) i + 4096 ≤ B ∨ B + CONF_KHEAP_SIZE ≤ table pd (p_mem s) i;
  ks_free : space pd s (A + 4096 * kernel_frames) (n - kernel_frames);
  ks_dir : ∀ i, 0 ≤ i < 1024 → pde pd (p_mem s) i ≠ 0 →
    boot_table (p_mem s) i ∨
    kernel_dir < i ≤ kernel_dir + 4 ∧ A ≤ table pd (p_mem s) i ∧
      table pd (p_mem s) i + 4096 ≤ A + 4096 * kernel_frames;
  ks_heap : range_start (kheap_range (p_kinfo s)) = heap_start;
  ks_info : ∃ l r, p_kinfo s = with_kheap_range r (with_memmaps (λ _, l) k);
}.

(** Memory outside the three tables and the frames handed out *)
Definition kernel_keeps (m m' : mem) (A : Z) : Prop :=
  ∀ x, ¬ within pd 4096 x → ¬ within kp 4096 x → ¬ within bp 4096 x →
    ¬ within A (4096 * kernel_frames) x → load8 m' x = load8 m x.

Lemma supply_addr s A n A' n' : supply s A n → supply s A' n' → A = A'.
Proof using.
  intros [(e & r & E & Ea & _) _] [(e' & r' & E' & Ea' & _) _]. rewrite E in E'.
  injection E' as <- <-. congruence.
Qed.

(** The image and the screen lie in the kernel's own table, below the heap. *)
Lemma kernel_reqs_below :
  Forall (λ r, vma < r_vaddr r ∧ r_vaddr r + r_size r ≤ heap_start) kernel_reqs.
Proof using L.
  pose proof L as [_ _ HO _ _]. destruct HO as (O1 & O2 & Obss & O3 & O4 & O5 & Ostk & O6 & Ocon & O7).
  unfold kernel_reqs, heap_start, image_req.
  repeat (apply Forall_cons; split; [cbn [r_vaddr r_size]; lia|]). apply Forall_nil_2.
Qed.
Lemma kernel_reqs_allocs : allocs kernel_reqs = 1.
Proof using L.
  pose proof L as [_ _ HO _ _]. unfold kernel_reqs, image_req, PAGE_ALLOCATE. cbn [allocs foldr r_paddr].
  repeat match goal with |- context [?a - vma =? ?z] => rewrite (proj2 (Z.eqb_neq (a - vma) z)) by (unfold PAGE_ALLOCATE; lia) end.
  reflexivity.
Qed.
Lemma kernel_reqs_facts r : r ∈ kernel_reqs →
  req_ok r ∧ one_table r ∧ ∀ v, covers heap_req v → ¬ covers r v.
Proof using L.
  intros Hin. assert (Ha : r ∈ all_reqs) by (apply elem_of_app; by left).
  pose proof all_reqs_ok as Hok. pose proof kernel_reqs_below as Hb.
  rewrite Forall_forall in Hok, Hb. specialize (Hok r Ha). specialize (Hb r Hin).
  split; [done|split].
  - pose proof (req_bounds r Hok) as (Ev & Es & _). pose proof (all_reqs_dir r Ha) as Ed.
    destruct L as [(V1 & V2 & V3) _ HO _ _]. unfold one_table, kernel_dir, heap_start in *.
    clear -Ev Es Ed Hb V2 HO. Z.to_euclidean_division_equations. lia.
  - intros v Hv. rewrite covers_addr in Hv |- * by (done || apply heap_req_ok).
    change (r_vaddr heap_req) with heap_start in Hv. lia.
Qed.

(** The requests for the image, then the heap *)
Lemma requests_ok debug s1 A n m0 k :
  space pd s1 A n → 6144 ≤ n → p_kinfo s1 = k → boot_pdes (p_mem s1) →
  (∀ x, ¬ within pd 4096 x → ¬ within bp 4096 x → load8 (p_mem s1) x = load8 m0 x) →
  (∀ v, 0 ≤ v < 1048576 → epte pd (p_mem s1) v =
     if v <? 1024 then if boot_page k v then 4096 * v + 3 else 0 else 0) →
  ∃ s2 s3 e rest, mfor kernel_reqs (map_req debug kinfo_exec) s1 = Ok (tt, s2) ∧
    memmaps (p_kinfo s2) = e :: rest ∧ CONF_KHEAP_SIZE < mm_len e ∧
    mfor [heap_req] (map_req debug kinfo_exec) s2 = Ok (tt, s3) ∧
    maps kinfo_exec all_reqs s1 A n s3 kernel_frames ∧
    (∀ i, 0 ≤ i < 1024 → pde pd (p_mem s3) i ≠ 0 →
       boot_table (p_mem s3) i ∨
       kernel_dir < i ≤ kernel_dir + 4 ∧ A ≤ table pd (p_mem s3) i ∧
         table pd (p_mem s3) i + 4096 ≤ A + 4096 * kernel_frames) ∧
    kernel_keeps m0 (p_mem s3) A.
Proof using L.
  intros Hsp Hn Ek Hpde Hout He. pose proof kernel_dir_range as Hd.
  pose proof all_reqs_ok as Hok. destruct all_reqs_ascending as [Hasc _].
  destruct all_reqs_needs as [Hn1 Hn2]. destruct (ascending_apart all_reqs _ Hok Hasc) as [Hap _].
  assert (Ht : table pd (p_mem s1) kernel_dir = kp).
  { destruct (boot_pdes_table _ kernel_dir Hpde ltac:(lia)) as [[]|[_ ?]]; [|lia|done].
    rewrite Hpde, (proj2 (Z.eqb_neq _ 0)), Z.eqb_refl by lia.
    destruct tables_phys as (_ & _ & _ & _ & Hk & _). lia. }
  pose proof (all_reqs_free (p_mem s1) k Ht He) as Hfree.
  assert (Hpre : Forall req_ok kernel_reqs ∧ reqs_apart kernel_reqs).
  { split; [by apply Forall_app in Hok as [? _]|].
    apply (ascending_apart kernel_reqs (vma + 1)); [by apply Forall_app in Hok as [? _]|].
    clear -Hasc. unfold all_reqs, kernel_reqs in *. simpl in *. tauto. }
  destruct (map_reqs_ok debug kinfo_exec kernel_reqs s1 A n Hsp (proj1 Hpre) (proj2 Hpre) ltac:(lia))
    as (s2 & u2 & E1 & M2); [by apply Forall_app in Hfree as [? _]|].
  destruct (map_reqs_ok debug kinfo_exec all_reqs s1 A n Hsp Hok Hap ltac:(lia) Hfree)
    as (s3 & u & E2 & M3).
  unfold all_reqs in E2. rewrite mfor_app in E2. rewrite (bind_Ok_M _ _ _ _ _ E1) in E2.
  destruct (ms_one _ _ _ _ _ _ _ M2) as [Eu2 Hsame].
  { apply Forall_forall. intros r Hr. by apply kernel_reqs_facts. }
  rewrite kernel_reqs_allocs in Eu2. subst u2.
  destruct (sup_entry _ _ _ (sp_supply _ _ _ _ (ms_space _ _ _ _ _ _ _ M2)))
    as (e & rest & Em & _ & Hlen).
  assert (Hfree2 : ∀ v, covers heap_req v → epte pd (p_mem s2) v = 0).
  { intros v Hv. pose proof (req_bounds _ heap_req_ok) as (_ & _ & ? & ? & ?).
    pose proof Hv as Hc. unfold covers in Hc.
    etrans; [apply (ms_out _ _ _ _ _ _ _ M2); [lia|]|].
    - apply Forall_forall. intros r Hr. by apply kernel_reqs_facts.
    - apply Forall_app in Hfree as [_ [[_ Hf] _]%Forall_cons]. by apply Hf. }
  assert (Hpde2 : boot_pdes (p_mem s2)) by (intros i Hi; rewrite <-Hpde by done; by apply Hsame).
  destruct (map_req_ok debug kinfo_exec heap_req s2 (A + 4096 * 1) (n - 1)) as (s' & uh & B & Eh & Mh & _).
  { exact (ms_space _ _ _ _ _ _ _ M2). }
  { apply heap_req_ok. }
  { rewrite all_reqs_dir by (apply elem_of_app; right; by apply list_elem_of_singleton).
    rewrite (table_same kinfo_exec _ _ _ (Hsame kernel_dir ltac:(lia))).
    change (page_directory_of kinfo_exec) with pd. rewrite Ht.
    destruct tables_phys as (_ & _ & _ & _ & Hk & _). lia. }
  { change (need heap_req) with 4101. lia. }
  { exact Hfree2. }
  pose proof E2 as Eh'. cbn [mfor] in Eh'. rewrite (bind_Ok_M _ _ _ _ _ Eh) in Eh'. injection Eh' as ->.
  destruct (heap_tables s2 _ _ _ _ Hpde2 Hfree2 Mh) as [-> Hdir].
  assert (u = kernel_frames) as ->.
  { pose proof (supply_addr _ _ _ _ _ (sp_supply _ _ _ _ (ms_space _ _ _ _ _ _ _ M3))
      (sp_supply _ _ _ _ (mo_space _ _ _ _ _ _ _ _ _ _ Mh))). unfold kernel_frames. lia. }
  exists s2, s3, e, rest. split_and!; try done.
  - unfold CONF_KHEAP_SIZE. lia.
  - intros i Hi Hz. unfold kernel_frames. destruct (Hdir i Hi Hz) as [?|?]; [by left|right; lia].
  - intros x X1 X2 X3 X4. rewrite (ms_mem _ _ _ _ _ _ _ M3 x); [by apply Hout| |done].
    intros [Hx|(i & Hi & Hz & Hx)]; [done|].
    change (page_directory_of kinfo_exec) with pd in *.
    destruct (boot_pdes_table _ i Hpde Hi Hz) as [[_ E]|[_ E]]; rewrite E in Hx; done.
Qed.

Lemma kmem_map_ok debug s A n :
  boot_ready s A n →
  ∃ s', kmem_map_kernel_memory debug page_directory kernel_pt bootstrap_pt vma y s = Ok (tt, s') ∧
    kernel_space (p_kinfo s) s' A n ∧ p_cr3 s' = p_cr3 s ∧ kernel_keeps (p_mem s) (p_mem s') A.
Proof using L.
  intros Hbr. pose proof Hbr as [_ _ Hn _ _ _].
  destruct (boot_tables_ok s A n Hbr) as (m1 & E0 & Hsp & Hpde & Hout & He).
  destruct (requests_ok debug (PagingSt m1 (p_kinfo s) (p_cr3 s)) A n (p_mem s) (p_kinfo s) Hsp Hn
    eq_refl Hpde Hout He)
    as (s2 & s3 & e & rest & E1 & Em & Hlen & E2 & M3 & Hdir & Hkeep).
  eexists. split; [exact (kmem_map_run debug s m1 s2 s3 e rest E0 E1 Em Hlen E2)|].
  destruct (walk_all _ A n s3 kernel_frames (p_kinfo s) Hsp M3 He) as (B & HB & HBm & HBe & Htab & Hwalk).
  destruct (map_reqs_info debug kinfo_exec kernel_reqs _ _ _ E1) as [l1 El1].
  destruct (map_reqs_info debug kinfo_exec [heap_req] _ _ _ E2) as [l2 El2].
  split; [|split; [exact (ms_cr3 _ _ _ _ _ _ _ M3)|exact Hkeep]]. constructor.
  - exists B. split; [exact HB|]. split; [exact HBm|]. split; [exact Hwalk|exact Htab].
  - destruct (ms_space _ _ _ _ _ _ _ M3) as [[P1 P2] P3].
    constructor; [constructor; [exact P1|exact P2]|exact P3].
  - exact Hdir.
  - reflexivity.
  - eexists l2, _. cbn [p_kinfo p_with_kinfo]. rewrite El2, El1. reflexivity.
Qed.
End layout.

Lemma kernel_space_cr3 pd kp bp vma y k x s A n :
  kernel_space pd kp bp vma y k s A n → kernel_space pd kp bp vma y k (load_pagedir x s) A n.
Proof.
  intros [H1 [[S1 S2] S3] H3 H4 H5]. constructor; [exact H1| |exact H3|exact H4|exact H5].
  constructor; [constructor; [exact S1|exact S2]|exact S3].
Qed.

(** ** A kernel and a machine to boot it on *)

(** An image of 13 pages from 1 MB on, with the three tables in .ktable *)
Definition demo_syms : ksyms :=
  Ksyms 0xFE901000 0xFE904000 0xFE906000 0xFE906000 0xFE908000 0xFE909000 0xFE90A000
    0xFE90B000 0xFE90D000 0xFE90D000.
Definition boot_info : kernel_info_t :=
  let r := MemRange 0 0 in
  KernelInfo [MmapEntry 0x400000 0x2000000 1 0] 1 0
    [BootModule 0x110000 0x112345 0 []] 1 r r r r r 0xFE800000 0 0.
Definition demo_kmem : kmem_st :=
  KmemSt [] (PagingSt ∅ boot_info []) (Kmalloc.kheap_boot ∅).

Lemma demo_kernel_layout : kernel_layout 0xFE901000 0xFE902000 0xFE903000 0xFE800000 demo_syms.
Proof.
  constructor; cbn; [split_and!; lia || reflexivity|split_and!; reflexivity|split_and!; lia| |lia].
  repeat (apply Forall_cons; split); try (split_and!; lia || reflexivity). apply Forall_nil_2.
Qed.
Lemma demo_ready :
  boot_ready 0xFE901000 0xFE902000 0xFE800000 demo_syms
    (p_with_kinfo (λ _, boot_info) (km_pg demo_kmem)) 0x400000 6144.
Proof.
  constructor; [|vm_compute; congruence|lia|reflexivity| |].
  - constructor; [|split_and!; lia || reflexivity]. eexists _, _.
    split; [reflexivity|]. split; [reflexivity|]. simpl. lia.
  - split; [simpl; lia|]. apply Forall_singleton. unfold module_ok. simpl. split_and!; lia || reflexivity.
  - intros i Hi. split; reflexivity.
Qed.

(** ** Properties *)

Lemma kmem_init_ok (debug : bool) (page_directory kernel_pt bootstrap_pt K_HIGH_VMA : Z)
    (y : ksyms) (info : kernel_info_t) (s : kmem_st) (A n : Z) (m : mem) :
  kernel_layout page_directory kernel_pt bootstrap_pt K_HIGH_VMA y →
  boot_ready page_directory kernel_pt K_HIGH_VMA y (p_with_kinfo (λ _, info) (km_pg s)) A n →
  km_heap s = Kmalloc.kheap_boot m →
  ∃ s', kmem_init debug page_directory kernel_pt bootstrap_pt K_HIGH_VMA y info s = Ok (tt, s') ∧
    kernel_space page_directory kernel_pt bootstrap_pt K_HIGH_VMA y info (km_pg s') A n ∧
    p_cr3 (km_pg s') = kphys K_HIGH_VMA page_directory :: p_cr3 (km_pg s) ∧
    Kmalloc.heap_inv (Kmalloc.Spec.GHeap (Kmalloc.pool_pages (heap_start y) 4096) []
      (replicate 9 (Kmalloc.Spec.GBag [] []))) (km_heap s') ∧
    km_log s' = km_log s ++ [Note "INFO" 60 "Remapping kernel" []; Note "INFO" 64 "Initializing kheap" []] ∧
    kernel_keeps page_directory kernel_pt bootstrap_pt K_HIGH_VMA (p_mem (km_pg s)) (p_mem (km_pg s')) A.
Proof.
  intros L Hbr Hm.
  destruct (kmem_map_ok _ _ _ _ _ L debug _ _ _ Hbr) as (s1 & E1 & Hks & Hcr & Hkeep).
  pose proof Hks as [_ _ _ Hst (l & r & Ek)].
  assert (Hv : kernel_high_vma (p_kinfo s1) = K_HIGH_VMA)
    by (rewrite Ek; exact (br_vma _ _ _ _ _ _ _ Hbr)).
  pose proof L as [(V1 & V2 & V3) (_ & _ & _ & _ & _ & _ & HP) HO _ _].
  assert (Hh : 0 < heap_start y ∧ heap_start y mod 4096 = 0 ∧
    heap_start y + 4096 * 4096 + 4096 ≤ 4294967296).
  { unfold heap_start. clear -HP HO V1 V2 V3. Z.to_euclidean_division_equations. lia. }
  destruct (Kmalloc.kmalloc_init_inv m (heap_start y) 4096 ltac:(lia) ltac:(lia) ltac:(lia) debug)
    as (k & Ekm & Hinv & _).
  destruct s as [lg pg hp]. cbn [km_heap km_pg km_log] in *. subst hp.
  exists (KmemSt (lg ++ [Note "INFO" 60 "Remapping kernel" []; Note "INFO" 64 "Initializing kheap" []])
    (load_pagedir (page_directory ⊟ K_HIGH_VMA) s1) k).
  split_and!; [|by apply kernel_space_cr3| |exact Hinv|done|exact Hkeep].
  - unfold kmem_init.
    erewrite bind_Ok_M; [|reflexivity]. erewrite bind_Ok_M; [|reflexivity].
    erewrite bind_Ok_M; [|unfold on_pg; cbn [km_pg km_log km_heap]; rewrite E1; reflexivity].
    erewrite bind_Ok_M;
      [|unfold on_pg, bootstrap_load_kernel_mappings; cbn [km_pg]; rewrite gets_bind, Hv; reflexivity].
    erewrite bind_Ok_M; [|reflexivity]. rewrite gets_bind. cbn [km_pg p_kinfo load_pagedir].
    rewrite Hst. unfold on_heap. cbn [km_heap]. change CONF_KHEAP_SIZE with (4096 * 4096).
    rewrite Ekm. cbn [km_log km_pg]. rewrite <-app_assoc. reflexivity.
  - change (u32 (page_directory ⊟ K_HIGH_VMA) :: p_cr3 s1 = (page_directory ⊟ K_HIGH_VMA) :: p_cr3 pg).
    by rewrite u32_idemp, Hcr.
Qed.

(** C7. kmem_init gives the kernel its address space: for an image laid out as
    link.ld does, with enough free frames and page tables still empty, the call
    succeeds and loads a directory under which every one of the 2^20 pages is
    translated as the reference map says: the first megabyte and the boot
    modules to themselves, code and constants of the image read-only, its data,
    stack, screen and heap writable, the guard page and everything else not at
    all. It takes 4101 frames and uses the directory entries of the kernel, of
    the boot mappings and of the heap only; the frames of the heap overlap no
    page table, no free frame is in use, and the object allocator starts on the
    4096 pages of the heap. Outside the three tables and these frames memory is
    unchanged. *)
Theorem kmem_init_builds (debug : bool) (page_directory kernel_pt bootstrap_pt K_HIGH_VMA : Z)
    (y : ksyms) (info : kernel_info_t) (s : kmem_st) (A n : Z) (m : mem) :
  kernel_layout page_directory kernel_pt bootstrap_pt K_HIGH_VMA y →
  boot_ready page_directory kernel_pt K_HIGH_VMA y (p_with_kinfo (λ _, info) (km_pg s)) A n →
  km_heap s = Kmalloc.kheap_boot m →
  ∃ s', kmem_init debug page_directory kernel_pt bootstrap_pt K_HIGH_VMA y info s = Ok (tt, s') ∧
    kernel_space page_directory kernel_pt bootstrap_pt K_HIGH_VMA y info (km_pg s') A n ∧
    p_cr3 (km_pg s') = kphys K_HIGH_VMA page_directory :: p_cr3 (km_pg s) ∧
    Kmalloc.heap_inv (Kmalloc.Spec.GHeap (Kmalloc.pool_pages (heap_start y) 4096) []
      (replicate 9 (Kmalloc.Spec.GBag [] []))) (km_heap s') ∧
    km_log s' = km_log s ++ [Note "INFO" 60 "Remapping kernel" []; Note "INFO" 64 "Initializing kheap" []] ∧
    kernel_keeps page_directory kernel_pt bootstrap_pt K_HIGH_VMA (p_mem (km_pg s)) (p_mem (km_pg s')) A.
Proof. apply kmem_init_ok. Qed.
Lemma kmem_init_builds_witness :
  ∃ s', kmem_init true 0xFE901000 0xFE902000 0xFE903000 0xFE800000 demo_syms boot_info demo_kmem
        = Ok (tt, s') ∧
    p_cr3 (km_pg s') = [0x101000] ∧
    mmu_walk (p_mem (km_pg s')) 0x101000 0xFE904 = Some (0x104000, 1) ∧
    mmu_walk (p_mem (km_pg s')) 0x101000 0xFE90A = None ∧
    mmu_walk (p_mem (km_pg s')) 0x101000 0xFE90D = Some (0xB8000, 3).
Proof.
  destruct (kmem_init_builds true 0xFE901000 0xFE902000 0xFE903000 0xFE800000 demo_syms boot_info
    demo_kmem 0x400000 6144 ∅ demo_kernel_layout demo_ready eq_refl) as (s' & H1 & [(B & _ & _ & Hw & _) _ _ _ _] & H2 & _).
  exists s'. split; [exact H1|]. split; [exact H2|]. split_and!.
  - apply (Hw 0xFE904). lia.
  - apply (Hw 0xFE90A). lia.
  - apply (Hw 0xFE90D). lia.
Defined.
