(* ===== verification/PortIO.v ===== *)
(** * PortIO: the I/O ports of the machine

    arch/i686/include/arch_util.h. A driver talks to its device by port
    accesses; what it does is the trace of these accesses, and what the device
    answers is a function [dev] of the trace so far and the port. Calls of
    kprintf from a handler are recorded in the trace as well. *)

From S2P Require Import Prelude Machine Printf.

Inductive event :=
| Out (port val : Z)
| In (port val : Z)
| Out16 (port val : Z)
| In16 (port val : Z)
| Out32 (port val : Z)
| In32 (port val : Z)
| Msr (reg val : Z)
| Rdmsr (reg : Z)
| Print (fmt : list piece) (args : list arg).

Abbreviation trace := (list event).
Abbreviation device := (trace → Z → Z).

(** The handlers that only access ports *)
Abbreviation IO := (M trace).

(** arch_util.h:8 *)
Definition outb (port val : Z) : IO unit := modify (λ tr, tr ++ [Out (u16 port) (u8 val)]).

(** arch_util.h:15 and 22 *)
Definition outw (port val : Z) : IO unit := modify (λ tr, tr ++ [Out16 (u16 port) (u16 val)]).
Definition outl (port val : Z) : IO unit := modify (λ tr, tr ++ [Out32 (u16 port) (u32 val)]).

(** arch_util.h:29 *)
Definition inb (dev : device) (port : Z) : IO Z := λ tr,
  let v := u8 (dev tr (u16 port)) in Ok (v, tr ++ [In (u16 port) v]).

(** arch_util.h:38 and 47 *)
Definition inw (dev : device) (port : Z) : IO Z := λ tr,
  let v := u16 (dev tr (u16 port)) in Ok (v, tr ++ [In16 (u16 port) v]).
Definition inl (dev : device) (port : Z) : IO Z := λ tr,
  let v := u32 (dev tr (u16 port)) in Ok (v, tr ++ [In32 (u16 port) v]).

(** arch_util.h:56 *)
Definition msr_write (reg val : Z) : IO unit :=
  modify (λ tr, tr ++ [Msr (u32 reg) (u64 val)]).

(** arch_util.h:63; [val] is an operand the instruction reads, not its result, so
    the function returns the 0 it was initialised with *)
Definition msr_read (reg : Z) : IO Z :=
  let val := 0 in
  _ ← modify (λ tr, tr ++ [Rdmsr (u32 reg)]);
  mret val.

(** ** Reading a trace *)

(** The last byte written to a port; no driver writes wider values *)
Definition last_out (tr : trace) (port : Z) : Z :=
  foldl (λ acc e, match e with Out p v => if p =? port then v else acc | _ => acc end) 0 tr.
(** The values written to a port, in order *)
Definition outs (tr : trace) (port : Z) : list Z :=
  omap (λ e, match e with Out p v => if p =? port then Some v else None | _ => None end) tr.

Lemma last_out_snoc tr e port :
  last_out (tr ++ [e]) port =
    match e with Out p v => if p =? port then v else last_out tr port | _ => last_out tr port end.
Proof. unfold last_out. by rewrite foldl_snoc. Qed.

Lemma last_out_app_Out tr p v port :
  last_out (tr ++ [Out p v]) port = if p =? port then v else last_out tr port.
Proof. exact (last_out_snoc tr (Out p v) port). Qed.
Lemma last_out_app_In tr p v port : last_out (tr ++ [In p v]) port = last_out tr port.
Proof. exact (last_out_snoc tr (In p v) port). Qed.

Create Rewrite HintDb trace.
#[export] Hint Rewrite last_out_app_Out last_out_app_In : trace.

(** A device whose [data] ports read back the value last written to them, as
    the mask register of an initialised 8259A does. *)
Class ReadsBack (dev : device) (data : Z → Prop) : Prop :=
  reads_back tr port : data port → dev tr port = last_out tr port.
