(* ===== verification/Pic.v ===== *)
(** * Pic: the driver of the two 8259A interrupt controllers

    arch/i686/drivers/pic.c over the port trace. The mask registers of the two
    chips together refine a set of masked interrupt lines. *)

From S2P Require Import Prelude Machine PortIO.

Definition MASTER_PIC_COMMAND : Z := 0x20.
Definition MASTER_PIC_DATA : Z := 0x21.
Definition SLAVE_PIC_COMMAND : Z := 0xA0.
Definition SLAVE_PIC_DATA : Z := 0xA1.
Definition SLAVE_PIC_MASTER_IRQ_LINE : Z := 2.
Definition MASTER_PIC_IRQ_OFFSET : Z := 0x20.
Definition SLAVE_PIC_IRQ_OFFSET : Z := 0x28.
Definition PIC_EOI : Z := 0x20.
Definition PIC_READ_IRR : Z := 0x0A.
Definition PIC_READ_ISR : Z := 0x0B.
Definition ICW1_INIT : Z := 0x10.
Definition ICW1_ICW4 : Z := 0x01.
Definition ICW4_8086 : Z := 0x01.
Definition SLAVE_IRQNUM_BEGIN : Z := 40.
Definition IRQ_OFFSET : Z := 32.

(** [1 << n] of an [int]: a count of 32 or more is undefined *)
Definition shl1 (n : Z) : IO Z :=
  if n <? 32 then mret (Z.shiftl 1 n) else ub "shift count".

(** pic.c:28 *)
Definition PIC_sendEOI (irqnum : Z) : IO unit :=
  _ ← (if irqnum >=? SLAVE_IRQNUM_BEGIN then outb SLAVE_PIC_COMMAND PIC_EOI else mret tt);
  outb MASTER_PIC_COMMAND PIC_EOI.

(** pic.c:36 *)
Definition PIC_init : IO unit :=
  let init_seq_flags := Z.lor ICW1_INIT ICW1_ICW4 in
  let master_mask := Z.lxor 0xFF (Z.shiftl 1 SLAVE_PIC_MASTER_IRQ_LINE) in
  let slave_mask := 0xFF in
  _ ← outb MASTER_PIC_COMMAND init_seq_flags;
  _ ← outb SLAVE_PIC_COMMAND init_seq_flags;
  _ ← outb MASTER_PIC_DATA MASTER_PIC_IRQ_OFFSET;
  _ ← outb SLAVE_PIC_DATA SLAVE_PIC_IRQ_OFFSET;
  _ ← outb MASTER_PIC_DATA (Z.shiftl 1 SLAVE_PIC_MASTER_IRQ_LINE);
  _ ← outb SLAVE_PIC_DATA 0x2;
  _ ← outb MASTER_PIC_DATA ICW4_8086;
  _ ← outb SLAVE_PIC_DATA ICW4_8086;
  _ ← outb MASTER_PIC_DATA master_mask;
  outb SLAVE_PIC_DATA slave_mask.

(** The chip and the line of an interrupt number, pic.c:68-76 *)
Definition pic_line (irqnum : Z) : Z * Z :=
  let irqnum := u16 (irqnum - IRQ_OFFSET) in
  if irqnum >=? 8 then (SLAVE_PIC_DATA, u16 (irqnum - 8)) else (MASTER_PIC_DATA, irqnum).

Section driver.
Context (dev : device).

(** pic.c:65 *)
Definition PIC_mask_irq (irqnum : Z) : IO unit :=
  let '(port, irqnum) := pic_line irqnum in
  val ← inb dev port;
  bit ← shl1 irqnum;
  outb port (u8 (Z.lor val bit)).

(** pic.c:85 *)
Definition PIC_unmask_irq (irqnum : Z) : IO unit :=
  let '(port, irqnum) := pic_line irqnum in
  val ← inb dev port;
  bit ← shl1 irqnum;
  outb port (u8 (Z.land val (Z.lnot bit))).

(** pic.c:105; the slave is the left operand of the [|] *)
Definition pic_read_register (cmd : Z) : IO Z :=
  _ ← outb MASTER_PIC_COMMAND cmd;
  _ ← outb SLAVE_PIC_COMMAND cmd;
  hi ← inb dev SLAVE_PIC_COMMAND;
  lo ← inb dev MASTER_PIC_COMMAND;
  mret (u16 (Z.lor (Z.shiftl hi 8) lo)).

(** pic.c:117 *)
Definition PIC_read_ISR : IO Z := pic_read_register PIC_READ_ISR.
(** pic.c:122 *)
Definition PIC_read_IRR : IO Z := pic_read_register PIC_READ_IRR.

(** pic.c:127 *)
Definition PIC_check_spurious : IO Z :=
  irq_requests ← PIC_read_IRR;
  if c_true (Z.land irq_requests (Z.shiftl 1 7)) then mret 1
  else if c_true (Z.land irq_requests (Z.shiftl 1 15)) then
    _ ← outb MASTER_PIC_COMMAND PIC_EOI; mret 1
  else mret 0.
End driver.

(** ** The reference: the set of masked lines *)

Inductive pic_op := Mask (irqnum : Z) | Unmask (irqnum : Z).
Definition pic_run (dev : device) (op : pic_op) : IO unit :=
  match op with Mask n => PIC_mask_irq dev n | Unmask n => PIC_unmask_irq dev n end.
Definition op_irq (op : pic_op) : Z := match op with Mask n => n | Unmask n => n end.

(** All lines but the one the slave is wired to *)
Definition masked0 : gset Z := list_to_set (seqZ 0 16) ∖ {[ 2 ]}.
Definition masked_step (s : gset Z) (op : pic_op) : gset Z :=
  match op with
  | Mask n => {[ n - 32 ]} ∪ s
  | Unmask n => s ∖ {[ n - 32 ]}
  end.

(** The mask register of the chip of line [i] *)
Definition data_port (i : Z) : Z := if i <? 8 then MASTER_PIC_DATA else SLAVE_PIC_DATA.
Definition is_data (port : Z) : Prop := port = MASTER_PIC_DATA ∨ port = SLAVE_PIC_DATA.

(** The registers hold the set [s]. *)
Definition masks (tr : trace) (s : gset Z) : Prop :=
  ∀ i, 0 ≤ i < 16 → Z.testbit (last_out tr (data_port i)) (i mod 8) = bool_decide (i ∈ s).

Lemma u8_testbit v j : 0 ≤ j < 8 → Z.testbit (u8 v) j = Z.testbit v j.
Proof.
  intros Hj. unfold u8. change 256 with (2 ^ 8). by rewrite Z.mod_pow2_bits_low by lia.
Qed.

Lemma pic_line_ok n :
  32 ≤ n < 48 → pic_line n = (data_port (n - 32), (n - 32) mod 8).
Proof.
  intros Hn. unfold pic_line, data_port, IRQ_OFFSET. rewrite (u16_small (n - 32)) by lia.
  rewrite Z.geb_leb. destruct (Z.leb_spec 8 (n - 32)), (Z.ltb_spec (n - 32) 8); try lia.
  - rewrite u16_small by lia. f_equal. Z.to_euclidean_division_equations. lia.
  - f_equal. rewrite Z.mod_small; lia.
Qed.

Lemma data_port_is_data i : is_data (data_port i).
Proof. unfold is_data, data_port. destruct (i <? 8); auto. Qed.
Lemma data_port_u16 i : u16 (data_port i) = data_port i.
Proof. unfold data_port. by destruct (i <? 8). Qed.

(** Lines of one chip have different bits. *)
Lemma same_line i j :
  0 ≤ i < 16 → 0 ≤ j < 16 → data_port i = data_port j → i mod 8 = j mod 8 → i = j.
Proof.
  unfold data_port, MASTER_PIC_DATA, SLAVE_PIC_DATA. intros ??.
  destruct (Z.ltb_spec i 8), (Z.ltb_spec j 8); try done; intros _;
    Z.to_euclidean_division_equations; lia.
Qed.

Section refine.
Context (dev : device) {Hdev : ReadsBack dev is_data}.

(** Both operations read the mask, change one bit and write it back. *)
Lemma masks_update tr s s' n (f : Z → Z) (b : bool) :
  masks tr s → 32 ≤ n < 48 →
  (∀ v j, 0 ≤ j < 8 → Z.testbit (f v) j = if j =? (n - 32) mod 8 then b else Z.testbit v j) →
  (∀ i, 0 ≤ i < 16 → bool_decide (i ∈ s') = if i =? n - 32 then b else bool_decide (i ∈ s)) →
  let p := data_port (n - 32) in
  let v := u8 (dev tr p) in
  masks ((tr ++ [In p v]) ++ [Out p (u8 (f v))]) s'.
Proof using Hdev.
  intros Hm Hn Hf Hs' p v i Hi. autorewrite with trace. rewrite Hs' by done.
  assert (Hb : 0 ≤ i mod 8 < 8) by (apply Z.mod_pos_bound; lia).
  destruct (Z.eqb_spec p (data_port i)) as [Hp|Hp].
  - rewrite u8_testbit, Hf by done. subst v p.
    destruct (Z.eqb_spec i (n - 32)) as [->|Hne]; [by rewrite Z.eqb_refl|].
    rewrite (proj2 (Z.eqb_neq _ _)).
    + rewrite u8_testbit, reads_back, Hp by (done || apply data_port_is_data). by apply Hm.
    + contradict Hne. apply same_line; [done|lia|done|done].
  - rewrite (proj2 (Z.eqb_neq i _)); [by apply Hm|]. intros ->. done.
Qed.

Lemma pic_op_ok tr s op :
  masks tr s → 32 ≤ op_irq op < 48 →
  ∃ tr', pic_run dev op tr = Ok (tt, tr') ∧ masks tr' (masked_step s op).
Proof using Hdev.
  intros Hm Hn. destruct op as [n|n]; simpl in Hn; cbn [pic_run masked_step].
  all: unfold PIC_mask_irq, PIC_unmask_irq; rewrite pic_line_ok by done.
  all: assert (Hk : 0 ≤ (n - 32) mod 8 < 8) by (apply Z.mod_pos_bound; lia).
  all: unfold inb, outb, shl1; mstep; rewrite !data_port_u16.
  all: replace ((n - 32) mod 8 <? 32) with true by lia.
  all: eexists; split; [reflexivity|]; rewrite u8_idemp.
  - apply (masks_update tr s _ n (λ v, Z.lor v (Z.shiftl 1 ((n - 32) mod 8))) true); [done|done| |].
    + intros v j Hj. rewrite Z.lor_spec, Z.shiftl_1_l, Z.pow2_bits_eqb by lia.
      rewrite (Z.eqb_sym j). destruct (_ =? _); [by rewrite orb_true_r|by rewrite orb_false_r].
    + intros i Hi. destruct (Z.eqb_spec i (n - 32)) as [->|Hne].
      * apply bool_decide_eq_true. set_solver.
      * apply bool_decide_ext. set_solver.
  - apply (masks_update tr s _ n (λ v, Z.land v (Z.lnot (Z.shiftl 1 ((n - 32) mod 8)))) false);
      [done|done| |].
    + intros v j Hj. rewrite Z.land_spec, Z.lnot_spec, Z.shiftl_1_l, Z.pow2_bits_eqb by lia.
      rewrite (Z.eqb_sym j). destruct (_ =? _); [by rewrite andb_false_r|by rewrite andb_true_r].
    + intros i Hi. destruct (Z.eqb_spec i (n - 32)) as [->|Hne].
      * apply bool_decide_eq_false. set_solver.
      * apply bool_decide_ext. set_solver.
Qed.

Lemma pic_ops_ok ops tr s :
  masks tr s → Forall (λ op, 32 ≤ op_irq op < 48) ops →
  ∃ tr', mfor ops (pic_run dev) tr = Ok (tt, tr') ∧ masks tr' (foldl masked_step s ops).
Proof using Hdev.
  revert tr s. induction ops as [|op ops IH]; intros tr s Hm Hops; [by exists tr|].
  inversion Hops; subst. destruct (pic_op_ok tr s op) as (tr1 & Hr & Hm1); [done|done|].
  destruct (IH tr1 _ Hm1) as (tr2 & Hr2 & Hm2); [done|].
  exists tr2. split; [|done]. cbn [mfor]. mstep. by rewrite Hr.
Qed.
End refine.

Lemma PIC_init_run tr :
  PIC_init tr = Ok (tt, tr ++ [Out 0x20 0x11; Out 0xA0 0x11; Out 0x21 0x20; Out 0xA1 0x28;
    Out 0x21 4; Out 0xA1 2; Out 0x21 1; Out 0xA1 1; Out 0x21 0xFB; Out 0xA1 0xFF]).
Proof. unfold PIC_init, outb. mstep. by rewrite <-!app_assoc. Qed.

Lemma PIC_init_masks tr tr' : PIC_init tr = Ok (tt, tr') → masks tr' masked0.
Proof.
  rewrite PIC_init_run. intros [= <-] i Hi.
  assert (Hp : last_out (tr ++ [Out 0x20 0x11; Out 0xA0 0x11; Out 0x21 0x20; Out 0xA1 0x28;
    Out 0x21 4; Out 0xA1 2; Out 0x21 1; Out 0xA1 1; Out 0x21 0xFB; Out 0xA1 0xFF])
    (data_port i) = if i <? 8 then 0xFB else 0xFF).
  { unfold last_out. rewrite foldl_app. unfold data_port. by destruct (i <? 8). }
  rewrite Hp. clear Hp.
  assert (Hall : forallb (λ i, Bool.eqb (Z.testbit (if i <? 8 then 0xFB else 0xFF) (i mod 8))
    (bool_decide (i ∈ masked0))) (seqZ 0 16) = true) by (vm_compute; reflexivity).
  rewrite forallb_forall in Hall. apply Bool.eqb_prop, Hall, list_elem_of_In, elem_of_seqZ. lia.
Qed.

(** ** Requests and spurious interrupts *)

Section spurious.
Context (dev : device) (tr : trace).

(** The requests the two chips report when the driver asks for them *)
Definition tr_ask : trace := tr ++ [Out 0x20 0x0A; Out 0xA0 0x0A].
Definition req_slave : Z := u8 (dev tr_ask 0xA0).
Definition req_master : Z := u8 (dev (tr_ask ++ [In 0xA0 req_slave]) 0x20).
Definition tr_asked : trace := tr_ask ++ [In 0xA0 req_slave; In 0x20 req_master].

Lemma land_bit v k : 0 ≤ k → c_true (Z.land v (Z.shiftl 1 k)) = Z.testbit v k.
Proof using.
  intros Hk. unfold c_true. rewrite Z.shiftl_1_l. destruct (Z.testbit v k) eqn:E.
  - apply negb_true_iff, Z.eqb_neq. intros H0.
    assert (Hb : Z.testbit (Z.land v (2 ^ k)) k = true)
      by (rewrite Z.land_spec, E, Z.pow2_bits_true; [done|lia]).
    rewrite H0, Z.bits_0 in Hb. done.
  - apply negb_false_iff, Z.eqb_eq. apply Z.bits_inj'. intros j Hj.
    rewrite Z.bits_0, Z.land_spec, Z.pow2_bits_eqb by lia.
    destruct (Z.eqb_spec k j) as [->|]; [by rewrite E|apply andb_false_r].
Qed.

Lemma PIC_check_spurious_run :
  PIC_check_spurious dev tr =
    if Z.testbit req_master 7 then Ok (1, tr_asked)
    else if Z.testbit req_slave 7 then Ok (1, tr_asked ++ [Out 0x20 0x20])
    else Ok (0, tr_asked).
Proof using.
  unfold PIC_check_spurious, PIC_read_IRR, pic_read_register, outb, inb. mstep.
  rewrite <-(app_assoc tr).
  change ([Out (u16 MASTER_PIC_COMMAND) (u8 PIC_READ_IRR)] ++
    [Out (u16 SLAVE_PIC_COMMAND) (u8 PIC_READ_IRR)]) with [Out 0x20 0x0A; Out 0xA0 0x0A].
  change (u16 SLAVE_PIC_COMMAND) with 0xA0. change (u16 MASTER_PIC_COMMAND) with 0x20.
  fold tr_ask. fold req_slave. fold req_master. rewrite <-(app_assoc tr_ask).
  change ([In 0xA0 req_slave] ++ [In 0x20 req_master]) with [In 0xA0 req_slave; In 0x20 req_master].
  fold tr_asked.
  pose proof (u8_range (dev tr_ask 0xA0)) as Hs. fold req_slave in Hs.
  pose proof (u8_range (dev (tr_ask ++ [In 0xA0 req_slave]) 0x20)) as Hm. fold req_master in Hm.
  rewrite !land_bit by lia.
  assert (Hv : ∀ k, 0 ≤ k < 16 → Z.testbit (u16 (Z.lor (Z.shiftl req_slave 8) req_master)) k
    = if k <? 8 then Z.testbit req_master k else Z.testbit req_slave (k - 8)).
  { intros k Hk. unfold u16. change 65536 with (2 ^ 16).
    rewrite Z.mod_pow2_bits_low, Z.lor_spec, Z.shiftl_spec by lia.
    destruct (Z.ltb_spec k 8).
    - by rewrite (Z.testbit_neg_r req_slave) by lia.
    - rewrite (Z.bits_above_log2 req_master k); [apply orb_false_r|lia|].
      destruct (decide (req_master = 0)) as [->|]; [simpl; lia|].
      apply Z.log2_lt_pow2; [lia|]. apply Z.lt_le_trans with (2 ^ 8); [lia|].
      apply Z.pow_le_mono_r; lia. }
  rewrite !Hv by lia. change (7 <? 8) with true. change (15 <? 8) with false.
  change (15 - 8) with 7. cbv iota.
  by destruct (Z.testbit req_master 7), (Z.testbit req_slave 7).
Qed.
End spurious.

(** The end-of-interrupt commands for a vector *)
Definition eoi (irqnum : Z) : trace :=
  (if 40 <=? irqnum then [Out 0xA0 0x20] else []) ++ [Out 0x20 0x20].

Lemma PIC_sendEOI_run irqnum tr : PIC_sendEOI irqnum tr = Ok (tt, tr ++ eoi irqnum).
Proof.
  unfold PIC_sendEOI, eoi, outb. rewrite Z.geb_leb. unfold SLAVE_IRQNUM_BEGIN.
  destruct (40 <=? irqnum); mstep; [by rewrite <-app_assoc|done].
Qed.

(** ** Properties *)

(** C16. The driver keeps the set of masked interrupts: after PIC_init, every
    sequence of PIC_mask_irq and PIC_unmask_irq calls on the sixteen hardware
    interrupts returns, and the mask registers of the two controllers hold
    exactly the lines the sequence leaves masked, starting with all lines but
    the cascade; no call disturbs another line. The controllers answer a read
    of their data port with the mask last written. *)
Theorem pic_masks_refine (dev : device) (ops : list pic_op) (tr : trace) :
  ReadsBack dev is_data → Forall (λ op, 32 ≤ op_irq op < 48) ops →
  ∃ tr', (_ ← PIC_init; mfor ops (pic_run dev)) tr = Ok (tt, tr') ∧
    masks tr' (foldl masked_step masked0 ops).
Proof.
  intros Hdev Hops.
  destruct (pic_ops_ok dev ops _ masked0 (PIC_init_masks tr _ (PIC_init_run tr)) Hops)
    as (tr' & Hr & Hm).
  exists tr'. split; [|done]. unfold mbind, M_bind. by rewrite PIC_init_run.
Qed.

Lemma pic_masks_refine_witness :
  ∃ tr', (_ ← PIC_init; mfor [Unmask 32; Unmask 41; Mask 32] (pic_run last_out)) []
         = Ok (tt, tr') ∧
    masks tr' (foldl masked_step masked0 [Unmask 32; Unmask 41; Mask 32]).
Proof.
  apply (pic_masks_refine last_out [Unmask 32; Unmask 41; Mask 32] []).
  - intros tr port _. reflexivity.
  - repeat constructor; simpl; lia.
Defined.
