(* ===== verification/Interrupt.v ===== *)
(** * Interrupt: the dispatch of interrupts and exceptions

    arch/i686/interrupt.c. The table of callbacks next to the port trace and
    the rest of the kernel's state, which the callbacks work on. What a
    callback does is a parameter of the dispatcher; a context passed by value
    is copied to the stack slot of the call. *)

From S2P Require Import Prelude Machine CString Thread Printf PortIO Pic.

Definition NO_INTERRUPTS : Z := 256.
Definition NO_EXCEPTIONS : Z := 32.

(** What the rest of the kernel shows of itself: a memory. *)
Class HasMem (X : Type) := {
  x_mem : X → mem;
  x_with_mem : (mem → mem) → X → X;
  x_mem_with f x : x_mem (x_with_mem f x) = f (x_mem x);
}.

(** The variables of interrupt.c and timer.c, the trace and the rest *)
Record hw (X : Type) := Hw {
  h_trace : trace;
  h_callback : list Z;
  h_cur_callback : Z;
  h_freq_hz : Z;
  h_ctr_val : Z;
  h_tv_sec : Z;
  h_tv_nsec : Z;
  h_ext : X;
}.
Arguments Hw {X}.
Arguments h_trace {X}.
Arguments h_callback {X}.
Arguments h_cur_callback {X}.
Arguments h_freq_hz {X}.
Arguments h_ctr_val {X}.
Arguments h_tv_sec {X}.
Arguments h_tv_nsec {X}.
Arguments h_ext {X}.

(** The characters of a literal *)
Definition chars (s : string) : list Z := (λ a, Z.of_N (Ascii.N_of_ascii a)) <$> String.list_ascii_of_string s.
(** A literal without conversions as pieces of a format *)
Definition lits (s : string) : list piece := Lit <$> chars s.

(** interrupt.c:9: the entries after the last string are null *)
Definition exception_string : list string := [
  "Divide by zero"; "Debug"; "Non-maskable interrupt"; "Breakpoint"; "Overflow";
  "Bound range exceeded"; "Invalid opcode"; "Device not available"; "Double fault";
  "Coprocessor Segment Overrun"; "Invalid TSS"; "Segment not present";
  "Stack-segment fault"; "General protection fault"; "Page fault"; "Reserved";
  "Floating point exception"; "Alignment check"; "Machine check";
  "SIMD floating point exception"; "Virtualization exception"; "Reserved";
  "Security exception"; "Reserved"; "Triple fault"; "FPU error interrupt" ].

Section dispatch.
Context {X : Type} `{!HasMem X}.
Abbreviation H := (M (hw X)).

Definition h_with_trace (tr : trace) (h : hw X) : hw X :=
  Hw tr (h_callback h) (h_cur_callback h) (h_freq_hz h) (h_ctr_val h) (h_tv_sec h)
    (h_tv_nsec h) (h_ext h).
Definition h_with_ext (f : X → X) (h : hw X) : hw X :=
  Hw (h_trace h) (h_callback h) (h_cur_callback h) (h_freq_hz h) (h_ctr_val h) (h_tv_sec h)
    (h_tv_nsec h) (f (h_ext h)).
Definition h_with_callback (cb : list Z) (h : hw X) : hw X :=
  Hw (h_trace h) cb (h_cur_callback h) (h_freq_hz h) (h_ctr_val h) (h_tv_sec h)
    (h_tv_nsec h) (h_ext h).

(** A port access of a driver *)
Definition io {A} (c : IO A) : H A := λ h,
  match c (h_trace h) with
  | Ok (a, tr) => Ok (a, h_with_trace tr h)
  | Panic msg => Panic msg
  | Halt => Halt
  | UB why => UB why
  | OutOfFuel => OutOfFuel
  end.
(** A call of kprintf *)
Definition print (fmt : list piece) (args : list arg) : H unit :=
  modify (λ h, h_with_trace (h_trace h ++ [Print fmt args]) h).

(** Passing a context by value: the sixteen words go to the slot of the call *)
Definition copy_words (m : mem) (dst src : Z) (n : nat) : mem :=
  foldl (λ m i, store32 m (dst + 4 * Z.of_nat i) (load32 m (src + 4 * Z.of_nat i))) m (seq 0 n).
Definition pass_context (slot irq : Z) : H Z :=
  _ ← modify (h_with_ext (x_with_mem (λ m, copy_words m slot irq 16)));
  mret slot.
Definition irq_field (irq f : Z) : H Z := gets (λ h, load32 (x_mem (h_ext h)) (irq + f)).

Section handlers.
(** The device, what the function at an address does with the context at an
    address, the slot of that call and the addresses of the strings. *)
Context (dev : device) (call : Z → Z → H unit) (slot : Z) (str_addr : Z → Z).

(** interrupt.c:59 *)
Definition register_interrupt_callback (num cb : Z) : H unit :=
  modify (λ h, h_with_callback (<[Z.to_nat (u8 num) := cb]> (h_callback h)) h).

(** [if (interrupt_num < NO_INTERRUPTS && callback[interrupt_num])
    callback[interrupt_num](context)], interrupt.c:48 and :74 *)
Definition dispatch (interrupt_num irq : Z) : H unit :=
  if interrupt_num <? NO_INTERRUPTS then
    cb ← gets (λ h, default 0 (h_callback h !! Z.to_nat interrupt_num));
    if c_true cb then
      ctx ← pass_context slot irq;
      call cb ctx
    else mret tt
  else mret tt.

(** The string of an exception as an argument of kprintf *)
Definition exception_arg (n : Z) : arg :=
  match exception_string !! Z.to_nat n with
  | Some s => AStr (str_addr n) (chars s)
  | None => ANull
  end.

(** interrupt.c:40 *)
Definition exception_handler (irq : Z) : H unit :=
  spurious ← io (PIC_check_spurious dev);
  if c_true spurious then mret tt
  else
    interrupt_num ← irq_field irq Irq.int_no;
    _ ← dispatch interrupt_num irq;
    if interrupt_num <? NO_EXCEPTIONS then
      _ ← print (lits "Received exception no. " ++ [Conv None Cd] ++ lits ": "
                 ++ [Conv None Cs] ++ lits " " ++ [Lit 10])
            [AWord interrupt_num; exception_arg interrupt_num];
      io (PIC_sendEOI (u16 interrupt_num))
    else ub "exception_string out of bounds".

(** interrupt.c:64 *)
Definition interrupt_handler (irq : Z) : H unit :=
  spurious ← io (PIC_check_spurious dev);
  if c_true spurious then mret tt
  else
    interrupt_num ← irq_field irq Irq.int_no;
    _ ← print (lits "Received interrupt " ++ [Conv None Cd] ++ lits " " ++ [Lit 10])
          [AWord (interrupt_num ⊟ 32)];
    _ ← dispatch interrupt_num irq;
    io (PIC_sendEOI (u16 interrupt_num)).
End handlers.
End dispatch.

(** ** The copy of a context *)

Lemma copy_words_out m dst src n x :
  ¬ within dst (4 * Z.of_nat n) x → 4 * Z.of_nat n ≤ 4294967296 →
  load8 (copy_words m dst src n) x = load8 m x.
Proof.
  unfold copy_words. induction n as [|n IH]; intros Hx Hn; [done|].
  rewrite seq_S, foldl_app. cbn [foldl]. rewrite store32_out.
  - apply IH; [|lia]. contradict Hx. unfold within in *. lia.
  - contradict Hx. unfold within in *. wrap_lia.
Qed.

(** The words at the slot are those of the context. *)
Lemma copy_words_eq m dst src n k :
  disj dst (4 * Z.of_nat n) src (4 * Z.of_nat n) → 4 * Z.of_nat n ≤ 4294967296 →
  (k < n)%nat →
  load32 (copy_words m dst src n) (dst + 4 * Z.of_nat k) = load32 m (src + 4 * Z.of_nat k).
Proof.
  unfold copy_words. intros Hd Hn Hk. revert Hd Hn.
  induction n as [|n IH]; intros Hd Hn; [lia|]. rewrite seq_S, foldl_app. cbn [foldl].
  assert (Hd' : disj dst (4 * Z.of_nat n) src (4 * Z.of_nat n)).
  { intros i Hi Hw. apply (Hd i ltac:(lia)). unfold within in *. lia. }
  destruct (decide (k = n)) as [->|Hne].
  - simpl. rewrite load32_store32_eq, u32_small by apply load32_range.
    apply load32_ext. intros i Hi. rewrite <-!Z.add_assoc. apply copy_words_out; [|lia].
    intros Hw. apply (Hd (4 * Z.of_nat n + i) ltac:(lia)). unfold within in *. lia.
  - rewrite load32_store32_disj; [apply IH; [lia|done|lia]|].
    apply disj_off; simpl; wrap_lia.
Qed.

(** ** What the dispatcher does *)
Section spec.
Context {X : Type} `{!HasMem X} (dev : device) (call : Z → Z → M (hw X) unit) (slot : Z).

Definition received (n : Z) : event :=
  Print (lits "Received interrupt " ++ [Conv None Cd] ++ lits " " ++ [Lit 10]) [AWord (n ⊟ 32)].

(** The state in which the callback of vector [n] runs *)
Definition at_callback (irq n : Z) (h : hw X) : hw X :=
  h_with_ext (x_with_mem (λ m, copy_words m slot irq 16))
    (h_with_trace (tr_asked dev (h_trace h) ++ [received n]) h).

Lemma interrupt_handler_run irq h n :
  load32 (x_mem (h_ext h)) (irq + Irq.int_no) = n → 0 ≤ n < 256 →
  interrupt_handler dev call slot irq h =
    if Z.testbit (req_master dev (h_trace h)) 7
    then Ok (tt, h_with_trace (tr_asked dev (h_trace h)) h)
    else if Z.testbit (req_slave dev (h_trace h)) 7
    then Ok (tt, h_with_trace (tr_asked dev (h_trace h) ++ [Out 0x20 0x20]) h)
    else
      match default 0 (h_callback h !! Z.to_nat n) with
      | 0 => Ok (tt, h_with_trace ((tr_asked dev (h_trace h) ++ [received n]) ++ eoi n) h)
      | cb =>
          match call cb slot (at_callback irq n h) with
          | Ok (_, h') => Ok (tt, h_with_trace (h_trace h' ++ eoi n) h')
          | Panic msg => Panic msg
          | Halt => Halt
          | UB why => UB why
          | OutOfFuel => OutOfFuel
          end
      end.
Proof using.
  intros Hn Hr. unfold interrupt_handler. mstep. unfold io at 1.
  rewrite PIC_check_spurious_run.
  destruct (Z.testbit (req_master dev (h_trace h)) 7); [done|].
  destruct (Z.testbit (req_slave dev (h_trace h)) 7); [done|].
  cbn [c_true Z.eqb negb]. unfold irq_field, print, dispatch. mstep.
  cbn [h_ext h_with_trace h_trace h_callback]. rewrite Hn.
  replace (n <? NO_INTERRUPTS) with true by (unfold NO_INTERRUPTS; lia). mstep.
  cbn [h_ext h_with_trace h_trace h_callback]. fold (received n).
  assert (Heoi : ∀ tr, PIC_sendEOI (u16 n) tr = Ok (tt, tr ++ eoi n)).
  { intros tr. rewrite PIC_sendEOI_run. by rewrite u16_small by lia. }
  destruct (default 0 (h_callback h !! Z.to_nat n)) as [|p|p].
  - cbn [c_true Z.eqb negb]. mstep. unfold io. cbn [h_trace h_with_trace].
    by rewrite Heoi.
  - cbn [c_true Z.eqb negb]. unfold pass_context. mstep.
    change (h_with_ext _ _) with (at_callback irq n h).
    destruct (call (Z.pos p) slot (at_callback irq n h)) as [[[] h']| | | |]; [|done..].
    unfold io. by rewrite Heoi.
  - cbn [c_true Z.eqb negb]. unfold pass_context. mstep.
    change (h_with_ext _ _) with (at_callback irq n h).
    destruct (call (Z.neg p) slot (at_callback irq n h)) as [[[] h']| | | |]; [|done..].
    unfold io. by rewrite Heoi.
Qed.

End spec.

(** ** The hypotheses can be met *)

(** A kernel that is nothing but a memory *)
#[export] Instance mem_HasMem : HasMem mem.
Proof. by refine {| x_mem := id; x_with_mem f := f |}. Defined.

Definition demo_irq_hw : hw mem :=
  Hw [] (<[32%nat := 0x5000]> (replicate 256 0)) 0 0 0 0 0 (store32 ∅ (0x9000 + Irq.int_no) 32).

