(* ===== verification/Timer.v ===== *)
(** * Timer: the programmable interval timer

    arch/i686/drivers/timer.c and kern/time.c: programming the counter, the
    clock the timer interrupt advances, and the callback it runs. *)

From S2P Require Import Prelude Machine CString Thread Printf PortIO Pic Interrupt Sched.

Definition PIT_CMD : Z := 0x43.
Definition PIT_DATA_CHANNEL0 : Z := 0x40.
Definition PIT_REPEAT_MODE : Z := 0x36.
Definition PIT_FREQ : Z := 1193180.
Definition PIT_NSEC_PER_TICK : Z := 838.
Definition IRQ0 : Z := 32.

Section timer.
Context {X : Type} `{!HasMem X}.
Abbreviation H := (M (hw X)).
(** The device, the function at an address, and the address of
    hwclock_irq_handler *)
Context (dev : device) (call : Z → Z → H unit) (f_hwclock_irq_handler : Z).

Definition h_with_clock (sec nsec : Z) (h : hw X) : hw X :=
  Hw (h_trace h) (h_callback h) (h_cur_callback h) (h_freq_hz h) (h_ctr_val h) sec nsec (h_ext h).
Definition h_with_counter (freq ctr : Z) (h : hw X) : hw X :=
  Hw (h_trace h) (h_callback h) (h_cur_callback h) freq ctr (h_tv_sec h) (h_tv_nsec h) (h_ext h).

(** timer.c:39 *)
Definition hwclock_get_tick_remaining : H Z :=
  _ ← io (outb PIT_CMD PIT_REPEAT_MODE);
  low ← io (inb dev PIT_DATA_CHANNEL0);
  hi ← io (inb dev PIT_DATA_CHANNEL0);
  mret (u64 (Z.lor low (Z.shiftl hi 8) * PIT_NSEC_PER_TICK)).

(** timer.c:52-59: the clock after one interrupt; [tv_nsec] is a [long] and
    [current_ctr_val] a [size_t], both of 32 bits *)
Definition clock_tick (ctr sec nsec : Z) : Z * Z :=
  let tmp_nsec := u64 (u32 (nsec + u32 (ctr * PIT_NSEC_PER_TICK))) in
  if tmp_nsec >? 1000000000 then (u64 (sec + 1), s32 (u64 (tmp_nsec - 1000000000)))
  else (sec, s32 tmp_nsec).

(** timer.c:50 *)
Definition hwclock_irq_handler (ctx : Z) : H unit :=
  _ ← modify (λ h, let '(sec, nsec) := clock_tick (h_ctr_val h) (h_tv_sec h) (h_tv_nsec h) in
                   h_with_clock sec nsec h);
  cb ← gets h_cur_callback;
  if cb =? NULL then ub "null callback" else call cb ctx.

(** timer.c:64 *)
Definition hwclock_register_callback (cb : Z) : H unit :=
  modify (λ h, Hw (h_trace h) (h_callback h) cb (h_freq_hz h) (h_ctr_val h) (h_tv_sec h)
                 (h_tv_nsec h) (h_ext h)).

(** timer.c:69 *)
Definition hwclock_init (frequency : Z) : H unit :=
  _ ← register_interrupt_callback IRQ0 f_hwclock_irq_handler;
  if frequency =? 0 then ub "division by zero" else
  let d := PIT_FREQ / frequency in
  _ ← modify (h_with_counter frequency d);
  _ ← io (outb PIT_CMD PIT_REPEAT_MODE);
  _ ← io (outb PIT_DATA_CHANNEL0 (u8 (Z.land d 0xFF)));
  _ ← io (outb PIT_DATA_CHANNEL0 (u8 (Z.shiftr d 8)));
  io (PIC_unmask_irq dev IRQ0).

(** timer.c:87; a [timespec_t] is eight bytes of seconds and four of
    nanoseconds *)
Definition hwclock_set_time (tv : Z) : H unit :=
  modify (λ h, h_with_clock (load64 (x_mem (h_ext h)) tv)
                 (s32 (load32 (x_mem (h_ext h)) (tv + 8))) h).

(** timer.c:92 *)
Definition hwclock_get_time (tv : Z) : H unit :=
  let store f := modify (h_with_ext (x_with_mem f)) in
  sec ← gets h_tv_sec;
  nsec ← gets h_tv_nsec;
  _ ← store (λ m, store64 m tv sec);
  _ ← store (λ m, store32 m (tv + 8) nsec);
  remainder ← hwclock_get_tick_remaining;
  let tmp_nsec := u64 (nsec + remainder) in
  if tmp_nsec >? 1000000000 then
    _ ← store (λ m, store64 m tv (sec + 1));
    store (λ m, store32 m (tv + 8) (tmp_nsec - 1000000000))
  else store (λ m, store32 m (tv + 8) tmp_nsec).

(** include/arch/time.h:12, the fields in their order *)
Record hwclock_t := HwClock {
  hw_register_callback : Z → H unit;
  hw_init : Z → H unit;
  hw_set_time : Z → H unit;
  hw_get_time : Z → H unit;
}.
(** timer.c:32, initialised by position *)
Definition hwclock : hwclock_t :=
  HwClock hwclock_register_callback hwclock_init hwclock_get_time hwclock_set_time.

(** kern/time.c:9 *)
Definition ktime_init (timer_callback : Z) : H unit :=
  _ ← hw_register_callback hwclock timer_callback;
  hw_init hwclock CONF_SCHED_TICK_FREQ_HZ.
End timer.

(** kern/time.c:15 *)
Definition kclock_gettime : Z := 0.

(** ** The clock *)

(** The time a clock shows, in nanoseconds *)
Definition clock_ns (c : Z * Z) : Z := c.1 * 1000000000 + c.2.

(** One tick adds the length of a tick. *)
Lemma clock_tick_ns ctr sec nsec :
  0 ≤ ctr → ctr * PIT_NSEC_PER_TICK ≤ 1000000000 → 0 ≤ nsec ≤ 1000000000 →
  0 ≤ sec < 18446744073709551615 →
  let c := clock_tick ctr sec nsec in
  clock_ns c = clock_ns (sec, nsec) + ctr * PIT_NSEC_PER_TICK ∧
  0 ≤ c.2 ≤ 1000000000 ∧ sec ≤ c.1 ≤ sec + 1.
Proof.
  intros H0 H1 H2 H3. unfold clock_tick, clock_ns, PIT_NSEC_PER_TICK in *. cbv zeta.
  rewrite (u32_small (ctr * 838)), (u32_small (nsec + _)), (u64_small (nsec + _)) by lia.
  rewrite Z.gtb_ltb. destruct (Z.ltb_spec 1000000000 (nsec + ctr * 838)); cbn [fst snd].
  - rewrite (u64_small (sec + 1)), (u64_small (nsec + _ - _)), s32_small by lia. lia.
  - rewrite s32_small by lia. lia.
Qed.

(** Every frequency programs a divisor whose tick is at most a second. *)
Lemma divisor_second freq :
  0 < freq → 0 ≤ PIT_FREQ / freq ∧ PIT_FREQ / freq * PIT_NSEC_PER_TICK ≤ 1000000000.
Proof.
  intros Hf. unfold PIT_FREQ, PIT_NSEC_PER_TICK.
  assert (0 ≤ 1193180 / freq ≤ 1193180); [|lia].
  split; [apply Z.div_pos; lia|]. apply Z.div_le_upper_bound; nia.
Qed.

(** C32. The clock neither loses nor gains: with the counter value that
    hwclock_init computes for any frequency, [n] timer interrupts advance the
    clock by exactly [n] ticks of 838 ns times that value, the carry into the
    seconds included, and the nanoseconds never exceed a second. *)
Theorem clock_advances (freq : Z) (n : nat) (sec nsec : Z) :
  0 < freq → 0 ≤ nsec ≤ 1000000000 → 0 ≤ sec → sec + Z.of_nat n < 18446744073709551615 →
  let ctr := PIT_FREQ / freq in
  let c := Nat.iter n (λ c, clock_tick ctr c.1 c.2) (sec, nsec) in
  clock_ns c = clock_ns (sec, nsec) + Z.of_nat n * (ctr * PIT_NSEC_PER_TICK) ∧
  0 ≤ c.2 ≤ 1000000000.
Proof.
  intros Hf Hn Hs Hb. cbv zeta. destruct (divisor_second freq Hf) as [Hd1 Hd2].
  set (ctr := PIT_FREQ / freq) in *. clearbody ctr.
  enough (clock_ns (Nat.iter n (λ c, clock_tick ctr c.1 c.2) (sec, nsec))
          = clock_ns (sec, nsec) + Z.of_nat n * (ctr * PIT_NSEC_PER_TICK) ∧
    0 ≤ (Nat.iter n (λ c, clock_tick ctr c.1 c.2) (sec, nsec)).2 ≤ 1000000000 ∧
    sec ≤ (Nat.iter n (λ c, clock_tick ctr c.1 c.2) (sec, nsec)).1 ≤ sec + Z.of_nat n) by tauto.
  induction n as [|n IH]; [simpl; lia|]. rewrite Nat.iter_succ.
  destruct IH as (IH1 & IH2 & IH3); [lia|].
  destruct (Nat.iter n _ _) as [s1 n1]. cbn [fst snd] in *.
  destruct (clock_tick_ns ctr s1 n1) as (H1 & H2 & H3); [done|done|done|lia|].
  rewrite H1, IH1. split_and!; lia.
Qed.

Lemma clock_advances_witness :
  let c := Nat.iter 1000 (λ c, clock_tick (PIT_FREQ / 100) c.1 c.2) (0, 0) in
  clock_ns c = clock_ns (0, 0) + Z.of_nat 1000 * (PIT_FREQ / 100 * PIT_NSEC_PER_TICK) ∧
  0 ≤ c.2 ≤ 1000000000.
Proof. apply (clock_advances 100 1000 0 0); lia. Defined.

(** ** Programming the counter *)

(** The divisor fits the sixteen bits of the counter from 19 Hz on. *)
Lemma divisor_16bit freq : 0 < freq → PIT_FREQ / freq < 65536 ↔ 19 ≤ freq.
Proof.
  intros Hf. unfold PIT_FREQ. split; intros H.
  - apply Znot_gt_le. intros Hlt. apply Z.lt_nge in H. apply H.
    apply Z.div_le_lower_bound; lia.
  - apply Z.div_lt_upper_bound; lia.
Qed.


Lemma outs_app tr tr' port : outs (tr ++ tr') port = outs tr port ++ outs tr' port.
Proof. apply omap_app. Qed.

Section programming.
Context {X : Type} `{!HasMem X} (dev : device) (fn : Z).

(** Writing other ports leaves the masks alone. *)
Lemma masks_other tr s p v : masks tr s → ¬ is_data p → masks (tr ++ [Out p v]) s.
Proof using.
  intros Hm Hp i Hi. autorewrite with trace.
  rewrite (proj2 (Z.eqb_neq p _)); [by apply Hm|].
  intros ->. apply Hp, data_port_is_data.
Qed.

(** The state after hwclock_init *)
Lemma hwclock_init_run (freq : Z) (h : hw X) (s : gset Z) :
  ReadsBack dev is_data → 0 < freq → masks (h_trace h) s →
  let d := PIT_FREQ / freq in
  ∃ v w, let tr := h_trace h ++ [Out PIT_CMD PIT_REPEAT_MODE; Out PIT_DATA_CHANNEL0 (d mod 256);
             Out PIT_DATA_CHANNEL0 (d / 256 mod 256); In 0x21 v; Out 0x21 w] in
    hwclock_init dev fn freq h = Ok (tt, Hw tr (<[32%nat := fn]> (h_callback h)) (h_cur_callback h)
      freq d (h_tv_sec h) (h_tv_nsec h) (h_ext h)) ∧ masks tr (s ∖ {[ 0 ]}).
Proof using.
  intros Hdev Hf Hm d.
  set (tr1 := ((h_trace h ++ [Out PIT_CMD PIT_REPEAT_MODE])
    ++ [Out PIT_DATA_CHANNEL0 (d mod 256)]) ++ [Out PIT_DATA_CHANNEL0 (d / 256 mod 256)]).
  assert (Hm1 : masks tr1 s).
  { unfold tr1. repeat apply masks_other; try done; intros [E|E]; discriminate E. }
  destruct (pic_op_ok dev tr1 s (Unmask 32) Hm1 ltac:(simpl; lia)) as (tr2 & Hrun & Hm2).
  assert (Htr2 : ∃ v w, tr2 = tr1 ++ [In 0x21 v; Out 0x21 w]).
  { cbn [pic_run] in Hrun. unfold PIC_unmask_irq in Hrun.
    rewrite pic_line_ok in Hrun by lia. revert Hrun. unfold inb, outb, shl1. mstep.
    change ((32 - 32) mod 8 <? 32) with true. cbn iota. intros [= <-].
    rewrite <-app_assoc. by eexists _, _. }
  destruct Htr2 as (v & w & ->). exists v, w. cbv zeta. cbn [pic_run] in Hrun.
  assert (Etr : tr1 ++ [In 0x21 v; Out 0x21 w] = h_trace h ++ [Out PIT_CMD PIT_REPEAT_MODE;
    Out PIT_DATA_CHANNEL0 (d mod 256); Out PIT_DATA_CHANNEL0 (d / 256 mod 256); In 0x21 v; Out 0x21 w])
    by (unfold tr1; by rewrite <-!app_assoc).
  rewrite Etr in Hrun, Hm2. split.
  - unfold hwclock_init, register_interrupt_callback, modify, io, outb. mstep.
    rewrite (proj2 (Z.eqb_neq freq 0)) by lia. fold d.
    cbn [h_trace h_with_counter h_with_callback h_with_trace]. mstep.
    assert (Hlo : u8 (u8 (Z.land d 255)) = d mod 256).
    { rewrite u8_idemp. change 255 with (Z.ones 8). rewrite Z.land_ones by lia.
      unfold u8. change (2 ^ 8) with 256. by rewrite Zmod_mod. }
    assert (Hhi : u8 (u8 (Z.shiftr d 8)) = d / 256 mod 256).
    { rewrite u8_idemp. by rewrite Z.shiftr_div_pow2 by lia. }
    rewrite Hlo, Hhi.
    change (u16 PIT_CMD) with PIT_CMD. change (u16 PIT_DATA_CHANNEL0) with PIT_DATA_CHANNEL0.
    change (u8 PIT_REPEAT_MODE) with PIT_REPEAT_MODE. fold tr1. unfold IRQ0. by rewrite Hrun.
  - cbn [masked_step] in Hm2. by replace (32 - 32) with 0 in Hm2 by lia.
Qed.

(** C33. hwclock_init programs the timer: for every non-zero frequency and
    whatever lines are masked, the call returns with the handler installed for
    vector 32, the timer's line unmasked and no other mask changed, and the
    counter of the chip loaded, low byte first, with the sixteen low bits of
    the divisor. These are the divisor the clock reckons with exactly when the
    frequency is at least 19 Hz. *)
Theorem hwclock_init_programs (freq : Z) (h : hw X) (s : gset Z) :
  ReadsBack dev is_data → 0 < freq → masks (h_trace h) s → length (h_callback h) = 256%nat →
  ∃ h' lo hi, hwclock_init dev fn freq h = Ok (tt, h') ∧
    h_callback h' !! 32%nat = Some fn ∧ masks (h_trace h') (s ∖ {[ 0 ]}) ∧
    h_ctr_val h' = PIT_FREQ / freq ∧
    outs (h_trace h') PIT_CMD = outs (h_trace h) PIT_CMD ++ [PIT_REPEAT_MODE] ∧
    outs (h_trace h') PIT_DATA_CHANNEL0 = outs (h_trace h) PIT_DATA_CHANNEL0 ++ [lo; hi] ∧
    lo + 256 * hi = u16 (h_ctr_val h') ∧
    (lo + 256 * hi = h_ctr_val h' ↔ 19 ≤ freq).
Proof using.
  intros Hdev Hf Hm Hlen. pose proof (divisor_second freq Hf) as [Hd0 _].
  destruct (hwclock_init_run freq h s Hdev Hf Hm) as (v & w & Hr & Hm'). set (d := PIT_FREQ / freq) in *.
  eexists _, (d mod 256), (d / 256 mod 256). split; [exact Hr|].
  cbn [h_callback h_trace h_ctr_val]. rewrite !outs_app. split_and!; try done.
  - apply list_lookup_insert_eq. lia.
  - unfold u16. clearbody d. clear -Hd0. Z.to_euclidean_division_equations. lia.
  - rewrite <-divisor_16bit by done. fold d. clearbody d.
    clear -Hd0. Z.to_euclidean_division_equations. lia.
Qed.
End programming.

(** ** The hypotheses can be met *)

Definition demo_hw : hw mem :=
  Hw [Out 0x21 0xFB; Out 0xA1 0xFF] (replicate 256 0) 0 0 0 0 0 ∅.

Lemma hwclock_init_programs_witness :
  ∃ h' lo hi, hwclock_init last_out 0x5000 100 demo_hw = Ok (tt, h') ∧
    h_callback h' !! 32%nat = Some 0x5000 ∧ masks (h_trace h') (masked0 ∖ {[ 0 ]}) ∧
    h_ctr_val h' = PIT_FREQ / 100 ∧
    outs (h_trace h') PIT_CMD = outs (h_trace demo_hw) PIT_CMD ++ [PIT_REPEAT_MODE] ∧
    outs (h_trace h') PIT_DATA_CHANNEL0
      = outs (h_trace demo_hw) PIT_DATA_CHANNEL0 ++ [lo; hi] ∧
    lo + 256 * hi = u16 (h_ctr_val h') ∧ (lo + 256 * hi = h_ctr_val h' ↔ 19 ≤ 100).
Proof.
  apply (hwclock_init_programs last_out 0x5000 100 demo_hw masked0).
  - intros tr port _. reflexivity.
  - lia.
  - intros i Hi.
    assert (Hall : forallb (λ i, Bool.eqb (Z.testbit (last_out (h_trace demo_hw) (data_port i)) (i mod 8))
      (bool_decide (i ∈ masked0))) (seqZ 0 16) = true) by (vm_compute; reflexivity).
    rewrite forallb_forall in Hall. apply Bool.eqb_prop, Hall, list_elem_of_In, elem_of_seqZ. lia.
  - reflexivity.
Defined.

(** The initialiser of [hwclock] lists get_time where the structure has
    set_time: setting the time through it leaves the clock as it was. *)
Theorem hwclock_set_time_reads (dev : device) (fn tv : Z) (h : hw mem) :
  ∃ h', hw_set_time (hwclock dev fn) tv h = Ok (tt, h') ∧
    h_tv_sec h' = h_tv_sec h ∧ h_tv_nsec h' = h_tv_nsec h.
Proof.
  cbn [hw_set_time hwclock]. unfold hwclock_get_time, hwclock_get_tick_remaining, io, outb, inb.
  mstep. cbn [h_trace h_with_trace h_with_ext h_tv_nsec]. mstep.
  destruct (_ >? _); cbn [h_trace h_with_trace h_with_ext h_tv_nsec]; mstep;
    (eexists; split; [reflexivity|]; done).
Qed.
