(* ===== verification/Tick.v ===== *)
(** * Tick: from the timer interrupt to the scheduler

    The composition main.c sets up: vector 32 runs hwclock_irq_handler, whose
    callback is the tick handler of the round-robin policy. The dispatcher and
    the timer are used through their function pointers, the scheduler as their
    client. *)

From S2P Require Import Prelude Machine KList CString Thread Sched SchedInv SchedProps.
From S2P Require Import Printf PortIO Pic Interrupt Timer.

#[export] Instance sched_HasMem : HasMem sched_st.
Proof. by refine {| x_mem := s_mem; x_with_mem := s_with_mem |}. Defined.

Section tick.
(** The device, the addresses of the two functions, the slot of the call, the
    ready queue and the debug switch *)
Context (dev : device) (f_clock f_tick slot rq : Z) (debug : bool).

(** A handler of the scheduler on the whole machine *)
Definition on_sched (c : M sched_st unit) : M (hw sched_st) unit := λ h,
  match c (h_ext h) with
  | Ok (_, s) => Ok (tt, h_with_ext (λ _, s) h)
  | Panic msg => Panic msg
  | Halt => Halt
  | UB why => UB why
  | OutOfFuel => OutOfFuel
  end.

(** The functions the pointers of interrupt.c and timer.c hold at run time *)
Definition call_tick (fn ctx : Z) : M (hw sched_st) unit :=
  if fn =? f_tick then on_sched (rr_tick_handler rq debug ctx) else ub "unknown function".
Definition call_irq (fn ctx : Z) : M (hw sched_st) unit :=
  if fn =? f_clock then hwclock_irq_handler call_tick ctx else ub "unknown function".

Definition kernel_interrupt (irq : Z) : M (hw sched_st) unit :=
  interrupt_handler dev call_irq slot irq.
End tick.

(** ** The scheduler does not see the slot *)
Section frame.
Context (rq : Z) (T : list Z) (prio procOf pd : Z → Z).
Context (Hlay : layout rq T prio procOf).

(** [n] bytes at [a] that hold no object of the scheduler *)
Definition foreign (a n : Z) : Prop :=
  0 ≤ a ∧ a + n ≤ 4294967296 ∧ (a + n ≤ rq ∨ rq + 1536 ≤ a) ∧
  ∀ t, t ∈ T → (a + n ≤ t ∨ t + 96 ≤ a) ∧ (a + n ≤ procOf t ∨ procOf t + 28 ≤ a).

Lemma foreign_inv a n m' al s :
  foreign a n → changes_only a n (s_mem s) m' →
  rr_inv rq T prio procOf pd al s →
  rr_inv rq T prio procOf pd al (s_with_mem (λ _, m') s).
Proof using Hlay.
  intros (Ha0 & Ha1 & Hrq & Hobj) Hc [[Hlen Hq] Hperm Htd Hqu Hcur Hctx Hproc Hcr3 Htick].
  pose proof (lay_rq _ _ _ _ Hlay).
  constructor; try done; change (s_mem (s_with_mem (λ _, m') s)) with m'.
  - split; [done|]. intros j q Hj. destruct (Hq j q Hj) as [Hr Hf]. split; [|done].
    pose proof (lookup_lt_Some _ _ _ Hj).
    eapply ring_frame; [|exact Hr]. intros y Hy.
    pose proof (class_nodes rq T prio _ q Hf) as Hcn. rewrite Forall_forall in Hcn.
    specialize (Hcn y Hy). unfold lst_next, lst_prev.
    assert (Hya : 0 ≤ y ∧ y + 8 ≤ 4294967296 ∧ (a + n ≤ y ∨ y + 8 ≤ a)).
    { destruct Hcn as [->|(t & Ht & _ & ->)]; unfold rq_list, sizeof_tcb, tcb_list; [lia|].
      pose proof (lay_tcb _ _ _ _ Hlay t Ht). destruct (Hobj t Ht). lia. }
    split; apply (changes_only_load32 _ _ _ _ _ Hc), disj_linear; lia.
  - intros t Ht. destruct (Htd t Ht) as (H1 & H2 & H3 & H4).
    pose proof (lay_tcb _ _ _ _ Hlay t Ht). destruct (lay_proc _ _ _ _ Hlay t Ht) as (? & ? & _).
    destruct (Hobj t Ht) as [Ho1 Ho2].
    unfold tcb_priority, tcb_proc, proc_page_dir, proc_threads in *.
    rewrite !(changes_only_load32 _ _ _ _ _ Hc); [done|..]; apply disj_linear; lia.
  - intros t Ht. rewrite <-(Hqu t Ht). pose proof (lay_tcb _ _ _ _ Hlay t Ht).
    destruct (Hobj t Ht) as [Ho1 Ho2]. unfold tcb_quantum_nsec.
    apply (changes_only_load64 _ _ _ _ _ Hc), disj_linear; lia.
Qed.

(** Nor do the saved contexts. *)
Lemma foreign_context a n m' s t :
  foreign a n → changes_only a n (s_mem s) m' → t ∈ T →
  arch_return_to_user (s_mem (s_with_mem (λ _, m') s)) (t + tcb_exec_ctx) =
    arch_return_to_user (s_mem s) (t + tcb_exec_ctx).
Proof using Hlay.
  intros (Ha0 & Ha1 & _ & Hobj) Hc Ht. change (s_mem (s_with_mem (λ _, m') s)) with m'.
  pose proof (lay_tcb _ _ _ _ Hlay t Ht). destruct (Hobj t Ht).
  apply arch_return_ext. intros o Ho. unfold tcb_exec_ctx.
  apply (changes_only_load32 _ _ _ _ _ Hc), disj_linear; lia.
Qed.
End frame.

(** ** The timer interrupt is one scheduling step *)
Section compose.
Context (dev : device) (f_clock f_tick slot rq : Z) (debug : bool).
Context (T : list Z) (prio procOf pd : Z → Z).
Abbreviation inv := (rr_inv rq T prio procOf pd).

(** The frame of an interrupt, as the copy at the slot shows it *)
Lemma irq_holds_copy m irq r :
  disj slot 64 irq 64 → irq_holds m irq r → irq_holds (copy_words m slot irq 16) slot r.
Proof using.
  intros Hd Hr. unfold irq_holds in *.
  assert (Hw : ∀ k : nat, (k < 16)%nat → ∀ o, o = 4 * Z.of_nat k →
    load32 (copy_words m slot irq 16) (slot + o) = load32 m (irq + o)).
  { intros k Hk o ->. apply copy_words_eq; [exact Hd|lia|lia]. }
  rewrite (Hw 8%nat), (Hw 5%nat), (Hw 7%nat), (Hw 6%nat), (Hw 2%nat), (Hw 1%nat), (Hw 3%nat),
    (Hw 11%nat), (Hw 14%nat), (Hw 13%nat) by (lia || reflexivity).
  exact Hr.
Qed.

Lemma at_callback_sched irq n h :
  at_callback dev slot irq n h = Hw (tr_asked dev (h_trace h) ++ [received n]) (h_callback h)
    (h_cur_callback h) (h_freq_hz h) (h_ctr_val h) (h_tv_sec h) (h_tv_nsec h)
    (s_with_mem (λ _, copy_words (s_mem (h_ext h)) slot irq 16) (h_ext h)).
Proof using.
  unfold at_callback.
  change (copy_words (s_mem (h_ext h)) slot irq 16)
    with ((λ m, copy_words m slot irq 16) (s_mem (h_ext h))).
  generalize (λ m, copy_words m slot irq 16) as f. reflexivity.
Qed.

(** A timer interrupt is one scheduling step: with the pointers as
    ktime_init leaves them, and no request pending on the lowest-priority
    lines, interrupt_handler on vector 32 returns; the clock has advanced by
    one tick, the scheduler has performed the abstract step of one tick, the
    interrupted registers are in the context of the thread that was running,
    the other threads' contexts are unchanged, and the only end of interrupt
    sent is the master's. *)
Theorem timer_interrupt_schedules (irq : Z) (al : asched) (r : cpu_regs) (h : hw sched_st) :
  layout rq T prio procOf → inv al (h_ext h) →
  load32 (s_mem (h_ext h)) (irq + Irq.int_no) = IRQ0 →
  h_callback h !! 32%nat = Some f_clock → f_clock ≠ 0 →
  h_cur_callback h = f_tick → f_tick ≠ 0 →
  Z.testbit (req_master dev (h_trace h)) 7 = false →
  Z.testbit (req_slave dev (h_trace h)) 7 = false →
  foreign rq T procOf slot 64 → disj slot 64 irq 64 → disj (a_cur al) sizeof_tcb slot 64 →
  irq_holds (s_mem (h_ext h)) irq r →
  ∃ h', kernel_interrupt dev f_clock f_tick slot rq debug irq h = Ok (tt, h') ∧
    inv (RR.tick prio sched_tick_nsec al) (h_ext h') ∧
    (h_tv_sec h', h_tv_nsec h') = clock_tick (h_ctr_val h) (h_tv_sec h) (h_tv_nsec h) ∧
    h_trace h' = (tr_asked dev (h_trace h) ++ [received IRQ0]) ++ [Out 0x20 0x20] ∧
    (h_callback h' = h_callback h ∧ h_cur_callback h' = h_cur_callback h ∧ h_ctr_val h' = h_ctr_val h) ∧
    arch_return_to_user (s_mem (h_ext h')) (a_cur al + tcb_exec_ctx) =
      saved (arch_return_to_user (s_mem (h_ext h)) (a_cur al + tcb_exec_ctx)) r ∧
    (∀ t, t ∈ T → t ≠ a_cur al →
       arch_return_to_user (s_mem (h_ext h')) (t + tcb_exec_ctx)
       = arch_return_to_user (s_mem (h_ext h)) (t + tcb_exec_ctx)).
Proof using.
  intros Hlay Hinv Hn Hcb Hfc Hcur Hft Hm Hs Hfor Hd Hdc Hr.
  unfold kernel_interrupt. change (s_mem (h_ext h)) with (x_mem (h_ext h)) in Hn.
  rewrite (interrupt_handler_run dev _ slot irq h IRQ0 Hn ltac:(unfold IRQ0; lia)), Hm, Hs.
  change (Z.to_nat IRQ0) with 32%nat. rewrite Hcb.
  change (default 0 (Some f_clock)) with f_clock.
  set (m1 := copy_words (s_mem (h_ext h)) slot irq 16).
  set (tr1 := tr_asked dev (h_trace h) ++ [received IRQ0]).
  assert (Eh : at_callback dev slot irq IRQ0 h = Hw tr1 (h_callback h) (h_cur_callback h)
    (h_freq_hz h) (h_ctr_val h) (h_tv_sec h) (h_tv_nsec h) (s_with_mem (λ _, m1) (h_ext h)))
    by (apply at_callback_sched).
  assert (Hc : changes_only slot 64 (s_mem (h_ext h)) m1).
  { intros x Hx. apply (copy_words_out _ slot irq 16); [exact Hx|lia]. }
  assert (Hinv1 : inv al (s_with_mem (λ _, m1) (h_ext h)))
    by (apply (foreign_inv rq T prio procOf pd Hlay slot 64); done).
  destruct (rr_tick_full rq T prio procOf pd debug slot al _ r Hlay Hinv1) as
    (s' & Hrun & Hinv' & Hregs & Hoth); [exact Hdc|by apply irq_holds_copy|].
  destruct (clock_tick (h_ctr_val h) (h_tv_sec h) (h_tv_nsec h)) as [sec nsec] eqn:Ek.
  set (h2 := Hw tr1 (h_callback h) (h_cur_callback h) (h_freq_hz h) (h_ctr_val h) sec nsec s').
  assert (Hcall : call_irq f_clock f_tick rq debug f_clock slot
    (at_callback dev slot irq IRQ0 h) = Ok (tt, h2)).
  { rewrite Eh. clear Eh. generalize dependent (s_with_mem (λ _, m1) (h_ext h)).
    intros s1 _ Hrun _. unfold call_irq. rewrite Z.eqb_refl. unfold hwclock_irq_handler. mstep.
    cbn [h_ctr_val h_tv_sec h_tv_nsec]. rewrite Ek. cbn [h_cur_callback h_with_clock].
    rewrite Hcur. unfold NULL. rewrite (proj2 (Z.eqb_neq f_tick 0)) by done.
    unfold call_tick. rewrite Z.eqb_refl. unfold on_sched. cbn [h_ext h_with_clock].
    rewrite Hrun. unfold h2. rewrite Hcur. reflexivity. }
  exists (h_with_trace (h_trace h2 ++ eoi IRQ0) h2).
  assert (Hctx := λ t, foreign_context rq T prio procOf Hlay slot 64 m1 (h_ext h) t Hfor Hc).
  rewrite (Hctx _ (rr_inv_cur _ _ _ _ _ al _ Hinv)) in Hregs.
  refine (conj _ (conj Hinv' (conj eq_refl (conj eq_refl (conj (conj eq_refl (conj eq_refl eq_refl)) (conj Hregs _)))))).
  - destruct f_clock; [done|..]; cbn beta iota; by rewrite Hcall.
  - intros t Ht Hne. etrans; [exact (Hoth t Ht Hne)|by apply Hctx].
Qed.
End compose.

(** ** The hypotheses can be met *)

Lemma demo_foreign a : 0x40000 ≤ a → a + 64 ≤ 0x80000 → foreign 0x10000 demo_T demo_proc a 64.
Proof.
  intros H1 H2. split_and!; [lia|lia|lia|].
  intros t [->|[->|[]%elem_of_nil]%elem_of_cons]%elem_of_cons; vm_compute (demo_proc _); lia.
Qed.

Lemma timer_interrupt_schedules_witness :
  ∃ h h', load32 (s_mem (h_ext h)) (0x40000 + Irq.int_no) = 32 ∧
    kernel_interrupt (λ _ _, 0) 0x5000 0x6000 0x50000 0x10000 true 0x40000 h = Ok (tt, h') ∧
    current_thread (h_ext h') = 0x20000.
Proof.
  destruct demo_started as (s & _ & H).
  set (s1 := s_with_mem (λ _, store32 (s_mem s) (0x40000 + Irq.int_no) 32) s).
  assert (H1 : demo_inv demo_a s1).
  { apply (foreign_inv _ _ _ _ _ demo_layout 0x40000 64).
    - apply demo_foreign; lia.
    - apply changes_only_store32; [reflexivity|unfold Irq.int_no; lia..].
    - exact H. }
  assert (Hn : load32 (s_mem s1) (0x40000 + Irq.int_no) = 32).
  { change (s_mem s1) with (store32 (s_mem s) (0x40000 + Irq.int_no) 32).
    rewrite load32_store32_eq. reflexivity. }
  set (h := Hw [] (<[32%nat := 0x5000]> (replicate 256 0)) 0x6000 100 11931 0 0 s1).
  destruct (timer_interrupt_schedules (λ _ _, 0) 0x5000 0x6000 0x50000 0x10000 true demo_T
    demo_prio demo_proc demo_pd 0x40000 demo_a (irq_regs (s_mem s1) 0x40000) h demo_layout H1)
    as (h' & Hr & Hi & _).
  - exact Hn.
  - reflexivity.
  - lia.
  - reflexivity.
  - lia.
  - reflexivity.
  - reflexivity.
  - apply demo_foreign; lia.
  - apply disj_linear; lia.
  - apply disj_linear; vm_compute; intuition congruence.
  - unfold irq_holds. repeat split.
  - exists h, h'. split; [exact Hn|]. split; [exact Hr|].
    rewrite (ri_current _ _ _ _ _ _ _ Hi). vm_compute. reflexivity.
Defined.
