(* ===== verification/Preempt.v ===== *)
(** * Preempt: from one user thread to the next

    boot/interrupt.asm around the dispatcher: the processor leaves ring 3 on the
    kernel's stack, the stub of the vector and irq_common complete the context
    there, interrupt_handler runs on it, and arch_return_to_user enters the
    thread the scheduler chose. The reference is a machine that keeps the
    registers of every thread. *)

From S2P Require Import Prelude Machine KList CString Thread Sched SchedInv SchedProps.
From S2P Require Import Printf PortIO Pic Interrupt Timer Tick.

(** ** The way into the kernel *)

(** A push: the stack pointer and the memory *)
Definition push_word (v : Z) (st : Z * mem) : Z * mem :=
  (st.1 ⊟ 4, store32 st.2 (st.1 ⊟ 4) v).
Definition push_words (vs : list Z) (st : Z * mem) : Z * mem :=
  foldl (λ st v, push_word v st) st vs.

Section entry.
(** The kernel stack of the task segment, the instruction after the call *)
Context (sp0 ret : Z).

(** What the processor pushes when an interrupt stops a thread of ring 3 *)
Definition deliver (r : cpu_regs) (m : mem) : Z * mem :=
  push_words [r_ss r; r_esp r; r_eflags r; r_cs r; r_eip r] (sp0, m).

(** interrupt.asm:51, the macro IRQ up to the jump *)
Definition irq_stub (num : Z) (st : Z * mem) : Z * mem := push_words [0; num] st.
(** interrupt.asm:92, the vectors of the macro EH_ERRCODE *)
Definition has_errcode (num : Z) : bool := bool_decide (num ∈ [8; 10; 11; 12; 13; 14]).
(** interrupt.asm:6 and 15, the macros EH and EH_ERRCODE up to the jump *)
Definition eh_stub (num : Z) (st : Z * mem) : Z * mem :=
  push_words (if has_errcode num then [num] else [0; num]) st.
(** For some exceptions the processor pushes an error code as well. *)
Definition push_errcode (err : option Z) (st : Z * mem) : Z * mem :=
  match err with Some e => push_word e st | None => st end.

(** The instruction pusha *)
Definition pusha (r : cpu_regs) (st : Z * mem) : Z * mem :=
  push_words [r_eax r; r_ecx r; r_edx r; r_ebx r; st.1; r_ebp r; r_esi r; r_edi r] st.

(** interrupt.asm:62 and 25, up to and with the call: the low half of %eax is
    replaced by %ds before it is pushed *)
Definition irq_common (r : cpu_regs) (st : Z * mem) : Z * mem :=
  let st := pusha r st in
  let ax := Z.lor (Z.land (r_eax r) 0xFFFF0000) (u16 (r_ds r)) in
  push_word ret (push_word ax st).

Definition irq_entry (num : Z) (r : cpu_regs) (m : mem) : Z * mem :=
  irq_common r (irq_stub num (deliver r m)).
Definition eh_entry (num : Z) (err : option Z) (r : cpu_regs) (m : mem) : Z * mem :=
  irq_common r (eh_stub num (push_errcode err (deliver r m))).
End entry.

(** interrupt.asm:39: %ds and popa, two words dropped, iret, all from the context
    at [irq] *)
Definition eh_return (m : mem) (irq : Z) : cpu_regs := {|
  r_ds := u16 (load32 m (irq + Irq.ds));
  r_edi := load32 m (irq + Irq.edi);
  r_esi := load32 m (irq + Irq.esi);
  r_ebp := load32 m (irq + Irq.ebp);
  r_ebx := load32 m (irq + Irq.ebx);
  r_edx := load32 m (irq + Irq.edx);
  r_ecx := load32 m (irq + Irq.ecx);
  r_eax := load32 m (irq + Irq.eax);
  r_eip := load32 m (irq + Irq.eip);
  r_cs := u16 (load32 m (irq + Irq.cs));
  r_eflags := load32 m (irq + Irq.eflags);
  r_esp := load32 m (irq + Irq.esp);
  r_ss := u16 (load32 m (irq + Irq.ss));
|}.

(** The stack of the kernel after the entry; the parameter of the C handler lies
    behind the return address. *)
Definition enter {X} `{!HasMem X} (entry : mem → Z * mem) : M (hw X) Z := λ h,
  let '(sp, m) := entry (x_mem (h_ext h)) in
  Ok (sp ⊞ 4, h_with_ext (x_with_mem (λ _, m)) h).

(** An exception of the thread with registers [r], and what it goes on with *)
Definition exception {X} `{!HasMem X} (dev : device) (call : Z → Z → M (hw X) unit)
    (slot : Z) (str_addr : Z → Z) (sp0 ret num : Z) (err : option Z) (r : cpu_regs)
    : M (hw X) cpu_regs :=
  context ← enter (eh_entry sp0 ret num err r);
  _ ← exception_handler dev call slot str_addr context;
  gets (λ h, eh_return (x_mem (h_ext h)) context).

Section switch.
(** As in Tick, with the kernel's stack *)
Context (dev : device) (f_clock f_tick slot rq : Z) (debug : bool) (sp0 ret : Z).

(** An interrupt of the thread with registers [r]; the result is what the thread
    that runs next finds in its registers *)
Definition irq (num : Z) (r : cpu_regs) : M (hw sched_st) cpu_regs :=
  context ← enter (irq_entry sp0 ret num r);
  _ ← kernel_interrupt dev f_clock f_tick slot rq debug context;
  gets (λ h, arch_return_to_user (s_mem (h_ext h)) (current_thread_execution_ctx (thr (h_ext h)))).

(** Time slices: the running thread computes, then the timer interrupts it *)
Fixpoint slices (fs : list (cpu_regs → cpu_regs)) (r : cpu_regs) : M (hw sched_st) cpu_regs :=
  match fs with
  | [] => mret r
  | f :: fs' => r' ← irq IRQ0 (f r); slices fs' r'
  end.
End switch.

(** ** The reference: a machine that keeps all registers *)

Record multi := Multi {
  m_sched : asched;
  m_saved : Z → cpu_regs;
  m_run : cpu_regs;
  m_clock : Z * Z;
}.

Section reference.
(** The priorities; what the timer counts down from *)
Context (prio : Z → Z) (ctr : Z).

(** The running thread computes. *)
Definition slice (f : cpu_regs → cpu_regs) (a : multi) : multi :=
  Multi (m_sched a) (m_saved a) (f (m_run a)) (m_clock a).
(** The timer: the clock advances, the thread that ran is saved, the scheduler
    makes its step, the thread that is current then gets its registers back. *)
Definition preempt (a : multi) : multi :=
  let t := a_cur (m_sched a) in
  let C u := if decide (u = t) then saved (m_saved a t) (m_run a) else m_saved a u in
  let al := RR.tick prio sched_tick_nsec (m_sched a) in
  Multi al C (C (a_cur al)) (clock_tick ctr (m_clock a).1 (m_clock a).2).
Definition turns (fs : list (cpu_regs → cpu_regs)) (a : multi) : multi :=
  foldl (λ a f, preempt (slice f a)) a fs.
End reference.

(** ** The context on the kernel's stack *)

Lemma push_words_ok vs : ∀ sp m,
  0 ≤ sp - 4 * Z.of_nat (length vs) → sp < 4294967296 →
  ∃ m', push_words vs (sp, m) = (sp - 4 * Z.of_nat (length vs), m') ∧
    (∀ (i : nat) v, vs !! i = Some v → load32 m' (sp - 4 - 4 * Z.of_nat i) = u32 v) ∧
    changes_only (sp - 4 * Z.of_nat (length vs)) (4 * Z.of_nat (length vs)) m m'.
Proof.
  induction vs as [|w vs IH] using rev_ind; intros sp m H0 Hsp.
  { exists m. unfold push_words. cbn [foldl length]. split_and!; [f_equal; lia|done|done]. }
  rewrite length_app in *. cbn [length] in *.
  destruct (IH sp m ltac:(lia) Hsp) as (m1 & E & Hl & Hc).
  unfold push_words in *. rewrite foldl_app, E. cbn [foldl]. unfold push_word. cbn [fst snd].
  set (p := sp - 4 * Z.of_nat (length vs)) in *. rewrite (u32_small (p - 4)) by lia.
  eexists. split; [f_equal; lia|]. split.
  - intros i v Hi. apply lookup_app_Some in Hi as [Hi|[Hi Hv]].
    + pose proof (lookup_lt_Some _ _ _ Hi).
      rewrite load32_store32_disj; [by apply Hl|]. apply disj_linear; lia.
    + apply list_lookup_singleton_Some in Hv as [Hi0 <-].
      replace (sp - 4 - 4 * Z.of_nat i) with (p - 4) by lia. apply load32_store32_eq.
  - apply changes_only_store32; [|lia..]. intros x Hx. apply Hc. contradict Hx.
    unfold within in *. wrap_lia.
Qed.

(** Registers hold words. *)
Definition words (r : cpu_regs) : Prop :=
  Forall (λ v, 0 ≤ v < 4294967296)
    [r_eax r; r_ebx r; r_ecx r; r_edx r; r_esi r; r_edi r; r_ebp r; r_eip r; r_esp r; r_eflags r].

(** Both entries leave a context of sixteen words below [sp0] and the return
    address. *)
Lemma context_ok sp0 ret err num r m :
  68 ≤ sp0 < 4294967296 → 0 ≤ num < 4294967296 → words r →
  ∃ m', irq_common ret r (push_words [err; num] (deliver sp0 r m)) = (sp0 - 68, m') ∧
    irq_holds m' (sp0 - 64) r ∧ load32 m' (sp0 - 64 + Irq.int_no) = num ∧
    (load32 m' (sp0 - 64 + Irq.ds) = u32 (Z.lor (Z.land (r_eax r) 0xFFFF0000) (u16 (r_ds r))) ∧
     load32 m' (sp0 - 64 + Irq.cs) = u32 (r_cs r) ∧ load32 m' (sp0 - 64 + Irq.ss) = u32 (r_ss r)) ∧
    changes_only (sp0 - 68) 68 m m'.
Proof.
  intros Hsp Hn Hw. unfold irq_common, deliver, pusha.
  set (e := (push_words [err; num] _).1). set (ax := Z.lor _ _).
  destruct (push_words_ok ([r_ss r; r_esp r; r_eflags r; r_cs r; r_eip r] ++ [err; num] ++
    [r_eax r; r_ecx r; r_edx r; r_ebx r; e; r_ebp r; r_esi r; r_edi r] ++ [ax; ret]) sp0 m)
    as (m' & E & Hl & Hc); cbn [app length] in *; [lia|lia|].
  exists m'. split; [exact E|]. unfold words in Hw. rewrite !Forall_cons in Hw.
  unfold irq_holds. unfold Irq.eax, Irq.ebx, Irq.ecx, Irq.edx, Irq.esi, Irq.edi, Irq.ebp, Irq.eip,
    Irq.esp, Irq.eflags, Irq.int_no, Irq.ds, Irq.cs, Irq.ss.
  match type of E with push_words ?l _ = _ => set (ws := l) in * end.
  assert (Hu : ∀ (i : nat) v o, ws !! i = Some v → o = 60 - 4 * Z.of_nat i →
    load32 m' (sp0 - 64 + o) = u32 v).
  { intros i v o Hi ->. rewrite <-(Hl i v Hi). f_equal; lia. }
  assert (Hg : ∀ (i : nat) v o, ws !! i = Some v → 0 ≤ v < 4294967296 → o = 60 - 4 * Z.of_nat i →
    load32 m' (sp0 - 64 + o) = v).
  { intros i v o Hi Hv Ho. by rewrite (Hu i v o Hi Ho), u32_small. }
  destruct_and? Hw. subst ws.
  split_and!; [by apply (Hg 7%nat)|by apply (Hg 10%nat)|by apply (Hg 8%nat)|by apply (Hg 9%nat)|
    by apply (Hg 13%nat)|by apply (Hg 14%nat)|by apply (Hg 12%nat)|by apply (Hg 4%nat)|
    by apply (Hg 1%nat)|by apply (Hg 2%nat)|by apply (Hg 6%nat)|
    by apply (Hu 15%nat)|by apply (Hu 3%nat)|by apply (Hu 0%nat)|exact Hc].
Qed.

(** ** One interrupt, and any number of slices *)

(** No request is ever pending on the lowest-priority lines, where the driver
    looks for spurious interrupts. *)
Class Quiet (dev : device) : Prop := quiet tr :
  Z.testbit (req_master dev tr) 7 = false ∧ Z.testbit (req_slave dev tr) 7 = false.

Section refines.
Context (dev : device) (f_clock f_tick slot rq : Z) (debug : bool) (sp0 ret : Z).
Context (T : list Z) (prio procOf pd : Z → Z) (ctr : Z).
Context `{!Quiet dev} (Hlay : layout rq T prio procOf).
Context (Hfns : f_clock ≠ 0 ∧ f_tick ≠ 0) (Hsp : sp0 < 4294967296).
(** The kernel's stack, with the call's slot below the context *)
Context (Hstack : foreign rq T procOf (sp0 - 68) 68) (Hslot : foreign rq T procOf slot 64)
  (Hbelow : slot + 64 ≤ sp0 - 68).

(** The machine [h] with the running thread's registers [m_run a] is in the
    state [a] of the reference, and the function pointers are as ktime_init
    leaves them. *)
Record shown (a : multi) (h : hw sched_st) : Prop := {
  sh_sched : rr_inv rq T prio procOf pd (m_sched a) (h_ext h);
  sh_saved : ∀ t, t ∈ T →
    arch_return_to_user (s_mem (h_ext h)) (t + tcb_exec_ctx) = m_saved a t;
  sh_irq : h_callback h !! 32%nat = Some f_clock;
  sh_tick : h_cur_callback h = f_tick;
  sh_ctr : h_ctr_val h = ctr;
  sh_clock : (h_tv_sec h, h_tv_nsec h) = m_clock a;
}.

Lemma irq_ok a h : shown a h → words (m_run a) →
  ∃ h', irq dev f_clock f_tick slot rq debug sp0 ret IRQ0 (m_run a) h = Ok (m_run (preempt prio ctr a), h') ∧
    shown (preempt prio ctr a) h'.
Proof using All.
  intros [Hinv Hsav Hcb Hct Hctr Hclk] Hw. pose proof Hstack as (Hst0 & Hst1 & _).
  destruct (context_ok sp0 ret 0 IRQ0 (m_run a) (s_mem (h_ext h)) ltac:(lia) ltac:(unfold IRQ0; lia) Hw)
    as (m1 & E & Hr & Hn & _ & Hc).
  set (h1 := h_with_ext (s_with_mem (λ _, m1)) h).
  assert (Hinv1 : rr_inv rq T prio procOf pd (m_sched a) (h_ext h1))
    by (apply (foreign_inv rq T prio procOf pd Hlay (sp0 - 68) 68); done).
  pose proof (rr_inv_cur _ _ _ _ _ _ _ Hinv) as Hcur.
  pose proof (lay_tcb _ _ _ _ Hlay _ Hcur) as Htcb.
  destruct Hslot as (Hs0 & Hs1 & _ & Hobj). destruct (Hobj _ Hcur) as [Hsc _].
  destruct Hfns as [Hf1 Hf2]. destruct (quiet (h_trace h1)) as [Hq1 Hq2].
  destruct (timer_interrupt_schedules dev f_clock f_tick slot rq debug T prio procOf pd (sp0 - 64)
    (m_sched a) (m_run a) h1) as (h' & Hrun & Hinv' & Hclk' & _ & (Hcb' & Hct' & Hctr') & Hcs & Hoth); try done.
  { apply disj_linear; lia. }
  { apply disj_linear; unfold sizeof_tcb; lia. }
  assert (Hsav' : ∀ t, t ∈ T →
    arch_return_to_user (s_mem (h_ext h')) (t + tcb_exec_ctx) = m_saved (preempt prio ctr a) t).
  { intros t Ht. cbn [m_saved preempt].
    pose proof (foreign_context rq T prio procOf Hlay (sp0 - 68) 68 m1 (h_ext h) t Hstack Hc Ht) as Hf.
    change (h_ext h1) with (s_with_mem (λ _, m1) (h_ext h)) in Hcs, Hoth.
    case_decide as Et; [subst t; rewrite Hcs|rewrite Hoth by done]; by rewrite Hf, Hsav. }
  exists h'. split.
  2: { constructor; [exact Hinv'|exact Hsav'|by rewrite Hcb'|by rewrite Hct'|by rewrite Hctr'|].
       rewrite Hclk'. cbn [m_clock preempt]. by rewrite <-Hclk, <-Hctr. }
  assert (He : enter (irq_entry sp0 ret IRQ0 (m_run a)) h = Ok (sp0 - 64, h1)).
  { unfold enter. change (x_mem (h_ext h)) with (s_mem (h_ext h)).
    unfold irq_entry, irq_stub. rewrite E. rewrite u32_small by lia. do 2 f_equal. lia. }
  unfold irq. rewrite (bind_Ok_M _ _ _ _ _ He), (bind_Ok_M _ _ _ _ _ Hrun). unfold gets.
  rewrite (ri_ctx _ _ _ _ _ _ _ Hinv'), Hsav'; [done|].
  exact (rr_inv_cur _ _ _ _ _ _ _ Hinv').
Qed.

Lemma slices_ok fs : ∀ a h,
  shown a h → Forall (λ f : cpu_regs → cpu_regs, ∀ r, words (f r)) fs →
  ∃ h', slices dev f_clock f_tick slot rq debug sp0 ret fs (m_run a) h =
      Ok (m_run (turns prio ctr fs a), h') ∧ shown (turns prio ctr fs a) h'.
Proof using All.
  induction fs as [|f fs IH]; intros a h Hs Hf; [by exists h|]. apply Forall_cons in Hf as [Hf Hfs].
  assert (Hs1 : shown (slice f a) h) by (destruct Hs; by constructor).
  destruct (irq_ok (slice f a) h Hs1 (Hf _)) as (h1 & E1 & H1).
  destruct (IH _ h1 H1 Hfs) as (h2 & E2 & H2). exists h2. split; [|exact H2].
  cbn [slices]. change (f (m_run a)) with (m_run (slice f a)).
  rewrite (bind_Ok_M _ _ _ _ _ E1). exact E2.
Qed.
End refines.

(** ** Exceptions *)

(** The low half of the word pushed for %ds is %ds. *)
Lemma pushed_ds eax ds : 0 ≤ ds < 65536 → u16 (u32 (Z.lor (Z.land eax 0xFFFF0000) (u16 ds))) = ds.
Proof.
  intros Hd. rewrite (u16_small ds) by done. unfold u16, u32.
  rewrite <-(Znumtheory.Zmod_div_mod 65536 4294967296) by (lia || by exists 65536).
  change 65536 with (2 ^ 16). rewrite <-Z.land_ones, Z.land_lor_distr_l, <-Z.land_assoc by lia.
  change (Z.land 0xFFFF0000 (Z.ones 16)) with 0. rewrite Z.land_0_r, Z.lor_0_l, Z.land_ones by lia.
  by apply Z.mod_small.
Qed.

(** What the segment registers keep of a register set *)
Definition clip (r : cpu_regs) : cpu_regs :=
  CpuRegs (r_eax r) (r_ebx r) (r_ecx r) (r_edx r) (r_esi r) (r_edi r) (r_ebp r)
    (r_eip r) (r_esp r) (r_eflags r) (r_ds r) (u16 (r_cs r)) (u16 (r_ss r)).

Lemma eh_return_context m irq r :
  irq_holds m irq r → 0 ≤ r_ds r < 65536 →
  load32 m (irq + Irq.ds) = u32 (Z.lor (Z.land (r_eax r) 0xFFFF0000) (u16 (r_ds r))) →
  load32 m (irq + Irq.cs) = u32 (r_cs r) → load32 m (irq + Irq.ss) = u32 (r_ss r) →
  eh_return m irq = clip r.
Proof.
  intros (H1 & H2 & H3 & H4 & H5 & H6 & H7 & H8 & H9 & H10) Hds E1 E2 E3. unfold eh_return.
  rewrite H1, H2, H3, H4, H5, H6, H7, H8, H9, H10, E1, E2, E3, pushed_ds by done.
  assert (Hu : ∀ z, u16 (u32 z) = u16 z).
  { intros z. unfold u16, u32. symmetry. apply Znumtheory.Zmod_div_mod; [lia|lia|by exists 65536]. }
  by rewrite !Hu.
Qed.

Section exceptions.
Context {X : Type} `{!HasMem X} (dev : device) (call : Z → Z → M (hw X) unit) (slot : Z)
  (str_addr : Z → Z).

(** What exception_handler prints *)
Definition reported (n : Z) : event :=
  Print (lits "Received exception no. " ++ [Conv None Cd] ++ lits ": " ++ [Conv None Cs] ++
         lits " " ++ [Lit 10]) [AWord n; exception_arg str_addr n].

Lemma exception_handler_run irq n h :
  load32 (x_mem (h_ext h)) (irq + Irq.int_no) = n → 0 ≤ n < 32 →
  h_callback h !! Z.to_nat n = Some 0 →
  Z.testbit (req_master dev (h_trace h)) 7 = false → Z.testbit (req_slave dev (h_trace h)) 7 = false →
  exception_handler dev call slot str_addr irq h =
    Ok (tt, h_with_trace ((tr_asked dev (h_trace h) ++ [reported n]) ++ eoi n) h).
Proof.
  intros Hn Hr Hcb Hm Hs. unfold exception_handler. mstep. unfold io at 1.
  rewrite PIC_check_spurious_run, Hm, Hs. cbn [c_true Z.eqb negb]. unfold irq_field, dispatch. mstep.
  cbn [h_ext h_with_trace h_trace h_callback]. rewrite Hn.
  replace (n <? NO_INTERRUPTS) with true by (unfold NO_INTERRUPTS; lia).
  replace (n <? NO_EXCEPTIONS) with true by (unfold NO_EXCEPTIONS; lia). mstep.
  cbn [h_ext h_with_trace h_trace h_callback]. rewrite Hcb. change (c_true (default 0 (Some 0))) with false. cbv iota.
  unfold print. mstep. unfold io. cbn [h_trace h_with_trace].
  rewrite PIC_sendEOI_run, u16_small by lia. done.
Qed.

(** The entry leaves the context of the registers [r'], which has the general
    registers of [r]; that is what the thread goes on with. *)
Lemma exception_run sp0 sp ret num err r r' err' h m0 :
  Quiet dev → 68 ≤ sp < 4294967296 → 0 ≤ num < 32 → h_callback h !! Z.to_nat num = Some 0 →
  words r' → 0 ≤ r_ds r' < 65536 →
  eh_entry sp0 ret num err r (x_mem (h_ext h)) =
    irq_common ret r' (push_words [err'; num] (deliver sp r' m0)) →
  ∃ h', exception dev call slot str_addr sp0 ret num err r h = Ok (clip r', h') ∧
    h_trace h' = (tr_asked dev (h_trace h) ++ [reported num]) ++ eoi num ∧
    changes_only (sp - 68) 68 m0 (x_mem (h_ext h')).
Proof.
  intros Hq Hsp Hn Hcb Hw Hds Hent.
  destruct (context_ok sp ret err' num r' m0 Hsp ltac:(lia) Hw)
    as (m1 & E & Hr & Hnum & (E1 & E2 & E3) & Hc).
  set (h1 := h_with_ext (x_with_mem (λ _, m1)) h).
  assert (Em : x_mem (h_ext h1) = m1) by apply x_mem_with. destruct (quiet (h_trace h1)) as [Hq1 Hq2].
  assert (He : enter (eh_entry sp0 ret num err r) h = Ok (sp - 64, h1)).
  { unfold enter. rewrite Hent, E, u32_small by lia. do 2 f_equal. lia. }
  pose proof (exception_handler_run (sp - 64) num h1 ltac:(by rewrite Em) Hn Hcb Hq1 Hq2) as Hrun.
  exists (h_with_trace ((tr_asked dev (h_trace h1) ++ [reported num]) ++ eoi num) h1).
  split; [|split; [reflexivity|]].
  - unfold exception. rewrite (bind_Ok_M _ _ _ _ _ He), (bind_Ok_M _ _ _ _ _ Hrun). unfold gets.
    cbn [h_ext h_with_trace]. by rewrite Em, (eh_return_context m1 (sp - 64) r').
  - cbn [h_ext h_with_trace]. by rewrite Em.
Qed.
End exceptions.


(** For the alignment check, vector 17, the processor pushes an error code but
    the stub is one for vectors without: the context is off by a word, and the
    thread goes on at the error code. *)
Theorem alignment_check_misreads {X : Type} `{!HasMem X} (dev : device)
    (call : Z → Z → M (hw X) unit) (slot : Z) (str_addr : Z → Z) (sp0 ret e : Z) (r : cpu_regs)
    (h : hw X) :
  Quiet dev → 72 ≤ sp0 < 4294967296 → h_callback h !! 17%nat = Some 0 → 0 ≤ e < 4294967296 →
  words r → 0 ≤ r_ds r < 65536 → 0 ≤ r_cs r < 65536 →
  ∃ r' h', exception dev call slot str_addr sp0 ret 17 (Some e) r h = Ok (r', h') ∧
    r_eip r' = e ∧ r_cs r' = u16 (r_eip r) ∧ r_esp r' = r_eflags r ∧ r_ss r' = u16 (r_esp r).
Proof.
  intros Hq Hsp Hcb He Hw Hds Hcs.
  set (r1 := CpuRegs (r_eax r) (r_ebx r) (r_ecx r) (r_edx r) (r_esi r) (r_edi r) (r_ebp r)
    e (r_eflags r) (r_cs r) (r_ds r) (r_eip r) (r_esp r)).
  assert (Hent : eh_entry sp0 ret 17 (Some e) r (x_mem (h_ext h)) =
    irq_common ret r1 (push_words [0; 17] (deliver (sp0 - 4) r1
      (store32 (x_mem (h_ext h)) (sp0 - 4) (r_ss r))))).
  { unfold eh_entry, eh_stub, deliver. change (has_errcode 17) with false. cbn [push_errcode].
    change (push_words [r_ss r; r_esp r; r_eflags r; r_cs r; r_eip r] (sp0, x_mem (h_ext h))) with
      (push_words [r_esp r; r_eflags r; r_cs r; r_eip r] (push_word (r_ss r) (sp0, x_mem (h_ext h)))).
    assert (push_word (r_ss r) (sp0, x_mem (h_ext h)) =
      (sp0 - 4, store32 (x_mem (h_ext h)) (sp0 - 4) (r_ss r))) as ->
      by (unfold push_word; cbn [fst snd]; by rewrite u32_small by lia).
    reflexivity. }
  destruct (exception_run dev call slot str_addr sp0 (sp0 - 4) ret 17 (Some e) r r1 0 h
    (store32 (x_mem (h_ext h)) (sp0 - 4) (r_ss r)) Hq ltac:(lia) ltac:(lia) Hcb) as (h' & Hrun & _); [|exact Hds|exact Hent|].
  - unfold words in *. rewrite !Forall_cons in *. cbn. destruct_and? Hw. split_and!; done || lia.
  - exists (clip r1), h'. by split_and!.
Qed.

(** ** Property *)

(** C2. Preemptive multitasking: whatever the running threads compute between
    the ticks, every timer interrupt passes through the stubs, the dispatcher,
    the clock and the scheduler and enters a thread, and after any number of
    them the registers of the thread that runs, the saved contexts of all
    threads, the state of the scheduler and the time are those of the
    reference, in which a tick advances the clock, saves the registers of the
    thread that ran, makes the abstract scheduling step, and restores the
    registers of the thread that is current then; the page directory loaded is
    the one of its process. *)
Theorem ticks_switch_threads (dev : device) (f_clock f_tick slot rq : Z) (debug : bool)
    (sp0 ret : Z) (T : list Z) (prio procOf pd : Z → Z) (ctr : Z) (fs : list (cpu_regs → cpu_regs))
    (a : multi) (h : hw sched_st) :
  Quiet dev → layout rq T prio procOf → f_clock ≠ 0 ∧ f_tick ≠ 0 → sp0 < 4294967296 →
  foreign rq T procOf (sp0 - 68) 68 → foreign rq T procOf slot 64 → slot + 64 ≤ sp0 - 68 →
  shown f_clock f_tick rq T prio procOf pd ctr a h →
  Forall (λ f : cpu_regs → cpu_regs, ∀ r, words (f r)) fs →
  let a' := turns prio ctr fs a in
  ∃ h', slices dev f_clock f_tick slot rq debug sp0 ret fs (m_run a) h = Ok (m_run a', h') ∧
    shown f_clock f_tick rq T prio procOf pd ctr a' h' ∧
    current_thread (h_ext h') = a_cur (m_sched a') ∧
    head (cr3_writes (thr (h_ext h'))) = Some (pd (procOf (a_cur (m_sched a')))).
Proof.
  intros Hq Hlay Hf Hsp Hst Hsl Hb Hs Hfs a'.
  destruct (slices_ok dev f_clock f_tick slot rq debug sp0 ret T prio procOf pd ctr Hlay Hf Hsp Hst Hsl Hb
    fs a h Hs Hfs) as (h' & Hrun & Hs'). fold a' in Hrun, Hs'.
  exists h'. split; [exact Hrun|]. split; [exact Hs'|].
  split; [exact (ri_current _ _ _ _ _ _ _ (sh_sched _ _ _ _ _ _ _ _ _ _ Hs'))|
          exact (ri_cr3 _ _ _ _ _ _ _ (sh_sched _ _ _ _ _ _ _ _ _ _ Hs'))].
Qed.

(** Two threads of one class, the kernel's stack at 0x60000; a thousand time
    slices use up the quantum of the first. *)
Lemma switch_stack a n : 0x40000 ≤ a → 0 ≤ n → a + n ≤ 0x80000 → foreign 0x10000 demo_T demo_proc a n.
Proof.
  intros H1 H2 H3. split_and!; [lia|lia|lia|].
  intros t [->|[->|[]%elem_of_nil]%elem_of_cons]%elem_of_cons; vm_compute (demo_proc _); lia.
Qed.
Definition demo_slice (_ : cpu_regs) : cpu_regs := user_regs 0x400000 0x7FFF0000.

Lemma demo_turns C r : let a' := turns demo_prio 11931 (replicate 1000 demo_slice) (Multi demo_a C r (0, 0)) in
  a_cur (m_sched a') = 0x20100 ∧ m_run a' = C 0x20100 ∧
  m_saved a' 0x20000 = saved (C 0x20000) (user_regs 0x400000 0x7FFF0000).
Proof. split_and!; vm_compute; reflexivity. Qed.

Lemma ticks_switch_threads_witness :
  ∃ h r h', slices (λ _ _, 0) 0x5000 0x6000 0x50000 0x10000 true 0x60000 0xFE801000
      (replicate 1000 demo_slice) (user_regs 0 0) h = Ok (r, h') ∧
    current_thread (h_ext h) = 0x20000 ∧ current_thread (h_ext h') = 0x20100 ∧
    r = arch_return_to_user (s_mem (h_ext h)) (0x20100 + tcb_exec_ctx) ∧
    arch_return_to_user (s_mem (h_ext h')) (0x20000 + tcb_exec_ctx) =
      saved (arch_return_to_user (s_mem (h_ext h)) (0x20000 + tcb_exec_ctx)) (user_regs 0x400000 0x7FFF0000).
Proof.
  destruct demo_started as (s & _ & H).
  set (h := Hw [] (<[32%nat := 0x5000]> (replicate 256 0)) 0x6000 100 11931 0 0 s).
  set (a := Multi demo_a (λ t, arch_return_to_user (s_mem s) (t + tcb_exec_ctx)) (user_regs 0 0) (0, 0)).
  destruct (ticks_switch_threads (λ _ _, 0) 0x5000 0x6000 0x50000 0x10000 true 0x60000 0xFE801000
    demo_T demo_prio demo_proc demo_pd 11931 (replicate 1000 demo_slice) a h) as (h' & Hrun & Hs & Hc & _).
  - intros tr. split; reflexivity.
  - exact demo_layout.
  - lia.
  - lia.
  - apply switch_stack; lia.
  - apply switch_stack; lia.
  - lia.
  - by constructor.
  - apply Forall_replicate. intros r. unfold words. cbn. repeat (apply Forall_cons; split; [lia|]).
    apply Forall_nil_2.
  - exists h, (m_run (turns demo_prio 11931 (replicate 1000 demo_slice) a)), h'. split; [exact Hrun|].
    split; [exact (ri_current _ _ _ _ _ _ _ H)|].
    destruct (demo_turns (λ t, arch_return_to_user (s_mem s) (t + tcb_exec_ctx)) (user_regs 0 0))
      as (E1 & E2 & E3).
    split; [exact (eq_trans Hc E1)|]. split; [exact E2|].
    refine (eq_trans (sh_saved _ _ _ _ _ _ _ _ _ _ Hs 0x20000 _) E3). by left.
Defined.

