(* ===== verification/Descriptors.v ===== *)
(** * Descriptors: the segment and interrupt descriptor tables

    arch/i686/boot/gdt.c, arch/i686/idt.c and [arch_init] of init.c. The
    entries are written field by field into the memory; the reference is what
    the processor reads out of an entry. *)

From S2P Require Import Prelude Machine PortIO Pic.

(** ** idt.h and idt.c *)

Definition idt_offset_low : Z := 0.
Definition idt_selector : Z := 2.
Definition idt_zero : Z := 4.
Definition idt_type_attr : Z := 5.
Definition idt_offset_high : Z := 6.
Definition sizeof_idt_entry : Z := 8.

(** [idt_t] and [gdt_t]: a 16-bit limit, then a 32-bit base *)
Definition table_limit : Z := 0.
Definition table_base : Z := 2.

(** idt.c:59 *)
Definition fill_idt_entry (idt_entries : Z) (m : mem) (num offset selector type : Z) : mem :=
  let tmp := idt_entries + sizeof_idt_entry * num in
  let m := store16 m (tmp + idt_offset_low) (Z.land offset 0xFFFF) in
  let m := store16 m (tmp + idt_offset_high) (Z.land (Z.shiftr offset 16) 0xFFFF) in
  let m := store16 m (tmp + idt_selector) selector in
  let m := store8 m (tmp + idt_zero) 0 in
  store8 m (tmp + idt_type_attr) type.

(** idt.c:72 up to [load_idt]; [eh] and [irq] are the stubs of interrupt.asm *)
Definition init_idt (idt_entries idt : Z) (eh irq : Z → Z) (m : mem) : mem :=
  let m := store16 m (idt + table_limit) (sizeof_idt_entry * 256 - 1) in
  let m := store32 m (idt + table_base) idt_entries in
  let m := foldl (λ m i, fill_idt_entry idt_entries m i (eh i) 0x08 0x8E) m (seqZ 0 32) in
  foldl (λ m i, fill_idt_entry idt_entries m (32 + i) (irq i) 0x08 0x8E) m (seqZ 0 16).

(** What the processor reads: the handler, the code segment and the type byte *)
Definition gate (m : mem) (idt_entries num : Z) : Z * Z * Z :=
  let e := idt_entries + sizeof_idt_entry * num in
  (load16 m (e + idt_offset_low) + 65536 * load16 m (e + idt_offset_high),
   load16 m (e + idt_selector), load8 m (e + idt_type_attr)).

(** ** gdt.h and gdt.c *)

Definition gdt_limit_low : Z := 0.
Definition gdt_base_low : Z := 2.
Definition gdt_base_middle : Z := 4.
Definition gdt_access : Z := 5.
Definition gdt_granularity : Z := 6.
Definition gdt_base_high : Z := 7.
Definition sizeof_gdt_entry : Z := 8.

(** gdt.c:16 *)
Definition fill_gdt_entry (gdt_entries : Z) (m : mem)
    (segment_num base limit access granularity : Z) : mem :=
  let tmp := gdt_entries + sizeof_gdt_entry * segment_num in
  let m := store16 m (tmp + gdt_base_low) (Z.land base 0xFFFF) in
  let m := store8 m (tmp + gdt_base_middle) (Z.land (Z.shiftr base 16) 0xFF) in
  let m := store8 m (tmp + gdt_base_high) (Z.land (Z.shiftr base 24) 0xFF) in
  let m := store16 m (tmp + gdt_limit_low) (Z.land limit 0xFFFF) in
  let m := store8 m (tmp + gdt_access) access in
  let m := store8 m (tmp + gdt_granularity) (Z.land (Z.shiftr limit 16) 0x0F) in
  store8 m (tmp + gdt_granularity) (Z.lor (load8 m (tmp + gdt_granularity)) granularity).

(** What the processor reads: base, limit in units, access byte, flags *)
Definition segment (m : mem) (gdt_entries num : Z) : Z * Z * Z * Z :=
  let e := gdt_entries + sizeof_gdt_entry * num in
  (load16 m (e + gdt_base_low) + 65536 * load8 m (e + gdt_base_middle)
     + 16777216 * load8 m (e + gdt_base_high),
   load16 m (e + gdt_limit_low) + 65536 * (load8 m (e + gdt_granularity) mod 16),
   load8 m (e + gdt_access), load8 m (e + gdt_granularity) / 16).

(** [struct tss] of arch_obj_defs.h *)
Definition tss_sp0 : Z := 0x4.
Definition tss_ss0 : Z := 0x8.
Definition tss_es : Z := 0x48.
Definition tss_cs : Z := 0x4C.
Definition tss_ss : Z := 0x50.
Definition tss_ds : Z := 0x54.
Definition tss_fs : Z := 0x58.
Definition tss_gs : Z := 0x5C.
Definition sizeof_tss : Z := 0x68.

(** gdt.c:31 up to [load_gdt] *)
Definition init_gdt (gdt_entries gdt tss kstack_top : Z) (m : mem) : mem :=
  let m := store16 m (gdt + table_limit) (sizeof_gdt_entry * 6 - 1) in
  let m := store32 m (gdt + table_base) gdt_entries in
  let m := fill_gdt_entry gdt_entries m 0 0 0 0 0 in
  let m := fill_gdt_entry gdt_entries m 1 0x0 0xFFFFFFFF 0x9A 0xC0 in
  let m := fill_gdt_entry gdt_entries m 2 0x0 0xFFFFFFFF 0x92 0xC0 in
  let m := fill_gdt_entry gdt_entries m 3 0x0 0xFFFFFFFF 0xFA 0xC0 in
  let m := fill_gdt_entry gdt_entries m 4 0x0 0xFFFFFFFF 0xF2 0xC0 in
  let m := fill_gdt_entry gdt_entries m 5 tss sizeof_tss 0x89 0xC0 in
  let m := store16 m (tss + tss_ss0) 0x10 in
  let m := store32 m (tss + tss_sp0) (load32 m kstack_top) in
  let m := store16 m (tss + tss_cs) 0x0b in
  let m := store16 m (tss + tss_gs) 0x13 in
  let m := store16 m (tss + tss_fs) 0x13 in
  let m := store16 m (tss + tss_es) 0x13 in
  let m := store16 m (tss + tss_ds) 0x13 in
  store16 m (tss + tss_ss) 0x13.

(** gdt.c:60 *)
Definition native_update_tss (tss esp0 : Z) (m : mem) : mem := store32 m (tss + tss_sp0) esp0.

(** ** Reading the entries back *)

Lemma land_ones_mod v k n : 0 ≤ k → Z.ones k = n → Z.land v n = v mod 2 ^ k.
Proof. intros Hk <-. by apply Z.land_ones. Qed.

Ltac masks :=
  rewrite ?(land_ones_mod _ 16 0xFFFF), ?(land_ones_mod _ 8 0xFF), ?(land_ones_mod _ 4 0x0F)
    by (lia || reflexivity);
  rewrite ?Z.shiftr_div_pow2 by lia;
  change (2 ^ 16) with 65536 in *; change (2 ^ 8) with 256 in *;
  change (2 ^ 4) with 16 in *; change (2 ^ 24) with 16777216 in *.

(** [peel] reads a load through the stores before it, within one entry. *)
Lemma load16_store8_disj m a v b : disj a 1 b 2 → load16 (store8 m a v) b = load16 m b.
Proof. intros H. apply load16_ext. intros i Hi. apply store8_out. by apply H. Qed.
Lemma load8_store16_disj m a v b : disj a 2 b 1 → load8 (store16 m a v) b = load8 m b.
Proof.
  intros H. apply store16_out. specialize (H 0 ltac:(lia)). by rewrite Z.add_0_r in H.
Qed.
Ltac peel := repeat first
  [ rewrite load16_store16_eq | rewrite load8_store8_eq
  | rewrite load16_store16_disj by off_disj | rewrite load16_store8_disj by off_disj
  | rewrite load8_store16_disj by off_disj | rewrite load8_store8_disj by off_disj ].

Lemma gate_fill t m num offset selector type :
  0 ≤ offset < 4294967296 → 0 ≤ selector < 65536 → 0 ≤ type < 256 →
  gate (fill_idt_entry t m num offset selector type) t num = (offset, selector, type).
Proof.
  intros Ho Hs Ht. unfold gate, fill_idt_entry. cbv zeta.
  set (e := t + sizeof_idt_entry * num). clearbody e.
  unfold idt_offset_low, idt_offset_high, idt_selector, idt_zero, idt_type_attr.
  peel. masks. rewrite (u16_small selector), (u8_small type) by lia.
  f_equal. f_equal. unwrap. Z.to_euclidean_division_equations. lia.
Qed.

Lemma fill_idt_only t m num offset selector type :
  changes_only (t + sizeof_idt_entry * num) 8 m (fill_idt_entry t m num offset selector type).
Proof.
  unfold fill_idt_entry. cbv zeta. set (e := t + sizeof_idt_entry * num). clearbody e.
  unfold idt_offset_low, idt_offset_high, idt_selector, idt_zero, idt_type_attr.
  do 2 (apply changes_only_store8; [|lia..]). do 3 (apply changes_only_store16; [|lia..]).
  reflexivity.
Qed.

Lemma gate_ext m m' t num :
  (∀ i, 0 ≤ i < 8 → load8 m' (t + sizeof_idt_entry * num + i) = load8 m (t + sizeof_idt_entry * num + i)) →
  gate m' t num = gate m t num.
Proof.
  intros H. unfold gate. cbv zeta. set (e := t + sizeof_idt_entry * num) in *. clearbody e.
  unfold idt_offset_low, idt_offset_high, idt_selector, idt_zero, idt_type_attr.
  assert (H16 : ∀ o, 0 ≤ o ≤ 6 → load16 m' (e + o) = load16 m (e + o)).
  { intros o Ho. apply load16_ext. intros i Hi. rewrite <-Z.add_assoc. apply H. lia. }
  rewrite !H16, H by lia. done.
Qed.

(** A loop that fills the entries [b + i]. *)
Lemma fill_loop t m b n (f : Z → Z) k :
  0 ≤ t → t + 2048 ≤ 4294967296 → 0 ≤ b → b + Z.of_nat n ≤ 256 → 0 ≤ k < 256 →
  (∀ i, 0 ≤ f i < 4294967296) →
  gate (foldl (λ m i, fill_idt_entry t m (b + i) (f i) 0x08 0x8E) m (seqZ 0 (Z.of_nat n))) t k
  = if (b <=? k) && (k <? b + Z.of_nat n) then (f (k - b), 0x08, 0x8E) else gate m t k.
Proof.
  intros Ht1 Ht2 Hb Hn Hk Hf. induction n as [|n IH].
  - destruct (Z.leb_spec b k), (Z.ltb_spec k (b + Z.of_nat 0)); (done || lia).
  - rewrite Nat2Z.inj_succ, <-Z.add_1_r, seqZ_app, foldl_app by lia.
    rewrite (seqZ_cons _ 1), Z.add_0_l by lia. cbn [foldl].
    change (seqZ (Z.succ (Z.of_nat n)) (Z.pred 1)) with (@nil Z). cbn [foldl].
    specialize (IH ltac:(lia)).
    destruct (decide (k = b + Z.of_nat n)) as [->|Hne].
    + rewrite gate_fill by (done || lia).
      replace ((b <=? b + Z.of_nat n) && (b + Z.of_nat n <? b + (Z.of_nat n + 1)))
        with true by lia. do 3 f_equal. lia.
    + rewrite (gate_ext (foldl (λ m i, fill_idt_entry t m (b + i) (f i) 0x08 0x8E) m
        (seqZ 0 (Z.of_nat n)))).
      * rewrite IH. by replace ((b <=? k) && (k <? b + (Z.of_nat n + 1)))
          with ((b <=? k) && (k <? b + Z.of_nat n)) by lia.
      * intros i Hi. apply fill_idt_only. unfold within, sizeof_idt_entry. wrap_lia.
Qed.

Lemma fill_loop_only t m b (f : Z → Z) l :
  Forall (λ i, 0 ≤ b + i < 256) l →
  changes_only t 2048 m (foldl (λ m i, fill_idt_entry t m (b + i) (f i) 0x08 0x8E) m l).
Proof.
  revert m. induction l as [|i l IH]; intros m Hl; [reflexivity|].
  inversion_clear Hl as [|?? Hi Hl']. cbn [foldl]. etrans; [|by apply IH].
  intros x Hx. apply fill_idt_only. contradict Hx. unfold within, sizeof_idt_entry in *. wrap_lia.
Qed.

(** C34. init_idt builds the interrupt table: the register names the table with
    its full limit, the entries of the 32 exceptions and the 16 hardware
    interrupts are present 32-bit interrupt gates of ring 0 into the kernel's
    code segment whose handler is exactly the stub of that vector, every other
    entry is as before (absent, in the zeroed table), and nothing outside the
    table and its register is written. *)
Theorem init_idt_gates (t idt : Z) (eh irq : Z → Z) (m : mem) :
  0 ≤ t → t + 2048 ≤ 4294967296 → 0 ≤ idt → idt + 6 ≤ 4294967296 →
  t + 2048 ≤ idt ∨ idt + 6 ≤ t →
  (∀ i, 0 ≤ eh i < 4294967296) → (∀ i, 0 ≤ irq i < 4294967296) →
  let m' := init_idt t idt eh irq m in
  load16 m' (idt + table_limit) = 2047 ∧ load32 m' (idt + table_base) = t ∧
  (∀ v, 0 ≤ v < 32 → gate m' t v = (eh v, 0x08, 0x8E)) ∧
  (∀ v, 32 ≤ v < 48 → gate m' t v = (irq (v - 32), 0x08, 0x8E)) ∧
  (∀ v, 48 ≤ v < 256 → gate m' t v = gate m t v) ∧
  (∀ x, ¬ within t 2048 x → ¬ within idt 6 x → load8 m' x = load8 m x).
Proof.
  intros Ht1 Ht2 Hi1 Hi2 Hap He Hq m'.
  set (m1 := store32 (store16 m (idt + table_limit) (sizeof_idt_entry * 256 - 1))
    (idt + table_base) t).
  set (m2 := foldl (λ m i, fill_idt_entry t m (0 + i) (eh i) 0x08 0x8E) m1 (seqZ 0 (Z.of_nat 32))).
  change m' with (foldl (λ m i, fill_idt_entry t m (32 + i) (irq i) 0x08 0x8E) m2
    (seqZ 0 (Z.of_nat 16))).
  assert (H2 : changes_only t 2048 m1 m2).
  { apply fill_loop_only, Forall_forall. intros i Hi%elem_of_seqZ. lia. }
  assert (H3 : changes_only t 2048 m2 (foldl (λ m i, fill_idt_entry t m (32 + i) (irq i) 0x08 0x8E)
    m2 (seqZ 0 (Z.of_nat 16)))).
  { apply fill_loop_only, Forall_forall. intros i Hi%elem_of_seqZ. lia. }
  assert (H12 := changes_only_trans _ _ _ _ _ H2 H3).
  assert (Hg1 : ∀ v, 0 ≤ v < 256 → gate m1 t v = gate m t v).
  { intros v Hv. apply gate_ext. intros i Hi. unfold m1, sizeof_idt_entry, table_base, table_limit.
    rewrite store32_out, store16_out; [done|..]; unfold within; wrap_lia. }
  assert (Hg : ∀ v, 0 ≤ v < 256 → gate (foldl (λ m i, fill_idt_entry t m (32 + i) (irq i) 0x08 0x8E)
    m2 (seqZ 0 (Z.of_nat 16))) t v = if (32 <=? v) && (v <? 48) then (irq (v - 32), 0x08, 0x8E)
    else if (0 <=? v) && (v <? 32) then (eh (v - 0), 0x08, 0x8E) else gate m t v).
  { intros v Hv. rewrite fill_loop, <-Hg1 by (done || lia). unfold m2.
    rewrite fill_loop by (done || lia). done. }
  split_and!.
  - rewrite (changes_only_load16 _ _ _ _ _ H12) by (apply disj_linear; unfold table_limit; lia).
    unfold m1, table_limit, table_base. rewrite load16_store32_disj by off_disj.
    rewrite load16_store16_eq. reflexivity.
  - rewrite (changes_only_load32 _ _ _ _ _ H12) by (apply disj_linear; unfold table_base; lia).
    unfold m1. rewrite load32_store32_eq. apply u32_small. lia.
  - intros v Hv. rewrite Hg by lia. replace ((32 <=? v) && (v <? 48)) with false by lia.
    replace ((0 <=? v) && (v <? 32)) with true by lia. by rewrite Z.sub_0_r.
  - intros v Hv. rewrite Hg by lia. by replace ((32 <=? v) && (v <? 48)) with true by lia.
  - intros v Hv. rewrite Hg by lia. replace ((32 <=? v) && (v <? 48)) with false by lia.
    by replace ((0 <=? v) && (v <? 32)) with false by lia.
  - intros x Hx1 Hx2. rewrite H12 by done. unfold m1, table_limit, table_base.
    rewrite store32_out, store16_out; [done|..]; contradict Hx2; unfold within in *; wrap_lia.
Qed.

Lemma init_idt_gates_witness :
  let m' := init_idt 0x1000 0x2000 (λ i, 0x100000 + 16 * (i mod 32)) (λ i, 0x101000 + 16 * (i mod 16)) ∅ in
  gate m' 0x1000 14 = (0x1000E0, 0x08, 0x8E) ∧ gate m' 0x1000 32 = (0x101000, 0x08, 0x8E) ∧
  gate m' 0x1000 128 = gate ∅ 0x1000 128.
Proof.
  destruct (init_idt_gates 0x1000 0x2000 (λ i, 0x100000 + 16 * (i mod 32))
    (λ i, 0x101000 + 16 * (i mod 16)) ∅) as (_ & _ & H1 & H2 & H3 & _).
  - lia.
  - lia.
  - lia.
  - lia.
  - lia.
  - intros i. pose proof (Z.mod_pos_bound i 32). lia.
  - intros i. pose proof (Z.mod_pos_bound i 16). lia.
  - split_and!; [apply H1; lia|apply H2; lia|apply H3; lia].
Defined.

(** ** The segments *)

(** The two values of the flags the kernel uses do not meet the limit. *)
Lemma lor_flags x g :
  0 ≤ x < 16 → g = 0 ∨ g = 0xC0 → Z.lor x g mod 16 = x ∧ Z.lor x g / 16 = g / 16 ∧ 0 ≤ Z.lor x g < 256.
Proof.
  intros Hx Hg.
  assert (Hall : forallb (λ x, forallb (λ g, (Z.lor x g mod 16 =? x) && (Z.lor x g / 16 =? g / 16)
    && (0 <=? Z.lor x g) && (Z.lor x g <? 256)) [0; 0xC0]) (seqZ 0 16) = true)
    by (vm_compute; reflexivity).
  rewrite forallb_forall in Hall. specialize (Hall x).
  rewrite <-list_elem_of_In, elem_of_seqZ in Hall. specialize (Hall ltac:(lia)).
  rewrite forallb_forall in Hall. specialize (Hall g). rewrite <-list_elem_of_In in Hall.
  assert (g ∈ [0; 0xC0]) as Hin by (destruct Hg as [-> | ->]; set_solver). specialize (Hall Hin). lia.
Qed.

Lemma segment_fill t m num base limit access g :
  0 ≤ base < 4294967296 → 0 ≤ limit → 0 ≤ access < 256 → g = 0 ∨ g = 0xC0 →
  segment (fill_gdt_entry t m num base limit access g) t num
  = (base, limit mod 1048576, access, g / 16).
Proof.
  intros Hb Hl Ha Hg. unfold segment, fill_gdt_entry. cbv zeta.
  set (e := t + sizeof_gdt_entry * num). clearbody e.
  unfold gdt_limit_low, gdt_base_low, gdt_base_middle, gdt_access, gdt_granularity, gdt_base_high.
  peel. masks.
  assert (Hx : 0 ≤ u8 (limit / 65536 mod 16) < 16).
  { pose proof (Z.mod_pos_bound (limit / 65536) 16 ltac:(lia)). rewrite u8_small; lia. }
  destruct (lor_flags _ g Hx Hg) as (H1 & H2 & H3).
  rewrite (u8_small (Z.lor _ g)) by done. rewrite H1, H2, (u8_small access) by lia.
  f_equal. f_equal. f_equal; unwrap; Z.to_euclidean_division_equations; lia.
Qed.

Lemma fill_gdt_only t m num base limit access g :
  changes_only (t + sizeof_gdt_entry * num) 8 m (fill_gdt_entry t m num base limit access g).
Proof.
  unfold fill_gdt_entry. cbv zeta. set (e := t + sizeof_gdt_entry * num). clearbody e.
  unfold gdt_limit_low, gdt_base_low, gdt_base_middle, gdt_access, gdt_granularity, gdt_base_high.
  do 3 (apply changes_only_store8; [|lia..]). apply changes_only_store16; [|lia..].
  do 2 (apply changes_only_store8; [|lia..]). apply changes_only_store16; [reflexivity|lia..].
Qed.

Lemma segment_ext m m' t num :
  (∀ i, 0 ≤ i < 8 → load8 m' (t + sizeof_gdt_entry * num + i) = load8 m (t + sizeof_gdt_entry * num + i)) →
  segment m' t num = segment m t num.
Proof.
  intros H. unfold segment. cbv zeta. set (e := t + sizeof_gdt_entry * num) in *. clearbody e.
  unfold gdt_limit_low, gdt_base_low, gdt_base_middle, gdt_access, gdt_granularity, gdt_base_high.
  assert (H16 : ∀ o, 0 ≤ o ≤ 6 → load16 m' (e + o) = load16 m (e + o)).
  { intros o Ho. apply load16_ext. intros i Hi. rewrite <-Z.add_assoc. apply H. lia. }
  rewrite !H16, !H by lia. done.
Qed.

Lemma segment_other t m num k base limit access g :
  0 ≤ t → t + 48 ≤ 4294967296 → 0 ≤ num < 6 → 0 ≤ k < 6 → k ≠ num →
  segment (fill_gdt_entry t m num base limit access g) t k = segment m t k.
Proof.
  intros. apply segment_ext. intros i Hi. apply fill_gdt_only.
  unfold within, sizeof_gdt_entry. wrap_lia.
Qed.

Lemma fill_gdt_table t m m' num base limit access g :
  changes_only t 48 m m' → 0 ≤ num < 6 →
  changes_only t 48 m (fill_gdt_entry t m' num base limit access g).
Proof.
  intros H Hn. etrans; [exact H|]. intros x Hx. apply fill_gdt_only.
  contradict Hx. unfold within, sizeof_gdt_entry in *. wrap_lia.
Qed.

(** What the two routines write *)
Lemma init_gdt_out t gdt tss kst m x :
  ¬ within t 48 x → ¬ within gdt 6 x → ¬ within tss 104 x →
  load8 (init_gdt t gdt tss kst m) x = load8 m x.
Proof.
  intros Xt Xg Xs. unfold init_gdt. cbv zeta.
  set (m0 := store32 (store16 m _ _) _ _). set (m6 := fill_gdt_entry t _ 5 _ _ _ _).
  assert (Hc6 : changes_only t 48 m0 m6) by (unfold m6; repeat apply fill_gdt_table; (done || lia)).
  transitivity (load8 m6 x).
  { unfold tss_ss0, tss_sp0, tss_cs, tss_gs, tss_fs, tss_es, tss_ds, tss_ss.
    rewrite !store16_out, store32_out, store16_out; [done|..]; contradict Xs;
      unfold within in *; wrap_lia. }
  rewrite Hc6 by done. unfold m0, table_limit, table_base.
  rewrite store32_out, store16_out; [done|..]; contradict Xg; unfold within in *; wrap_lia.
Qed.
Lemma init_idt_out t idt eh irq m x :
  ¬ within t 2048 x → ¬ within idt 6 x → load8 (init_idt t idt eh irq m) x = load8 m x.
Proof.
  intros Xt Xi. unfold init_idt. cbv zeta.
  assert (F : ∀ b n, 0 ≤ b → b + n ≤ 256 → Forall (λ i, 0 ≤ b + i < 256) (seqZ 0 n)).
  { intros b n Hb Hn. apply Forall_seqZ. lia. }
  rewrite (fill_loop_only _ _ 32 _ _ (F 32 16 ltac:(lia) ltac:(lia))) by done.
  rewrite (fill_loop_only _ _ 0 eh _ (F 0 32 ltac:(lia) ltac:(lia))) by done.
  unfold table_limit, table_base.
  rewrite store32_out, store16_out; [done|..]; contradict Xi; unfold within in *; wrap_lia.
Qed.

(** C35. init_gdt builds the segment table: the register names the six entries;
    entries 1 to 4 are flat four-gigabyte segments for kernel and user code
    and data with the access bytes of their rings; entry 5 is an available
    32-bit task segment at the kernel's [tss], whose limit however is 104 units
    of a page because the granularity flag is set; and the task segment's
    ring-0 stack is the kernel stack. *)
Theorem init_gdt_segments (t gdt tss kst : Z) (m : mem) :
  0 ≤ t → t + 48 ≤ 4294967296 → 0 ≤ gdt → gdt + 6 ≤ 4294967296 →
  0 ≤ tss → tss + 104 ≤ 4294967296 → 0 ≤ kst → kst + 4 ≤ 4294967296 →
  t + 48 ≤ gdt ∨ gdt + 6 ≤ t → t + 48 ≤ tss ∨ tss + 104 ≤ t → gdt + 6 ≤ tss ∨ tss + 104 ≤ gdt →
  kst + 4 ≤ t ∨ t + 48 ≤ kst → kst + 4 ≤ tss ∨ tss + 104 ≤ kst → kst + 4 ≤ gdt ∨ gdt + 6 ≤ kst →
  let m' := init_gdt t gdt tss kst m in
  load16 m' (gdt + table_limit) = 47 ∧ load32 m' (gdt + table_base) = t ∧
  segment m' t 0 = (0, 0, 0, 0) ∧
  segment m' t 1 = (0, 0xFFFFF, 0x9A, 0xC) ∧ segment m' t 2 = (0, 0xFFFFF, 0x92, 0xC) ∧
  segment m' t 3 = (0, 0xFFFFF, 0xFA, 0xC) ∧ segment m' t 4 = (0, 0xFFFFF, 0xF2, 0xC) ∧
  segment m' t 5 = (tss, 104, 0x89, 0xC) ∧
  load32 m' (tss + tss_sp0) = load32 m kst ∧ load16 m' (tss + tss_ss0) = 0x10.
Proof.
  intros Ht1 Ht2 Hg1 Hg2 Hs1 Hs2 Hk1 Hk2 Htg Hts Hgs Hkt Hks Hkg m'. unfold init_gdt in m'.
  set (m0 := store32 (store16 m _ _) _ _) in m'.
  set (m6 := fill_gdt_entry t _ 5 _ _ _ _) in m'.
  assert (Hc6 : changes_only t 48 m0 m6) by (unfold m6; repeat apply fill_gdt_table; (done || lia)).
  assert (Hct : changes_only tss 104 m6 m').
  { unfold m', tss_ss0, tss_sp0, tss_cs, tss_gs, tss_fs, tss_es, tss_ds, tss_ss.
    do 6 (apply changes_only_store16; [|lia..]). apply changes_only_store32; [|lia..].
    apply changes_only_store16; [reflexivity|lia..]. }
  assert (Hseg : ∀ k, 0 ≤ k < 6 → segment m' t k = segment m6 t k).
  { intros k Hk. apply segment_ext. intros i Hi. apply Hct. unfold within, sizeof_gdt_entry. wrap_lia. }
  rewrite !Hseg by lia.
  assert (Hr : ∀ a, gdt ≤ a → a + 4 ≤ gdt + 6 → load32 m' a = load32 m0 a).
  { intros a ??. rewrite (changes_only_load32 _ _ _ _ _ Hct), (changes_only_load32 _ _ _ _ _ Hc6);
      [done|..]; apply disj_linear; lia. }
  split_and!.
  - rewrite (changes_only_load16 _ _ _ _ _ Hct), (changes_only_load16 _ _ _ _ _ Hc6)
      by (apply disj_linear; unfold table_limit; lia).
    unfold m0, table_limit, table_base. rewrite load16_store32_disj by off_disj.
    rewrite load16_store16_eq. reflexivity.
  - rewrite Hr by (unfold table_base; lia). unfold m0. rewrite load32_store32_eq. apply u32_small. lia.
  - unfold m6. rewrite !segment_other by lia. rewrite segment_fill by lia. reflexivity.
  - unfold m6. rewrite !(segment_other t _ 5), !(segment_other t _ 4), !(segment_other t _ 3),
      !(segment_other t _ 2) by lia. rewrite segment_fill by lia. reflexivity.
  - unfold m6. rewrite !(segment_other t _ 5), !(segment_other t _ 4), !(segment_other t _ 3)
      by lia. rewrite segment_fill by lia. reflexivity.
  - unfold m6. rewrite !(segment_other t _ 5), !(segment_other t _ 4) by lia.
    rewrite segment_fill by lia. reflexivity.
  - unfold m6. rewrite !(segment_other t _ 5) by lia. rewrite segment_fill by lia. reflexivity.
  - unfold m6. rewrite segment_fill by (unfold sizeof_tss; lia). reflexivity.
  - unfold m', tss_ss0, tss_sp0, tss_cs, tss_gs, tss_fs, tss_es, tss_ds, tss_ss.
    cbv zeta. rewrite !load32_store16_disj by off_disj. rewrite load32_store32_eq, u32_small by apply load32_range.
    rewrite (changes_only_load32 _ _ _ _ _ Hc6) by (apply disj_linear; lia).
    unfold m0, table_limit, table_base.
    rewrite load32_store32_disj, load32_store16_disj by (apply disj_linear; lia). done.
  - unfold m', tss_ss0, tss_sp0, tss_cs, tss_gs, tss_fs, tss_es, tss_ds, tss_ss.
    cbv zeta. rewrite !load16_store16_disj by off_disj. rewrite load16_store32_disj by off_disj.
    rewrite load16_store16_eq. reflexivity.
Qed.

Lemma init_gdt_segments_witness :
  let m' := init_gdt 0x1000 0x2000 0x3000 0x4000 (store32 ∅ 0x4000 0xFE900000) in
  segment m' 0x1000 3 = (0, 0xFFFFF, 0xFA, 0xC) ∧ segment m' 0x1000 5 = (0x3000, 104, 0x89, 0xC) ∧
  load32 m' (0x3000 + tss_sp0) = load32 (store32 ∅ 0x4000 0xFE900000) 0x4000.
Proof.
  pose proof (init_gdt_segments 0x1000 0x2000 0x3000 0x4000 (store32 ∅ 0x4000 0xFE900000)
    ltac:(lia) ltac:(lia) ltac:(lia) ltac:(lia) ltac:(lia) ltac:(lia) ltac:(lia) ltac:(lia)
    ltac:(lia) ltac:(lia) ltac:(lia) ltac:(lia) ltac:(lia) ltac:(lia)) as H.
  cbv zeta in H. destruct H as (_ & _ & _ & _ & _ & H3 & _ & H5 & Hs & _).
  split_and!; [exact H3|exact H5|exact Hs].
Defined.
