(* ===== verification/Kcall.v ===== *)
(** * Kcall: calls from user mode

    kern/kcall.c, the user side of it in sys/arch/i686 (syscall.c and
    kcall_stub.asm) and the kernel's entry stub in arch/i686/kcall.asm.S. The
    kernel's state is the console with the memory, the boot information and the
    thread the scheduler reports as current. *)

From S2P Require Import Prelude Machine CString KInfo Thread Printf Console.

Definition NO_KCALLS : Z := 1.
Definition PROC_MMAN_PID : Z := 1.

(** kcall_frame_t *)
Definition kcall_number : Z := 0.
Definition kcall_args : Z := 4.
(** struct sys_meminfo *)
Definition NO_MEM_REGIONS : Z := 20.
Definition region (p i : Z) : Z := p + 8 * i.
Definition no_mem_regions : Z := 160.
Definition sizeof_sys_meminfo : Z := 164.

Record kst := Kst {
  k_con : console;
  k_kinfo : kernel_info_t;
  k_current : Z;
}.
Definition k_mem (s : kst) : mem := c_mem (k_con s).
Definition k_with_mem (f : mem → mem) (s : kst) : kst :=
  Kst (c_with_mem f (k_con s)) (k_kinfo s) (k_current s).

Abbreviation K := (M kst).

Section kcall.
(** The symbol K_HIGH_VMA, the literals of the call of log at kcall.c:43, the
    stack buffers of kprintf, the debug switch *)
Context (K_HIGH_VMA : Z) (lit_null num_buf buff lit_fmt lit_file : Z) (dbg : bool).

(** kcall.c:19 and the macro of kcall.c:24: does the pointer pass? *)
Definition validate (usr_ptr : Z) : Z := c_bool (usr_ptr <? K_HIGH_VMA).
Definition validate_usr_ptr (arg : Z) : bool := negb (validate arg =? 0).

(** log.h:5 at kcall.c:43: a kprintf of "[DEBUG:%s:%d] %s\n" *)
Definition log_debug (msg : Z) : K Z := λ s,
  '(n, c) ← kprintf lit_null num_buf buff lit_fmt [lit_file; 43; msg] (k_con s);
  Ok (n, Kst c (k_kinfo s) (k_current s)).

(** kcall.c:39 *)
Definition debug (td args : Z) : K Z :=
  msg ← gets (λ s, load32 (k_mem s) args);
  if negb (validate_usr_ptr msg) then mret (-1) else
  msg ← gets (λ s, load32 (k_mem s) args);
  n ← log_debug msg;
  mret (s32 n).

(** The body of the loop of kcall.c:59 *)
Definition put_region (args i : Z) : K unit :=
  e ← (λ s, match memmaps (k_kinfo s) !! Z.to_nat i with
            | Some e => Ok (e, s)
            | None => UB "memmaps index out of range"
            end);
  if negb (i <? NO_MEM_REGIONS) then ub "regions index out of range" else
  _ ← modify (k_with_mem (λ m, store32 m (region (load32 m args) i) (u32 (mm_addr e))));
  modify (k_with_mem (λ m, store32 m (region (load32 m args) i + 4) (u32 (mm_len e)))).

(** kcall.c:46 *)
Definition meminfo (td args : Z) : K Z :=
  p ← gets (λ s, load32 (k_mem s) args);
  if negb (validate_usr_ptr p) then mret (-1) else
  proc ← gets (λ s, load32 (k_mem s) (td + tcb_proc));
  id ← gets (λ s, load32 (k_mem s) (proc + proc_id));
  if negb (id =? PROC_MMAN_PID) then mret (-1) else
  n ← gets (λ s, no_mmaps (k_kinfo s));
  _ ← modify (k_with_mem (λ m, store32 m (load32 m args + no_mem_regions) n));
  _ ← mfor (seqZ 0 n) (put_region args);
  mret 0.

(** kcall.c:67 *)
Definition kcall_table : list (Z → Z → K Z) := [debug; meminfo].

(** kcall.c:72; the number is unsigned *)
Definition kcall_handler (frame : Z) : K Z :=
  n ← gets (λ s, load32 (k_mem s) (frame + kcall_number));
  if (n >? NO_KCALLS) || (n <? 0) then mret (-1) else
  match kcall_table !! Z.to_nat n with
  | None => ub "kcall_table index out of range"
  | Some kcall =>
      current_thread ← gets k_current;
      _ ← ASSERT dbg (negb (current_thread =? NULL));
      kcall current_thread (frame + kcall_args)
  end.
End kcall.

(** ** The way in and out *)

Record regs := Regs {
  eax : Z; ebx : Z; ecx : Z; edx : Z; esi : Z; edi : Z; ebp : Z; esp : Z;
}.
Record cpu := Cpu { c_regs : regs; c_kst : kst }.
Abbreviation C := (M cpu).

Definition r_esp (v : Z) (r : regs) : regs :=
  Regs (eax r) (ebx r) (ecx r) (edx r) (esi r) (edi r) (ebp r) (u32 v).
Definition get_reg (f : regs → Z) : C Z := gets (λ c, f (c_regs c)).
Definition set_regs (f : regs → regs) : C unit := modify (λ c, Cpu (f (c_regs c)) (c_kst c)).
Definition push (v : Z) : C unit := modify (λ c,
  let sp := esp (c_regs c) ⊟ 4 in
  Cpu (r_esp sp (c_regs c)) (k_with_mem (λ m, store32 m sp v) (c_kst c))).
Definition pop : C Z := λ c,
  Ok (load32 (k_mem (c_kst c)) (esp (c_regs c)),
      Cpu (r_esp (esp (c_regs c) + 4) (c_regs c)) (c_kst c)).

Section entry.
(** The handler, the stack and return address of the kernel side, what a C
    function leaves in the registers it may change *)
Context (handler : Z → K Z) (sysenter_esp call_ret : Z) (clobber : Z → Z * Z).

(** A C call with the argument on the stack: the result is in %eax; %ecx and
    %edx are the callee's *)
Definition call_handler : C unit := λ c,
  let frame := load32 (k_mem (c_kst c)) (esp (c_regs c) + 4) in
  match handler frame (c_kst c) with
  | Ok (v, k) =>
      let r := c_regs c in
      let '(cx, dx) := clobber v in
      Ok (tt, Cpu (Regs (u32 v) (ebx r) cx dx (esi r) (edi r) (ebp r) (esp r)) k)
  | Panic msg => Panic msg
  | Halt => Halt
  | UB why => UB why
  | OutOfFuel => OutOfFuel
  end.

(** kcall.asm.S:18; the result is the user's next instruction *)
Definition arch_sysenter_stub : C Z :=
  v ← get_reg ebp; _ ← push v;
  v ← get_reg edi; _ ← push v;
  v ← get_reg esi; _ ← push v;
  v ← get_reg edx; _ ← push v;
  v ← get_reg ecx; _ ← push v;
  v ← get_reg ebx; _ ← push v;
  v ← get_reg eax; _ ← push v;
  v ← get_reg esp; _ ← push v;
  _ ← push call_ret; _ ← call_handler; _ ← pop;
  _ ← set_regs (λ r, r_esp (esp r + 0x18) r);
  dx ← pop; _ ← set_regs (λ r, Regs (eax r) (ebx r) (ecx r) dx (esi r) (edi r) (ebp r) (esp r));
  cx ← pop; _ ← set_regs (λ r, Regs (eax r) (ebx r) cx (edx r) (esi r) (edi r) (ebp r) (esp r));
  _ ← set_regs (λ r, r_esp (ecx r) r);
  get_reg edx.

(** kcall_stub.asm:10: up to the instruction after sysenter, [label], and from
    there to the caller, whose address is the result *)
Definition usr_sysenter_stub (label : Z) : C Z :=
  v ← get_reg ebp; _ ← push v;
  v ← get_reg edi; _ ← push v;
  _ ← set_regs (λ r, Regs (eax r) (ebx r) (ecx r) (edx r) (esi r) label (esp r) (esp r));
  _ ← set_regs (r_esp sysenter_esp);
  eip ← arch_sysenter_stub;
  if negb (eip =? label) then ub "return to another instruction" else
  v ← pop; _ ← set_regs (λ r, Regs (eax r) (ebx r) (ecx r) (edx r) (esi r) v (ebp r) (esp r));
  v ← pop; _ ← set_regs (λ r, Regs (eax r) (ebx r) (ecx r) (edx r) (esi r) (edi r) v (esp r));
  pop.

(** syscall.c:6 and 18: the argument and the number, then the stub *)
Definition user_kcall (label number arg : Z) : C Z :=
  _ ← set_regs (λ r, Regs (eax r) arg (ecx r) (edx r) (esi r) (edi r) (ebp r) (esp r));
  _ ← set_regs (λ r, Regs number (ebx r) (ecx r) (edx r) (esi r) (edi r) (ebp r) (esp r));
  usr_sysenter_stub label.
Definition kcall_debug (label msg : Z) : C Z := user_kcall label 0x0 msg.
Definition kcall_meminfo (label meminfo : Z) : C Z := user_kcall label 0x1 meminfo.
End entry.
