(* ===== verification/KcallProps.v ===== *)
(** * KcallProps: what a call from user mode does

    The two calls on every branch, and the whole way from the user's function
    through the stubs and back. *)

From S2P Require Import Prelude Machine CString KInfo Thread Printf Console Kcall.

(** ** The memory map is copied out *)

(** The struct at [p] lists the first [j] regions. *)
Definition regions_at (m : mem) (p : Z) (l : list mmap_entry) (j : Z) : Prop :=
  ∀ i e, 0 ≤ i < j → l !! Z.to_nat i = Some e →
    load32 m (region p i) = u32 (mm_addr e) ∧ load32 m (region p i + 4) = u32 (mm_len e).

(** [s'] is [s] with another memory. *)
Definition only_mem (s s' : kst) : Prop := s' = k_with_mem (λ _, k_mem s') s.
Lemma only_mem_refl s : only_mem s s.
Proof. by destruct s as [[] ??]. Qed.
Lemma only_mem_info s s' : only_mem s s' → k_kinfo s' = k_kinfo s ∧ k_current s' = k_current s.
Proof. by intros ->. Qed.

Section meminfo.
Context (K_HIGH_VMA : Z) (lit_null num_buf buff lit_fmt lit_file : Z) (dbg : bool).
Context (p a : Z) (Hp : 0 ≤ p ∧ p + 164 ≤ a ∧ a + 4 ≤ 4294967296).

Lemma args_kept m m' :
  changes_only p 164 m m' → load32 m' a = load32 m a.
Proof using Hp. intros H. eapply changes_only_load32; [exact H|]. apply disj_linear; lia. Qed.

Lemma put_regions_ok (r : nat) : ∀ j s0 s,
  let l := memmaps (k_kinfo s0) in
  0 ≤ j → j + Z.of_nat r ≤ NO_MEM_REGIONS → j + Z.of_nat r ≤ Z.of_nat (length l) →
  load32 (k_mem s0) a = p → only_mem s0 s →
  changes_only p 164 (k_mem s0) (k_mem s) → regions_at (k_mem s) p l j →
  ∃ s', mfor (seqZ j (Z.of_nat r)) (put_region a) s = Ok (tt, s') ∧
    only_mem s0 s' ∧
    changes_only p 164 (k_mem s0) (k_mem s') ∧ regions_at (k_mem s') p l (j + Z.of_nat r) ∧
    load32 (k_mem s') (p + no_mem_regions) = load32 (k_mem s) (p + no_mem_regions).
Proof using Hp.
  induction r as [|r IH]; intros j s0 s l Hj Hj20 Hjl Ha Hom Hch Hat;
    unfold NO_MEM_REGIONS, no_mem_regions in *.
  { exists s. rewrite Z.add_0_r, seqZ_nil by lia. split_and!; done. }
  destruct (lookup_lt_is_Some_2 l (Z.to_nat j) ltac:(lia)) as [e He].
  set (m1 := store32 (k_mem s) (p + 8 * j) (u32 (mm_addr e))).
  set (m2 := store32 m1 (p + 8 * j + 4) (u32 (mm_len e))).
  assert (Hch1 : changes_only p 164 (k_mem s0) m1).
  { apply changes_only_store32; [done|lia..]. }
  assert (Hch2 : changes_only p 164 (k_mem s0) m2).
  { apply changes_only_store32; [done|lia..]. }
  destruct (IH (j + 1) s0 (k_with_mem (λ _, m2) s)) as (s' & E & H1 & H3 & H4 & H5);
    [lia|lia|fold l; lia|done| |done| |].
  { by rewrite Hom. }
  { fold l. change (k_mem (k_with_mem (λ _, m2) s)) with m2.
    intros i e' Hi He'. unfold region. subst m2 m1.
    rewrite (load32_store32_disj _ (p + 8 * j + 4) _ (p + 8 * i)) by (apply disj_linear; lia).
    destruct (decide (i = j)) as [->|Hne].
    - rewrite He in He'. injection He' as <-. rewrite !load32_store32_eq. by rewrite !u32_idemp.
    - rewrite !load32_store32_disj by (apply disj_linear; lia). apply Hat; [lia|done]. }
  destruct (only_mem_info _ _ Hom) as [Hki _].
  exists s'. split_and!; [|done|done| |].
  - rewrite seqZ_cons by lia. cbn [mfor]. unfold put_region, mbind, M_bind.
    cbn beta. rewrite Hki. fold l. rewrite He. unfold NO_MEM_REGIONS, region.
    assert (negb (j <? 20) = false) as -> by (apply negb_false_iff; lia).
    unfold modify. cbn beta iota. unfold k_with_mem, c_with_mem. cbn [k_con c_mem k_kinfo k_current].
    change (c_mem (k_con s)) with (k_mem s). rewrite (args_kept _ _ Hch), Ha. fold m1.
    rewrite (args_kept _ _ Hch1), Ha. fold m2.
    replace (Z.succ j) with (j + 1) by lia. replace (Z.pred (Z.of_nat (S r))) with (Z.of_nat r) by lia.
    exact E.
  - replace (j + Z.of_nat (S r)) with (j + 1 + Z.of_nat r) by lia. done.
  - rewrite H5. change (k_mem (k_with_mem (λ _, m2) s)) with m2. subst m2 m1.
    by rewrite !load32_store32_disj by (apply disj_linear; lia).
Qed.

Lemma meminfo_ok td proc s :
  let n := no_mmaps (k_kinfo s) in
  load32 (k_mem s) a = p → p < K_HIGH_VMA →
  load32 (k_mem s) (td + tcb_proc) = proc → load32 (k_mem s) (proc + proc_id) = PROC_MMAN_PID →
  0 ≤ n ≤ NO_MEM_REGIONS → n ≤ Z.of_nat (length (memmaps (k_kinfo s))) →
  ∃ s', meminfo K_HIGH_VMA td a s = Ok (0, s') ∧
    only_mem s s' ∧ changes_only p 164 (k_mem s) (k_mem s') ∧
    load32 (k_mem s') (p + no_mem_regions) = n ∧
    regions_at (k_mem s') p (memmaps (k_kinfo s)) n.
Proof using Hp.
  intros n Ha Hpk Hpr Hid Hn Hl. unfold meminfo. rewrite gets_bind, Ha.
  unfold validate_usr_ptr, validate. rewrite (proj2 (Z.ltb_lt _ _) Hpk). cbn [c_bool negb Z.eqb].
  rewrite !gets_bind, Hpr, Hid.
  change (negb (PROC_MMAN_PID =? PROC_MMAN_PID)) with false. cbv beta iota.
  rewrite gets_bind, modify_bind. fold n.
  unfold NO_MEM_REGIONS in Hn.
  set (s1 := k_with_mem _ s).
  assert (Em1 : k_mem s1 = store32 (k_mem s) (p + 160) n).
  { subst s1. unfold k_with_mem, k_mem, c_with_mem. cbn. change (c_mem (k_con s)) with (k_mem s).
    by rewrite Ha. }
  assert (Hch : changes_only p 164 (k_mem s) (k_mem s1)).
  { rewrite Em1. apply changes_only_store32; [done|lia..]. }
  destruct (put_regions_ok (Z.to_nat n) 0 s s1) as (s' & E & H1 & H3 & H4 & H5);
    rewrite ?Z2Nat.id by lia; try done; unfold NO_MEM_REGIONS; try lia.
  { intros i e Hi. lia. }
  rewrite Z2Nat.id in E by lia. rewrite (bind_Ok_M _ _ _ _ _ E). exists s'. split_and!; try done.
  - rewrite H5, Em1. unfold no_mem_regions. rewrite load32_store32_eq. apply u32_small. lia.
  - by rewrite Z2Nat.id, Z.add_0_l in H4 by lia.
Qed.
End meminfo.

(** ** The stubs *)

Lemma push_eq a b c d si di bp x y v k :
  4 ≤ x < 4294967296 → y = x - 4 →
  push v (Cpu (Regs a b c d si di bp x) k) =
    Ok (tt, Cpu (Regs a b c d si di bp y) (k_with_mem (λ m, store32 m y v) k)).
Proof.
  intros Hx ->. unfold push, modify, r_esp. cbn [c_regs c_kst esp eax ebx ecx edx esi edi ebp].
  by rewrite !(u32_small (x - 4)) by lia.
Qed.
Lemma pop_eq a b c d si di bp x y k :
  0 ≤ x < 4294967292 → y = x + 4 →
  pop (Cpu (Regs a b c d si di bp x) k) =
    Ok (load32 (k_mem k) x, Cpu (Regs a b c d si di bp y) k).
Proof.
  intros Hx ->. unfold pop, r_esp. cbn [c_regs c_kst esp eax ebx ecx edx esi edi ebp].
  by rewrite (u32_small (x + 4)) by lia.
Qed.
Lemma get_reg_bind {A} f r k (l : Z → M cpu A) :
  (get_reg f ≫= l) (Cpu r k) = l (f r) (Cpu r k).
Proof. done. Qed.
Lemma set_regs_bind {A} f r k (l : unit → M cpu A) :
  (set_regs f ≫= l) (Cpu r k) = l tt (Cpu (f r) k).
Proof. done. Qed.

(** The instructions of a stub: a push and a pop that leave the stack at [y],
    and moves between registers *)
Ltac push_to y :=
  repeat (rewrite get_reg_bind; cbn [eax ebx ecx edx esi edi ebp esp]);
  erewrite bind_Ok_M by (apply (push_eq _ _ _ _ _ _ _ _ y); lia).
Ltac pop_to y := erewrite bind_Ok_M by (apply (pop_eq _ _ _ _ _ _ _ _ y); lia).
Ltac set_step := rewrite set_regs_bind; cbn [eax ebx ecx edx esi edi ebp esp].

(** What the stubs push: two words on the user's stack below [U], nine on the
    kernel's below [T]; the handler's argument is the address of %eax. *)
Definition stub_mem (m : mem) (r : regs) (T label call_ret : Z) : mem :=
  let U := esp r in
  let m := store32 m (U - 4) (ebp r) in
  let m := store32 m (U - 8) (edi r) in
  let m := store32 m (T - 4) (U - 8) in
  let m := store32 m (T - 8) label in
  let m := store32 m (T - 12) (esi r) in
  let m := store32 m (T - 16) (edx r) in
  let m := store32 m (T - 20) (ecx r) in
  let m := store32 m (T - 24) (ebx r) in
  let m := store32 m (T - 28) (eax r) in
  let m := store32 m (T - 32) (T - 28) in
  store32 m (T - 36) call_ret.

(** Reading a word the stubs pushed *)
Ltac stub_loads :=
  unfold stub_mem; cbv zeta; cbn [eax ebx ecx edx esi edi ebp esp];
  repeat first [ rewrite load32_store32_eq | rewrite load32_store32_disj by (apply disj_linear; lia) ].

Section stubs.
Context (handler : Z → M kst Z) (T call_ret label : Z) (clobber : Z → Z * Z).
Context (HT : 36 ≤ T < 4294967296) (Hlabel : 0 ≤ label < 4294967296).

Lemma arch_sysenter_stub_ok (a b c d si di bp x : Z) s v k' :
  let m8 := stub_mem (k_mem s) (Regs a b c d si di bp x) T label call_ret in
  8 ≤ x < 4294967288 → x + 4 ≤ T - 36 ∨ T ≤ x - 8 →
  handler (T - 28) (k_with_mem (λ _, m8) s) = Ok (v, k') →
  load32 (k_mem k') (T - 8) = label → load32 (k_mem k') (T - 4) = x - 8 →
  arch_sysenter_stub handler call_ret clobber
      (Cpu (Regs a b c d si label (x - 8) T)
         (k_with_mem (λ m, store32 m (x - 8) di) (k_with_mem (λ m, store32 m (x - 4) bp) s))) =
    Ok (label, Cpu (Regs (u32 v) b (x - 8) label si label (x - 8) (x - 8)) k').
Proof using HT Hlabel.
  intros m8 HU Hd Hh HT8 HT4. unfold arch_sysenter_stub.
  push_to (T - 4). push_to (T - 8). push_to (T - 12). push_to (T - 16). push_to (T - 20).
  push_to (T - 24). push_to (T - 28). push_to (T - 32). push_to (T - 36).
  change (k_with_mem (λ m, store32 m (T - 36) call_ret) _) with (k_with_mem (λ _, m8) s).
  destruct (clobber v) as [cx dx] eqn:Ec. erewrite bind_Ok_M.
  2: { unfold call_handler. cbn [c_regs c_kst esp eax ebx ecx edx esi edi ebp].
       change (k_mem (k_with_mem (λ _, m8) s)) with m8.
       replace (T - 36 + 4) with (T - 32) by lia.
       assert (load32 m8 (T - 32) = T - 28) as ->.
       { subst m8. cbn [esp]. stub_loads. apply u32_small. lia. }
       rewrite Hh, Ec. cbv beta iota. reflexivity. }
  pop_to (T - 32). set_step. unfold r_esp. cbn [eax ebx ecx edx esi edi ebp esp].
  rewrite (u32_small (T - 32 + 24)) by lia. replace (T - 32 + 24) with (T - 8) by lia.
  pop_to (T - 4). rewrite HT8. set_step. pop_to T. rewrite HT4. set_step.
  rewrite set_regs_bind. unfold r_esp. cbn [eax ebx ecx edx esi edi ebp esp].
  by rewrite (u32_small (x - 8)) by lia.
Qed.

Lemma usr_sysenter_stub_ok r s v k' :
  let U := esp r in
  let m8 := stub_mem (k_mem s) r T label call_ret in
  8 ≤ U < 4294967288 → U + 4 ≤ T - 36 ∨ T ≤ U - 8 →
  handler (T - 28) (k_with_mem (λ _, m8) s) = Ok (v, k') →
  (∀ x, T - 8 ≤ x < T ∨ U - 8 ≤ x < U + 4 → load8 (k_mem k') x = load8 m8 x) →
  usr_sysenter_stub handler T call_ret clobber label (Cpu r s) =
    Ok (load32 (k_mem s) U,
        Cpu (Regs (u32 v) (ebx r) (U - 8) label (esi r) (u32 (edi r)) (u32 (ebp r)) (U + 4)) k').
Proof using HT Hlabel.
  intros U m8 HU Hd Hh Hk. destruct r as [a b c d si di bp x].
  cbn [esp ebx esi edi ebp] in U, HU, Hd, Hk |- *. subst U. cbn [esp] in HU, Hd, Hk.
  assert (Hw : ∀ y, T - 8 ≤ y ∧ y + 4 ≤ T ∨ x - 8 ≤ y ∧ y + 4 ≤ x + 4 →
    load32 (k_mem k') y = load32 m8 y).
  { intros y Hy. apply load32_ext. intros i Hi. apply Hk. lia. }
  unfold usr_sysenter_stub. push_to (x - 4). push_to (x - 8). set_step.
  rewrite set_regs_bind. unfold r_esp. cbn [eax ebx ecx edx esi edi ebp esp].
  rewrite (u32_small T) by lia.
  assert (E8 : load32 m8 (T - 8) = label ∧ load32 m8 (T - 4) = x - 8 ∧
    load32 m8 (x - 8) = u32 di ∧ load32 m8 (x - 4) = u32 bp ∧ load32 m8 x = load32 (k_mem s) x).
  { subst m8. cbn [esp ebp edi]. split_and!; stub_loads; rewrite ?u32_small by lia; done. }
  destruct E8 as (E1 & E2 & E3 & E4 & E5).
  erewrite bind_Ok_M.
  2: { eapply arch_sysenter_stub_ok; [done|done|exact Hh|..].
       - rewrite Hw by lia. exact E1.
       - rewrite Hw by lia. exact E2. }
  rewrite Z.eqb_refl. cbn [negb]. pop_to (x - 4). set_step. pop_to x. set_step.
  rewrite !Hw by lia. rewrite E3, E4, (pop_eq _ _ _ _ _ _ _ x (x + 4)) by lia.
  rewrite Hw by lia. by rewrite E5.
Qed.

(** A call from user mode *)
Lemma user_kcall_ok number arg r s v k' :
  let U := esp r in
  let r1 := Regs number arg (ecx r) (edx r) (esi r) (edi r) (ebp r) U in
  let m8 := stub_mem (k_mem s) r1 T label call_ret in
  8 ≤ U < 4294967288 → U + 4 ≤ T - 36 ∨ T ≤ U - 8 →
  handler (T - 28) (k_with_mem (λ _, m8) s) = Ok (v, k') →
  (∀ x, T - 8 ≤ x < T ∨ U - 8 ≤ x < U + 4 → load8 (k_mem k') x = load8 m8 x) →
  user_kcall handler T call_ret clobber label number arg (Cpu r s) =
    Ok (load32 (k_mem s) U,
        Cpu (Regs (u32 v) arg (U - 8) label (esi r) (u32 (edi r)) (u32 (ebp r)) (U + 4)) k').
Proof using HT Hlabel.
  intros U r1 m8 HU Hd Hh Hk. unfold user_kcall. rewrite !set_regs_bind.
  cbn [eax ebx ecx edx esi edi ebp esp]. exact (usr_sysenter_stub_ok r1 s v k' HU Hd Hh Hk).
Qed.

(** What the stubs wrote when the handler runs *)
Lemma stub_mem_out m r x :
  8 ≤ esp r < 4294967296 →
  ¬ within (esp r - 8) 8 x → ¬ within (T - 36) 36 x →
  load8 (stub_mem m r T label call_ret) x = load8 m x.
Proof using HT.
  clear handler clobber Hlabel. intros HU Hx1 Hx2. unfold stub_mem. cbv zeta.
  rewrite !store32_out; [done|..]; [contradict Hx1|contradict Hx1|contradict Hx2..];
    unfold within in *; wrap_lia.
Qed.
Lemma stub_mem_args m r :
  let m8 := stub_mem m r T label call_ret in
  load32 m8 (T - 28) = u32 (eax r) ∧ load32 m8 (T - 24) = u32 (ebx r).
Proof using HT. clear handler clobber Hlabel. cbv zeta. split; stub_loads; done. Qed.
End stubs.

(** ** log of a user's message *)

(** "[DEBUG:%s:%d] %s\n" *)
Definition log_pieces : list piece :=
  (Lit <$> [91; 68; 69; 66; 85; 71; 58]) ++ [Conv None Cs; Lit 58; Conv None Cd] ++
  (Lit <$> [93; 32]) ++ [Conv None Cs; Lit 10].
(** The line: "[DEBUG:" file ":43] " message and a newline *)
Definition log_line (file msg : list Z) : list Z :=
  [91; 68; 69; 66; 85; 71; 58] ++ file ++ [58; 52; 51; 93; 32] ++ msg ++ [10].

Lemma expand_log f fl a l :
  expand 32 0 log_pieces [AStr f fl; AWord 43; AStr a l] =
    Some (log_line fl l, Z.of_nat (length fl) + Z.of_nat (length l) + 11).
Proof.
  assert (Ed : dec (u32 43) = [52; 51]) by (vm_compute; reflexivity).
  unfold log_pieces, log_line. cbn -[dec u32 Z.of_nat Z.add]. rewrite Ed. cbn -[Z.of_nat Z.add].
  f_equal. f_equal. lia.
Qed.

(** ** Properties *)

(** The call for the memory map works from end to end: a thread of the
    memory manager that calls kcall_meminfo with a structure below the kernel
    returns behind its call with result 0, its stack and its registers %esi,
    %edi and %ebp as they were (%ebx holds the pointer); the structure lists
    exactly the regions of the boot information, cut to 32 bits; and apart from
    it only the two words below the user's stack pointer and the entry frame on
    the kernel's stack are written. *)
Theorem user_kcall_meminfo (K_HIGH_VMA lit_null num_buf buff lit_fmt lit_file : Z) (dbg : bool)
    (T call_ret label p : Z) (clobber : Z → Z * Z) (r : regs) (s : kst) :
  let handler := kcall_handler K_HIGH_VMA lit_null num_buf buff lit_fmt lit_file dbg in
  let n := no_mmaps (k_kinfo s) in
  let U := esp r in
  let td := k_current s in
  let proc := load32 (k_mem s) (td + tcb_proc) in
  0 ≤ K_HIGH_VMA ≤ T - 36 → T < 4294967296 → 0 ≤ label < 4294967296 →
  8 ≤ U → U + 4 ≤ K_HIGH_VMA → 0 ≤ p → p + 164 ≤ K_HIGH_VMA → apart (U - 8) 12 p 164 →
  K_HIGH_VMA ≤ td → td + 8 ≤ 4294967296 → apart (T - 36) 36 td 8 → td ≠ NULL →
  K_HIGH_VMA ≤ proc → proc + 4 ≤ 4294967296 → apart (T - 36) 36 proc 4 →
  load32 (k_mem s) (proc + proc_id) = PROC_MMAN_PID →
  0 ≤ n ≤ NO_MEM_REGIONS → n ≤ Z.of_nat (length (memmaps (k_kinfo s))) →
  ∃ k', kcall_meminfo handler T call_ret clobber label p (Cpu r s) =
      Ok (load32 (k_mem s) U,
          Cpu (Regs 0 p (U - 8) label (esi r) (u32 (edi r)) (u32 (ebp r)) (U + 4)) k') ∧
    load32 (k_mem k') (p + no_mem_regions) = n ∧
    regions_at (k_mem k') p (memmaps (k_kinfo s)) n ∧ only_mem s k' ∧
    ∀ x, ¬ within p 164 x → ¬ within (U - 8) 8 x → ¬ within (T - 36) 36 x →
      load8 (k_mem k') x = load8 (k_mem s) x.
Proof.
  intros handler n U td proc HK HT Hl HU HUK Hp HpK HUp Htd Htd' HTtd Hnul Hpr Hpr' HTpr Hid Hn Hml.
  unfold apart in *. set (r1 := Regs 1 p (ecx r) (edx r) (esi r) (edi r) (ebp r) (esp r)).
  set (m8 := stub_mem (k_mem s) r1 T label call_ret).
  assert (Hout : ∀ x, ¬ within (U - 8) 8 x → ¬ within (T - 36) 36 x →
                   load8 m8 x = load8 (k_mem s) x).
  { intros x Hx1 Hx2. apply stub_mem_out; cbn [esp r1]; (done || lia). }
  assert (Hload : ∀ a, 0 ≤ a → a + 4 ≤ 4294967296 → U ≤ a → a + 4 ≤ T - 36 ∨ T ≤ a →
                    load32 m8 a = load32 (k_mem s) a).
  { intros a Ha1 Ha2 Ha3 Ha4. apply load32_ext. intros i Hi.
    apply Hout; unfold within; wrap_lia. }
  destruct (stub_mem_args T call_ret label ltac:(lia) (k_mem s) r1) as [Ea1 Ea2]. fold m8 in Ea1, Ea2.
  cbn [eax ebx r1] in Ea1, Ea2. rewrite u32_small in Ea1, Ea2 by lia.
  unfold tcb_proc, proc_id, NO_MEM_REGIONS in *.
  destruct (meminfo_ok K_HIGH_VMA p (T - 24) ltac:(lia) td proc (k_with_mem (λ _, m8) s))
    as (k' & E & H1 & H3 & H4 & H5); try done; change (k_mem (k_with_mem (λ _, m8) s)) with m8 in *.
  { lia. }
  { unfold tcb_proc. apply Hload; lia. }
  { unfold proc_id. rewrite Hload by lia. done. }
  exists k'. split_and!; [|done|done|done|].
  - apply (user_kcall_ok handler T call_ret label clobber ltac:(lia) Hl 1 p r s 0 k'); fold U; [lia|lia| |].
    + change (stub_mem _ _ _ _ _) with m8. subst handler. unfold kcall_handler. rewrite gets_bind.
      change (k_mem (k_with_mem (λ _, m8) s)) with m8. unfold kcall_number, kcall_args.
      rewrite Z.add_0_r, Ea1. change (_ || _) with false. cbv beta iota.
      change (kcall_table _ _ _ _ _ _ !! Z.to_nat 1) with (Some (meminfo K_HIGH_VMA)). cbv beta iota.
      rewrite gets_bind. change (k_current (k_with_mem (λ _, m8) s)) with td.
      rewrite (proj2 (Z.eqb_neq _ _) Hnul). rewrite (bind_Ok_M _ _ _ tt (k_with_mem (λ _, m8) s))
        by (unfold ASSERT; by rewrite andb_false_r).
      replace (T - 28 + 4) with (T - 24) by lia. exact E.
    + intros x Hx. change (stub_mem _ _ _ _ _) with m8. apply H3. unfold within. wrap_lia.
  - intros x Hx1 Hx2 Hx3. rewrite H3 by done. by apply Hout.
Qed.
(** Two regions; the thread at 0xFE900000, its process after it, the structure
    at 0x400000. *)
Definition demo_kinfo : kernel_info_t :=
  KernelInfo [MmapEntry 0x100000 0x7EE0000 1 0; MmapEntry 0x100000000 0x40000000 1 0] 2 0 [] 0
    (MemRange 0 0) (MemRange 0 0) (MemRange 0 0) (MemRange 0 0) (MemRange 0 0) 0xFE800000 0 0.
Definition demo_kst : kst :=
  Kst (console_boot (store32 (store32 ∅ 0xFE900004 0xFE900100) 0xFE900100 1))
    demo_kinfo 0xFE900000.
Definition demo_regs : regs := Regs 0 0 0 0 5 6 7 0x7FFFFF00.
Lemma user_kcall_meminfo_witness :
  ∃ k', kcall_meminfo (kcall_handler 0xFE800000 0 0 0 0 0 true) 0xFEA00000 0xFE812345 (λ _, (0, 0))
      0x400100 0x400200 (Cpu demo_regs demo_kst) =
      Ok (0, Cpu (Regs 0 0x400200 0x7FFFFEF8 0x400100 5 6 7 0x7FFFFF04) k') ∧
    load32 (k_mem k') 0x4002A0 = 2.
Proof.
  destruct (user_kcall_meminfo 0xFE800000 0 0 0 0 0 true 0xFEA00000 0xFE812345 0x400100 0x400200
    (λ _, (0, 0)) demo_regs demo_kst) as (k' & H1 & H2 & _).
  all: try (vm_compute; intuition congruence).
  exists k'. split; [exact H1|exact H2].
Defined.

(** C24. What the kernel refuses: an unknown call number, a pointer into the
    kernel, and a request for the memory map by a process other than the memory
    manager all return -1 and change nothing. *)
Theorem kcall_rejects (K_HIGH_VMA lit_null num_buf buff lit_fmt lit_file : Z) (dbg : bool)
    (frame : Z) (s : kst) :
  let m := k_mem s in
  let n := load32 m (frame + kcall_number) in
  let arg := load32 m (frame + kcall_args) in
  let td := k_current s in
  let handled := kcall_handler K_HIGH_VMA lit_null num_buf buff lit_fmt lit_file dbg frame s in
  (1 < n → handled = Ok (-1, s)) ∧
  (n ≤ 1 → td ≠ NULL → K_HIGH_VMA ≤ arg → handled = Ok (-1, s)) ∧
  (n = 1 → td ≠ NULL → load32 m (load32 m (td + tcb_proc) + proc_id) ≠ PROC_MMAN_PID →
   handled = Ok (-1, s)).
Proof.
  intros m n arg td handled. subst handled.
  pose proof (load32_range m (frame + kcall_number)) as Hn. fold n in Hn.
  assert (Hrun : n ≤ 1 → td ≠ NULL →
    kcall_handler K_HIGH_VMA lit_null num_buf buff lit_fmt lit_file dbg frame s =
    (if n =? 0 then debug K_HIGH_VMA lit_null num_buf buff lit_fmt lit_file
     else meminfo K_HIGH_VMA) td (frame + kcall_args) s).
  { intros Hn1 Htd. unfold kcall_handler. rewrite gets_bind. fold m. fold n. unfold NO_KCALLS.
    assert ((n >? 1) || (n <? 0) = false) as ->.
    { apply orb_false_iff. rewrite Z.gtb_ltb, !Z.ltb_ge. lia. }
    assert (Hk : ∀ c : Z → Z → M kst Z,
      (current_thread ← gets k_current;
       _ ← ASSERT dbg (negb (current_thread =? NULL));
       c current_thread (frame + kcall_args)) s = c td (frame + kcall_args) s).
    { intros c. rewrite gets_bind. fold td. rewrite (proj2 (Z.eqb_neq _ _) Htd).
      unfold ASSERT, mbind, M_bind. by rewrite andb_false_r. }
    assert (n = 0 ∨ n = 1) as [->| ->] by lia; apply Hk. }
  split_and!.
  - intros Hn1. unfold kcall_handler. rewrite gets_bind. fold m. fold n. unfold NO_KCALLS.
    assert (n >? 1 = true) as -> by (rewrite Z.gtb_ltb; by apply Z.ltb_lt). done.
  - intros Hn1 Htd Harg. rewrite Hrun by done.
    assert (Hv : validate_usr_ptr K_HIGH_VMA arg = false).
    { unfold validate_usr_ptr, validate. by rewrite (proj2 (Z.ltb_ge _ _) Harg). }
    destruct (n =? 0); [unfold debug|unfold meminfo]; rewrite gets_bind; fold m; fold arg;
      by rewrite Hv.
  - intros Hn1 Htd Hid. rewrite Hrun by (done || lia). rewrite Hn1. change (1 =? 0) with false.
    cbv iota. unfold meminfo. rewrite gets_bind. destruct (validate_usr_ptr _ _); [|done].
    cbn [negb]. rewrite !gets_bind. fold m. by rewrite (proj2 (Z.eqb_neq _ _) Hid).
Qed.

(** The debug call prints its message as it is: the line "[DEBUG:file:43] "
    with the characters of the message, '%' included, is drawn on the screen,
    the result counts all of it but the line number, and only the text buffer
    and the stack frame of kprintf are written. *)
Theorem kcall_debug_prints (K_HIGH_VMA lit_null nb buff lit_fmt lit_file : Z) (dbg : bool)
    (t frame : Z) (file msg : list Z) (s : kst) (sc : screen) :
  let c := k_con s in
  let a := load32 (k_mem s) (frame + kcall_args) in
  let line := log_line file msg in
  0 ≤ t → t + 4002 ≤ 4294967296 → shows t c sc → s_y sc ≤ 24 →
  reg buff KPRINT_BUFF_LEN → reg nb 50 → apart buff KPRINT_BUFF_LEN nb 50 →
  apart t 4002 buff KPRINT_BUFF_LEN → apart t 4002 nb 50 →
  cstr nb buff KPRINT_BUFF_LEN (c_mem c) lit_null null_chars →
  cstr nb buff KPRINT_BUFF_LEN (c_mem c) lit_fmt (format log_pieces) →
  cstr nb buff KPRINT_BUFF_LEN (c_mem c) lit_file file →
  cstr nb buff KPRINT_BUFF_LEN (c_mem c) a msg → a < K_HIGH_VMA →
  load32 (k_mem s) (frame + kcall_number) = 0 → k_current s ≠ NULL →
  Z.of_nat (length line) + 1 < KPRINT_BUFF_LEN → calm false line = true →
  ∃ sc' k', kcall_handler K_HIGH_VMA lit_null nb buff lit_fmt lit_file dbg frame s =
      Ok (Z.of_nat (length line) - 2, k') ∧
    draws (color_attrib c) line sc = Some sc' ∧ shows t (k_con k') sc' ∧
    k_kinfo k' = k_kinfo s ∧ k_current k' = k_current s ∧
    ∀ x, ¬ within t 4002 x → ¬ within buff KPRINT_BUFF_LEN x → ¬ within nb 50 x →
      load8 (k_mem k') x = load8 (k_mem s) x.
Proof.
  intros c a line Ht1 Ht2 Hs Hy Hb Hn Hbn Htb Htn Hnull Hfmt Hfile Hmsg Ha H0 Htd Hlen Hcalm.
  pose proof Hs as (_ & _ & _ & _ & _ & Hx & Hy0).
  destruct (calm_draws (color_attrib c) line false sc Hcalm Hx) as (sc' & Hdr & _); [lia|lia|].
  assert (Hchars : Forall (λ x, 0 < x < 256) line).
  { destruct Hfile as (_ & Hf & _), Hmsg as (_ & Hm & _). subst line. unfold log_line.
    rewrite !Forall_app. split_and!; try done; repeat (apply Forall_cons; split); lia || apply Forall_nil_2. }
  destruct (kprintf_ok t lit_null nb buff lit_fmt c sc sc' log_pieces
    [AStr lit_file file; AWord 43; AStr a msg] line (Z.of_nat (length file) + Z.of_nat (length msg) + 11))
    as (c' & Hk & Hs' & _ & Hout); try done; try lia.
  { repeat (apply Forall_cons; split); [exact Hfile|exact I|exact Hmsg|apply Forall_nil_2]. }
  { apply expand_log. }
  assert (El : Z.of_nat (length line) - 2 = Z.of_nat (length file) + Z.of_nat (length msg) + 11).
  { subst line. unfold log_line. rewrite !length_app. cbn [length]. lia. }
  exists sc', (Kst c' (k_kinfo s) (k_current s)). split_and!; [|done..].
  unfold kcall_handler. rewrite gets_bind, H0. cbn [Z.gtb Z.ltb orb Z.compare NO_KCALLS].
  change (kcall_table K_HIGH_VMA lit_null nb buff lit_fmt lit_file !! Z.to_nat 0) with
    (Some (debug K_HIGH_VMA lit_null nb buff lit_fmt lit_file)). cbv iota. rewrite gets_bind.
  rewrite (proj2 (Z.eqb_neq _ _) Htd). rewrite (bind_Ok_M _ _ _ tt s)
    by (unfold ASSERT; by rewrite andb_false_r).
  unfold debug. rewrite gets_bind. fold a. unfold validate_usr_ptr, validate.
  rewrite (proj2 (Z.ltb_lt _ _) Ha). cbn [c_bool negb Z.eqb]. rewrite gets_bind. fold a.
  erewrite bind_Ok_M.
  2: { unfold log_debug. cbn [arg_word fmap list_fmap] in Hk. fold c. rewrite Hk. reflexivity. }
  unfold mret, M_ret. rewrite El, s32_small; [done|]. unfold KPRINT_BUFF_LEN in Hlen. lia.
Qed.
(** The message "hi%d" from kcall.c *)
Definition demo_file : list Z := [107; 99; 97; 108; 108; 46; 99].
Definition demo_log_mem : mem :=
  let m := write_bytes ∅ 256 (null_chars ++ [0]) in
  let m := write_bytes m 512 (format log_pieces ++ [0]) in
  let m := write_bytes m 768 (demo_file ++ [0]) in
  let m := write_bytes m 1024 [104; 105; 37; 100; 0] in
  store32 (store32 m 2048 0) 2052 1024.
Definition demo_log_kst : kst := Kst (demo_console demo_log_mem) demo_kinfo 0xFE900000.
Lemma kcall_debug_prints_witness :
  ∃ sc' k', kcall_handler 0xFE800000 256 4096 8192 512 768 true 2048 demo_log_kst = Ok (22, k') ∧
    draws 15 (log_line demo_file [104; 105; 37; 100]) demo_screen = Some sc' ∧
    shows 0xB8000 (k_con k') sc'.
Proof.
  destruct (kcall_debug_prints 0xFE800000 256 4096 8192 512 768 true 0xB8000 2048 demo_file
    [104; 105; 37; 100] demo_log_kst demo_screen) as (sc' & k' & H1 & H2 & H3 & _).
  - lia.
  - lia.
  - apply demo_shows. vm_compute. reflexivity.
  - cbn. lia.
  - split; unfold KPRINT_BUFF_LEN; lia.
  - split; lia.
  - right. lia.
  - right. unfold KPRINT_BUFF_LEN. lia.
  - right. lia.
  - apply cstr_check; [vm_compute; reflexivity|reflexivity|].
    split_and!; [split; cbn; lia|right; cbn; lia|right; cbn; lia].
  - apply cstr_check; [vm_compute; reflexivity|reflexivity|].
    split_and!; [split; vm_compute; done|right; vm_compute; done|right; vm_compute; done].
  - apply cstr_check; [vm_compute; reflexivity|reflexivity|].
    split_and!; [split; cbn; lia|right; cbn; lia|right; cbn; lia].
  - change (load32 (k_mem demo_log_kst) (2048 + kcall_args)) with (load32 demo_log_mem 2052).
    assert (load32 demo_log_mem 2052 = 1024) as -> by (vm_compute; reflexivity).
    apply cstr_check; [vm_compute; reflexivity|reflexivity|].
    split_and!; [split; cbn; lia|right; cbn; lia|right; cbn; lia].
  - vm_compute. reflexivity.
  - vm_compute. reflexivity.
  - vm_compute. congruence.
  - vm_compute. reflexivity.
  - vm_compute. reflexivity.
  - exists sc', k'. split; [exact H1|]. split; [exact H2|exact H3].
Defined.

(** C40. Only the first byte of the user's structure is checked: with a pointer
    to the last word below the kernel the call succeeds and writes the number
    of regions 156 bytes into the kernel. *)
Theorem kcall_meminfo_writes_kernel (K_HIGH_VMA lit_null num_buf buff lit_fmt lit_file : Z)
    (dbg : bool) (frame : Z) (s : kst) :
  let n := no_mmaps (k_kinfo s) in
  let td := k_current s in
  let proc := load32 (k_mem s) (td + tcb_proc) in
  4 ≤ K_HIGH_VMA → K_HIGH_VMA + 160 ≤ frame + kcall_args → frame + 8 ≤ 4294967296 →
  load32 (k_mem s) (frame + kcall_number) = 1 →
  load32 (k_mem s) (frame + kcall_args) = K_HIGH_VMA - 4 → td ≠ NULL →
  load32 (k_mem s) (proc + proc_id) = PROC_MMAN_PID →
  0 ≤ n ≤ NO_MEM_REGIONS → n ≤ Z.of_nat (length (memmaps (k_kinfo s))) →
  ∃ k', kcall_handler K_HIGH_VMA lit_null num_buf buff lit_fmt lit_file dbg frame s = Ok (0, k') ∧
    load32 (k_mem k') (K_HIGH_VMA + 156) = n.
Proof.
  intros n td proc HK Hf Hf2 H1 Ha Htd Hid Hn Hl.
  destruct (meminfo_ok K_HIGH_VMA (K_HIGH_VMA - 4) (frame + kcall_args)
    ltac:(unfold kcall_args in *; lia) td proc s Ha) as (k' & E & _ & _ & Hw & _); try done; [lia|].
  exists k'. split.
  - unfold kcall_handler. rewrite gets_bind, H1. change (_ || _) with false. cbv beta iota.
    change (kcall_table _ _ _ _ _ _ !! Z.to_nat 1) with (Some (meminfo K_HIGH_VMA)). cbv beta iota.
    rewrite gets_bind. fold td. rewrite (proj2 (Z.eqb_neq _ _) Htd).
    rewrite (bind_Ok_M _ _ _ tt s) by (unfold ASSERT; by rewrite andb_false_r). exact E.
  - transitivity (load32 (k_mem k') (K_HIGH_VMA - 4 + no_mem_regions)); [|exact Hw].
    f_equal. unfold no_mem_regions. lia.
Qed.
Definition demo_straddle_kst : kst :=
  Kst (console_boot (store32 (store32 (store32 (store32 ∅ 0xFE900004 0xFE900100) 0xFE900100 1)
        0xFE9FFF00 1) 0xFE9FFF04 0xFE7FFFFC)) demo_kinfo 0xFE900000.
Lemma kcall_meminfo_writes_kernel_witness :
  ∃ k', kcall_handler 0xFE800000 0 0 0 0 0 true 0xFE9FFF00 demo_straddle_kst = Ok (0, k') ∧
    load32 (k_mem k') 0xFE80009C = 2.
Proof.
  apply (kcall_meminfo_writes_kernel 0xFE800000 0 0 0 0 0 true 0xFE9FFF00 demo_straddle_kst).
  all: vm_compute; intuition congruence.
Defined.
