(* ===== verification/Server.v ===== *)
(** * Server: the memory manager

    serv/mman/main.c, the server the boot loader starts first: it prints a
    message with kcall_debug, fetches the memory map with kcall_meminfo and
    spins. The kernel calls are those of [Kcall], through the stubs on both
    sides; what the compiled C code keeps on its own stack frame, besides the
    return address of a call, is not modelled. *)

From S2P Require Import Prelude Machine CString KInfo Thread Printf Console Kcall KcallProps.

(** ** The program *)

Section program.
(** The kernel's side: the handler, its stack, the return address there, what a
    C function leaves in %ecx and %edx; the label of the user's stub *)
Context (handler : Z → M kst Z) (sysenter_esp call_ret : Z) (clobber : Z → Z * Z) (label : Z).
(** The literal "TEST", the static meminfo, the instructions after the calls *)
Context (lit_test meminfo ret_debug ret_meminfo : Z).

(** A call of a C function: the return address is pushed, the result is in
    %eax *)
Definition call_c (ret : Z) (f : C Z) : C Z :=
  _ ← push ret;
  eip ← f;
  if negb (eip =? ret) then ub "return to another instruction" else
  v ← get_reg eax;
  mret (s32 v).

(** main.c:10 and 12; the result is err *)
Definition main_calls : C Z :=
  _ ← call_c ret_debug (kcall_debug handler sysenter_esp call_ret clobber label lit_test);
  call_c ret_meminfo (kcall_meminfo handler sysenter_esp call_ret clobber label meminfo).

(** main.c:14 *)
Definition spin : C unit := λ c, c ← while_loop (λ _, true) Ok c; Ok (tt, c).

(** main.c:6 *)
Definition main : C unit := err ← main_calls; spin.

(** lib/crt/crt.c:8; called by a C function of the server that finds its stack
    frame overwritten: the body is only the statement that it is never reached *)
Definition user_stack_chk_fail : C unit := ub "__builtin_unreachable is reached".
End program.

(** No number of rounds ends the loop. *)
Lemma spin_runs (c : cpu) fuel : run fuel (while_step (λ _, true) Ok) c = Running c.
Proof. rewrite run_to_nat. by induction (Pos.to_nat fuel) as [|k IH]. Qed.
Lemma spin_forever c : spin c = OutOfFuel.
Proof. unfold spin, while_loop. by rewrite spin_runs. Qed.

Lemma call_c_ok ret f a b c d si di bp x v r' k k' :
  4 ≤ x < 4294967296 →
  f (Cpu (Regs a b c d si di bp (x - 4)) (k_with_mem (λ m, store32 m (x - 4) ret) k)) =
    Ok (ret, Cpu r' k') →
  s32 (eax r') = v → call_c ret f (Cpu (Regs a b c d si di bp x) k) = Ok (v, Cpu r' k').
Proof.
  intros Hx Hf <-. unfold call_c. erewrite bind_Ok_M by (by apply push_eq).
  rewrite (bind_Ok_M _ _ _ _ _ Hf), Z.eqb_refl. done.
Qed.

(** ** What the console and the strings need of the memory *)

Lemma shows_mem t c sc m :
  shows t c sc → (∀ x, t ≤ x < t + 4002 → load8 m x = load8 (c_mem c) x) →
  shows t (c_with_mem (λ _, m) c) sc.
Proof.
  intros (H1 & H2 & H3 & H4 & H5 & H6 & H7) Hm. split_and!; try done; try lia.
  intros i v Hi. rewrite <-(H3 i v Hi). pose proof (lookup_lt_Some _ _ _ Hi).
  apply load16_ext. intros j Hj. apply Hm. unfold cell_addr. lia.
Qed.

Lemma cstr_mem nb buff m m' a l :
  cstr nb buff KPRINT_BUFF_LEN m a l →
  (∀ x, a ≤ x < a + Z.of_nat (length l) + 1 → load8 m' x = load8 m x) →
  cstr nb buff KPRINT_BUFF_LEN m' a l.
Proof.
  intros (Hh & Hl & Hr) Hm. split_and!; [|done|done]. intros i x Hi.
  rewrite <-(Hh i x Hi). apply Hm. pose proof (lookup_lt_Some _ _ _ Hi) as Hlt.
  rewrite length_app in Hlt. cbn [length] in Hlt. lia.
Qed.

Lemma within_linear a n x :
  0 ≤ a → a + n ≤ 4294967296 → 0 ≤ x < 4294967296 → within a n x ↔ a ≤ x < a + n.
Proof. intros Ha Hn Hx. unfold within. wrap_lia. Qed.

(** ** The machine on which the server starts

    The kernel lies from [K] to the end of the address space, the user below
    it. [T] is the top of the kernel's entry stack. *)

Definition TEST : list Z := [84; 69; 83; 84].

Section ready.
Context (K t lit_null nb buff lit_fmt lit_file T : Z) (file : list Z).
Context (label lit_test meminfo ret_debug ret_meminfo : Z).

(** What a call writes of the kernel's memory: the text buffer, the stack frame
    of kprintf, the entry frame *)
Definition kernel_writes : list (Z * Z) :=
  [(t, 4002); (buff, KPRINT_BUFF_LEN); (nb, 50); (T - 36, 36)].
(** What it reads of it: the thread, the process, the literals *)
Definition kernel_reads (td proc : Z) : list (Z * Z) :=
  [(td, 8); (proc, 4); (lit_null, Z.of_nat (length null_chars) + 1); (lit_fmt, Z.of_nat (length (format log_pieces)) + 1);
   (lit_file, Z.of_nat (length file) + 1)].
Definition in_kernel (r : Z * Z) : Prop := K ≤ r.1 ∧ r.1 + r.2 ≤ 4294967295.
Definition clear_of (r q : Z * Z) : Prop := apart r.1 r.2 q.1 q.2.

Record server_ready (r : regs) (s : kst) (sc : screen) : Prop := {
  sr_vma : 0 < K;
  sr_addrs : 0 ≤ label < K ∧ 0 ≤ ret_debug < K ∧ 0 ≤ ret_meminfo < K;
  sr_stack : 12 ≤ esp r ≤ K;
  sr_meminfo : 0 ≤ meminfo ∧ meminfo + sizeof_sys_meminfo ≤ K;
  sr_apart : apart (esp r - 12) 12 meminfo sizeof_sys_meminfo;
  sr_text : 0 < lit_test ∧ lit_test + 5 ≤ K ∧ apart (esp r - 12) 12 lit_test 5;
  sr_top : T < 4294967296;
  sr_writes : Forall in_kernel kernel_writes;
  sr_disjoint : ForallOrdPairs clear_of kernel_writes;
  sr_reads : let td := k_current s in let proc := load32 (k_mem s) (td + tcb_proc) in
    Forall (λ q, in_kernel q ∧ Forall (clear_of q) kernel_writes) (kernel_reads td proc);
  sr_mman : load32 (k_mem s) (load32 (k_mem s) (k_current s + tcb_proc) + proc_id) = PROC_MMAN_PID;
  sr_map : 0 ≤ no_mmaps (k_kinfo s) ≤ NO_MEM_REGIONS ∧
    no_mmaps (k_kinfo s) ≤ Z.of_nat (length (memmaps (k_kinfo s)));
  sr_shows : shows t (k_con s) sc ∧ s_y sc ≤ 24;
  sr_null : holds (k_mem s) lit_null (null_chars ++ [0]);
  sr_fmt : holds (k_mem s) lit_fmt (format log_pieces ++ [0]);
  sr_file : holds (k_mem s) lit_file (file ++ [0]) ∧ Forall (λ x, 0 < x < 256) file;
  sr_test : holds (k_mem s) lit_test (TEST ++ [0]);
  sr_line : Z.of_nat (length (log_line file TEST)) + 1 < KPRINT_BUFF_LEN;
  sr_calm : calm false (log_line file TEST) = true;
}.

(** The memory a call of main may change *)
Definition kept (U : Z) (m m' : mem) : Prop :=
  ∀ x, ¬ within (U - 12) 12 x → Forall (λ q, ¬ within q.1 q.2 x) kernel_writes →
    load8 m' x = load8 m x.
End ready.

#[local] Arguments sr_addrs {_ _ _ _ _ _ _ _ _ _ _ _ _ _ _ _ _} _.
#[local] Arguments sr_apart {_ _ _ _ _ _ _ _ _ _ _ _ _ _ _ _ _} _.
#[local] Arguments sr_calm {_ _ _ _ _ _ _ _ _ _ _ _ _ _ _ _ _} _.
#[local] Arguments sr_disjoint {_ _ _ _ _ _ _ _ _ _ _ _ _ _ _ _ _} _.
#[local] Arguments sr_file {_ _ _ _ _ _ _ _ _ _ _ _ _ _ _ _ _} _.
#[local] Arguments sr_fmt {_ _ _ _ _ _ _ _ _ _ _ _ _ _ _ _ _} _.
#[local] Arguments sr_line {_ _ _ _ _ _ _ _ _ _ _ _ _ _ _ _ _} _.
#[local] Arguments sr_map {_ _ _ _ _ _ _ _ _ _ _ _ _ _ _ _ _} _.
#[local] Arguments sr_meminfo {_ _ _ _ _ _ _ _ _ _ _ _ _ _ _ _ _} _.
#[local] Arguments sr_mman {_ _ _ _ _ _ _ _ _ _ _ _ _ _ _ _ _} _.
#[local] Arguments sr_null {_ _ _ _ _ _ _ _ _ _ _ _ _ _ _ _ _} _.
#[local] Arguments sr_reads {_ _ _ _ _ _ _ _ _ _ _ _ _ _ _ _ _} _.
#[local] Arguments sr_shows {_ _ _ _ _ _ _ _ _ _ _ _ _ _ _ _ _} _.
#[local] Arguments sr_test {_ _ _ _ _ _ _ _ _ _ _ _ _ _ _ _ _} _.
#[local] Arguments sr_text {_ _ _ _ _ _ _ _ _ _ _ _ _ _ _ _ _} _.
#[local] Arguments sr_top {_ _ _ _ _ _ _ _ _ _ _ _ _ _ _ _ _} _.
#[local] Arguments sr_writes {_ _ _ _ _ _ _ _ _ _ _ _ _ _ _ _ _} _.

Lemma ForallOrdPairs_cons {A} (R : A → A → Prop) x l :
  ForallOrdPairs R (x :: l) ↔ Forall (R x) l ∧ ForallOrdPairs R l.
Proof. split; [by inversion 1|intros []; by constructor]. Qed.

(** Membership in a list that is written out *)
Ltac listed := apply list_elem_of_In; cbn; tauto.

Section run.
Context (K t lit_null nb buff lit_fmt lit_file T : Z) (file : list Z).
Context (label lit_test meminfo ret_debug ret_meminfo : Z).
Context (r : regs) (s : kst) (sc : screen).
Context (Hr : server_ready K t lit_null nb buff lit_fmt lit_file T file label lit_test meminfo
  ret_debug ret_meminfo r s sc).

Let td := k_current s.
Let proc := load32 (k_mem s) (td + tcb_proc).
Let reads := kernel_reads lit_null lit_fmt lit_file file td proc.
Let writes := kernel_writes t nb buff T.
Let kept' := kept t nb buff T (esp r) (k_mem s).

(** ** Reading the conditions *)

Lemma ready_bounds :
  0 < K ∧ 12 ≤ esp r ≤ K ∧ (K ≤ t ∧ t + 4002 ≤ 4294967295) ∧
  (K ≤ buff ∧ buff + 1024 ≤ 4294967295) ∧ (K ≤ nb ∧ nb + 50 ≤ 4294967295) ∧
  (K ≤ T - 36 ∧ T ≤ 4294967295).
Proof using Hr.
  pose proof (sr_writes Hr) as Hw. unfold kernel_writes in Hw.
  rewrite !Forall_cons in Hw. unfold in_kernel, KPRINT_BUFF_LEN in Hw. cbn [fst snd] in Hw.
  destruct Hr. lia.
Qed.
Lemma ready_apart :
  (apart t 4002 buff KPRINT_BUFF_LEN ∧ apart t 4002 nb 50 ∧ apart t 4002 (T - 36) 36) ∧
  (apart buff KPRINT_BUFF_LEN nb 50 ∧ apart buff KPRINT_BUFF_LEN (T - 36) 36) ∧
  apart nb 50 (T - 36) 36.
Proof using Hr.
  pose proof (sr_disjoint Hr) as Hw. unfold kernel_writes in Hw.
  rewrite !ForallOrdPairs_cons, !Forall_cons in Hw. unfold clear_of in Hw. cbn [fst snd] in Hw. tauto.
Qed.

(** What the kernel reads is outside everything the calls write. *)
Lemma ready_read q x :
  q ∈ reads → q.1 ≤ x < q.1 + q.2 →
  ¬ within (esp r - 12) 12 x ∧ Forall (λ w, ¬ within w.1 w.2 x) writes.
Proof using Hr.
  intros Hq Hx. destruct ready_bounds as (H0 & H1 & _).
  pose proof (sr_reads Hr) as Hrd. cbv zeta in Hrd.
  fold td in Hrd. fold proc in Hrd. fold reads in Hrd.
  rewrite Forall_forall in Hrd. destruct (Hrd q Hq) as [[HK HK'] Hc].
  split; [rewrite within_linear; lia|].
  pose proof (sr_writes Hr) as Hw.
  fold writes in Hc, Hw. rewrite Forall_forall in Hc, Hw |- *. intros w Hin.
  specialize (Hc w Hin). destruct (Hw w Hin). unfold clear_of, apart in Hc.
  rewrite within_linear; lia.
Qed.
Lemma kept_read m q x : kept' m → q ∈ reads → q.1 ≤ x < q.1 + q.2 → load8 m x = load8 (k_mem s) x.
Proof using Hr. intros Hk Hq Hx. by apply Hk; destruct (ready_read q x Hq Hx). Qed.
Lemma kept_word m q i :
  kept' m → q ∈ reads → 0 ≤ i → i + 4 ≤ q.2 → load32 m (q.1 + i) = load32 (k_mem s) (q.1 + i).
Proof using Hr.
  intros Hk Hq Hi Hi'. apply load32_ext. intros j Hj. apply (kept_read m q); [done|done|lia].
Qed.
Lemma kept_cstr m a l :
  kept' m → (a, Z.of_nat (length l) + 1) ∈ reads → holds (k_mem s) a (l ++ [0]) →
  Forall (λ x, 0 < x < 256) l → cstr nb buff KPRINT_BUFF_LEN m a l.
Proof using Hr.
  intros Hk Hq Hh Hl.
  pose proof (sr_reads Hr) as Hrd. cbv zeta in Hrd.
  fold td in Hrd. fold proc in Hrd. fold reads in Hrd. rewrite Forall_forall in Hrd.
  destruct (Hrd _ Hq) as [[HK HK'] Hc]. unfold kernel_writes in Hc. rewrite !Forall_cons in Hc.
  unfold clear_of, apart in Hc. cbn [fst snd] in *. destruct ready_bounds as (H0 & _).
  apply (cstr_mem nb buff (k_mem s)).
  - split_and!; [done|done|]. unfold readable, reg, apart. lia.
  - intros x Hx. apply (kept_read m _ x Hk Hq). cbn [fst snd]. lia.
Qed.

(** ** The two calls *)

Context (dbg : bool) (call_ret : Z) (clobber : Z → Z * Z).
Let handler := kcall_handler K lit_null nb buff lit_fmt lit_file dbg.

(** The handler of the first call, on a memory in which only the stacks have
    changed *)
Lemma debug_handled k :
  k_con k = c_with_mem (λ _, k_mem k) (k_con s) → k_current k = td →
  (∀ x, ¬ within (esp r - 12) 12 x → ¬ within (T - 36) 36 x →
    load8 (k_mem k) x = load8 (k_mem s) x) →
  load32 (k_mem k) (T - 28) = 0 → load32 (k_mem k) (T - 24) = lit_test →
  ∃ sc' k', handler (T - 28) k = Ok (Z.of_nat (length (log_line file TEST)) - 2, k') ∧
    draws (color_attrib (k_con s)) (log_line file TEST) sc = Some sc' ∧ shows t (k_con k') sc' ∧
    k_kinfo k' = k_kinfo k ∧ k_current k' = k_current k ∧
    ∀ x, ¬ within t 4002 x → ¬ within buff KPRINT_BUFF_LEN x → ¬ within nb 50 x →
      load8 (k_mem k') x = load8 (k_mem k) x.
Proof using All.
  intros Hcon Hcur Hm H0 H1. destruct ready_bounds as (B1 & B2 & B3 & B4 & B5 & B6).
  destruct ready_apart as ((A1 & A2 & A3) & (A4 & A5) & A6).
  assert (Hk : kept' (k_mem k)).
  { intros x Hx Hw. unfold kernel_writes in Hw. rewrite !Forall_cons in Hw. apply Hm; tauto. }
  assert (Hcol : color_attrib (k_con s) = color_attrib (k_con k)) by by rewrite Hcon.
  rewrite Hcol. destruct (sr_text Hr) as (X1 & X2 & X3).
  destruct (sr_shows Hr) as [Hsh Hy].
  destruct (sr_file Hr) as [Hfile Hchars].
  unfold apart in X3, A3, A1, A2.
  apply (kcall_debug_prints K lit_null nb buff lit_fmt lit_file dbg t (T - 28) file TEST k sc);
    try (unfold reg, KPRINT_BUFF_LEN; lia); try done.
  - rewrite Hcon. apply shows_mem; [done|]. intros x Hx. apply Hm; rewrite within_linear; lia.
  - apply kept_cstr; [done|listed| |by repeat constructor].
    exact (sr_null Hr).
  - apply kept_cstr; [done|listed| |by repeat constructor].
    exact (sr_fmt Hr).
  - apply kept_cstr; [done|listed|done|done].
  - change (T - 28 + kcall_args) with (T - 28 + 4). replace (T - 28 + 4) with (T - 24) by lia.
    rewrite H1. apply (cstr_mem nb buff (k_mem s)).
    + split_and!; [exact (sr_test Hr)|by repeat constructor|].
      unfold readable, reg, apart, KPRINT_BUFF_LEN. cbn. lia.
    + intros x Hx. cbn in Hx. apply Hm; rewrite within_linear; lia.
  - change (T - 28 + kcall_args) with (T - 28 + 4). replace (T - 28 + 4) with (T - 24) by lia. lia.
  - unfold kcall_number. by rewrite Z.add_0_r.
  - rewrite Hcur. pose proof (sr_reads Hr) as Hrd. cbv zeta in Hrd.
    apply Forall_cons in Hrd as [[[HK _] _] _]. cbn in HK. unfold NULL, td. lia.
  - exact (sr_line Hr).
  - exact (sr_calm Hr).
Qed.

(** The first call, from the return address pushed by main to the return *)
Lemma debug_returns a b c d si di bp :
  ∃ sc' k1 v, call_c ret_debug (kcall_debug handler T call_ret clobber label lit_test)
      (Cpu (Regs a b c d si di bp (esp r)) s) =
      Ok (v, Cpu (Regs (u32 v) lit_test (esp r - 12) label si (u32 di) (u32 bp) (esp r)) k1) ∧
    draws (color_attrib (k_con s)) (log_line file TEST) sc = Some sc' ∧ shows t (k_con k1) sc' ∧
    k_kinfo k1 = k_kinfo s ∧ k_current k1 = td ∧ kept' (k_mem k1).
Proof using All.
  destruct ready_bounds as (B1 & B2 & B3 & B4 & B5 & B6).
  destruct ready_apart as ((A1 & A2 & A3) & (A4 & A5) & A6).
  destruct (sr_addrs Hr) as (L1 & L2 & _).
  pose proof (sr_line Hr) as Hline.
  pose proof (sr_top Hr) as Htop.
  set (m0 := store32 (k_mem s) (esp r - 4) ret_debug).
  set (r1 := Regs 0 lit_test c d si di bp (esp r - 4)).
  set (m8 := stub_mem m0 r1 T label call_ret). set (k0 := k_with_mem (λ _, m0) s).
  assert (Hm8 : ∀ x, ¬ within (esp r - 12) 12 x → ¬ within (T - 36) 36 x →
    load8 m8 x = load8 (k_mem s) x).
  { intros x Hx Hx'. subst m8. rewrite stub_mem_out; cbn [esp r1]; [|lia|lia|..|done].
    - apply store32_out. contradict Hx. unfold within in *. clear -Hx B2. wrap_lia.
    - contradict Hx. unfold within in *. clear -Hx B2. wrap_lia. }
  destruct (stub_mem_args T call_ret label ltac:(lia) m0 r1) as [E1 E2]. fold m8 in E1, E2.
  cbn [eax ebx r1] in E1, E2.
  destruct (sr_text Hr) as (X1 & X2 & _).
  rewrite u32_small in E1, E2 by lia.
  destruct (debug_handled (k_with_mem (λ _, m8) k0)) as (sc' & k1 & Hrun & Hdr & Hsh & Hki & Hcu & Hout);
    [done|done|exact Hm8|exact E1|exact E2|].
  change (k_mem (k_with_mem (λ _, m8) k0)) with m8 in Hout.
  set (v := Z.of_nat (length (log_line file TEST)) - 2) in *.
  assert (Hv : 0 ≤ v < 1024).
  { unfold KPRINT_BUFF_LEN in Hline. subst v. unfold log_line in *. rewrite !length_app in *. cbn in *. lia. }
  exists sc', k1, v. split_and!; [|done|done|done|done|].
  - apply call_c_ok; [lia| |cbn [eax]; rewrite u32_small by lia; apply s32_small; lia].
    change (k_with_mem (λ m, store32 m (esp r - 4) ret_debug) s) with k0.
    unfold kcall_debug. erewrite (user_kcall_ok handler T call_ret label clobber ltac:(lia) ltac:(lia) 0 lit_test _ k0 v k1);
      cbn [esp ebx esi edi ebp ecx edx]; [|lia|lia|exact Hrun|].
    + change (k_mem k0) with m0. subst m0. rewrite load32_store32_eq, u32_small by lia.
      by replace (esp r - 4 - 8) with (esp r - 12) by lia; replace (esp r - 4 + 4) with (esp r) by lia.
    + intros x Hx. change (stub_mem _ _ _ _ _) with m8. unfold apart in A3, A5, A6.
      unfold KPRINT_BUFF_LEN in *. apply Hout; rewrite within_linear; lia.
  - intros x Hx Hw. unfold kernel_writes in Hw. rewrite !Forall_cons in Hw. cbn [fst snd] in Hw.
    rewrite Hout by tauto. apply Hm8; tauto.
Qed.

(** The second call, after the first *)
Lemma meminfo_returns a b c d si di bp k1 :
  let n := no_mmaps (k_kinfo k1) in
  k_kinfo k1 = k_kinfo s → k_current k1 = td → kept' (k_mem k1) →
  ∃ k', call_c ret_meminfo (kcall_meminfo handler T call_ret clobber label meminfo)
      (Cpu (Regs a b c d si di bp (esp r)) k1) =
      Ok (0, Cpu (Regs 0 meminfo (esp r - 12) label si (u32 di) (u32 bp) (esp r)) k') ∧
    load32 (k_mem k') (meminfo + no_mem_regions) = n ∧
    regions_at (k_mem k') meminfo (memmaps (k_kinfo k1)) n ∧
    k_con k' = c_with_mem (λ _, k_mem k') (k_con k1) ∧
    ∀ x, ¬ within meminfo sizeof_sys_meminfo x → ¬ within (esp r - 12) 12 x →
      ¬ within (T - 36) 36 x → load8 (k_mem k') x = load8 (k_mem k1) x.
Proof using All.
  intros n Hki Hcu Hk1. destruct ready_bounds as (B1 & B2 & B3 & B4 & B5 & B6).
  destruct (sr_addrs Hr) as (L1 & _ & L2).
  pose proof (sr_top Hr) as Htop.
  pose proof (sr_apart Hr) as Hap.
  destruct (sr_meminfo Hr) as [P1 P2].
  pose proof (sr_reads Hr) as Hrd. cbv zeta in Hrd.
  destruct (sr_map Hr) as [M1 M2].
  apply Forall_cons in Hrd as [[[R1 R2] R3] Hrd]. apply Forall_cons in Hrd as [[[R4 R5] R6] _].
  unfold kernel_writes in R3, R6. rewrite !Forall_cons in R3, R6. unfold clear_of in R3, R6.
  cbn [fst snd] in *. fold td in R1, R2, R3, R4, R5, R6. fold proc in R4, R5, R6.
  set (m2 := store32 (k_mem k1) (esp r - 4) ret_meminfo). set (k2 := k_with_mem (λ _, m2) k1).
  assert (Hm2 : ∀ x, ¬ within (esp r - 12) 12 x → load8 m2 x = load8 (k_mem k1) x).
  { intros x Hx. apply store32_out. contradict Hx. unfold within in *. clear -Hx B2. wrap_lia. }
  assert (Hk2 : kept' m2) by (intros x Hx Hw; rewrite Hm2 by done; by apply Hk1).
  assert (Ep : load32 m2 (td + tcb_proc) = proc)
    by (apply (kept_word m2 (td, 8)); [done|listed|unfold tcb_proc; cbn; lia..]).
  assert (Ei : load32 m2 (proc + proc_id) = PROC_MMAN_PID).
  { rewrite (kept_word m2 (proc, 4)); [|done|listed|unfold proc_id; cbn; lia..].
    exact (sr_mman Hr). }
  destruct (user_kcall_meminfo K lit_null nb buff lit_fmt lit_file dbg T call_ret label meminfo clobber
    (Regs a b c d si di bp (esp r - 4)) k2) as (k' & Hrun & Hn & Hreg & Hom & Hout);
    change (k_mem k2) with m2 in *; change (k_current k2) with (k_current k1) in *;
    change (k_kinfo k2) with (k_kinfo k1) in *; cbn [esp ebx esi edi ebp ecx edx] in *;
    rewrite ?Hcu, ?Ep in *; try done; unfold apart, sizeof_sys_meminfo, NULL in *; try lia.
  { rewrite Hki. exact M1. }
  { by rewrite Hki. }
  exists k'. split_and!; [|done|done| |].
  - apply call_c_ok; [lia| |reflexivity].
    change (k_with_mem (λ m, store32 m (esp r - 4) ret_meminfo) k1) with k2.
    fold handler in Hrun. rewrite Hrun. subst m2. rewrite load32_store32_eq, u32_small by lia.
    by replace (esp r - 4 - 8) with (esp r - 12) by lia; replace (esp r - 4 + 4) with (esp r) by lia.
  - exact (f_equal k_con Hom).
  - intros x Hx1 Hx2 Hx3. rewrite Hout; [by apply Hm2|done| |done].
    contradict Hx2. unfold within in *. clear -Hx2 B2. wrap_lia.
Qed.
End run.
#[local] Arguments ready_bounds {_ _ _ _ _ _ _ _ _ _ _ _ _ _ _ _ _} _.
#[local] Arguments ready_apart {_ _ _ _ _ _ _ _ _ _ _ _ _ _ _ _ _} _.
#[local] Arguments debug_returns {_ _ _ _ _ _ _ _ _ _ _ _ _ _ _ _ _} _ _ _ _.
#[local] Arguments meminfo_returns {_ _ _ _ _ _ _ _ _ _ _ _ _ _ _ _ _} _ _ _ _.

(** ** Property *)

(** C12. The memory manager. On a machine that is ready, main of
    serv/mman/main.c prints "[DEBUG:kcall.c:43] TEST" on the console, gets
    result 0 and the whole memory map of the boot information from
    kcall_meminfo, with its stack and %esi, %edi and %ebp as they were,
    and then spins: no number of rounds ends its loop. Of the memory, only its
    structure, twelve bytes of its stack and what the kernel calls use change. *)
Theorem main_reports (K t lit_null nb buff lit_fmt lit_file T : Z) (dbg : bool) (file : list Z)
    (call_ret label lit_test meminfo ret_debug ret_meminfo : Z) (clobber : Z → Z * Z)
    (r : regs) (s : kst) (sc : screen) :
  let handler := kcall_handler K lit_null nb buff lit_fmt lit_file dbg in
  let n := no_mmaps (k_kinfo s) in
  server_ready K t lit_null nb buff lit_fmt lit_file T file label lit_test meminfo
    ret_debug ret_meminfo r s sc →
  ∃ sc' k', let c' := Cpu (Regs 0 meminfo (esp r - 12) label (esi r) (u32 (edi r)) (u32 (ebp r))
                        (esp r)) k' in
    main_calls handler T call_ret clobber label lit_test meminfo ret_debug ret_meminfo (Cpu r s) =
      Ok (0, c') ∧
    draws (color_attrib (k_con s)) (log_line file TEST) sc = Some sc' ∧ shows t (k_con k') sc' ∧
    load32 (k_mem k') (meminfo + no_mem_regions) = n ∧
    regions_at (k_mem k') meminfo (memmaps (k_kinfo s)) n ∧
    (∀ x, ¬ within meminfo sizeof_sys_meminfo x → ¬ within (esp r - 12) 12 x →
      Forall (λ w, ¬ within w.1 w.2 x) (kernel_writes t nb buff T) →
      load8 (k_mem k') x = load8 (k_mem s) x) ∧
    main handler T call_ret clobber label lit_test meminfo ret_debug ret_meminfo (Cpu r s) =
      spin c' ∧ ∀ fuel, run fuel (while_step (λ _, true) Ok) c' = Running c'.
Proof.
  intros handler n Hr. destruct r as [a b c d si di bp x].
  destruct (debug_returns Hr dbg call_ret clobber a b c d si di bp)
    as (sc' & k1 & v & H1 & Hdr & Hsh & Hki & Hcu & Hk1).
  destruct (meminfo_returns Hr dbg call_ret clobber (u32 v) lit_test
    (x - 12) label si (u32 di) (u32 bp) k1 Hki Hcu Hk1) as (k' & H2 & Hn & Hreg & Hcon & Hout).
  cbn [esp esi edi ebp] in *. rewrite !u32_idemp in H2.
  assert (Hrun : main_calls handler T call_ret clobber label lit_test meminfo ret_debug ret_meminfo
    (Cpu (Regs a b c d si di bp x) s) =
    Ok (0, Cpu (Regs 0 meminfo (x - 12) label si (u32 di) (u32 bp) x) k')).
  { unfold main_calls. rewrite (bind_Ok_M _ _ _ _ _ H1). exact H2. }
  exists sc', k'. cbv zeta. split_and!; [exact Hrun|exact Hdr| | | | | |].
  - rewrite Hcon. apply shows_mem; [done|]. intros y Hy.
    destruct (ready_bounds Hr) as (B1 & B2 & B3 & _ & _ & B6).
    destruct (ready_apart Hr) as ((_ & _ & A3) & _).
    destruct (sr_meminfo Hr) as [P1 P2].
    unfold apart, sizeof_sys_meminfo in *. cbn [esp] in *. apply Hout; rewrite within_linear; lia.
  - subst n. rewrite <-Hki. exact Hn.
  - subst n. rewrite <-Hki. exact Hreg.
  - intros y Hy1 Hy2 Hw. unfold kept in Hk1. rewrite Hout; [by apply Hk1|done|done|].
    unfold kernel_writes in Hw. rewrite !Forall_cons in Hw. tauto.
  - exact (bind_Ok_M _ _ _ _ _ Hrun).
  - intros fuel. apply spin_runs.
Qed.

(** The kernel at 0xFE800000 with its console behind it, the server at
    0x400000 *)
Definition server_mem : mem :=
  let m := write_bytes ∅ 0xFE901000 (null_chars ++ [0]) in
  let m := write_bytes m 0xFE901100 (format log_pieces ++ [0]) in
  let m := write_bytes m 0xFE901200 (demo_file ++ [0]) in
  let m := write_bytes m 0x400200 (TEST ++ [0]) in
  store32 (store32 m 0xFE900004 0xFE900100) 0xFE900100 1.
Definition server_kst : kst :=
  Kst (Console server_mem 0xFEB00000 0 0 0 0 0 15) demo_kinfo 0xFE900000.

Lemma server_shows : shows 0xFEB00000 (k_con server_kst) demo_screen.
Proof.
  pose proof (zero_above server_mem 0xFEB00000 ltac:(vm_compute; reflexivity) ltac:(lia)) as Hm.
  split_and!; cbn [server_kst k_con demo_screen term_buff cells c_mem c_x c_y s_x s_y];
    [done|by rewrite length_replicate| |done|done|lia..].
  intros i v [-> Hi]%lookup_replicate. unfold load16, cell_addr. rewrite !Hm by lia. done.
Qed.

Lemma server_demo_ready :
  server_ready 0xFE800000 0xFEB00000 0xFE901000 0xFE902000 0xFE903000 0xFE901100 0xFE901200
    0xFEA00000 demo_file 0x400100 0x400200 0x400300 0x400010 0x400020 demo_regs server_kst demo_screen.
Proof.
  assert (Ep : load32 (k_mem server_kst) (0xFE900000 + tcb_proc) = 0xFE900100)
    by (vm_compute; reflexivity).
  constructor; cbn [k_current server_kst]; cbv zeta; rewrite ?Ep.
  - lia.
  - lia.
  - cbn. lia.
  - unfold sizeof_sys_meminfo. lia.
  - right. unfold sizeof_sys_meminfo. cbn. lia.
  - split_and!; [lia|lia|]. right. cbn. lia.
  - lia.
  - unfold kernel_writes. rewrite !Forall_cons. unfold in_kernel, KPRINT_BUFF_LEN. cbn [fst snd].
    split_and!; (apply Forall_nil_2 || lia).
  - unfold kernel_writes. rewrite !ForallOrdPairs_cons, !Forall_cons.
    unfold clear_of, apart, KPRINT_BUFF_LEN. cbn [fst snd].
    split_and!; (apply Forall_nil_2 || apply FOP_nil || lia).
  - unfold kernel_writes, kernel_reads. rewrite !Forall_cons.
    assert (Z.of_nat (length (format log_pieces)) = 17) as -> by reflexivity.
    unfold in_kernel, clear_of, apart, KPRINT_BUFF_LEN. cbn [fst snd length null_chars demo_file].
    split_and!; (apply Forall_nil_2 || lia).
  - vm_compute. reflexivity.
  - vm_compute. intuition congruence.
  - split; [exact server_shows|cbn; lia].
  - apply holds_check. vm_compute. reflexivity.
  - apply holds_check. vm_compute. reflexivity.
  - split; [apply holds_check; vm_compute; reflexivity|].
    apply (forall_check _ (λ x, (0 <? x) && (x <? 256))); [cbn; lia|reflexivity].
  - apply holds_check. vm_compute. reflexivity.
  - vm_compute. reflexivity.
  - vm_compute. reflexivity.
Qed.

Lemma main_reports_witness :
  let handler := kcall_handler 0xFE800000 0xFE901000 0xFE902000 0xFE903000 0xFE901100 0xFE901200 true in
  ∃ sc' k', main_calls handler 0xFEA00000 0xFE812345 (λ _, (0, 0)) 0x400100 0x400200 0x400300
      0x400010 0x400020 (Cpu demo_regs server_kst) =
      Ok (0, Cpu (Regs 0 0x400300 0x7FFFFEF4 0x400100 5 6 7 0x7FFFFF00) k') ∧
    draws 15 (log_line demo_file TEST) demo_screen = Some sc' ∧
    shows 0xFEB00000 (k_con k') sc' ∧ load32 (k_mem k') 0x4003A0 = 2.
Proof.
  cbv zeta.
  destruct (main_reports _ _ _ _ _ _ _ _ true _ 0xFE812345 _ _ _ _ _ (λ _, (0, 0)) _ _ _
    server_demo_ready) as (sc' & k' & H1 & H2 & H3 & H4 & _).
  exists sc', k'. split_and!; [exact H1|exact H2|exact H3|exact H4].
Defined.
