(* ===== verification/Early.v ===== *)
(** * Early: the boot code that runs before paging

    arch/i686/early.c: the console of the boot code, the first page tables, and
    the walk over the tags of the Multiboot information, which fills the boot
    information structure and copies the modules behind the kernel. The code
    runs on physical addresses; [kinfo] and the two cursor variables are its
    static variables. *)

From S2P Require Import Prelude Machine ArchPaging KInfo Paging.

(** ** multiboot.h *)

Definition MULTIBOOT2_BOOTLOADER_MAGIC : Z := 0x36d76289.
Definition MULTIBOOT_TAG_TYPE_END : Z := 0.
Definition MULTIBOOT_TAG_TYPE_MODULE : Z := 3.
Definition MULTIBOOT_TAG_TYPE_BASIC_MEMINFO : Z := 4.
Definition MULTIBOOT_TAG_TYPE_MMAP : Z := 6.

(** struct multiboot_tag and what follows it in the other tags *)
Definition tag_type : Z := 0.
Definition tag_size : Z := 4.
Definition tag_mmap_entry_size : Z := 8.
Definition tag_mmap_entries : Z := 16.
Definition tag_meminfo_mem_upper : Z := 12.
Definition tag_module_mod_start : Z := 8.
Definition tag_module_mod_end : Z := 12.
Definition tag_module_cmdline : Z := 16.

(** struct multiboot_mmap_entry at an address *)
Definition read_mmap_entry (m : mem) (a : Z) : mmap_entry :=
  MmapEntry (load64 m a) (load64 m (a + 8)) (load32 m (a + 16)) (load32 m (a + 20)).

(** ** State *)

Record early_st := EarlySt {
  e_mem : mem;
  e_kinfo : kernel_info_t;
  e_x : Z;
  e_y : Z;
}.
Definition e_with_mem (f : mem → mem) (s : early_st) : early_st :=
  EarlySt (f (e_mem s)) (e_kinfo s) (e_x s) (e_y s).
Definition e_with_kinfo (f : kernel_info_t → kernel_info_t) (s : early_st) : early_st :=
  EarlySt (e_mem s) (f (e_kinfo s)) (e_x s) (e_y s).

Definition with_no_mmaps (n : Z) (k : kernel_info_t) :=
  KernelInfo (memmaps k) n (mem_upper k) (modules k) (no_modules k)
    (kernel_phys_range k) (boot_module_phys_range k) (kheap_phys_range k)
    (bootstrap_memory_phys_range k) (kheap_range k) (kernel_high_vma k)
    (kernel_size_bytes k) (kernel_allocated_bytes_dynamic k).
Definition with_mem_upper (n : Z) (k : kernel_info_t) :=
  KernelInfo (memmaps k) (no_mmaps k) n (modules k) (no_modules k)
    (kernel_phys_range k) (boot_module_phys_range k) (kheap_phys_range k)
    (bootstrap_memory_phys_range k) (kheap_range k) (kernel_high_vma k)
    (kernel_size_bytes k) (kernel_allocated_bytes_dynamic k).
Definition with_modules (f : list boot_module → list boot_module) (n : Z) (k : kernel_info_t) :=
  KernelInfo (memmaps k) (no_mmaps k) (mem_upper k) (f (modules k)) n
    (kernel_phys_range k) (boot_module_phys_range k) (kheap_phys_range k)
    (bootstrap_memory_phys_range k) (kheap_range k) (kernel_high_vma k)
    (kernel_size_bytes k) (kernel_allocated_bytes_dynamic k).
Definition with_module_range (r : mem_range) (k : kernel_info_t) :=
  KernelInfo (memmaps k) (no_mmaps k) (mem_upper k) (modules k) (no_modules k)
    (kernel_phys_range k) r (kheap_phys_range k)
    (bootstrap_memory_phys_range k) (kheap_range k) (kernel_high_vma k)
    (kernel_size_bytes k) (kernel_allocated_bytes_dynamic k).
(** early.c:143-149 *)
Definition with_kernel_range (r : mem_range) (vma size : Z) (k : kernel_info_t) :=
  KernelInfo (memmaps k) (no_mmaps k) (mem_upper k) (modules k) (no_modules k)
    r (boot_module_phys_range k) (kheap_phys_range k)
    (MemRange (range_end r) (range_end r)) (kheap_range k) vma
    size (kernel_allocated_bytes_dynamic k).

Abbreviation E := (M early_st).

(** ** The console of the boot code *)

(** The value a [char] has as an integer *)
Definition s8 (z : Z) : Z := if z <? 128 then z else z - 256.

(** early.c:16; the cursor is kept between calls *)
Definition early_put (ch : Z) (s : early_st) : early_st :=
  if ch =? 10 then EarlySt (e_mem s) (e_kinfo s) 0 (u16 (e_y s + 1))
  else if ch =? 13 then EarlySt (e_mem s) (e_kinfo s) 0 (e_y s)
  else
    let '(x, y) := if e_x s >=? 80 then (0, u16 (e_y s + 1)) else (e_x s, e_y s) in
    let x := u16 (x + 1) in
    let chr := u16 (Z.lor (Z.shiftl (s8 ch) 4) (Z.lor (Z.shiftl 0 4) 0xF)) in
    EarlySt (store16 (e_mem s) (0xB8000 + 2 * (y * 80 + x)) chr) (e_kinfo s) x y.
Definition early_console_write_string (str : Z) (s : early_st) : outcome early_st :=
  '(s, _) ← while_loop
    (λ '(s, p), negb (load8 (e_mem s) p =? 0))
    (λ '(s, p), Ok (early_put (load8 (e_mem s) p) s, p ⊞ 1))
    (s, str);
  Ok s.

(** early.c:50: the message, then hlt *)
Definition early_panic (str : Z) (s : early_st) : outcome early_st :=
  _ ← early_console_write_string str s; Halt.

(** ** Parsing the Multiboot information *)

(** The local variables of early_main that the loop over the tags changes *)
Record parse_st := ParseSt {
  saved_mmap_index : Z;
  module_index : Z;
  last_module_end_addr : Z;
  total_module_size : Z;
}.

(** early.c:185: keep the entry? *)
Definition keep_entry (e : mmap_entry) : bool :=
  negb (negb (mm_type e =? MULTIBOOT_MEMORY_AVAILABLE) || (mm_addr e <? 0x100000)).

(** early.c:174: the entries of one memory map tag; the index of [memmaps] stays
    below its length *)
Definition parse_mmap (tag idx : Z) (s : early_st) : outcome (Z * early_st) :=
  let mmap_end_addr := tag ⊞ load32 (e_mem s) (tag + tag_size) in
  let entry_size := load32 (e_mem s) (tag + tag_mmap_entry_size) in
  '(_, idx, s) ← while_loop
    (λ '(curr, idx, s), (curr <? mmap_end_addr) && (idx + 1 <? NO_MEMMAPS))
    (λ '(curr, idx, s),
       let e := read_mmap_entry (e_mem s) curr in
       if negb (keep_entry e) then Ok (curr ⊞ entry_size, idx, s)
       else
         let s := e_with_kinfo (λ k, with_no_mmaps (no_mmaps k ⊞ 1)
                    (with_memmaps (λ l, <[Z.to_nat idx := e]> l) k)) s in
         Ok (curr ⊞ entry_size, idx + 1, s))
    (u32 (tag + tag_mmap_entries), idx, s);
  Ok (idx, s).

(** early.c:224: the bytes of a module *)
Definition copy_module (src end_ dst : Z) (m : mem) : outcome mem :=
  '(_, _, m) ← while_loop
    (λ '(src, dst, m), src <? end_)
    (λ '(src, dst, m), Ok (src ⊞ 1, dst ⊞ 1, store8 m dst (load8 m src)))
    (src, dst, m);
  Ok m.

(** early.c:230: the name; afterwards the byte of the command line the loop
    stopped at is cleared *)
Definition copy_name (cmdline : Z) (name : list Z) (m : mem) : outcome (list Z * mem) :=
  '(p, i, name) ← while_loop
    (λ '(p, i, name), negb (load8 m p =? 0) && (i <? MAX_MODULE_NAME_LEN - 1))
    (λ '(p, i, name), Ok (p ⊞ 1, i + 1, <[Z.to_nat i := load8 m p]> name))
    (cmdline, 0, name);
  Ok (name, store8 m p 0).

(** early.c:214: the end of a module, rounded up to a page *)
Definition module_end (start size : Z) : Z :=
  let e := start ⊞ size in
  if negb (Z.land e (u32 (Z.lnot ARCH_PAGE_MASK)) =? 0)
  then Z.land e ARCH_PAGE_MASK ⊞ ARCH_PAGE_SIZE else e.

(** early.c:204 *)
Definition parse_module (tag : Z) (l : parse_st) (s : early_st) : outcome (parse_st * early_st) :=
  if module_index l + 1 >? NO_MODULES then Ok (l, s) else
  let mod_start := load32 (e_mem s) (tag + tag_module_mod_start) in
  let mod_end := load32 (e_mem s) (tag + tag_module_mod_end) in
  let start := last_module_end_addr l in
  let end_paddr := module_end start (mod_end ⊟ mod_start) in
  match modules (e_kinfo s) !! Z.to_nat (module_index l) with
  | None => UB "modules index out of range"
  | Some md =>
      m ← copy_module mod_start mod_end start (e_mem s);
      '(name, m) ← copy_name (u32 (tag + tag_module_cmdline)) (mod_name md) m;
      Ok (ParseSt (saved_mmap_index l) (module_index l + 1) end_paddr
            (total_module_size l ⊞ (end_paddr ⊟ start)),
          EarlySt m (with_modules (λ ml,
              <[Z.to_nat (module_index l) := BootModule start end_paddr (start_vaddr md) name]> ml)
            (no_modules (e_kinfo s) ⊞ 1) (e_kinfo s)) (e_x s) (e_y s))
  end.

(** The body of the loop of early.c:168 *)
Definition parse_tag (tag : Z) (l : parse_st) (s : early_st) : outcome (parse_st * early_st) :=
  let type := load32 (e_mem s) (tag + tag_type) in
  if type =? MULTIBOOT_TAG_TYPE_MMAP then
    '(idx, s) ← parse_mmap tag (saved_mmap_index l) s;
    Ok (ParseSt idx (module_index l) (last_module_end_addr l) (total_module_size l), s)
  else if type =? MULTIBOOT_TAG_TYPE_BASIC_MEMINFO then
    Ok (l, e_with_kinfo (with_mem_upper (load32 (e_mem s) (tag + tag_meminfo_mem_upper))) s)
  else if type =? MULTIBOOT_TAG_TYPE_MODULE then parse_module tag l s
  else Ok (l, s).

(** The next tag, aligned to eight bytes *)
Definition next_tag (m : mem) (tag : Z) : Z :=
  tag ⊞ Z.land (load32 m (tag + tag_size) ⊞ 7) (u32 (Z.lnot 7)).

Definition parse_tags (tag : Z) (l : parse_st) (s : early_st) : outcome (parse_st * early_st) :=
  '(_, l, s) ← while_loop
    (λ '(tag, l, s), negb (load32 (e_mem s) (tag + tag_type) =? MULTIBOOT_TAG_TYPE_END))
    (λ '(tag, l, s),
       '(l, s) ← parse_tag tag l s;
       Ok (next_tag (e_mem s) tag, l, s))
    (tag, l, s);
  Ok (l, s).

(** ** The first page tables *)

Section early.
(** Symbols of the linker script and of boot.asm; the literals of the messages *)
Context (K_HIGH_VMA kernel_start ktable_start ktable_end kernel_end early_start early_end
  console_debug : Z).
Context (boot_page_directory boot_kernel_pt boot_pt kinfo_addr : Z).
Context (msg_boot msg_mmap msg_mem msg_modules : Z).

Definition rw_entry (phys_addr : Z) : Z :=
  Z.lor (Z.land phys_addr ARCH_PAGE_MASK) (Z.lor ARCH_PAGE_PRESENT ARCH_PAGE_RW).

(** The mapping loops of early.c:84, 92 and 102: from entry [off] on, pages for
    the offsets [i] from 0 below [len], to [base + i]. Those of early.c:112 and
    120, whose counter is the physical address, have the form of
    [identity_map]. *)
Definition map_loop (m : mem) (table base len off : Z) : outcome mem :=
  '(m, _, _) ← while_loop
    (λ '(m, i, off), i <? len)
    (λ '(m, i, off),
       if off <? 1024 then
         Ok (store32 m (entry table off) (rw_entry (base ⊞ i)), i ⊞ PAGE_SIZE, off ⊞ 1)
       else UB "page table index out of range")
    (m, 0, off);
  Ok m.
Definition pt_offset (a : Z) : Z := Z.shiftr (Z.land a ARCH_VADDR_PT_OFFSET_MASK) 12.

(** early.c:57 *)
Definition early_page_map (info : kernel_info_t) (m : mem) : outcome mem :=
  let kernel_pt_phys := boot_kernel_pt ⊟ K_HIGH_VMA in
  let page_directory_phys := boot_page_directory ⊟ K_HIGH_VMA in
  let k_phys_start := ktable_start ⊟ K_HIGH_VMA in
  let k_phys_end := kernel_end ⊟ K_HIGH_VMA in
  let ktable_start_phys := ktable_start ⊟ K_HIGH_VMA in
  let ktable_end_phys := ktable_end ⊟ K_HIGH_VMA in
  '(m, _) ← while_loop
    (λ '(m, i), i <? PAGE_SIZE / 4)
    (λ '(m, i), Ok (store32 m (boot_pt + i) 0, i ⊞ 1))
    (m, 0);
  m ← map_loop m boot_pt 0 0x100000 0;
  m ← map_loop m boot_pt early_start ((early_end ⊟ early_start) ⊞ PAGE_SIZE) (pt_offset early_start);
  m ← map_loop m kernel_pt_phys k_phys_start (k_phys_end ⊟ k_phys_start) (pt_offset ktable_start);
  let phys_addr := range_end (boot_module_phys_range info) in
  let paging_structs_mapping_end :=
    phys_addr ⊞ (CONF_KHEAP_SIZE / ARCH_PT_ADDRESSABLE_BYTES + 2) * PAGE_SIZE in
  m ← identity_map m boot_pt phys_addr paging_structs_mapping_end (pt_offset phys_addr);
  m ← identity_map m boot_pt ktable_start_phys ktable_end_phys (pt_offset ktable_start_phys);
  let m := store32 m (entry kernel_pt_phys (pt_offset console_debug)) (rw_entry 0xB8000) in
  let m := store32 m (entry page_directory_phys 0)
             (Z.lor (Z.land boot_pt ARCH_PAGE_MASK) (Z.lor ARCH_PD_ENTRY_PRESENT ARCH_PD_ENTRY_RW)) in
  Ok (store32 m (entry page_directory_phys
                   (Z.shiftr (Z.land ktable_start ARCH_VADDR_PD_OFFSET_MASK) 22))
        (Z.lor (Z.land kernel_pt_phys ARCH_PAGE_MASK)
           (Z.lor ARCH_PD_ENTRY_PRESENT ARCH_PD_ENTRY_RW))).

(** ** early_main *)

Definition kernel_range : mem_range :=
  MemRange (kernel_start ⊟ K_HIGH_VMA) (kernel_end ⊟ K_HIGH_VMA).
Definition kernel_bytes : Z := range_end kernel_range ⊟ range_start kernel_range.

(** [f] on the first memory map *)
Definition on_first (f : mmap_entry → mmap_entry) (l : list mmap_entry) : list mmap_entry :=
  match l with
  | [] => []
  | e :: l' => f e :: l'
  end.

(** early.c:152-154 *)
Definition adjust_first (e : mmap_entry) : mmap_entry :=
  MmapEntry (range_end kernel_range) (u64 (mm_len e - kernel_bytes)) (mm_type e) (mm_zero e).
(** early.c:268-270: the difference is computed in 64 bits and cut to 32 *)
Definition claim_first (total last : Z) (e : mmap_entry) : mmap_entry :=
  let len := u64 (mm_len e - u32 (range_end kernel_range - mm_addr e)) in
  MmapEntry last (u64 (len - total)) (mm_type e) (mm_zero e).

(** early.c:134 *)
Definition early_main (multiboot_magic multiboot_img_ptr : Z) (s : early_st)
    : outcome (Z * early_st) :=
  s ← (if negb (multiboot_magic =? MULTIBOOT2_BOOTLOADER_MAGIC) then early_panic msg_boot s
       else Ok s);
  let s := e_with_kinfo (λ k, with_mem_upper 0 (with_no_mmaps 0
             (with_memmaps (on_first adjust_first)
                (with_kernel_range kernel_range K_HIGH_VMA kernel_bytes k)))) s in
  '(l, s) ← parse_tags (u32 (multiboot_img_ptr + 8))
              (ParseSt 0 0 (range_end kernel_range) 0) s;
  s ← (if no_mmaps (e_kinfo s) =? 0 then early_panic msg_mmap s else Ok s);
  s ← (if mem_upper (e_kinfo s) =? 0 then early_panic msg_mem s else Ok s);
  s ← (if no_modules (e_kinfo s) =? 0 then early_panic msg_modules s else Ok s);
  let s := e_with_kinfo (with_module_range
             (MemRange (range_end kernel_range) (last_module_end_addr l))) s in
  m ← early_page_map (e_kinfo s) (e_mem s);
  let s := EarlySt m (with_memmaps
             (on_first (claim_first (total_module_size l) (last_module_end_addr l))) (e_kinfo s))
             (e_x s) (e_y s) in
  Ok (kinfo_addr, s).
End early.
