(* ===== verification/EarlyProps.v ===== *)
(** * EarlyProps: what the boot code makes of the Multiboot information

    The walk over the tags refines a fold over a list of abstract tags: the
    memory map, the memory size and the modules, which are placed one after the
    other behind the kernel. The first page tables translate the kernel, the
    first megabyte and the screen. *)

From S2P Require Import Prelude Machine ArchPaging KInfo Paging Early.

(** ** Abstract tags *)

Inductive mb_tag :=
| TMmap (entries : list mmap_entry)
| TMeminfo (upper : Z)
| TModule (mod_start mod_end : Z) (cmdline : list Z)
| TOther (type : Z).

Definition type_of (t : mb_tag) : Z :=
  match t with
  | TMmap _ => MULTIBOOT_TAG_TYPE_MMAP
  | TMeminfo _ => MULTIBOOT_TAG_TYPE_BASIC_MEMINFO
  | TModule _ _ _ => MULTIBOOT_TAG_TYPE_MODULE
  | TOther type => type
  end.

Definition string_at (m : mem) (a : Z) (l : list Z) : Prop :=
  (∀ (i : nat) c, l !! i = Some c → load8 m (a + Z.of_nat i) = c ∧ c ≠ 0) ∧
  load8 m (a + Z.of_nat (length l)) = 0.

(** The [size] bytes at [p] are the tag [t]. *)
Definition tag_at (m : mem) (p size : Z) (t : mb_tag) : Prop :=
  match t with
  | TMmap entries =>
      load32 m (p + 8) = 24 ∧ size = 16 + 24 * Z.of_nat (length entries) ∧
      ∀ (i : nat) e, entries !! i = Some e → read_mmap_entry m (p + 16 + 24 * Z.of_nat i) = e
  | TMeminfo upper => size = 16 ∧ load32 m (p + 12) = upper
  | TModule mod_start mod_end cmdline =>
      load32 m (p + 8) = mod_start ∧ load32 m (p + 12) = mod_end ∧
      size = 17 + Z.of_nat (length cmdline) ∧ string_at m (p + 16) cmdline
  | TOther type =>
      type ≠ MULTIBOOT_TAG_TYPE_END ∧ type ≠ MULTIBOOT_TAG_TYPE_MMAP ∧
      type ≠ MULTIBOOT_TAG_TYPE_BASIC_MEMINFO ∧ type ≠ MULTIBOOT_TAG_TYPE_MODULE
  end.

Definition align8 (n : Z) : Z := (n + 7) / 8 * 8.

(** The tags, each with its size, from [p] on up to the end tag before [lim] *)
Fixpoint tags_at (m : mem) (p lim : Z) (tags : list (Z * mb_tag)) : Prop :=
  match tags with
  | [] => p + 8 ≤ lim ∧ load32 m p = MULTIBOOT_TAG_TYPE_END
  | (size, t) :: tags' =>
      load32 m p = type_of t ∧ load32 m (p + 4) = size ∧ 8 ≤ size ∧ p + align8 size ≤ lim ∧
      tag_at m p size t ∧ tags_at m (p + align8 size) lim tags'
  end.

(** ** The reference *)

Record boot_spec := BootSpec {
  bs_maps : list mmap_entry;
  bs_upper : Z;
  bs_mods : list (Z * Z * list Z);
}.
Definition spec_step (b : boot_spec) (t : mb_tag) : boot_spec :=
  match t with
  | TMmap entries =>
      BootSpec (take 19 (bs_maps b ++ filter (λ e, keep_entry e = true) entries))
        (bs_upper b) (bs_mods b)
  | TMeminfo upper => BootSpec (bs_maps b) upper (bs_mods b)
  | TModule mod_start mod_end cmdline =>
      if decide (length (bs_mods b) < 5)%nat then
        BootSpec (bs_maps b) (bs_upper b) (bs_mods b ++ [(mod_start, mod_end, cmdline)])
      else b
  | TOther _ => b
  end.

(** A page-aligned size *)
Definition pages (n : Z) : Z := (n + 4095) / 4096 * 4096.
Fixpoint mods_size (mods : list (Z * Z * list Z)) : Z :=
  match mods with
  | [] => 0
  | (a, b, _) :: mods' => pages (b - a) + mods_size mods'
  end.
(** The modules placed from [at_] on *)
Fixpoint place (at_ : Z) (mods : list (Z * Z * list Z)) : list boot_module :=
  match mods with
  | [] => []
  | (a, b, name) :: mods' =>
      BootModule at_ (at_ + pages (b - a)) 0 (name ++ replicate (32 - length name) 0)
        :: place (at_ + pages (b - a)) mods'
  end.
(** Their bytes are those of the sources. *)
Fixpoint placed_bytes (m0 m : mem) (at_ : Z) (mods : list (Z * Z * list Z)) : Prop :=
  match mods with
  | [] => True
  | (a, b, _) :: mods' =>
      (∀ i, 0 ≤ i < b - a → load8 m (at_ + i) = load8 m0 (a + i)) ∧
      placed_bytes m0 m (at_ + pages (b - a)) mods'
  end.

Lemma mods_size_app l1 l2 : mods_size (l1 ++ l2) = mods_size l1 + mods_size l2.
Proof. induction l1 as [|[[a b] n] l IH]; simpl; [lia|]. rewrite IH. lia. Qed.
Lemma place_app at_ l1 l2 : place at_ (l1 ++ l2) = place at_ l1 ++ place (at_ + mods_size l1) l2.
Proof.
  revert at_. induction l1 as [|[[a b] n] l IH]; intros at_; simpl; [by rewrite Z.add_0_r|].
  rewrite IH. by rewrite Z.add_assoc.
Qed.
Lemma length_place at_ l : length (place at_ l) = length l.
Proof. revert at_. induction l as [|[[a b] n] l IH]; intros at_; simpl; [done|]. by rewrite IH. Qed.
Lemma placed_bytes_app m0 m at_ l1 l2 :
  placed_bytes m0 m at_ (l1 ++ l2) ↔
  placed_bytes m0 m at_ l1 ∧ placed_bytes m0 m (at_ + mods_size l1) l2.
Proof.
  revert at_. induction l1 as [|[[a b] n] l IH]; intros at_; simpl.
  - rewrite Z.add_0_r. tauto.
  - rewrite IH, Z.add_assoc. tauto.
Qed.
Lemma pages_bounds n : 0 ≤ n → n ≤ pages n < n + 4096 ∧ pages n mod 4096 = 0.
Proof. intros H. unfold pages. Z.to_euclidean_division_equations. lia. Qed.
Lemma mods_size_aligned l :
  Forall (λ md, md.1.1 ≤ md.1.2) l → 0 ≤ mods_size l ∧ mods_size l mod 4096 = 0.
Proof.
  induction 1 as [|[[a b] n] l Hab _ IH]; simpl; [done|]. simpl in Hab.
  destruct (pages_bounds (b - a)) as [? Hm]; [lia|]. split; [lia|].
  clear -IH Hm. Z.to_euclidean_division_equations. lia.
Qed.
Lemma placed_bytes_frame m0 m m' at_ l :
  Forall (λ md, md.1.1 ≤ md.1.2) l →
  (∀ x, at_ ≤ x < at_ + mods_size l → load8 m' x = load8 m x) →
  placed_bytes m0 m at_ l → placed_bytes m0 m' at_ l.
Proof.
  intros Hl. revert at_. induction Hl as [|[[a b] n] l Hab Hl IH]; intros at_; simpl; [done|].
  simpl in Hab. intros Hx [H1 H2]. destruct (pages_bounds (b - a)) as [? _]; [lia|].
  destruct (mods_size_aligned l Hl). split.
  - intros i Hi. rewrite Hx by lia. by apply H1.
  - apply IH; [|done]. intros x Hxx. apply Hx. lia.
Qed.

(** ** Arithmetic of the code *)

Lemma module_end_eq start size :
  0 ≤ start → start mod 4096 = 0 → 0 ≤ size → start + pages size < 4294967296 →
  module_end start size = start + pages size.
Proof.
  intros H0 Hm Hs He. destruct (pages_bounds size Hs) as [Hb Hp]. unfold module_end.
  rewrite (u32_small (start + size)) by lia. rewrite land_page_mask, (u32_small (start + size)) by lia.
  change (u32 (Z.lnot ARCH_PAGE_MASK)) with (Z.ones 12). rewrite Z.land_ones by lia.
  change (2 ^ 12) with 4096. unfold ARCH_PAGE_SIZE, pages in *.
  destruct (Z.eqb_spec ((start + size) mod 4096) 0) as [E|E]; cbn [negb].
  - clear -E Hm. Z.to_euclidean_division_equations. lia.
  - rewrite u32_small; clear -E Hm H0 Hs He; Z.to_euclidean_division_equations; lia.
Qed.

Lemma next_tag_eq m p size :
  load32 m (p + 4) = size → 8 ≤ size → 0 ≤ p → p + align8 size < 4294967296 →
  next_tag m p = p + align8 size.
Proof.
  intros E Hs Hp He. unfold next_tag, tag_size. rewrite E. unfold align8 in *.
  assert (Hsz : size + 7 - 7 ≤ (size + 7) / 8 * 8) by (Z.to_euclidean_division_equations; lia).
  rewrite (u32_small (size + 7)) by (Z.to_euclidean_division_equations; lia).
  change (u32 (Z.lnot 7)) with (2 ^ 32 - 2 ^ 3). rewrite land_mask by lia.
  change (2 ^ 32) with 4294967296. change (2 ^ 3) with 8.
  rewrite (Z.mod_small (size + 7)) by (Z.to_euclidean_division_equations; lia).
  apply u32_small. lia.
Qed.

(** ** The memory map *)

(** The first entries of [memmaps] are [maps]. *)
Definition set_maps (maps : list mmap_entry) (k : kernel_info_t) : kernel_info_t :=
  with_no_mmaps (Z.of_nat (length maps))
    (with_memmaps (λ l, maps ++ drop (length maps) l) k).

Lemma set_maps_snoc maps e k :
  (length maps < length (memmaps k))%nat → Z.of_nat (length maps) < 4294967295 →
  with_no_mmaps (no_mmaps (set_maps maps k) ⊞ 1)
    (with_memmaps (λ l, <[Z.to_nat (Z.of_nat (length maps)) := e]> l) (set_maps maps k)) =
  set_maps (maps ++ [e]) k.
Proof.
  intros Hl Hb. unfold set_maps, with_no_mmaps, with_memmaps. cbn. f_equal.
  - destruct (lookup_lt_is_Some_2 _ _ Hl) as [x Hx].
    rewrite Nat2Z.id, insert_app_r_alt, Nat.sub_diag, (drop_S _ x) by (done || lia).
    rewrite length_app, <-app_assoc, Nat.add_1_r. done.
  - rewrite u32_small by lia. rewrite length_app. simpl. lia.
Qed.

Lemma take_app_full {A} (n : nat) (a b : list A) :
  (n ≤ length (take n a))%nat → take n (a ++ b) = take n a.
Proof. rewrite length_take. intros H. apply take_app_le. lia. Qed.

Lemma parse_mmap_ok p size es maps s :
  tag_at (e_mem s) p size (TMmap es) → load32 (e_mem s) (p + 4) = size →
  0 ≤ p → p + size + 24 < 4294967296 →
  (length maps ≤ 19)%nat → length (memmaps (e_kinfo s)) = 20%nat →
  let maps' := take 19 (maps ++ filter (λ e, keep_entry e = true) es) in
  parse_mmap p (Z.of_nat (length maps)) (e_with_kinfo (set_maps maps) s) =
    Ok (Z.of_nat (length maps'), e_with_kinfo (set_maps maps') s).
Proof.
  intros (Hes & Hsz & Hent) Hp4 Hp He Hm Hlen maps'. unfold parse_mmap.
  cbn [e_mem e_with_kinfo]. unfold tag_size, tag_mmap_entry_size, tag_mmap_entries, NO_MEMMAPS.
  rewrite Hes, Hp4. rewrite (u32_small (p + size)), (u32_small (p + 16)) by lia.
  set (cur k := take 19 (maps ++ filter (λ e, keep_entry e = true) (take k es))).
  set (I := λ '(curr, idx, s'), ∃ k, (k ≤ length es)%nat ∧ curr = p + 16 + 24 * Z.of_nat k ∧
       idx = Z.of_nat (length (cur k)) ∧ s' = e_with_kinfo (set_maps (cur k)) s).
  loop_rule I (λ st : Z * Z * early_st, Z.to_nat (p + size - st.1.1))
    as [[c i] s'] (k & Hk & -> & -> & ->) Hend.
  - cbn [fst]. unfold FUEL. lia.
  - exists 0%nat. unfold cur. rewrite take_0, filter_nil, app_nil_r, take_ge by lia.
    split_and!; [lia|lia|done|done].
  - intros [[c i] s'] (k & Hk & -> & -> & ->) [H1 H2]%andb_true_iff.
    apply Z.ltb_lt in H1, H2.
    destruct (lookup_lt_is_Some_2 es k ltac:(lia)) as [e He'].
    cbn [e_mem e_with_kinfo]. rewrite (Hent k e He'). rewrite (u32_small (_ + 24)) by lia.
    assert (Hnext : cur (S k) = if keep_entry e then cur k ++ [e] else cur k).
    { unfold cur. rewrite (take_S_r _ _ _ He'), filter_app.
      unfold cur in H2. rewrite length_take in H2.
      destruct (keep_entry e) eqn:Ek.
      - rewrite filter_cons_True, filter_nil by done.
        rewrite app_assoc, (take_ge ((maps ++ _) ++ _)), (take_ge (maps ++ _)); [done|lia|].
        rewrite (length_app (maps ++ _)). cbn [length]. lia.
      - rewrite filter_cons_False, filter_nil by congruence. by rewrite app_nil_r. }
    destruct (keep_entry e) eqn:Ek; cbn [negb].
    + eexists. split; [reflexivity|]. split; [|cbn [fst]; lia]. exists (S k). rewrite Hnext.
      split_and!; [lia|lia|rewrite length_app; cbn [length]; lia|].
      unfold e_with_kinfo. cbn [e_mem e_kinfo e_x e_y]. f_equal.
      apply set_maps_snoc; lia.
    + eexists. split; [reflexivity|]. split; [|cbn [fst]; lia]. exists (S k). rewrite Hnext.
      split_and!; [lia|lia|done|done].
  - rewrite bind_Ok. cbv beta iota. assert (cur k = maps') as ->; [|done]. unfold cur, maps'.
    cbn beta iota in Hend. apply andb_false_iff in Hend as [Hend|Hend]; apply Z.ltb_ge in Hend.
    + rewrite (take_ge es) by lia. done.
    + rewrite <-(take_drop k es) at 2. rewrite filter_app, (app_assoc maps).
      rewrite (take_app_full 19 (maps ++ _)); [done|].
      unfold cur in Hend. lia.
Qed.

(** ** Modules *)

Lemma copy_module_ok m src n dst :
  0 ≤ n → 0 ≤ src → src + n < 4294967296 → 0 ≤ dst → dst + n < 4294967296 →
  src + n ≤ dst ∨ dst + n ≤ src →
  ∃ m', copy_module src (src + n) dst m = Ok m' ∧ changes_only dst n m m' ∧
    ∀ i, 0 ≤ i < n → load8 m' (dst + i) = load8 m (src + i).
Proof.
  intros Hn Hs Hse Hd Hde Hdj. unfold copy_module.
  set (I := λ '(a, b, m1), ∃ j, 0 ≤ j ≤ n ∧ a = src + j ∧ b = dst + j ∧
    changes_only dst n m m1 ∧ ∀ i, 0 ≤ i < j → load8 m1 (dst + i) = load8 m (src + i)).
  loop_rule I (λ st : Z * Z * mem, Z.to_nat (src + n - st.1.1))
    as [[a b] m1] (j & Hj & -> & -> & Hc & Hi) Hend.
  - cbn [fst]. unfold FUEL. lia.
  - exists 0. split_and!; [lia..|lia|lia|done|lia].
  - intros [[a b] m1] (j & Hj & -> & -> & Hc & Hi) Hlt%Z.ltb_lt.
    eexists. split; [reflexivity|]. rewrite !(u32_small (_ + 1)) by lia.
    split; [|cbn [fst]; lia]. exists (j + 1). split_and!; [lia..|lia|lia| |].
    + apply changes_only_store8; [done|lia..].
    + intros i Hi'. destruct (decide (i = j)) as [->|Hne].
      * rewrite load8_store8_eq, Hc; [apply u8_small, load8_range|]. unfold within. wrap_lia.
      * rewrite store8_out; [apply Hi; lia|]. unfold within. wrap_lia.
  - cbn beta iota in Hend. apply Z.ltb_ge in Hend. exists m1. split_and!; [done|done|].
    intros i Hi'. apply Hi. lia.
Qed.

Lemma copy_name_ok m a name :
  string_at m a name → (length name ≤ 31)%nat → 0 ≤ a → a + 32 < 4294967296 →
  ∃ m', copy_name a (replicate 32 0) m = Ok (name ++ replicate (32 - length name) 0, m') ∧ m' ≐ m.
Proof.
  intros [Hs Hz] Hl Ha Hae. unfold copy_name, MAX_MODULE_NAME_LEN.
  set (I := λ '(q, i, nm), ∃ k, (k ≤ length name)%nat ∧ q = a + Z.of_nat k ∧ i = Z.of_nat k ∧
    nm = take k name ++ replicate (32 - k) 0).
  loop_rule I (λ st : Z * Z * list Z, Z.to_nat (31 - st.1.2))
    as [[q i] nm] (k & Hk & -> & -> & ->) Hend.
  - cbn [fst snd]. unfold FUEL. lia.
  - exists 0%nat. rewrite take_0. split_and!; [lia|lia|done|done].
  - intros [[q i] nm] (k & Hk & -> & -> & ->) [H1 H2]%andb_true_iff.
    apply negb_true_iff, Z.eqb_neq in H1. apply Z.ltb_lt in H2.
    assert (Hlt : (k < length name)%nat).
    { destruct (decide (k = length name)) as [->|]; [done|lia]. }
    destruct (lookup_lt_is_Some_2 name k Hlt) as [c Hc]. destruct (Hs k c Hc) as [Hload _].
    eexists. split; [reflexivity|]. rewrite (u32_small (_ + 1)) by lia.
    split; [|cbn [fst snd]; lia]. exists (S k). split_and!; [lia|lia|lia|].
    rewrite Hload, Nat2Z.id, (take_S_r _ _ _ Hc). replace (32 - k)%nat with (S (31 - k)) by lia.
    rewrite insert_app_r_alt by (rewrite length_take; lia). rewrite length_take, Nat.min_l by lia.
    rewrite Nat.sub_diag, <-app_assoc. done.
  - cbn beta iota in Hend. assert (k = length name) as ->.
    { apply andb_false_iff in Hend as [Hend|Hend].
      - apply negb_false_iff, Z.eqb_eq in Hend. destruct (decide (k = length name)) as [|Hne]; [done|].
        destruct (lookup_lt_is_Some_2 name k ltac:(lia)) as [c Hc]. destruct (Hs k c Hc). congruence.
      - apply Z.ltb_ge in Hend. lia. }
    rewrite bind_Ok. cbv beta iota. eexists. split; [by rewrite take_ge|].
    intros x. rewrite load8_store8. case_decide as E; [|done].
    rewrite (load8_addr m x _ E), Hz. done.
Qed.

(** ** Tags in memories that agree on them *)

Lemma load64_ext m m' a :
  (∀ i, 0 ≤ i < 8 → load8 m (a + i) = load8 m' (a + i)) → load64 m a = load64 m' a.
Proof.
  intros H. unfold load64. rewrite (load32_ext m m' a), (load32_ext m m' (a + 4)); [done|..].
  - intros i Hi. rewrite <-Z.add_assoc. apply H. lia.
  - intros i Hi. apply H. lia.
Qed.

Section same.
Context (m m' : mem) (p n : Z) (Hsame : ∀ x, p ≤ x < p + n → load8 m' x = load8 m x).

Lemma same32 a : p ≤ a → a + 4 ≤ p + n → load32 m' a = load32 m a.
Proof using Hsame. intros. apply load32_ext. intros. apply Hsame. lia. Qed.
Lemma same64 a : p ≤ a → a + 8 ≤ p + n → load64 m' a = load64 m a.
Proof using Hsame. intros. apply load64_ext. intros. apply Hsame. lia. Qed.

Lemma tag_at_same size t : 8 ≤ size → size ≤ n → tag_at m p size t → tag_at m' p size t.
Proof using Hsame.
  intros H8 Hn. destruct t as [es|u|a b nm|ty]; cbn [tag_at].
  - intros (H1 & H2 & H3). rewrite same32 by lia. split_and!; [done|done|].
    intros i e He. rewrite <-(H3 i e He). pose proof (lookup_lt_Some _ _ _ He).
    unfold read_mmap_entry. by rewrite !same64, !same32 by lia.
  - intros (H1 & H2). rewrite same32 by lia. done.
  - intros (H1 & H2 & H3 & [H4 H5]). rewrite !same32 by lia. split_and!; try done.
    split.
    + intros i c Hc. pose proof (lookup_lt_Some _ _ _ Hc). rewrite Hsame by lia. by apply H4.
    + rewrite Hsame by lia. done.
  - done.
Qed.
End same.

(** ** The walk over the tags *)

Definition mods_of (tags : list (Z * mb_tag)) : list (Z * Z * list Z) :=
  omap (λ st, match st.2 with TModule a b nm => Some (a, b, nm) | _ => None end) tags.

(** The modules can be copied to [kend, dend). *)
Definition mods_ok (kend dend : Z) (mods : list (Z * Z * list Z)) : Prop :=
  Forall (λ '(a, b, name), 0 ≤ a ≤ b ∧ b < 4294967296 ∧ (b ≤ kend ∨ dend ≤ a) ∧
            (length name ≤ 31)%nat) mods.

Definition empty_module : boot_module := BootModule 0 0 0 (replicate 32 0).

(** The boot information and the local variables for what was parsed *)
Definition spec_info (kend : Z) (b : boot_spec) (k0 : kernel_info_t) : kernel_info_t :=
  with_modules (λ l, place kend (bs_mods b) ++ drop (length (bs_mods b)) l)
    (Z.of_nat (length (bs_mods b))) (with_mem_upper (bs_upper b) (set_maps (bs_maps b) k0)).
Definition spec_locals (kend : Z) (b : boot_spec) : parse_st :=
  ParseSt (Z.of_nat (length (bs_maps b))) (Z.of_nat (length (bs_mods b)))
    (kend + mods_size (bs_mods b)) (mods_size (bs_mods b)).

Section walk.
Context (m0 : mem) (k0 : kernel_info_t) (x y kend dend : Z).
Context (Hmaps0 : length (memmaps k0) = 20%nat) (Hmods0 : modules k0 = replicate 5 empty_module).
Context (Hk : 0 ≤ kend ≤ dend) (Hkm : kend mod 4096 = 0) (Hdend : dend < 4294967296).

Record parsed (b : boot_spec) (m : mem) : Prop := {
  pa_maps : (length (bs_maps b) ≤ 19)%nat;
  pa_count : (length (bs_mods b) ≤ 5)%nat;
  pa_mods : mods_ok kend dend (bs_mods b);
  pa_fit : kend + mods_size (bs_mods b) ≤ dend;
  pa_mem : changes_only kend (dend - kend) m0 m;
  pa_bytes : placed_bytes m0 m kend (bs_mods b);
}.

Abbreviation st b m := (EarlySt m (spec_info kend b k0) x y).

Lemma mods_ok_le mods : mods_ok kend dend mods → Forall (λ md, md.1.1 ≤ md.1.2) mods.
Proof using. intros H. eapply Forall_impl; [exact H|]. intros [[a b] nm] [[_ H'] _]. exact H'. Qed.

Lemma outside m a : changes_only kend (dend - kend) m0 m → 0 ≤ a < 4294967296 →
  a < kend ∨ dend ≤ a → load8 m a = load8 m0 a.
Proof using Hk Hdend.
  intros H Ha Hd. apply H. clear -Hk Hdend Ha Hd. unfold within. wrap_lia.
Qed.

(** Entering one more module *)
Lemma spec_info_snoc b a e nm :
  let n := length (bs_mods b) in
  let start := kend + mods_size (bs_mods b) in
  (n < 5)%nat →
  with_modules (λ ml, <[Z.to_nat (Z.of_nat n) := BootModule start (start + pages (e - a))
      (start_vaddr empty_module) (nm ++ replicate (32 - length nm) 0)]> ml)
    (no_modules (spec_info kend b k0) ⊞ 1) (spec_info kend b k0) =
  spec_info kend (BootSpec (bs_maps b) (bs_upper b) (bs_mods b ++ [(a, e, nm)])) k0.
Proof using Hmaps0 Hmods0.
  intros n start Hn. unfold spec_info. cbn [bs_maps bs_mods bs_upper].
  unfold with_modules, with_mem_upper, set_maps, with_no_mmaps, with_memmaps.
  cbn [memmaps no_mmaps mem_upper modules no_modules kernel_phys_range boot_module_phys_range
    kheap_phys_range bootstrap_memory_phys_range kheap_range kernel_high_vma kernel_size_bytes
    kernel_allocated_bytes_dynamic start_vaddr empty_module]. f_equal.
  - rewrite Nat2Z.id, insert_app_r_alt by (rewrite length_place; fold n; lia).
    rewrite length_place, length_app. fold n. rewrite Nat.sub_diag, Hmods0, !drop_replicate.
    replace (5 - n)%nat with (S (4 - n)) by lia. cbn [length].
    replace (5 - (n + 1))%nat with (4 - n)%nat by lia.
    rewrite place_app. cbn [place]. rewrite <-app_assoc. reflexivity.
  - rewrite length_app. cbn [length]. fold n. rewrite u32_small by lia. lia.
Qed.

Lemma parse_module_step b m p size a e nm :
  parsed b m → tag_at m p size (TModule a e nm) → 0 ≤ p → p + size < 4294967200 →
  p + size ≤ kend ∨ dend ≤ p → mods_ok kend dend [(a, e, nm)] → kend + mods_size (bs_mods b) + pages (e - a) ≤ dend →
  ∃ m', parse_module p (spec_locals kend b) (st b m) =
      Ok (spec_locals kend (spec_step b (TModule a e nm)), st (spec_step b (TModule a e nm)) m') ∧
    parsed (spec_step b (TModule a e nm)) m'.
Proof using Hmaps0 Hmods0 Hk Hkm Hdend.
  intros Hpa (H8 & H12 & Hsz & Hstr) Hp Hpe Hpd Hok Hfit.
  pose proof Hpa as [P1 P2 P3 P4 P5 P6]. set (n := length (bs_mods b)) in *.
  pose proof Hok as [(Ha & He & Hdj & Hnm) _]%Forall_cons.
  unfold parse_module, NO_MODULES. cbn [module_index spec_locals]. fold n.
  cbn [spec_step]. fold n. destruct (decide (n < 5)%nat) as [Hn|Hn].
  2: { exists m. destruct (Z.gtb_spec (Z.of_nat n + 1) 5); [|lia]. done. }
  destruct (Z.gtb_spec (Z.of_nat n + 1) 5); [lia|].
  cbn [e_mem e_kinfo]. unfold tag_module_mod_start, tag_module_mod_end, tag_module_cmdline.
  rewrite H8, H12. destruct (mods_size_aligned _ (mods_ok_le _ P3)) as [Hs0 Hsm].
  destruct (pages_bounds (e - a) ltac:(lia)) as [Hpb Hpm].
  set (start := kend + mods_size (bs_mods b)) in *. rewrite (u32_small (e - a)) by lia.
  cbn [last_module_end_addr spec_locals]. fold start.
  rewrite (module_end_eq start (e - a)); [|lia| |lia|lia].
  2: { subst start. clear -Hkm Hsm. Z.to_euclidean_division_equations. lia. }
  assert (Hlk : modules (spec_info kend b k0) !! Z.to_nat (Z.of_nat n) = Some empty_module).
  { unfold spec_info. cbn [modules with_modules]. rewrite Nat2Z.id, lookup_app_r by (rewrite length_place; lia).
    rewrite length_place. fold n. rewrite Nat.sub_diag. change (modules (with_mem_upper _ _)) with (modules k0).
    rewrite lookup_drop, Nat.add_0_r, Hmods0. by apply lookup_replicate_2. }
  rewrite Hlk.
  destruct (copy_module_ok m a (e - a) start) as (m1 & E1 & C1 & B1); [lia..|].
  replace (a + (e - a)) with e in E1 by lia. rewrite E1, bind_Ok.
  assert (Hstr1 : string_at m1 (p + 16) nm).
  { assert (Hp1 : ∀ z, p ≤ z < p + size → load8 m1 z = load8 m z).
    { intros z Hz. apply C1. unfold within. wrap_lia. }
    destruct Hstr as [Hc Hz]. split.
    - intros i c Hi. pose proof (lookup_lt_Some _ _ _ Hi). rewrite Hp1 by lia. by apply Hc.
    - rewrite Hp1 by lia. done. }
  rewrite (u32_small (p + 16)) by lia.
  destruct (copy_name_ok m1 (p + 16) nm Hstr1 Hnm) as (m2 & E2 & Hm2); [lia|lia|].
  change (mod_name empty_module) with (replicate 32 0). rewrite E2, bind_Ok. cbv beta iota.
  exists m2. split.
  - rewrite (u32_small (start + pages (e - a) - start)) by lia.
    replace (start + pages (e - a) - start) with (pages (e - a)) by lia.
    cbn [saved_mmap_index total_module_size spec_locals]. unfold spec_locals. cbn [bs_maps bs_mods].
    rewrite (u32_small (mods_size (bs_mods b) + pages (e - a))) by lia.
    rewrite mods_size_app, length_app. cbn [mods_size length]. rewrite Z.add_0_r. fold n.
    pose proof (spec_info_snoc b a e nm Hn) as Hinfo. cbv zeta in Hinfo.
    f_equal. f_equal; [f_equal; lia|]. f_equal. exact Hinfo.
  - assert (Hpre : ∀ z, 0 ≤ z < 4294967296 → z < start ∨ start + (e - a) ≤ z → load8 m2 z = load8 m z).
    { intros z Hz Hz'. rewrite Hm2. apply C1. unfold within. wrap_lia. }
    constructor; cbn [bs_maps bs_mods].
    + done.
    + rewrite length_app. cbn [length]. fold n. lia.
    + apply Forall_app. split; [done|exact Hok].
    + rewrite mods_size_app. cbn [mods_size]. lia.
    + intros z Hz. destruct (decide (within start (e - a) z)) as [Hw|Hw].
      * contradict Hz. unfold within in *. wrap_lia.
      * rewrite Hm2, (C1 z Hw). by apply P5.
    + apply placed_bytes_app. split.
      * eapply placed_bytes_frame; [by apply mods_ok_le| |exact P6].
        intros z Hz. apply Hpre; lia.
      * fold start. cbn [placed_bytes]. split; [|done]. intros i Hi.
        rewrite Hm2, B1 by lia. apply (outside m (a + i) P5); lia.
Qed.

Lemma type_of_neq m p size t : tag_at m p size t → type_of t ≠ MULTIBOOT_TAG_TYPE_END.
Proof using. destruct t; cbn; [done..|]. by intros [? _]. Qed.

Lemma parse_tag_step b m p size t :
  parsed b m → tag_at m p size t → load32 m p = type_of t → load32 m (p + 4) = size →
  0 ≤ p → p + size < 4294967200 → p + size ≤ kend ∨ dend ≤ p →
  mods_ok kend dend (mods_of [(size, t)]) →
  kend + mods_size (bs_mods b) + mods_size (mods_of [(size, t)]) ≤ dend →
  ∃ m', parse_tag p (spec_locals kend b) (st b m) =
      Ok (spec_locals kend (spec_step b t), st (spec_step b t) m') ∧ parsed (spec_step b t) m'.
Proof using Hmaps0 Hmods0 Hk Hkm Hdend.
  intros Hpa Hat Hty Hsz Hp Hpe Hpd Hmo Hfit. unfold parse_tag. cbn [e_mem].
  unfold tag_type. rewrite Z.add_0_r, Hty. destruct t as [es|u|a e nm|ty]; cbn [type_of].
  - change (MULTIBOOT_TAG_TYPE_MMAP =? MULTIBOOT_TAG_TYPE_MMAP) with true. cbv iota.
    exists m. split.
    + pose proof (parse_mmap_ok p size es (bs_maps b)
        (EarlySt m (with_modules (λ l, place kend (bs_mods b) ++ drop (length (bs_mods b)) l)
           (Z.of_nat (length (bs_mods b))) (with_mem_upper (bs_upper b) k0)) x y)
        Hat Hsz Hp ltac:(lia) (pa_maps _ _ Hpa) Hmaps0) as E. cbv zeta in E.
      change (e_with_kinfo (set_maps (bs_maps b)) _) with (st b m) in E.
      cbn [saved_mmap_index spec_locals]. rewrite E, bind_Ok. reflexivity.
    + destruct Hpa as [P1 P2 P3 P4 P5 P6]. split; try done.
      cbn [bs_maps spec_step]. rewrite length_take. lia.
  - exists m. destruct Hat as [_ Hu]. split; [|by destruct Hpa].
    change (MULTIBOOT_TAG_TYPE_BASIC_MEMINFO =? MULTIBOOT_TAG_TYPE_MMAP) with false.
    change (MULTIBOOT_TAG_TYPE_BASIC_MEMINFO =? MULTIBOOT_TAG_TYPE_BASIC_MEMINFO) with true.
    cbv iota. unfold tag_meminfo_mem_upper. rewrite Hu. reflexivity.
  - cbn in Hmo, Hfit.
    apply (parse_module_step b m p size a e nm Hpa Hat Hp Hpe Hpd Hmo). lia.
  - destruct Hat as (_ & H1 & H2 & H3). exists m. split; [|done].
    by rewrite (proj2 (Z.eqb_neq _ _) H1), (proj2 (Z.eqb_neq _ _) H2), (proj2 (Z.eqb_neq _ _) H3).
Qed.

Lemma mods_of_cons st tags : mods_of (st :: tags) = mods_of [st] ++ mods_of tags.
Proof using. unfold mods_of. by rewrite <-omap_app. Qed.

(** The tags lie between [p0] and [lim], outside of where the modules go. *)
Context (p0 lim : Z) (Hinfo : 0 ≤ p0) (Hlim : lim < 4294967200) (Hout : lim ≤ kend ∨ dend ≤ p0).

Lemma parse_tags_ok tags p b m :
  parsed b m → p0 ≤ p → tags_at m0 p lim tags → mods_ok kend dend (mods_of tags) →
  kend + mods_size (bs_mods b) + mods_size (mods_of tags) ≤ dend →
  let b' := foldl spec_step b (snd <$> tags) in
  ∃ m', parse_tags p (spec_locals kend b) (st b m) = Ok (spec_locals kend b', st b' m') ∧ parsed b' m'.
Proof using Hmaps0 Hmods0 Hk Hkm Hdend Hinfo Hlim Hout.
  intros Hpa Hp Htags Hmo Hfit b'. unfold parse_tags.
  set (I := λ '(tag, l, s), ∃ b m rest, parsed b m ∧ l = spec_locals kend b ∧ s = st b m ∧
    p0 ≤ tag ∧ tags_at m0 tag lim rest ∧ mods_ok kend dend (mods_of rest) ∧
    kend + mods_size (bs_mods b) + mods_size (mods_of rest) ≤ dend ∧
    foldl spec_step b (snd <$> rest) = b').
  assert (Hsame : ∀ m1 b1 z, parsed b1 m1 → p0 ≤ z < lim → load8 m1 z = load8 m0 z).
  { intros m1 b1 z H1 Hz. apply (outside m1 z (pa_mem _ _ H1)); lia. }
  loop_rule I (λ st : Z * parse_st * early_st, Z.to_nat (lim - st.1.1))
    as [[tag l] s'] (b1 & m1 & rest & H1 & -> & -> & Ht & Hta & Hm1 & Hf1 & Hfold) Hend.
  - cbn [fst]. unfold FUEL. lia.
  - exists b, m, tags. split_and!; done.
  - intros [[tag l] s'] (b1 & m1 & rest & H1 & -> & -> & Ht & Hta & Hm1 & Hf1 & Hfold) Hcond.
    destruct rest as [|[size t] rest].
    { exfalso. destruct Hta as [Hl0 Hty]. cbn beta iota in Hcond. cbn [e_mem] in Hcond.
      unfold tag_type in Hcond. rewrite Z.add_0_r in Hcond.
      rewrite (same32 m0 m1 tag 8) in Hcond; [|intros; apply (Hsame m1 b1); [done|lia]|lia|lia].
      by rewrite Hty in Hcond. }
    destruct Hta as (Hty & Hsz & H8 & Hlim' & Hat & Hrest).
    assert (Hal : size ≤ align8 size) by (unfold align8; Z.to_euclidean_division_equations; lia).
    assert (Hs1 : ∀ z, tag ≤ z < tag + size → load8 m1 z = load8 m0 z)
      by (intros z Hz; apply (Hsame m1 b1); [done|lia]).
    rewrite mods_of_cons in Hm1, Hf1. apply Forall_app in Hm1 as [Hma Hmb].
    rewrite mods_size_app in Hf1.
    assert (Hmr := mods_ok_le _ Hmb). apply mods_size_aligned in Hmr as [Hmr _].
    destruct (parse_tag_step b1 m1 tag size t H1) as (m2 & E & H2).
    + by apply (tag_at_same m0 m1 tag size Hs1).
    + rewrite <-Hty. apply (same32 m0 m1 tag size Hs1); lia.
    + rewrite <-Hsz. apply (same32 m0 m1 tag size Hs1); lia.
    + lia.
    + lia.
    + lia.
    + done.
    + lia.
    + assert (Hnx : next_tag m2 tag = tag + align8 size).
      { apply next_tag_eq; [|done|lia|lia]. rewrite <-Hsz.
        apply (same32 m0 m2 tag size); [|lia|lia]. intros z Hz. apply (Hsame m2 _ z H2). lia. }
      eexists. split; [rewrite E, bind_Ok; reflexivity|]. cbn [e_mem]. rewrite Hnx.
      split; [|cbn [fst]; lia].
      exists (spec_step b1 t), m2, rest. split_and!; try done; [lia|].
      assert (mods_size (bs_mods (spec_step b1 t)) ≤
              mods_size (bs_mods b1) + mods_size (mods_of [(size, t)])); [|lia].
      destruct t as [es|u|a e nm|ty]; cbn; [lia|lia| |lia].
      pose proof (mods_size_aligned _ (mods_ok_le _ Hma)) as [Hz _]. cbn in Hz.
      destruct (decide _); cbn [bs_mods]; [rewrite mods_size_app; cbn; lia|lia].
  - exists m1. rewrite bind_Ok. cbv beta iota. destruct rest as [|[size t] rest].
    + cbn in Hfold. subst b1. done.
    + exfalso. destruct Hta as (Hty & Hsz & H8 & Hlim' & Hat & _).
      assert (Hal : size ≤ align8 size) by (unfold align8; Z.to_euclidean_division_equations; lia).
      apply (type_of_neq m0 tag size t Hat). cbn beta iota in Hend. cbn [e_mem] in Hend.
      apply negb_false_iff, Z.eqb_eq in Hend. unfold tag_type in Hend. rewrite Z.add_0_r in Hend.
      rewrite <-Hty, <-Hend. symmetry.
      apply (same32 m0 m1 tag size); [|lia|lia]. intros z Hz. apply (Hsame m1 b1); [done|lia].
Qed.
End walk.
