(* ===== verification/EarlyMap.v ===== *)
(** * EarlyMap: the address space the boot code switches to

    What the memory management unit translates after early_page_map: the first
    megabyte, the boot code, the page tables and the frames behind the modules
    one to one, the kernel at its high addresses, the screen below it. *)

From S2P Require Import Prelude Machine CString ArchPaging KInfo Paging PagingInv PagingProps.
From S2P Require Import Early.

(** The loops over offsets do what [identity_map] does, from [base]. *)
Lemma map_loop_ok m table base len n i :
  0 ≤ table → table + 4096 ≤ 4294967296 → 0 ≤ base → base mod 4096 = 0 →
  base + 4096 * n < 4294967296 → 0 ≤ n → 0 ≤ i → i + n ≤ 1024 →
  len ≤ 4096 * n → n = 0 ∨ 4096 * (n - 1) < len →
  ∃ m', map_loop m table base len i = Ok m' ∧
    (∀ j, 0 ≤ j < n → load32 m' (entry table (i + j)) = base + 4096 * j + 3) ∧
    (∀ j, 0 ≤ j < 1024 → j < i ∨ i + n ≤ j → load32 m' (entry table j) = load32 m (entry table j)) ∧
    changes_only table 4096 m m'.
Proof.
  intros Ht Hte Ha Ham Hae Hn Hi Hin Hst1 Hst2. unfold map_loop.
  set (I := λ '(m1, a, q), ∃ d, 0 ≤ d ≤ n ∧ a = 4096 * d ∧ q = i + d ∧
       (∀ j, 0 ≤ j < d → load32 m1 (entry table (i + j)) = base + 4096 * j + 3) ∧
       (∀ j, 0 ≤ j < 1024 → j < i ∨ i + d ≤ j →
          load32 m1 (entry table j) = load32 m (entry table j)) ∧
       changes_only table 4096 m m1).
  loop_rule I (λ st : mem * Z * Z, Z.to_nat (i + n - st.2))
    as [[m' a] q] (d & Hd & -> & -> & H1 & H2 & H3) Hend.
  - cbn [snd]. unfold FUEL. lia.
  - exists 0. split_and!; try lia; done.
  - intros [[m1 a] q] (d & Hd & -> & -> & H1 & H2 & H3) Hlt%Z.ltb_lt.
    rewrite (proj2 (Z.ltb_lt _ _)) by lia. eexists; split; [done|]. split; [|cbn [snd]; wrap_lia].
    unfold PAGE_SIZE, ARCH_PAGE_SIZE. rewrite !u32_small by lia.
    assert (Hm4 : (base + 4096 * d) mod 4096 = 0) by (clear -Ham; Z.to_euclidean_division_equations; lia).
    assert (Ev : rw_entry (base + 4096 * d) = base + 4096 * d + 3).
    { unfold rw_entry. rewrite land_page_mask_aligned by (done || lia). apply lor_page_flags; lia. }
    rewrite Ev. exists (d + 1). split_and!; [lia..|lia|lia| | |].
    + intros j Hj. destruct (decide (j = d)) as [->|Hne].
      * rewrite load32_store32_eq. apply u32_small. lia.
      * rewrite load32_store32_disj by (apply disj_linear; unfold entry; lia). apply H1. lia.
    + intros j Hj Hout. rewrite load32_store32_disj by (apply disj_linear; unfold entry; lia).
      apply H2; lia.
    + apply changes_only_store32; unfold entry; [done|lia..].
  - cbn beta iota in Hend. apply Z.ltb_ge in Hend. assert (d = n) as -> by lia.
    exists m'. split_and!; done.
Qed.

(** The entries of the table at [t] for pages in [P] map each to itself. *)
Definition idents (t : Z) (m : mem) (P : Z → Prop) : Prop :=
  ∀ p, 0 ≤ p < 1024 → P p → ident t m p.

(** A mapping of pages to themselves adds its range and keeps the others. *)
Lemma idents_step t m m' i n P :
  (∀ j, 0 ≤ j < n → load32 m' (entry t (i + j)) = 4096 * i + 4096 * j + 3) →
  (∀ j, 0 ≤ j < 1024 → j < i ∨ i + n ≤ j → load32 m' (entry t j) = load32 m (entry t j)) →
  idents t m P → idents t m' (λ p, P p ∨ i ≤ p < i + n).
Proof.
  intros H1 H2 HP p Hp Hor. unfold ident. destruct (decide (i ≤ p < i + n)) as [Hi|Hi].
  - replace p with (i + (p - i)) at 1 by lia. rewrite H1; lia.
  - rewrite H2 by lia. apply HP; [done|]. tauto.
Qed.
Lemma idents_frame t m m' P a n :
  changes_only a n m m' → 0 ≤ t → t + 4096 ≤ 4294967296 → 0 ≤ a → a + n ≤ 4294967296 →
  a + n ≤ t ∨ t + 4096 ≤ a → idents t m P → idents t m' P.
Proof.
  intros Hc ????? HP p Hp Hin. unfold ident. rewrite <-(HP p Hp Hin).
  apply (changes_only_load32 a n); [done|]. apply disj_linear; unfold entry; lia.
Qed.
Lemma idents_weaken t m (P Q : Z → Prop) :
  idents t m P → (∀ p, Q p → P p) → idents t m Q.
Proof. intros H HQ p Hp Hq. apply H; auto. Qed.

(** Zeroing the start of the table stays inside it. *)
Lemma zero_words m t :
  0 ≤ t → t + 4096 ≤ 4294967296 →
  ∃ m', while_loop (λ '(m, i), i <? PAGE_SIZE / 4)
          (λ '(m, i), Ok (store32 m (t + i) 0, i ⊞ 1)) (m, 0) = Ok (m', 1024) ∧
    changes_only t 4096 m m'.
Proof.
  intros Ht Hte. change (PAGE_SIZE / 4) with 1024.
  set (I := λ '(m1, i), 0 ≤ i ≤ 1024 ∧ changes_only t 4096 m m1).
  loop_rule I (λ st : mem * Z, Z.to_nat (1024 - st.2)) as [m' i] [Hi Hc] Hend.
  - cbn [snd]. unfold FUEL. lia.
  - split; [lia|done].
  - intros [m1 i] [Hi Hc] Hlt%Z.ltb_lt. eexists. split; [reflexivity|].
    rewrite (u32_small (i + 1)) by lia. split; [|cbn [snd]; lia]. split; [lia|].
    apply changes_only_store32; [done|lia..].
  - cbn beta iota in Hend. apply Z.ltb_ge in Hend. assert (i = 1024) as -> by lia. by exists m'.
Qed.

(** ** The layout of the image *)

Section map.
Context (vma kts kte ke es ee cd bpd bkp bp E : Z).
Abbreviation pd := (bpd - vma).
Abbreviation kpt := (bkp - vma).
Abbreviation kp := (kts - vma).

(** The symbols as the linker script orders them: the kernel fits one page
    table, the boot code, the kernel and the modules lie in the first four
    megabytes, and the three tables are separate pages. *)
Record early_layout : Prop := {
  el_vma : 4194304 ≤ vma ∧ vma mod 4194304 = 0;
  el_kernel : vma ≤ kts ≤ kte ∧ kte ≤ ke ∧ ke ≤ vma + 4194304 ∧ ke < 4294967296;
  el_aligned : kts mod 4096 = 0 ∧ kte mod 4096 = 0 ∧ ke mod 4096 = 0;
  el_early : 0 ≤ es ≤ ee ∧ es mod 4096 = 0 ∧ ee + 8192 ≤ 4194304;
  el_modules : 0 ≤ E ∧ E mod 4096 = 0 ∧ E + 24576 ≤ 4194304;
  el_screen : kts ≤ cd < ke ∧ cd mod 4096 = 0;
  el_pd : 0 ≤ pd ∧ bpd < 4294967296 ∧ pd + 4096 ≤ 4294967296;
  el_kpt : 0 ≤ kpt ∧ bkp < 4294967296 ∧ kpt mod 4096 = 0 ∧ kpt + 4096 ≤ 4294967296;
  el_bp : 0 ≤ bp ∧ bp mod 4096 = 0 ∧ bp + 4096 ≤ 4294967296;
  el_apart : (pd + 4096 ≤ kpt ∨ kpt + 4096 ≤ pd) ∧ (pd + 4096 ≤ bp ∨ bp + 4096 ≤ pd) ∧
    (kpt + 4096 ≤ bp ∨ bp + 4096 ≤ kpt);
}.

(** The pages mapped to themselves *)
Definition self_mapped (p : Z) : Prop :=
  p < 256 ∨ (es ≤ 4096 * p < ee + 4096) ∨ (E ≤ 4096 * p < E + 24576) ∨
  (kts ≤ 4096 * p + vma < kte).

Hypothesis Hl : early_layout.

(** The five loops *)
Lemma early_loops m :
  ∃ m1 m2 m3 m4 m5 m6,
    while_loop (λ '(m, i), i <? PAGE_SIZE / 4)
      (λ '(m, i), Ok (store32 m (bp + i) 0, i ⊞ 1)) (m, 0) = Ok (m1, 1024) ∧
    map_loop m1 bp 0 0x100000 0 = Ok m2 ∧
    map_loop m2 bp es (ee - es + 4096) (es / 4096) = Ok m3 ∧
    map_loop m3 kpt kp (ke - kts) (kp / 4096) = Ok m4 ∧
    identity_map m4 bp E (E + 24576) (E / 4096) = Ok m5 ∧
    identity_map m5 bp kp (kte - vma) (kp / 4096) = Ok m6 ∧
    idents bp m6 self_mapped ∧
    (∀ p, kts ≤ vma + 4096 * p < ke → load32 m6 (entry kpt p) = 4096 * p + 3) ∧
    (∀ x, ¬ within bp 4096 x → ¬ within kpt 4096 x → load8 m6 x = load8 m x).
Proof using Hl.
  destruct Hl as [[Hv Hvm] Hk (Ha1 & Ha2 & Ha3) He Hm Hs Hpd (Hq0 & Hq1 & Hqm & Hq2) (Hb0 & Hbm & Hb1) Hap].
  destruct (zero_words m bp Hb0 Hb1) as (m1 & R1 & C1).
  destruct (map_loop_ok m1 bp 0 0x100000 256 0 Hb0 Hb1) as (m2 & R2 & V2 & O2 & C2); [lia|reflexivity|lia..|].
  set (ne := (ee - es + 8191) / 4096).
  assert (Hne : ee - es + 4096 ≤ 4096 * ne ∧ 4096 * (ne - 1) < ee - es + 4096 ∧ 0 ≤ es / 4096 ∧
    es = 4096 * (es / 4096) ∧ es / 4096 + ne ≤ 1024 ∧ 0 ≤ ne).
  { subst ne. clear -He. Z.to_euclidean_division_equations. lia. }
  destruct (map_loop_ok m2 bp es (ee - es + 4096) ne (es / 4096) Hb0 Hb1)
    as (m3 & R3 & V3 & O3 & C3); [lia|tauto|lia..|].
  assert (Hkpm : kp mod 4096 = 0).
  { clear -Hv Hvm Ha1. Z.to_euclidean_division_equations. lia. }
  set (nk := (ke - kts) / 4096).
  assert (Hnk : ke - kts = 4096 * nk ∧ 0 ≤ kp / 4096 ∧ kp = 4096 * (kp / 4096) ∧
    kp / 4096 + nk ≤ 1024 ∧ 0 ≤ nk ∧ vma = 4096 * (vma / 4096)).
  { subst nk. clear -Hv Hvm Hk Ha1 Ha3. Z.to_euclidean_division_equations. lia. }
  destruct (map_loop_ok m3 kpt kp (ke - kts) nk (kp / 4096) Hq0 Hq2)
    as (m4 & R4 & V4 & O4 & C4); [lia|done|lia..|].
  assert (HE : E = 4096 * (E / 4096) ∧ 0 ≤ E / 4096 ∧ E / 4096 + 6 ≤ 1024).
  { clear -Hm. Z.to_euclidean_division_equations. lia. }
  destruct (identity_map_ok m4 bp E (E + 24576) 6 (E / 4096) Hb0 Hb1)
    as (m5 & R5 & V5 & O5 & C5); [lia|tauto|lia..|].
  set (nt := (kte - kts) / 4096).
  assert (Hnt : kte - kts = 4096 * nt ∧ 0 ≤ nt ∧ kp / 4096 + nt ≤ 1024).
  { subst nt. clear -Hv Hvm Hk Ha1 Ha2 Ha3. Z.to_euclidean_division_equations. lia. }
  destruct (identity_map_ok m5 bp kp (kte - vma) nt (kp / 4096) Hb0 Hb1)
    as (m6 & R6 & V6 & O6 & C6); [lia|done|lia..|].
  exists m1, m2, m3, m4, m5, m6. do 6 (split; [assumption|]). split_and!.
  - assert (I2 : idents bp m2 (λ p, False ∨ 0 ≤ p < 0 + 256)).
    { apply (idents_step _ m1); [|exact O2|by intros p _ []]. intros j Hj. rewrite V2 by done. lia. }
    assert (I3 : idents bp m3 (λ p, (False ∨ 0 ≤ p < 0 + 256) ∨ es / 4096 ≤ p < es / 4096 + ne)).
    { apply (idents_step _ m2); [|exact O3|exact I2]. intros j Hj. rewrite V3 by done. lia. }
    apply (idents_frame _ _ m4 _ kpt 4096 C4 Hb0 Hb1 Hq0 Hq2) in I3; [|tauto].
    eapply (idents_step _ _ m5 (E / 4096) 6) in I3; [|intros j Hj; rewrite V5 by done; lia|exact O5].
    eapply (idents_step _ _ m6 (kp / 4096) nt) in I3; [|intros j Hj; rewrite V6 by done; lia|exact O6].
    intros p Hp Hor. apply I3; [done|]. unfold self_mapped in Hor. lia.
  - intros p Hp. rewrite (changes_only_load32 _ _ _ _ _ C6), (changes_only_load32 _ _ _ _ _ C5)
      by (apply disj_linear; unfold entry; lia).
    replace p with (kp / 4096 + (p - kp / 4096)) at 1 by lia. rewrite V4; lia.
  - intros x Hx1 Hx2. rewrite (C6 x Hx1), (C5 x Hx1), (C4 x Hx2), (C3 x Hx1), (C2 x Hx1). by apply C1.
Qed.

(** A walk through an entry of the directory and one of the table. *)
Lemma walk_two m pd_ t v f :
  0 ≤ t → t mod 4096 = 0 → t + 4096 ≤ 4294967296 → 0 ≤ f → f mod 4096 = 0 → f + 4096 ≤ 4294967296 →
  load32 m (entry pd_ (v / 1024)) = t + 3 → load32 m (entry t (v mod 1024)) = f + 3 →
  mmu_walk m pd_ v = Some (f, 3).
Proof using.
  intros Ht Htm Hte Hf Hfm Hfe E1 E2. unfold mmu_walk. rewrite E1.
  destruct (entry_parts t 3 ltac:(lia) Htm ltac:(lia)) as (_ & -> & _ & ->).
  change (Z.testbit 3 0) with true. cbv beta iota zeta. rewrite E2.
  destruct (entry_parts f 3 ltac:(lia) Hfm ltac:(lia)) as (_ & -> & -> & ->). done.
Qed.

(** The directory index of the kernel, the table index of the screen *)
Abbreviation ix := (vma / 4194304).
Abbreviation sc := ((cd - vma) / 4096).

(** Where the addresses lie in the tables *)
Lemma map_indices :
  (vma = 4194304 * ix ∧ 0 < ix < 1024) ∧ (cd = vma + 4096 * sc ∧ 0 ≤ sc < 1024) ∧
  (∀ x, vma ≤ x < vma + 4194304 → (x / 4096) mod 1024 = (x - vma) / 4096 ∧ x / 4194304 = ix) ∧
  (∀ x, 0 ≤ x < 4194304 → (x / 4096) mod 1024 = x / 4096).
Proof using Hl.
  destruct Hl as [[Hv Hvm] Hk _ _ _ Hs _ _ _ _].
  assert (Hix : vma = 4194304 * ix ∧ 0 < ix < 1024)
    by (clear -Hv Hvm Hk; Z.to_euclidean_division_equations; lia).
  split_and!; try (clear -Hix; lia).
  - clear -Hix Hs Hk. Z.to_euclidean_division_equations. lia.
  - clear -Hix Hs Hk. Z.to_euclidean_division_equations. lia.
  - clear -Hix Hs Hk. Z.to_euclidean_division_equations. lia.
  - intros x Hx. clear -Hix Hx. Z.to_euclidean_division_equations. lia.
  - intros x Hx. apply Z.mod_small. clear -Hx. Z.to_euclidean_division_equations. lia.
Qed.

(** The three entries written last: the screen and both tables *)
Definition last_entries (m : mem) : mem :=
  let m := store32 m (entry kpt sc) (0xB8000 + 3) in
  let m := store32 m (entry pd 0) (bp + 3) in
  store32 m (entry pd ix) (kpt + 3).

Lemma last_entries_loads m :
  let m' := last_entries m in
  load32 m' (entry pd 0) = bp + 3 ∧ load32 m' (entry pd ix) = kpt + 3 ∧
  (∀ a, 0 ≤ a < 1024 → a ≠ sc → load32 m' (entry kpt a) = load32 m (entry kpt a)) ∧
  load32 m' (entry kpt sc) = 0xB8000 + 3 ∧
  (∀ a, 0 ≤ a < 1024 → load32 m' (entry bp a) = load32 m (entry bp a)) ∧
  (∀ x, ¬ within kpt 4096 x → ¬ within pd 4096 x → load8 m' x = load8 m x).
Proof using Hl.
  destruct map_indices as ([_ Hix] & [_ Hc] & _).
  destruct Hl as [_ _ _ _ _ _ Hpd (Hq0 & Hq1 & Hqm & Hq2) (Hb0 & Hbm & Hb1) (Hap1 & Hap2 & Hap3)].
  cbv zeta. unfold last_entries.
  split_and!.
  - rewrite load32_store32_disj by (apply disj_linear; unfold entry; lia).
    rewrite load32_store32_eq. apply u32_small. lia.
  - rewrite load32_store32_eq. apply u32_small. lia.
  - intros a Ha Hne. by rewrite !load32_store32_disj by (apply disj_linear; unfold entry; lia).
  - rewrite !(load32_store32_disj _ (entry pd _)) by (apply disj_linear; unfold entry; lia).
    by rewrite load32_store32_eq.
  - intros a Ha. by rewrite !load32_store32_disj by (apply disj_linear; unfold entry; lia).
  - intros x X2 X3. rewrite !store32_out; [done|..].
    + contradict X2. clear -X2 Hc Hq0 Hq2. unfold within, entry in *. wrap_lia.
    + contradict X3. clear -X3 Hpd. unfold within, entry in *. wrap_lia.
    + contradict X3. clear -X3 Hpd Hix. unfold within, entry in *. wrap_lia.
Qed.

(** What is translated when they are written *)
Lemma last_entries_walks m :
  idents bp m self_mapped →
  (∀ p, kts ≤ vma + 4096 * p < ke → load32 m (entry kpt p) = 4096 * p + 3) →
  let m' := last_entries m in
  (∀ p, 0 ≤ p < 1024 → self_mapped p → mmu_walk m' pd p = Some (4096 * p, 3)) ∧
  (∀ a, kts ≤ 4096 * a < ke → 4096 * a ≠ cd → mmu_walk m' pd a = Some (4096 * a - vma, 3)) ∧
  mmu_walk m' pd (cd / 4096) = Some (0xB8000, 3).
Proof using Hl.
  intros Hid Hker m'. destruct map_indices as (Hix & Hc & _).
  destruct (last_entries_loads m) as (Hpd0 & Hpdi & Hq & Hscr & Hb & _). fold m' in Hpd0, Hpdi, Hq, Hscr, Hb.
  destruct Hl as [[Hv Hvm] Hk _ _ _ _ _ (Hq0 & _ & Hqm & Hq2) (Hb0 & Hbm & Hb1) _].
  split_and!.
  - intros p Hp Hsm. apply (walk_two _ _ bp); [done|done|done|lia| |lia| |].
    + clear. Z.to_euclidean_division_equations. lia.
    + rewrite Z.div_small by done. exact Hpd0.
    + rewrite Z.mod_small, Hb by done. by apply Hid.
  - intros a Ha Hne. assert (Hai : a / 1024 = ix ∧ a mod 1024 = a - 1024 * ix).
    { clear -Ha Hix Hk. Z.to_euclidean_division_equations. lia. }
    destruct Hai as [Hai1 Hai2]. apply (walk_two _ _ kpt); [done|done|done|lia| |lia| |].
    + clear -Hvm. Z.to_euclidean_division_equations. lia.
    + by rewrite Hai1.
    + rewrite Hai2, Hq by lia. rewrite Hker by lia. lia.
  - assert (Hai : cd / 4096 / 1024 = ix ∧ (cd / 4096) mod 1024 = sc).
    { clear -Hc Hix. Z.to_euclidean_division_equations. lia. }
    destruct Hai as [Hai1 Hai2]. apply (walk_two _ _ kpt); [done|done|done|lia|done|lia| |].
    + by rewrite Hai1.
    + by rewrite Hai2, Hscr.
Qed.

Lemma early_page_map_ok info m :
  range_end (boot_module_phys_range info) = E →
  ∃ m', early_page_map vma kts kte ke es ee cd bpd bkp bp info m = Ok m' ∧
    (∀ p, 0 ≤ p < 1024 → self_mapped p → mmu_walk m' pd p = Some (4096 * p, 3)) ∧
    (∀ a, kts ≤ 4096 * a < ke → 4096 * a ≠ cd → mmu_walk m' pd a = Some (4096 * a - vma, 3)) ∧
    mmu_walk m' pd (cd / 4096) = Some (0xB8000, 3) ∧
    (∀ x, ¬ within bp 4096 x → ¬ within kpt 4096 x → ¬ within pd 4096 x → load8 m' x = load8 m x).
Proof using Hl.
  intros HE. destruct (early_loops m) as (m1 & m2 & m3 & m4 & m5 & m6 & R1 & R2 & R3 & R4 & R5 & R6 & Hid & Hker & Hout).
  destruct (last_entries_walks m6 Hid Hker) as (W1 & W2 & W3).
  destruct (last_entries_loads m6) as (_ & _ & _ & _ & _ & Ho).
  exists (last_entries m6). split; [|split_and!; [exact W1|exact W2|exact W3|]].
  2: { intros x X1 X2 X3. rewrite Ho by done. by apply Hout. }
  destruct map_indices as (Hix & Hc & Hbi & Hlo).
  destruct Hl as [[Hv Hvm] Hk (Ha1 & Ha2 & Ha3) He Hm Hs Hpd (Hq0 & Hq1 & Hqm & Hq2) (Hb0 & Hbm & Hb1) _].
  unfold early_page_map. rewrite !(u32_small (bkp - vma)), !(u32_small (bpd - vma)),
    !(u32_small (kts - vma)), !(u32_small (ke - vma)), !(u32_small (kte - vma)) by lia.
  rewrite R1, bind_Ok. cbv beta iota zeta. rewrite R2, bind_Ok.
  unfold PAGE_SIZE, ARCH_PAGE_SIZE. rewrite (u32_small (ee - es)), (u32_small (ee - es + 4096)) by lia.
  unfold pt_offset. rewrite !pt_shift, HE.
  rewrite (Hlo es), (Hlo E), (Hlo kp), (proj1 (Hbi kts ltac:(lia))), (proj1 (Hbi cd ltac:(lia))) by lia.
  rewrite R3, bind_Ok. replace (ke - vma - (kts - vma)) with (ke - kts) by lia.
  rewrite (u32_small (ke - kts)) by lia. rewrite R4, bind_Ok.
  change ((CONF_KHEAP_SIZE / ARCH_PT_ADDRESSABLE_BYTES + 2) * 4096) with 24576.
  rewrite (u32_small (E + 24576)) by lia. rewrite R5, bind_Ok, R6, bind_Ok.
  assert (Hscr : rw_entry 0xB8000 = 0xB8000 + 3) by reflexivity. rewrite Hscr.
  rewrite !land_page_mask_aligned by (assumption || lia).
  change (Z.lor ARCH_PD_ENTRY_PRESENT ARCH_PD_ENTRY_RW) with 3.
  rewrite !lor_page_flags by (assumption || lia).
  change (Z.shiftr (Z.land kts ARCH_VADDR_PD_OFFSET_MASK) 22) with (arch_get_pt_offset kts ARCH_PD_1).
  rewrite pd_index, (proj2 (Hbi kts ltac:(lia))), (Z.mod_small ix) by lia. reflexivity.
Qed.
End map.
