(* ===== verification/EarlyMain.v ===== *)
(** * EarlyMain: early_main as a whole

    The boot information it returns, the modules it has copied and the address
    space it has prepared; and the information it never finishes reading. *)

From S2P Require Import Prelude Machine ArchPaging KInfo Paging PagingInv PagingProps.
From S2P Require Import Early EarlyProps EarlyMap.

Lemma length_nonzero {A} (l : list A) : l ≠ [] → Z.of_nat (length l) =? 0 = false.
Proof. intros Hne. destruct l; [done|]. apply Z.eqb_neq. cbn [length]. lia. Qed.

Section main.
Context (vma kts kte ke es ee cd bpd bkp bp ka l1 l2 l3 l4 : Z).
(** The kernel ends at [kend], the place for the modules at [dend]. *)
Abbreviation kend := (ke - vma).
Abbreviation kstart := (kts - vma).
Context (x y dend p0 lim : Z) (m0 : mem) (k0 : kernel_info_t) (tags : list (Z * mb_tag)).

(** What the tags say *)
Definition parsed_tags : boot_spec := foldl spec_step (BootSpec [] 0 []) (snd <$> tags).

(** The boot information starts out zero; the tags lie from [p0] up to [lim],
    away from where the modules go, and there is something of everything. *)
Record bootable : Prop := {
  bo_layout : early_layout vma kts kte ke es ee cd bpd bkp bp (kend + mods_size (bs_mods parsed_tags));
  bo_maps0 : length (memmaps k0) = 20%nat;
  bo_mods0 : modules k0 = replicate 5 empty_module ∧ no_modules k0 = 0;
  bo_dend : kend ≤ dend < 4294967296;
  bo_tags : tags_at m0 p0 lim tags;
  bo_range : 8 ≤ p0 ∧ p0 ≤ lim ∧ lim < 4294967200 ∧ (lim ≤ kend ∨ dend ≤ p0);
  bo_mods : mods_ok kend dend (mods_of tags);
  bo_fit : kend + mods_size (mods_of tags) ≤ dend;
  bo_tables : (bp + 4096 ≤ kend ∨ dend ≤ bp) ∧ (bkp - vma + 4096 ≤ kend ∨ dend ≤ bkp - vma) ∧
    (bpd - vma + 4096 ≤ kend ∨ dend ≤ bpd - vma);
  bo_some : bs_maps parsed_tags ≠ [] ∧ bs_upper parsed_tags ≠ 0 ∧ bs_mods parsed_tags ≠ [];
}.

Abbreviation run_early := (early_main vma kts kts kte ke es ee cd bpd bkp bp ka l1 l2 l3 l4).
Abbreviation claim := (claim_first vma kts ke).

(** Memory outside the modules' place and the boot page tables *)
Definition kept (m : mem) : Prop := ∀ z, ¬ within kend (dend - kend) z → ¬ within bp 4096 z →
  ¬ within (bkp - vma) 4096 z → ¬ within (bpd - vma) 4096 z → load8 m z = load8 m0 z.

Lemma early_main_ok :
  bootable →
  let b := parsed_tags in
  let E := kend + mods_size (bs_mods b) in
  ∃ s', run_early MULTIBOOT2_BOOTLOADER_MAGIC (p0 - 8) (EarlySt m0 k0 x y) = Ok (ka, s') ∧
    let k := e_kinfo s' in
    (no_mmaps k = Z.of_nat (length (bs_maps b)) ∧
     take (length (bs_maps b)) (memmaps k) =
       on_first (claim (mods_size (bs_mods b)) E) (bs_maps b)) ∧
    mem_upper k = bs_upper b ∧
    (no_modules k = Z.of_nat (length (bs_mods b)) ∧
     take (length (bs_mods b)) (modules k) = place kend (bs_mods b)) ∧
    (kernel_phys_range k = MemRange kstart kend ∧ boot_module_phys_range k = MemRange kend E ∧
     kernel_high_vma k = vma) ∧
    placed_bytes m0 (e_mem s') kend (bs_mods b) ∧
    kept (e_mem s') ∧
    (∀ p, 0 ≤ p < 1024 → self_mapped vma kts kte es ee E p →
       mmu_walk (e_mem s') (bpd - vma) p = Some (4096 * p, 3)) ∧
    (∀ a, kts ≤ 4096 * a < ke → 4096 * a ≠ cd →
       mmu_walk (e_mem s') (bpd - vma) a = Some (4096 * a - vma, 3)) ∧
    mmu_walk (e_mem s') (bpd - vma) (cd / 4096) = Some (0xB8000, 3).
Proof using.
  intros [Hl Hm0 [Hd0 Hn0] Hde Htags Hr Hmods Hfit (Ht1 & Ht2 & Ht3) (Hs1 & Hs2 & Hs3)] b E.
  fold b in Hl, Hs1, Hs2, Hs3.
  pose proof Hl as [[Hv Hvm] Hk (Ha1 & Ha2 & Ha3) _ (HE0 & HEm & HE1) _ Hpd Hkp Hbp _].
  fold E in HE0, HEm, HE1.
  set (k1 := with_mem_upper 0 (with_no_mmaps 0 (with_memmaps (on_first (adjust_first vma kts ke))
               (with_kernel_range (kernel_range vma kts ke) vma (kernel_bytes vma kts ke) k0)))).
  assert (Hkr : kernel_range vma kts ke = MemRange kstart kend).
  { unfold kernel_range. by rewrite !u32_small by lia. }
  assert (Hkm : kend mod 4096 = 0) by (clear -Hvm Ha3; Z.to_euclidean_division_equations; lia).
  assert (Hm1 : length (memmaps k1) = 20%nat).
  { unfold k1. cbn [memmaps with_mem_upper with_no_mmaps with_memmaps with_kernel_range].
    rewrite <-Hm0. by destruct (memmaps k0). }
  destruct (parse_tags_ok m0 k1 x y kend dend Hm1 Hd0 ltac:(lia) Hkm ltac:(lia) p0 lim
    ltac:(lia) ltac:(lia) ltac:(tauto) tags p0 (BootSpec [] 0 []) m0) as (m1 & Hp & Hpa).
  { split; cbn; [lia|lia|apply Forall_nil_2|lia|done|done]. }
  { lia. }
  { done. }
  { done. }
  { cbn [bs_mods mods_size]. lia. }
  fold parsed_tags in Hp, Hpa. fold b in Hp, Hpa.
  set (k2 := with_module_range (MemRange kend E) (spec_info kend b k1)).
  destruct (early_page_map_ok vma kts kte ke es ee cd bpd bkp bp E Hl k2 m1 eq_refl)
    as (m2 & Hmap & Hw1 & Hw2 & Hw3 & Hout).
  eexists. split.
  - unfold early_main. change (negb (MULTIBOOT2_BOOTLOADER_MAGIC =? MULTIBOOT2_BOOTLOADER_MAGIC)) with false.
    cbv iota. rewrite bind_Ok. cbv zeta. replace (p0 - 8 + 8) with p0 by lia.
    rewrite (u32_small p0) by lia.
    assert (Hi1 : e_with_kinfo (λ k, with_mem_upper 0 (with_no_mmaps 0
               (with_memmaps (on_first (adjust_first vma kts ke))
                 (with_kernel_range (kernel_range vma kts ke) vma (kernel_bytes vma kts ke) k))))
               (EarlySt m0 k0 x y) = EarlySt m0 (spec_info kend (BootSpec [] 0 []) k1) x y).
    { unfold e_with_kinfo. cbn [e_mem e_kinfo e_x e_y]. f_equal. subst k1. destruct k0.
      cbn in Hn0. subst. reflexivity. }
    rewrite Hi1. rewrite Hkr at 1. cbn [range_end].
    assert (Hl1 : ParseSt 0 0 kend 0 = spec_locals kend (BootSpec [] 0 [])).
    { unfold spec_locals. cbn [bs_maps bs_mods length mods_size]. by rewrite Z.add_0_r. }
    rewrite Hl1, Hp, bind_Ok. cbv beta iota zeta. cbn [e_kinfo].
    change (no_mmaps (spec_info kend b k1)) with (Z.of_nat (length (bs_maps b))).
    change (mem_upper (spec_info kend b k1)) with (bs_upper b).
    change (no_modules (spec_info kend b k1)) with (Z.of_nat (length (bs_mods b))).
    rewrite (length_nonzero _ Hs1). rewrite bind_Ok. cbn [e_kinfo].
    change (mem_upper (spec_info kend b k1)) with (bs_upper b).
    rewrite (proj2 (Z.eqb_neq _ _) Hs2), bind_Ok. cbn [e_kinfo].
    change (no_modules (spec_info kend b k1)) with (Z.of_nat (length (bs_mods b))).
    rewrite (length_nonzero _ Hs3). rewrite bind_Ok. cbv zeta.
    rewrite Hkr at 1. cbn [range_end spec_locals last_module_end_addr total_module_size e_with_kinfo
      e_mem e_kinfo e_x e_y]. fold E. fold k2. rewrite Hmap, bind_Ok. reflexivity.
  - destruct Hpa as [P1 P2 P3 P4 P5 P6]. cbn [e_kinfo e_mem]. split_and!.
    + reflexivity.
    + subst k2. cbn [memmaps with_memmaps with_module_range spec_info with_modules with_mem_upper
        set_maps with_no_mmaps]. destruct (bs_maps b) as [|e l]; [reflexivity|].
      cbn [app on_first length take]. f_equal. apply take_app_length.
    + reflexivity.
    + reflexivity.
    + subst k2. cbn [modules with_memmaps with_module_range spec_info with_modules with_mem_upper
        set_maps with_no_mmaps].
      rewrite take_app_le by (rewrite length_place; lia). apply take_ge. rewrite length_place. lia.
    + exact Hkr.
    + cbn [boot_module_phys_range with_memmaps with_module_range]. rewrite Hkr. reflexivity.
    + reflexivity.
    + eapply placed_bytes_frame; [by eapply mods_ok_le| |exact P6].
      destruct (mods_size_aligned _ (mods_ok_le kend dend _ P3)) as [Hs0 _].
      intros z Hz. apply Hout; clear -Hz Ht1 Ht2 Ht3 Hk Hv Hde P4 Hbp Hkp Hpd; unfold within; wrap_lia.
    + intros z Z1 Z2 Z3 Z4. rewrite Hout by done. by apply P5.
    + exact Hw1.
    + exact Hw2.
    + exact Hw3.
Qed.
End main.

(** ** Properties *)

(** C10. early_main builds what the kernel starts from: for any well-formed list
    of Multiboot tags the loop over them ends and the returned information
    holds exactly the usable regions above one megabyte (the first 19 in the
    order of the tags, the first one cut down to what lies behind the modules),
    the memory size and the first five modules; each module is copied, page
    aligned, behind the kernel and the one before it, and memory elsewhere is
    unchanged but for the boot page tables; and these tables then
    translate the kernel at its high addresses, the screen, and the first
    megabyte, the boot code, the page tables and the frames behind the modules
    to themselves. *)
Theorem early_main_builds (vma kts kte ke es ee cd bpd bkp bp ka l1 l2 l3 l4 x y dend p0 lim : Z)
    (m0 : mem) (k0 : kernel_info_t) (tags : list (Z * mb_tag)) :
  bootable vma kts kte ke es ee cd bpd bkp bp dend p0 lim m0 k0 tags →
  let kend := ke - vma in
  let b := parsed_tags tags in
  let E := kend + mods_size (bs_mods b) in
  ∃ s', early_main vma kts kts kte ke es ee cd bpd bkp bp ka l1 l2 l3 l4
          MULTIBOOT2_BOOTLOADER_MAGIC (p0 - 8) (EarlySt m0 k0 x y) = Ok (ka, s') ∧
    let k := e_kinfo s' in
    (no_mmaps k = Z.of_nat (length (bs_maps b)) ∧
     take (length (bs_maps b)) (memmaps k) =
       on_first (claim_first vma kts ke (mods_size (bs_mods b)) E) (bs_maps b)) ∧
    mem_upper k = bs_upper b ∧
    (no_modules k = Z.of_nat (length (bs_mods b)) ∧
     take (length (bs_mods b)) (modules k) = place kend (bs_mods b)) ∧
    (kernel_phys_range k = MemRange (kts - vma) kend ∧ boot_module_phys_range k = MemRange kend E ∧
     kernel_high_vma k = vma) ∧
    placed_bytes m0 (e_mem s') kend (bs_mods b) ∧
    kept vma ke bpd bkp bp dend m0 (e_mem s') ∧
    (∀ p, 0 ≤ p < 1024 → self_mapped vma kts kte es ee E p →
       mmu_walk (e_mem s') (bpd - vma) p = Some (4096 * p, 3)) ∧
    (∀ a, kts ≤ 4096 * a < ke → 4096 * a ≠ cd →
       mmu_walk (e_mem s') (bpd - vma) a = Some (4096 * a - vma, 3)) ∧
    mmu_walk (e_mem s') (bpd - vma) (cd / 4096) = Some (0xB8000, 3).
Proof. apply early_main_ok. Qed.

(** Tags at 0x200008: the memory size, a map of one usable and one reserved
    region, and the module "mm" of five bytes at 0x300000 *)
Definition demo_tags : list (Z * mb_tag) :=
  [(16, TMeminfo 130048);
   (64, TMmap [MmapEntry 0x100000 0x7EE0000 1 0; MmapEntry 0xFFFC0000 0x40000 2 0]);
   (19, TModule 0x300000 0x300005 [109; 109])].
Definition put_words (m : mem) (a : Z) (l : list Z) : mem :=
  foldl (λ m '(i, v), store32 m (a + 4 * i) v) m (zip (seqZ 0 (Z.of_nat (length l))) l).
Definition demo_tag_mem : mem :=
  let m := put_words ∅ 0x200008 [4; 16; 640; 130048] in
  let m := put_words m 0x200018 [6; 64; 24; 0;  0x100000; 0; 0x7EE0000; 0; 1; 0;
                                 0xFFFC0000; 0; 0x40000; 0; 2; 0] in
  let m := put_words m 0x200058 [3; 19; 0x300000; 0x300005; 0x6D6D] in
  put_words m 0x300000 [0x04030201; 0x05].
Definition fresh_kinfo : kernel_info_t :=
  KernelInfo (replicate 20 (MmapEntry 0 0 0 0)) 0 0 (replicate 5 empty_module) 0
    (MemRange 0 0) (MemRange 0 0) (MemRange 0 0) (MemRange 0 0) (MemRange 0 0) 0 0 0.

Lemma demo_tags_at : tags_at demo_tag_mem 0x200008 0x200100 demo_tags.
Proof.
  unfold demo_tags. cbn [tags_at type_of tag_at].
  do 2 (split; [vm_compute; reflexivity|]). split; [lia|]. split; [vm_compute; congruence|].
  split; [split; vm_compute; reflexivity|].
  do 2 (split; [vm_compute; reflexivity|]). split; [lia|]. split; [vm_compute; congruence|].
  split.
  { do 2 (split; [vm_compute; reflexivity|]). intros i e Hi.
    destruct i as [|[|i]]; [| |done]; injection Hi as <-; vm_compute; reflexivity. }
  do 2 (split; [vm_compute; reflexivity|]). split; [lia|]. split; [vm_compute; congruence|].
  split.
  { do 3 (split; [vm_compute; reflexivity|]). split; [|vm_compute; reflexivity]. intros i c Hi.
    destruct i as [|[|i]]; [| |done]; injection Hi as <-; vm_compute; split; congruence. }
  split; vm_compute; congruence.
Qed.

Lemma demo_bootable :
  bootable 0xFE800000 0xFE904000 0xFE906000 0xFE910000 0x100000 0x103000 0xFE90F000
    0xFE904000 0xFE905000 0x101000 0x111000 0x200008 0x200100 demo_tag_mem fresh_kinfo demo_tags.
Proof.
  split.
  - split; vm_compute; intuition congruence.
  - reflexivity.
  - split; reflexivity.
  - lia.
  - exact demo_tags_at.
  - lia.
  - apply Forall_singleton. split_and!; try lia. cbn. lia.
  - vm_compute. congruence.
  - lia.
  - split_and!; vm_compute; congruence.
Qed.
Lemma early_main_builds_witness :
  ∃ s', early_main 0xFE800000 0xFE904000 0xFE904000 0xFE906000 0xFE910000 0x100000 0x103000
      0xFE90F000 0xFE904000 0xFE905000 0x101000 0x102000 0 0 0 0
      MULTIBOOT2_BOOTLOADER_MAGIC 0x200000 (EarlySt demo_tag_mem fresh_kinfo 0 0) = Ok (0x102000, s') ∧
    no_modules (e_kinfo s') = 1 ∧
    take 1 (memmaps (e_kinfo s')) = [MmapEntry 0x111000 0x7ECF000 1 0] ∧
    load8 (e_mem s') 0x110004 = 5 ∧
    mmu_walk (e_mem s') 0x104000 0xFE90E = Some (0x10E000, 3).
Proof.
  destruct (early_main_builds 0xFE800000 0xFE904000 0xFE906000 0xFE910000 0x100000 0x103000
    0xFE90F000 0xFE904000 0xFE905000 0x101000 0x102000 0 0 0 0 0 0 0x111000 0x200008 0x200100
    demo_tag_mem fresh_kinfo demo_tags demo_bootable)
    as (s' & H1 & [_ H2] & _ & [H3 _] & _ & H4 & _ & _ & H5 & _).
  exists s'. split; [exact H1|]. split; [exact H3|]. split; [exact H2|]. split.
  - transitivity (load8 demo_tag_mem (0x300000 + 4)); [|vm_compute; reflexivity].
    apply (proj1 H4 4). lia.
  - apply (H5 0xFE90E); lia.
Defined.

