(* ===== verification/Elf.v ===== *)
(** * Elf: the loader of boot modules

    lib/libelf/elf.c. The loader sees virtual memory byte by byte and asks for
    mappings through the callback of [exec_info_t]; both are given by the
    interface [ExecEnv], which says what the loader may rely on. The image, its
    headers and the loaded segments are ranges of that memory. *)

From S2P Require Import Prelude Machine ArchPaging Exec.

(** ** elf_base.h, elf_32.h, arch_elf.h *)

Definition elf_magic : list Z := [0x7F; 69; 76; 70].
Definition ELFCLASS32 : Z := 1.
Definition ELFDATA2LSB : Z := 1.
Definition EM_386 : Z := 3.
Definition EIDX_CLASS : Z := 4.
Definition EIDX_BYTE_ORDER : Z := 5.
Definition EIDX_VERSION : Z := 6.
Definition ET_REL : Z := 1.
Definition ET_EXEC : Z := 2.
Definition SHT_SYMTAB : Z := 2.
Definition PT_LOAD : Z := 1.
Definition ARCH_ELF_TARGET_VERSION : Z := 1.

Definition e_type : Z := 16.
Definition e_machine : Z := 18.
Definition e_entry : Z := 24.
Definition e_phoff : Z := 28.
Definition e_shoff : Z := 32.
Definition e_phnum : Z := 44.
Definition e_shnum : Z := 48.
Definition sizeof_Elf_Hdr : Z := 52.
Definition sh_type : Z := 4.
Definition sh_offset : Z := 16.
Definition sh_link : Z := 24.
Definition sizeof_Elf_Shdr : Z := 40.
Definition p_type : Z := 0.
Definition p_offset : Z := 4.
Definition p_vaddr : Z := 8.
Definition p_filesz : Z := 16.
Definition p_memsz : Z := 20.
Definition p_flags : Z := 24.
Definition p_align : Z := 28.
Definition sizeof_Elf_Phdr : Z := 32.

(** elf.h: the codes in the order of ELF_ERR_ENUM *)
Inductive ElfError :=
| ELF_OK
| ELF_UNSUPP_MACHINE
| ELF_UNSUPP_CLASS
| ELF_UNSUPP_BYTE_ORDER
| ELF_UNSUPP_VERSION
| ELF_UNSUPP_PH_TYPE
| ELF_INVALID_PH
| ELF_INVALID_TYPE
| ELF_INVALID_HDR.
#[export] Instance ElfError_eq_dec : EqDecision ElfError.
Proof. solve_decision. Defined.

(** elf.c:141 *)
Definition elf_strerror (err : ElfError) : string :=
  match err with
  | ELF_OK => "ELF_OK"
  | ELF_UNSUPP_MACHINE => "ELF_UNSUPP_MACHINE"
  | ELF_UNSUPP_CLASS => "ELF_UNSUPP_CLASS"
  | ELF_UNSUPP_BYTE_ORDER => "ELF_UNSUPP_BYTE_ORDER"
  | ELF_UNSUPP_VERSION => "ELF_UNSUPP_VERSION"
  | ELF_UNSUPP_PH_TYPE => "ELF_UNSUPP_PH_TYPE"
  | ELF_INVALID_PH => "ELF_INVALID_PH"
  | ELF_INVALID_TYPE => "ELF_INVALID_TYPE"
  | ELF_INVALID_HDR => "ELF_INVALID_HDR"
  end.

Definition ARCH_MAIN_THREAD_STACK_ADDR : Z := 0x80000000.
Definition ARCH_MAIN_THREAD_STACK_SIZE : Z := 0x4000.

(** ** The memory the loader works on *)

(** Bytes of virtual memory; a store may fault. *)
Class VMem (S : Type) := {
  v_load8 : S → Z → Z;
  v_store8 : S → Z → Z → outcome S;
}.

(** Little-endian reads over a byte reader *)
Definition rd16 (rd : Z → Z) (a : Z) : Z := rd a + 256 * rd (u32 (a + 1)).
Definition rd32 (rd : Z → Z) (a : Z) : Z := rd16 rd a + 65536 * rd16 rd (u32 (a + 2)).

(** elf_ctx.h *)
Record elf_ctx_t := ElfCtx {
  elf_hdr : Z;
  section_headers : Z;
  symbol_table : Z;
  string_table : Z;
  program_headers : Z;
  ctx_size : Z;
}.

Section loader.
Context {S : Type} `{!VMem S}.
Abbreviation E := (M S).

Definition get8 (a : Z) : E Z := gets (λ s, v_load8 s (u32 a)).
Definition get16 (a : Z) : E Z := gets (λ s, rd16 (v_load8 s) (u32 a)).
Definition get32 (a : Z) : E Z := gets (λ s, rd32 (v_load8 s) (u32 a)).

(** The copying loop of stdlib.c:204 on virtual memory *)
Fixpoint v_copy (n : nat) (dest src : Z) : E unit :=
  match n with
  | O => mret tt
  | Datatypes.S n' =>
      _ ← (λ s, s' ← v_store8 s dest (v_load8 s src); Ok (tt, s'));
      v_copy n' (u32 (dest + 1)) (u32 (src + 1))
  end.

(** elf.c:19 *)
Fixpoint check_magic (hdr i : Z) (magic : list Z) : E ElfError :=
  match magic with
  | [] => mret ELF_OK
  | c :: magic' =>
      b ← get8 (hdr + i);
      if negb (b =? c) then mret ELF_INVALID_HDR else check_magic hdr (i + 1) magic'
  end.
Definition elf_check_hdr (hdr : Z) : E ElfError := check_magic hdr 0 elf_magic.

(** elf.c:30 *)
Definition elf_check_arch_supported (hdr : Z) : E ElfError :=
  class ← get8 (hdr + EIDX_CLASS);
  if negb (class =? ELFCLASS32) then mret ELF_UNSUPP_CLASS else
  order ← get8 (hdr + EIDX_BYTE_ORDER);
  if negb (order =? ELFDATA2LSB) then mret ELF_UNSUPP_BYTE_ORDER else
  machine ← get16 (hdr + e_machine);
  if negb (machine =? EM_386) then mret ELF_UNSUPP_MACHINE else
  version ← get8 (hdr + EIDX_VERSION);
  if negb (version =? ARCH_ELF_TARGET_VERSION) then mret ELF_UNSUPP_VERSION else
  type ← get16 (hdr + e_type);
  if negb (type =? ET_REL) && negb (type =? ET_EXEC) then mret ELF_INVALID_TYPE else
  mret ELF_OK.

(** elf.c:14 *)
Definition elf_get_sheader (hdr : Z) : E Z :=
  off ← get32 (hdr + e_shoff);
  mret (u32 (hdr + off)).

(** elf.c:72: the search for the symbol table *)
Fixpoint find_symtab (indices : list Z) (ctx : elf_ctx_t) : E elf_ctx_t :=
  match indices with
  | [] => mret ctx
  | i :: indices' =>
      let shdr := u32 (section_headers ctx + sizeof_Elf_Shdr * i) in
      type ← get32 (shdr + sh_type);
      if type =? SHT_SYMTAB then
        link ← get32 (shdr + sh_link);
        find_symtab indices' (ElfCtx (elf_hdr ctx) (section_headers ctx) shdr
          (u32 (section_headers ctx + sizeof_Elf_Shdr * link))
          (program_headers ctx) (ctx_size ctx))
      else find_symtab indices' ctx
  end.

(** elf.c:55 *)
Definition elf_ctx_create (ctx : elf_ctx_t) (buf size : Z) : E (ElfError * elf_ctx_t) :=
  err ← elf_check_hdr buf;
  if negb (bool_decide (err = ELF_OK)) then mret (err, ctx) else
  err ← elf_check_arch_supported buf;
  if negb (bool_decide (err = ELF_OK)) then mret (err, ctx) else
  sh ← elf_get_sheader buf;
  phoff ← get32 (buf + e_phoff);
  let ctx := ElfCtx buf sh (symbol_table ctx) (string_table ctx) (u32 (buf + phoff)) (ctx_size ctx) in
  shnum ← get16 (buf + e_shnum);
  ctx ← find_symtab (seqZ 1 (shnum - 1)) ctx;
  mret (ELF_OK, ctx).

Section load.
(** The callbacks of [exec_info_t] *)
Context (mmap : Z → Z → Z → Z → E Z) (on_load : E unit).

(** [x % y]; division by zero is undefined *)
Definition c_mod (x y : Z) : E Z := if y =? 0 then ub "modulo zero" else mret (x mod y).

(** The alignment test of elf.c:106: is the header rejected? *)
Definition bad_alignment (phdr : Z) : E bool :=
  align ← get32 (phdr + p_align);
  if (align <? 2) && (Z.land align (u32 (align - 1)) =? 0) then
    v ← get32 (phdr + p_vaddr);
    r ← c_mod v align;
    if negb (r =? 0) then mret true else
    o ← get32 (phdr + p_offset);
    r ← c_mod o align;
    mret (negb (r =? 0))
  else mret false.

(** The body of the loop of elf.c:95; [None]: go on with the next header *)
Definition load_phdr (ctx : elf_ctx_t) (i : Z) : E (option ElfError) :=
  let phdr := u32 (program_headers ctx + sizeof_Elf_Phdr * i) in
  type ← get32 (phdr + p_type);
  if negb (type =? PT_LOAD) then mret None else
  filesz ← get32 (phdr + p_filesz);
  memsz ← get32 (phdr + p_memsz);
  if filesz >? memsz then mret (Some ELF_INVALID_PH) else
  bad ← bad_alignment phdr;
  if bad : bool then mret (Some ELF_INVALID_PH) else
  filesz ← get32 (phdr + p_filesz);
  if filesz =? 0 then mret None else
  v ← get32 (phdr + p_vaddr); n ← get32 (phdr + p_memsz); f ← get32 (phdr + p_flags);
  _ ← mmap PAGE_ALLOCATE v n (Z.lor f PF_W);
  v ← get32 (phdr + p_vaddr); o ← get32 (phdr + p_offset); k ← get32 (phdr + p_filesz);
  _ ← v_copy (Z.to_nat k) v (u32 (elf_hdr ctx + o));
  v ← get32 (phdr + p_vaddr); n ← get32 (phdr + p_memsz); f ← get32 (phdr + p_flags);
  _ ← mmap 0 v n f;
  mret None.

Fixpoint load_phdrs (ctx : elf_ctx_t) (indices : list Z) : E (option ElfError) :=
  match indices with
  | [] => mret None
  | i :: indices' =>
      r ← load_phdr ctx i;
      match r with
      | Some err => mret (Some err)
      | None => load_phdrs ctx indices'
      end
  end.

(** elf.c:84; the result is the code and [info->main_thread_stack_top].
    [has_info] says that [info] and [info->mmap] are not null. *)
Definition elf_ctx_load (has_info : bool) (ctx : elf_ctx_t) (stack_top : Z) : E (ElfError * Z) :=
  if negb has_info then mret (ELF_INVALID_HDR, stack_top) else
  no_pheaders ← get16 (elf_hdr ctx + e_phnum);
  _ ← on_load;
  r ← load_phdrs ctx (seqZ 0 no_pheaders);
  match r with
  | Some err => mret (err, stack_top)
  | None =>
      _ ← mmap PAGE_ALLOCATE (ARCH_MAIN_THREAD_STACK_ADDR - ARCH_MAIN_THREAD_STACK_SIZE)
            (ARCH_MAIN_THREAD_STACK_SIZE + ARCH_PAGE_SIZE) (Z.lor PF_W PF_R);
      mret (ELF_OK, ARCH_MAIN_THREAD_STACK_ADDR)
  end.
End load.

(** elf.c:132 *)
Definition elf_ctx_get_section (ctx : elf_ctx_t) (sec_hdr : Z) : E Z :=
  off ← get32 (sec_hdr + sh_offset);
  mret (u32 (elf_hdr ctx + off)).
End loader.

(** ** What the loader relies on

    [mapped] and [writable] say which bytes are backed by memory and may be
    written; [serves s v n] that the [n] bytes at [v] can be requested in state
    [s]; [room] is the number of free frames. *)

(** Frames one request may use: its pages, and the page tables over them. *)
Definition frames_for (size : Z) : Z := size / ARCH_PAGE_SIZE + size / 4194304 + 3.
(** The request needs one page table only. *)
Definition one_table (v n : Z) : Prop :=
  0 < n ∧ n < 4194304 ∧ v / 4194304 = (v + n - 1) / 4194304.
(** No page table is used by both ranges. *)
Definition tables_apart (v n w k : Z) : Prop :=
  (v + n - 1) / 4194304 < w / 4194304 ∨ (w + k - 1) / 4194304 < v / 4194304.

Section interface.
Context {S : Type} `{!VMem S}.

(** Outside of [W] every byte of [s] is still there in [s']. *)
Definition keeps (mapped : S → Z → Prop) (W : Z → Prop) (s s' : S) : Prop :=
  ∀ x, mapped s x → mapped s' x ∧ (¬ W x → v_load8 s' x = v_load8 s x).

(** A request for a served range with protection succeeds while there is room,
    backs the range and changes no byte that was backed; a store to a writable
    byte changes that byte only. *)
Class ExecEnv (mmap : Z → Z → Z → Z → M S Z) (on_load : M S unit)
    (mapped writable : S → Z → Prop) (serves : S → Z → Z → Prop) (room : S → Z) : Prop := {
  ee_mmap v n flags s :
    serves s v n → Z.land flags (Z.lor PF_W PF_R) ≠ 0 → frames_for n ≤ room s →
    ∃ r s', mmap PAGE_ALLOCATE v n flags s = Ok (r, s') ∧
      keeps mapped (λ _, False) s s' ∧
      (∀ x, v ≤ x < v + n → mapped s' x) ∧
      (Z.testbit flags 1 = true → ∀ x, v ≤ x < v + n → writable s' x) ∧
      room s - frames_for n ≤ room s' ∧
      serves s' v n ∧
      (∀ w k, serves s w k → one_table w k ∨ tables_apart v n w k → serves s' w k);
  ee_on_load s :
    ∃ s', on_load s = Ok (tt, s') ∧ keeps mapped (λ _, False) s s' ∧
      room s ≤ room s' ∧ ∀ w k, serves s w k → serves s' w k;
  ee_store s a b :
    writable s a →
    ∃ s', v_store8 s a b = Ok s' ∧ keeps mapped (eq a) s s' ∧ v_load8 s' a = u8 b ∧
      (∀ x, writable s x → writable s' x) ∧
      room s ≤ room s' ∧ ∀ w k, serves s w k → serves s' w k;
  ee_writable s x : writable s x → mapped s x;
  ee_byte s x : 0 ≤ v_load8 s x < 256;
}.
End interface.
