(* ===== verification/ElfProps.v ===== *)
(** * ElfProps: what the loader does with a module

    Which images elf_ctx_create accepts; that elf_ctx_load, against the
    interface [ExecEnv], puts every segment of a well-formed image where its
    header says and maps the stack; where its tests reject nothing. *)

From S2P Require Import Prelude Machine ArchPaging Exec Elf.

Lemma keeps_refl {S} `{!VMem S} (mapped : S → Z → Prop) W s : keeps mapped W s s.
Proof. by intros x Hx. Qed.
Lemma keeps_trans {S} `{!VMem S} (mapped : S → Z → Prop) (W1 W2 W : Z → Prop) s1 s2 s3 :
  keeps mapped W1 s1 s2 → keeps mapped W2 s2 s3 → (∀ x, W1 x ∨ W2 x → W x) →
  keeps mapped W s1 s3.
Proof.
  intros H1 H2 HW x Hx. destruct (H1 x Hx) as [Hx2 E1]. destruct (H2 x Hx2) as [Hx3 E2].
  split; [done|]. intros Hn. rewrite E2, E1; [done| |]; contradict Hn; apply HW; auto.
Qed.
Lemma keeps_weaken {S} `{!VMem S} (mapped : S → Z → Prop) (W1 W : Z → Prop) s1 s2 :
  keeps mapped W1 s1 s2 → (∀ x, W1 x → W x) → keeps mapped W s1 s2.
Proof.
  intros H HW x Hx. destruct (H x Hx) as [Hx2 E]. split; [done|]. intros Hn. apply E.
  contradict Hn. auto.
Qed.

(** ** Headers as values *)

Record segment := Segment {
  sg_type : Z;
  sg_offset : Z;
  sg_vaddr : Z;
  sg_filesz : Z;
  sg_memsz : Z;
  sg_flags : Z;
  sg_align : Z;
}.
Definition read_phdr (rd : Z → Z) (a : Z) : segment :=
  let f o := rd32 rd (u32 (a + o)) in
  Segment (f p_type) (f p_offset) (f p_vaddr) (f p_filesz) (f p_memsz) (f p_flags) (f p_align).
Definition read_phdrs (rd : Z → Z) (a n : Z) : list segment :=
  (λ i, read_phdr rd (u32 (a + sizeof_Elf_Phdr * i))) <$> seqZ 0 n.

(** The segment takes part in loading. *)
Definition loads (sg : segment) : bool := (sg_type sg =? PT_LOAD) && negb (sg_filesz sg =? 0).
(** [x] is a byte the file gives to [sg]. *)
Definition file_byte (sg : segment) (x : Z) : Prop :=
  loads sg = true ∧ sg_vaddr sg ≤ x < sg_vaddr sg + sg_filesz sg.

Lemma rd32_ext (rd rd' : Z → Z) a :
  0 ≤ a → a + 4 ≤ 4294967296 → (∀ x, a ≤ x < a + 4 → rd x = rd' x) → rd32 rd a = rd32 rd' a.
Proof.
  intros H0 H1 H. unfold rd32, rd16. rewrite !u32_small by (rewrite ?u32_small; lia).
  rewrite !H by lia. done.
Qed.
Lemma rd32_range (rd : Z → Z) a : (∀ x, 0 ≤ rd x < 256) → 0 ≤ rd32 rd a < 4294967296.
Proof.
  intros H. unfold rd32, rd16.
  pose proof (H a). pose proof (H (u32 (a + 1))). pose proof (H (u32 (a + 2))).
  pose proof (H (u32 (u32 (a + 2) + 1))). lia.
Qed.
Lemma read_phdr_ext (rd rd' : Z → Z) a :
  0 ≤ a → a + 32 ≤ 4294967296 → (∀ x, a ≤ x < a + 32 → rd x = rd' x) →
  read_phdr rd a = read_phdr rd' a.
Proof.
  intros H0 H1 H. unfold read_phdr, p_type, p_offset, p_vaddr, p_filesz, p_memsz, p_flags, p_align.
  rewrite !u32_small by lia. f_equal; (apply rd32_ext; [lia|lia|intros; apply H; lia]).
Qed.

Section props.
Context {S : Type} `{!VMem S}.
Context {mmap : Z → Z → Z → Z → M S Z} {on_load : M S unit}.
Context {mapped writable : S → Z → Prop} {serves : S → Z → Z → Prop} {room : S → Z}.
Context `{HE : !ExecEnv mmap on_load mapped writable serves room}.

(** Nothing the next requests need is lost between [s] and [s']. *)
Record same_env (s s' : S) : Prop := {
  se_writable x : writable s x → writable s' x;
  se_room : room s ≤ room s';
  se_serves w k : serves s w k → serves s' w k;
}.

Lemma v_copy_ok n : ∀ s dest src,
  0 ≤ dest → dest + Z.of_nat n ≤ 4294967296 → 0 ≤ src → src + Z.of_nat n ≤ 4294967296 →
  dest + Z.of_nat n ≤ src ∨ src + Z.of_nat n ≤ dest →
  (∀ x, dest ≤ x < dest + Z.of_nat n → writable s x) →
  (∀ x, src ≤ x < src + Z.of_nat n → mapped s x) →
  ∃ s', v_copy n dest src s = Ok (tt, s') ∧
    keeps mapped (λ x, dest ≤ x < dest + Z.of_nat n) s s' ∧ same_env s s' ∧
    (∀ i, 0 ≤ i < Z.of_nat n → v_load8 s' (dest + i) = v_load8 s (src + i)).
Proof using HE.
  induction n as [|n IH]; intros s dest src Hd0 Hd1 Hs0 Hs1 Hdj Hw Hm.
  - exists s. split; [done|]. split; [apply keeps_refl|]. split; [by split|lia].
  - assert (Hwd : writable s dest) by (apply Hw; lia).
    destruct (ee_store s dest (v_load8 s src) Hwd) as (s1 & E1 & K1 & V1 & W1 & R1 & X1).
    cbn [v_copy]. unfold mbind, M_bind. rewrite E1. cbn.
    assert (Hkeep : ∀ x, dest + 1 ≤ x < dest + 1 + Z.of_nat n → mapped s1 x).
    { intros x Hx. apply K1, ee_writable, Hw. lia. }
    destruct (decide (n = O)) as [->|Hn].
    { exists s1. split; [done|]. split_and!.
      - eapply keeps_weaken; [exact K1|]. intros x <-. lia.
      - by split.
      - intros i Hi. assert (i = 0) as -> by lia. rewrite !Z.add_0_r, V1.
        apply u8_small, ee_byte. }
    rewrite !(u32_small (_ + 1)) by lia.
    destruct (IH s1 (dest + 1) (src + 1)) as (s2 & E2 & K2 & [W2 R2 X2] & V2); [lia..| | |].
    { intros x Hx. apply W1, Hw. lia. }
    { intros x Hx. apply K1, Hm. lia. }
    exists s2. split; [done|]. split_and!.
    + eapply keeps_trans; [exact K1|exact K2|]. intros x [<-|]; lia.
    + split; [auto|lia|auto].
    + intros i Hi. destruct (decide (i = 0)) as [->|Hi0].
      * rewrite !Z.add_0_r. rewrite (proj2 (K2 dest ltac:(by apply K1, ee_writable))) by lia.
        rewrite V1. apply u8_small, ee_byte.
      * replace (dest + i) with (dest + 1 + (i - 1)) by lia. rewrite V2 by lia.
        replace (src + 1 + (i - 1)) with (src + i) by lia.
        apply K1; [apply Hm|]; lia.
Qed.

(** Reads of the fields of the header at [phdr], which reads as [sg] in [s]. *)
Ltac fold_fields s phdr sg :=
  change (rd32 (v_load8 s) (u32 (phdr + p_vaddr))) with (sg_vaddr (read_phdr (v_load8 s) phdr));
  change (rd32 (v_load8 s) (u32 (phdr + p_memsz))) with (sg_memsz (read_phdr (v_load8 s) phdr));
  change (rd32 (v_load8 s) (u32 (phdr + p_flags))) with (sg_flags (read_phdr (v_load8 s) phdr));
  change (rd32 (v_load8 s) (u32 (phdr + p_filesz))) with (sg_filesz (read_phdr (v_load8 s) phdr));
  change (rd32 (v_load8 s) (u32 (phdr + p_offset))) with (sg_offset (read_phdr (v_load8 s) phdr));
  replace (read_phdr (v_load8 s) phdr) with sg by done.

Lemma get32_bind {A} a (k : Z → M S A) s :
  (get32 a ≫= k) s = k (rd32 (v_load8 s) (u32 a)) s.
Proof using. done. Qed.

(** The alignment test lets every header pass whose alignment is not 0. *)
Lemma bad_alignment_eq phdr s :
  bad_alignment phdr s =
    if sg_align (read_phdr (v_load8 s) phdr) =? 0 then UB "modulo zero" else Ok (false, s).
Proof using HE.
  pose proof (rd32_range (v_load8 s) (u32 (phdr + p_align)) (ee_byte s)) as Hr.
  unfold bad_alignment, get32, c_mod. mstep. cbn [read_phdr sg_align].
  set (al := rd32 _ _) in *. destruct (Z.eqb_spec al 0) as [E0|E0].
  - rewrite E0. done.
  - destruct (decide (al = 1)) as [E1|E1].
    2: { destruct (Z.ltb_spec al 2); [lia|done]. }
    rewrite E1.
    change ((1 <? 2) && (Z.land 1 (u32 (1 - 1)) =? 0)) with true.
    change (1 =? 0) with false. cbn beta iota. rewrite Z.mod_1_r. cbn [negb Z.eqb]. by rewrite Z.mod_1_r.
Qed.

(** The whole body of the loop in terms of the header it reads. *)
Definition copy_segment (ctx : elf_ctx_t) (phdr : Z) : M S (option ElfError) :=
  v ← get32 (phdr + p_vaddr); n ← get32 (phdr + p_memsz); f ← get32 (phdr + p_flags);
  _ ← mmap PAGE_ALLOCATE v n (Z.lor f PF_W);
  v ← get32 (phdr + p_vaddr); o ← get32 (phdr + p_offset); k ← get32 (phdr + p_filesz);
  _ ← v_copy (Z.to_nat k) v (u32 (elf_hdr ctx + o));
  v ← get32 (phdr + p_vaddr); n ← get32 (phdr + p_memsz); f ← get32 (phdr + p_flags);
  _ ← mmap 0 v n f;
  mret None.

Lemma load_phdr_eq ctx i s :
  let phdr := u32 (program_headers ctx + sizeof_Elf_Phdr * i) in
  let sg := read_phdr (v_load8 s) phdr in
  load_phdr mmap ctx i s =
    if negb (sg_type sg =? PT_LOAD) then Ok (None, s) else
    if sg_filesz sg >? sg_memsz sg then Ok (Some ELF_INVALID_PH, s) else
    if sg_align sg =? 0 then UB "modulo zero" else
    if sg_filesz sg =? 0 then Ok (None, s) else copy_segment ctx phdr s.
Proof using HE.
  intros phdr sg. unfold load_phdr. fold phdr. cbv zeta. rewrite get32_bind.
  change (rd32 (v_load8 s) (u32 (phdr + p_type))) with (sg_type sg).
  destruct (negb (sg_type sg =? PT_LOAD)); [done|]. rewrite !get32_bind.
  change (rd32 (v_load8 s) (u32 (phdr + p_filesz))) with (sg_filesz sg).
  change (rd32 (v_load8 s) (u32 (phdr + p_memsz))) with (sg_memsz sg).
  destruct (sg_filesz sg >? sg_memsz sg); [done|].
  pose proof (bad_alignment_eq phdr s) as Hal. fold sg in Hal.
  destruct (sg_align sg =? 0).
  - unfold mbind at 1, M_bind at 1. by rewrite Hal.
  - rewrite (bind_Ok_M _ _ _ _ _ Hal). rewrite get32_bind.
    change (rd32 (v_load8 s) (u32 (phdr + p_filesz))) with (sg_filesz sg).
    by destruct (sg_filesz sg =? 0).
Qed.

(** ** One segment *)

(** The image: [len] bytes at [b], all backed. *)
Record image (s : S) (b len : Z) : Prop := {
  im_base : 0 ≤ b;
  im_end : b + len ≤ 4294967296;
  im_mapped x : b ≤ x < b + len → mapped s x;
}.

Record seg_ok (s : S) (b len : Z) (sg : segment) : Prop := {
  so_sizes : sg_type sg = PT_LOAD → sg_filesz sg ≤ sg_memsz sg;
  so_align : sg_type sg = PT_LOAD → sg_align sg ≠ 0;
  so_served : loads sg = true → serves s (sg_vaddr sg) (sg_memsz sg);
  so_flags : loads sg = true → Z.land (sg_flags sg) (Z.lor PF_W PF_R) ≠ 0;
  so_end : loads sg = true → sg_vaddr sg + sg_memsz sg ≤ 4294967296;
  so_file : loads sg = true → sg_offset sg + sg_filesz sg ≤ len;
  so_apart : loads sg = true → sg_vaddr sg + sg_filesz sg ≤ b ∨ b + len ≤ sg_vaddr sg;
}.

Definition cost (sg : segment) : Z := if loads sg then 2 * frames_for (sg_memsz sg) else 0.

(** What loading [sg] does. *)
Record loaded (b : Z) (sg : segment) (s s' : S) : Prop := {
  ld_keeps : keeps mapped (file_byte sg) s s';
  ld_bytes i : loads sg = true → 0 ≤ i < sg_filesz sg →
    v_load8 s' (sg_vaddr sg + i) = v_load8 s (b + sg_offset sg + i);
  ld_mapped x : loads sg = true → sg_vaddr sg ≤ x < sg_vaddr sg + sg_memsz sg → mapped s' x;
  ld_room : room s - cost sg ≤ room s';
  ld_serves w k : serves s w k →
    (loads sg = true → one_table w k ∨ tables_apart (sg_vaddr sg) (sg_memsz sg) w k) →
    serves s' w k;
}.

Lemma loaded_skip b sg s : loads sg = false → loaded b sg s s.
Proof using.
  intros E. split; [apply keeps_refl|congruence|congruence|unfold cost; rewrite E; lia|auto].
Qed.

Lemma read_phdr_range s a :
  let sg := read_phdr (v_load8 s) a in
  0 ≤ sg_offset sg ∧ 0 ≤ sg_vaddr sg ∧ 0 ≤ sg_filesz sg ∧ 0 ≤ sg_memsz sg ∧ 0 ≤ sg_flags sg.
Proof using HE.
  cbn. split_and!; (apply rd32_range, ee_byte).
Qed.

Lemma read_phdr_keeps W s s' b len a :
  image s b len → keeps mapped W s s' → b ≤ a → a + 32 ≤ b + len →
  (∀ x, b ≤ x < b + len → ¬ W x) → read_phdr (v_load8 s') a = read_phdr (v_load8 s) a.
Proof using.
  intros [H0 H1 Hm] HK Ha1 Ha2 HW. apply read_phdr_ext; [lia|lia|].
  intros x Hx. apply HK; [apply Hm; lia|apply HW; lia].
Qed.

Lemma image_keeps W s s' b len : image s b len → keeps mapped W s s' → image s' b len.
Proof using. intros [H0 H1 Hm] HK. split; [done|done|]. intros x Hx. by apply HK, Hm. Qed.

Lemma copy_segment_ok ctx phdr s b len :
  let sg := read_phdr (v_load8 s) phdr in
  elf_hdr ctx = b → image s b len → b ≤ phdr → phdr + 32 ≤ b + len →
  loads sg = true → seg_ok s b len sg → cost sg ≤ room s →
  ∃ s', copy_segment ctx phdr s = Ok (None, s') ∧ loaded b sg s s'.
Proof using HE.
  intros sg Hb Him Hp1 Hp2 Hl [Hsz _ Hsv Hfl Hen Hfi Hap] Hco.
  specialize (Hsv Hl). specialize (Hfl Hl). specialize (Hen Hl). specialize (Hfi Hl).
  specialize (Hap Hl). unfold cost in *. rewrite Hl in Hco.
  assert (Hpt : sg_type sg = PT_LOAD).
  { unfold loads in Hl. by destruct (Z.eqb_spec (sg_type sg) PT_LOAD). }
  specialize (Hsz Hpt). destruct (read_phdr_range s phdr) as (Ho & Hv & Hk & Hn & Hf).
  fold sg in Ho, Hv, Hk, Hn, Hf.
  assert (Hk0 : sg_filesz sg ≠ 0).
  { unfold loads in Hl. destruct (Z.eqb_spec (sg_filesz sg) 0); [|done].
    rewrite andb_false_r in Hl. done. }
  assert (Hfr : 0 ≤ frames_for (sg_memsz sg)).
  { unfold frames_for, ARCH_PAGE_SIZE. Z.to_euclidean_division_equations. lia. }
  destruct (ee_mmap (sg_vaddr sg) (sg_memsz sg) (Z.lor (sg_flags sg) PF_W) s)
    as (r1 & s1 & E1 & K1 & M1 & W1 & R1 & X1 & Y1); [done| |lia|].
  { intros E. apply Hfl. apply Z.bits_inj'. intros j Hj.
    assert (Ej : Z.testbit (Z.land (Z.lor (sg_flags sg) PF_W) (Z.lor PF_W PF_R)) j = false)
      by (by rewrite E, Z.bits_0).
    rewrite Z.bits_0. rewrite Z.land_spec in Ej |- *. rewrite Z.lor_spec in Ej.
    by destruct (Z.testbit (sg_flags sg) j). }
  assert (Hsg1 : read_phdr (v_load8 s1) phdr = sg)
    by (eapply read_phdr_keeps; eauto).
  specialize (W1 ltac:(rewrite Z.lor_spec; apply orb_true_r)).
  pose proof (image_keeps _ _ _ _ _ Him K1) as Him1. pose proof Him1 as [Hb0 Hb1 Hbm].
  destruct (v_copy_ok (Z.to_nat (sg_filesz sg)) s1 (sg_vaddr sg) (b + sg_offset sg))
    as (s2 & E2 & K2 & [W2 R2 X2] & V2); rewrite ?Z2Nat.id by done.
  1-5: lia.
  { intros x Hx. apply W1. lia. }
  { intros x Hx. apply Hbm. lia. }
  rewrite Z2Nat.id in K2, V2 by done.
  assert (Hsg2 : read_phdr (v_load8 s2) phdr = sg).
  { rewrite <-Hsg1. apply (read_phdr_keeps _ s1 s2 b len phdr Him1 K2 Hp1 Hp2). intros x Hx. lia. }
  destruct (ee_mmap (sg_vaddr sg) (sg_memsz sg) (sg_flags sg) s2)
    as (r3 & s3 & E3 & K3 & M3 & _ & R3 & X3 & Y3); [by apply X2|done|lia|].
  exists s3. split.
  - unfold copy_segment. rewrite !get32_bind. fold_fields s phdr sg.
    rewrite (bind_Ok_M _ _ _ _ _ E1), !get32_bind. fold_fields s1 phdr sg.
    rewrite Hb, u32_small by lia. rewrite (bind_Ok_M _ _ _ _ _ E2), !get32_bind.
    fold_fields s2 phdr sg. by rewrite (bind_Ok_M _ _ _ _ _ E3).
  - split.
    + assert (K12 : keeps mapped (file_byte sg) s s2).
      { eapply keeps_trans; [exact K1|exact K2|]. intros x [[]|Hx]. by split. }
      eapply keeps_trans; [exact K12|exact K3|]. by intros x [?|[]].
    + intros i _ Hi.
      assert (Hmi : mapped s1 (sg_vaddr sg + i)) by (apply ee_writable, W1; lia).
      rewrite (proj2 (K3 _ (proj1 (K2 _ Hmi)))) by tauto. rewrite V2 by done.
      apply K1; [|tauto]. apply Him. lia.
    + intros x _ Hx. by apply M3.
    + unfold cost. rewrite Hl. lia.
    + intros w k Hw Hwk. specialize (Hwk Hl). auto.
Qed.

(** ** All segments *)

(** [sg'], loaded after [sg], does not spoil it and can still be requested. *)
Definition independent (sg sg' : segment) : Prop :=
  loads sg = true → loads sg' = true →
  (sg_vaddr sg + sg_filesz sg ≤ sg_vaddr sg' ∨ sg_vaddr sg' + sg_filesz sg' ≤ sg_vaddr sg) ∧
  (one_table (sg_vaddr sg') (sg_memsz sg') ∨
   tables_apart (sg_vaddr sg) (sg_memsz sg) (sg_vaddr sg') (sg_memsz sg')).
Fixpoint compatible (sgs : list segment) : Prop :=
  match sgs with
  | [] => True
  | sg :: sgs' => Forall (independent sg) sgs' ∧ compatible sgs'
  end.
Definition total_cost (sgs : list segment) : Z := foldr (λ sg, Z.add (cost sg)) 0 sgs.

(** What loading [sgs] in turn does. *)
Record all_loaded (b : Z) (sgs : list segment) (s s' : S) : Prop := {
  al_keeps : keeps mapped (λ x, ∃ sg, sg ∈ sgs ∧ file_byte sg x) s s';
  al_bytes sg i : sg ∈ sgs → loads sg = true → 0 ≤ i < sg_filesz sg →
    v_load8 s' (sg_vaddr sg + i) = v_load8 s (b + sg_offset sg + i);
  al_mapped sg x : sg ∈ sgs → loads sg = true →
    sg_vaddr sg ≤ x < sg_vaddr sg + sg_memsz sg → mapped s' x;
  al_room : room s - total_cost sgs ≤ room s';
  al_serves w k : serves s w k →
    Forall (λ sg, loads sg = true →
      one_table w k ∨ tables_apart (sg_vaddr sg) (sg_memsz sg) w k) sgs → serves s' w k;
}.

Lemma cost_nonneg sg : 0 ≤ sg_memsz sg → 0 ≤ cost sg.
Proof using.
  intros H. unfold cost, frames_for, ARCH_PAGE_SIZE.
  destruct (loads sg); [|lia]. Z.to_euclidean_division_equations. lia.
Qed.

Lemma total_cost_nonneg sgs : Forall (λ sg, 0 ≤ sg_memsz sg) sgs → 0 ≤ total_cost sgs.
Proof using.
  induction 1 as [|sg sgs Hsg _ IH]; [done|]. pose proof (cost_nonneg sg Hsg).
  cbn [total_cost foldr]. fold (total_cost sgs). lia.
Qed.

Section image_loop.
Context (ctx : elf_ctx_t) (b len : Z).
Definition phdr_at (i : Z) : Z := u32 (program_headers ctx + sizeof_Elf_Phdr * i).
Definition sg_at (s : S) (i : Z) : segment := read_phdr (v_load8 s) (phdr_at i).
Context (Hctx : elf_hdr ctx = b).

Lemma load_phdr_ok i s :
  image s b len → b ≤ phdr_at i → phdr_at i + 32 ≤ b + len →
  seg_ok s b len (sg_at s i) → cost (sg_at s i) ≤ room s →
  ∃ s', load_phdr mmap ctx i s = Ok (None, s') ∧ loaded b (sg_at s i) s s'.
Proof using HE Hctx.
  intros Him H1 H2 Hok Hco. rewrite load_phdr_eq. cbv zeta. fold (phdr_at i).
  fold (sg_at s i). set (sg := sg_at s i) in *.
  pose proof Hok as [Hsz Hal _ _ _ _ _].
  destruct (Z.eqb_spec (sg_type sg) PT_LOAD) as [Et|Et]; cbn [negb].
  2: { exists s. split; [done|]. apply loaded_skip. unfold loads.
       by rewrite (proj2 (Z.eqb_neq _ _) Et). }
  specialize (Hsz Et). specialize (Hal Et).
  destruct (Z.gtb_spec (sg_filesz sg) (sg_memsz sg)); [lia|].
  rewrite (proj2 (Z.eqb_neq _ _) Hal).
  destruct (sg_filesz sg =? 0) eqn:Ez.
  - exists s. split; [done|]. apply loaded_skip. unfold loads. rewrite Ez. apply andb_false_r.
  - apply copy_segment_ok with (len := len); try done.
    change (loads sg = true). unfold loads. by rewrite Et, Ez.
Qed.

Lemma load_phdrs_ok indices : ∀ s,
  image s b len →
  Forall (λ i, b ≤ phdr_at i ∧ phdr_at i + 32 ≤ b + len) indices →
  Forall (seg_ok s b len) (sg_at s <$> indices) → compatible (sg_at s <$> indices) →
  total_cost (sg_at s <$> indices) ≤ room s →
  ∃ s', load_phdrs mmap ctx indices s = Ok (None, s') ∧
    all_loaded b (sg_at s <$> indices) s s'.
Proof using HE Hctx.
  induction indices as [|i indices IH]; intros s Him Hin Hok Hcp Hco.
  - exists s. split; [done|]. split; [apply keeps_refl|by intros ?? ?%elem_of_nil..|cbn; lia|auto].
  - rewrite fmap_cons in *. set (sg := sg_at s i) in *.
    apply Forall_cons in Hin as [[Hi1 Hi2] Hin]. apply Forall_cons in Hok as [Hok Hoks].
    destruct Hcp as [Hind Hcp]. change (cost sg + total_cost (sg_at s <$> indices) ≤ room s) in Hco.
    assert (Htc : 0 ≤ total_cost (sg_at s <$> indices)).
    { apply total_cost_nonneg, Forall_fmap, Forall_true. intros j. apply rd32_range, ee_byte. }
    assert (Hc1 : cost sg ≤ room s) by lia.
    destruct (load_phdr_ok i s Him Hi1 Hi2 Hok Hc1)
      as (s1 & E1 & [K1 V1 M1 R1 X1]). fold sg in K1, V1, M1, R1, X1.
    assert (Hout : ∀ x, b ≤ x < b + len → ¬ file_byte sg x).
    { intros x Hx [Hl Hfx]. pose proof (so_apart _ _ _ _ Hok Hl). lia. }
    assert (Hsame : sg_at s1 <$> indices = sg_at s <$> indices).
    { apply list_fmap_ext. intros j y Hy. rewrite Forall_lookup in Hin.
      destruct (Hin _ _ Hy). by eapply read_phdr_keeps. }
    destruct (IH s1) as (s2 & E2 & H2); rewrite ?Hsame; try done.
    { by eapply image_keeps. }
    { apply Forall_forall. intros sg' Hsg'. rewrite Forall_forall in Hoks, Hind.
      specialize (Hind sg' Hsg'). destruct (Hoks sg' Hsg') as [A1 A2 A3 A4 A5 A6 A7].
      split; try done. intros Hl. apply X1; [by apply A3|]. intros Hls. by apply Hind. }
    { lia. }
    rewrite Hsame in H2. destruct H2 as [K2 V2 M2 R2 X2].
    exists s2. split.
    { cbn [load_phdrs]. by rewrite (bind_Ok_M _ _ _ _ _ E1). }
    split.
    + eapply keeps_trans; [exact K1|exact K2|]. intros x [Hx|(sg' & Hs & Hx)].
      * exists sg. split; [left|done].
      * exists sg'. split; [by right|done].
    + intros sg' k [->|Hs]%elem_of_cons Hl Hk.
      * assert (Hmk : mapped s1 (sg_vaddr sg + k)).
        { apply M1; [done|]. pose proof (so_sizes _ _ _ _ Hok) as Hsz.
          assert (sg_type sg = PT_LOAD); [|specialize (Hsz ltac:(done)); lia].
          unfold loads in Hl. by destruct (Z.eqb_spec (sg_type sg) PT_LOAD). }
        rewrite (proj2 (K2 _ Hmk)); [by apply V1|].
        intros (sg' & Hs' & Hl' & Hx). rewrite Forall_forall in Hind.
        destruct (Hind sg' Hs' Hl Hl') as [Hd _]. lia.
      * rewrite V2 by done. rewrite Forall_forall in Hoks.
        pose proof (so_file _ _ _ _ (Hoks sg' Hs) Hl). pose proof Him as [_ _ Hm].
        assert (0 ≤ sg_offset sg').
        { apply list_elem_of_fmap in Hs as (j & -> & _).
          apply (proj1 (rd32_range _ _ (ee_byte s))). }
        apply K1; [apply Hm; lia|apply Hout; lia].
    + intros sg' x [->|Hs]%elem_of_cons Hl Hx.
      * apply K2. by apply M1.
      * by apply (M2 sg').
    + cbn [total_cost foldr]. fold (total_cost (sg_at s <$> indices)). lia.
    + intros w k Hw [Hh Ht]%Forall_cons. by apply X2; [apply X1|].
Qed.

(** A header with more file bytes than memory stops the loop. *)
Lemma load_phdrs_reject indices i rest s s' :
  load_phdrs mmap ctx indices s = Ok (None, s') →
  sg_type (sg_at s' i) = PT_LOAD → sg_memsz (sg_at s' i) < sg_filesz (sg_at s' i) →
  load_phdrs mmap ctx (indices ++ i :: rest) s = Ok (Some ELF_INVALID_PH, s').
Proof using HE.
  intros H1 Ht Hsz. revert s H1. induction indices as [|j l IH]; intros s H1.
  - injection H1 as ->. cbn [app load_phdrs].
    assert (E : load_phdr mmap ctx i s' = Ok (Some ELF_INVALID_PH, s')).
    { rewrite load_phdr_eq. cbv zeta. fold (phdr_at i). fold (sg_at s' i).
      rewrite Ht. cbn [negb Z.eqb PT_LOAD Pos.eqb].
      by destruct (Z.gtb_spec (sg_filesz (sg_at s' i)) (sg_memsz (sg_at s' i))); [|lia]. }
    by rewrite (bind_Ok_M _ _ _ _ _ E).
  - cbn [app load_phdrs] in *. unfold mbind, M_bind in *.
    destruct (load_phdr mmap ctx j s) as [[[e|] s1]| | | |]; try done. by apply IH.
Qed.
End image_loop.

(** ** elf_ctx_load *)

Definition STACK_BASE : Z := ARCH_MAIN_THREAD_STACK_ADDR - ARCH_MAIN_THREAD_STACK_SIZE.
Definition STACK_BYTES : Z := ARCH_MAIN_THREAD_STACK_SIZE + ARCH_PAGE_SIZE.

(** The loader can work on the first [n] headers of the image [ctx] describes. *)
Record loadable (ctx : elf_ctx_t) (len n : Z) (s : S) : Prop := {
  lo_image : image s (elf_hdr ctx) len;
  lo_hdr : 52 ≤ len;
  lo_phdrs : elf_hdr ctx ≤ program_headers ctx ∧
             program_headers ctx + sizeof_Elf_Phdr * n ≤ elf_hdr ctx + len;
  lo_segs : Forall (seg_ok s (elf_hdr ctx) len)
              (read_phdrs (v_load8 s) (program_headers ctx) n);
  lo_compat : compatible (read_phdrs (v_load8 s) (program_headers ctx) n);
  lo_stack : serves s STACK_BASE STACK_BYTES;
  lo_stack_apart : Forall (λ sg, loads sg = true →
      tables_apart (sg_vaddr sg) (sg_memsz sg) STACK_BASE STACK_BYTES)
    (read_phdrs (v_load8 s) (program_headers ctx) n);
  lo_room : total_cost (read_phdrs (v_load8 s) (program_headers ctx) n) +
              frames_for STACK_BYTES ≤ room s;
}.

(** The loop over the headers, after the callback. *)
Lemma load_run ctx len n s :
  0 ≤ n → loadable ctx len n s →
  ∃ s0 s1, on_load s = Ok (tt, s0) ∧
    load_phdrs mmap ctx (seqZ 0 n) s0 = Ok (None, s1) ∧
    all_loaded (elf_hdr ctx) (read_phdrs (v_load8 s) (program_headers ctx) n) s s1 ∧
    (∀ x, elf_hdr ctx ≤ x < elf_hdr ctx + len → v_load8 s1 x = v_load8 s x).
Proof using HE.
  intros Hn0 [Him Hh [Hp1 Hp2] Hsegs Hcp Hst Hsa Hro].
  set (sgs := read_phdrs _ _ _) in *. pose proof Him as [Hb0 Hb1 Hm].
  destruct (ee_on_load s) as (s0 & E0 & K0 & R0 & X0).
  assert (Hin : Forall (λ i, elf_hdr ctx ≤ phdr_at ctx i ∧
                  phdr_at ctx i + 32 ≤ elf_hdr ctx + len) (seqZ 0 n)).
  { apply Forall_seqZ. intros i Hi. unfold phdr_at, sizeof_Elf_Phdr in *.
    rewrite u32_small by lia. lia. }
  assert (Hsg : sg_at ctx s0 <$> seqZ 0 n = sgs).
  { apply list_fmap_ext. intros i j Hij. rewrite Forall_lookup in Hin.
    destruct (Hin _ _ Hij). apply (read_phdr_keeps (λ _, False) s s0 (elf_hdr ctx) len (phdr_at ctx j)); [done..|]. by intros x _ []. }
  destruct (load_phdrs_ok ctx (elf_hdr ctx) len eq_refl (seqZ 0 n) s0) as (s1 & E1 & [K1 V1 M1 R1 X1]);
    rewrite ?Hsg; try done.
  { by eapply image_keeps. }
  { apply Forall_impl with (1 := Hsegs). intros sg [A1 A2 A3 A4 A5 A6 A7]. split; auto. }
  { assert (0 ≤ frames_for STACK_BYTES) by done. lia. }
  rewrite Hsg in K1, V1, M1, R1, X1. exists s0, s1. split_and!; [done|done| |].
  - split; try done.
    + eapply keeps_trans; [exact K0|exact K1|]. by intros x [[]|].
    + intros sg i Hs Hl Hi. rewrite V1 by done. apply K0; [|tauto]. apply Hm.
      rewrite Forall_forall in Hsegs. pose proof (so_file _ _ _ _ (Hsegs sg Hs) Hl).
      assert (0 ≤ sg_offset sg); [|lia].
      subst sgs. apply list_elem_of_fmap in Hs as (j & -> & _).
      apply (proj1 (rd32_range _ _ (ee_byte s))).
    + lia.
    + intros w k Hw Hwk. apply X1; [by apply X0|done].
  - intros x Hx. transitivity (v_load8 s0 x); [|apply K0; [by apply Hm|tauto]].
    apply K1; [by apply K0, Hm|]. intros (sg & Hs & Hl & Hfx).
    rewrite Forall_forall in Hsegs. pose proof (so_apart _ _ _ _ (Hsegs sg Hs) Hl). lia.
Qed.

Lemma get16_bind {A} a (k : Z → M S A) s :
  (get16 a ≫= k) s = k (rd16 (v_load8 s) (u32 a)) s.
Proof using. done. Qed.

Lemma elf_ctx_load_ok ctx len top s :
  let n := rd16 (v_load8 s) (u32 (elf_hdr ctx + e_phnum)) in
  let sgs := read_phdrs (v_load8 s) (program_headers ctx) n in
  loadable ctx len n s →
  ∃ s', elf_ctx_load mmap on_load true ctx top s = Ok ((ELF_OK, ARCH_MAIN_THREAD_STACK_ADDR), s') ∧
    keeps mapped (λ x, ∃ sg, sg ∈ sgs ∧ file_byte sg x) s s' ∧
    (∀ sg i, sg ∈ sgs → loads sg = true → 0 ≤ i < sg_filesz sg →
       v_load8 s' (sg_vaddr sg + i) = v_load8 s (elf_hdr ctx + sg_offset sg + i)) ∧
    (∀ sg x, sg ∈ sgs → loads sg = true →
       sg_vaddr sg ≤ x < sg_vaddr sg + sg_memsz sg → mapped s' x) ∧
    (∀ x, STACK_BASE ≤ x < STACK_BASE + STACK_BYTES → writable s' x) ∧
    room s - (total_cost sgs + frames_for STACK_BYTES) ≤ room s'.
Proof using HE.
  intros n sgs Hlo. pose proof Hlo as [Him Hh Hp Hsegs Hcp Hst Hsa Hro].
  assert (Hn0 : 0 ≤ n).
  { subst n. unfold rd16. pose proof (ee_byte s (u32 (elf_hdr ctx + e_phnum))).
    pose proof (ee_byte s (u32 (u32 (elf_hdr ctx + e_phnum) + 1))). lia. }
  destruct (load_run ctx len n s Hn0 Hlo) as (s0 & s1 & E0 & E1 & [K1 V1 M1 R1 X1] & _).
  fold sgs in K1, V1, M1, R1, X1, Hro, Hsa, Hsegs.
  destruct (ee_mmap STACK_BASE STACK_BYTES (Z.lor PF_W PF_R) s1)
    as (r2 & s2 & E2 & K2 & _ & W2 & R2 & _); [|done|lia|].
  { apply X1; [done|]. apply Forall_impl with (1 := Hsa). intros sg H Hl. right. auto. }
  exists s2. split_and!.
  - unfold elf_ctx_load. cbn [negb]. rewrite get16_bind. fold n.
    rewrite (bind_Ok_M _ _ _ _ _ E0), (bind_Ok_M _ _ _ _ _ E1).
    by rewrite (bind_Ok_M _ _ _ _ _ E2).
  - eapply keeps_trans; [exact K1|exact K2|]. by intros x [?|[]].
  - intros sg i Hs Hl Hi. rewrite <-(V1 sg i Hs Hl Hi).
    apply K2; [|tauto]. apply (M1 sg); [done|done|].
    rewrite Forall_forall in Hsegs. pose proof (so_sizes _ _ _ _ (Hsegs sg Hs)) as Hsz.
    assert (sg_type sg = PT_LOAD); [|specialize (Hsz ltac:(done)); lia].
    unfold loads in Hl. by destruct (Z.eqb_spec (sg_type sg) PT_LOAD).
  - intros sg x Hs Hl Hx. apply K2. by apply (M1 sg).
  - by apply W2.
  - lia.
Qed.
End props.

(** ** What no step of the loader changes *)

Section stable.
Context {S : Type} `{!VMem S} (R : S → S → Prop) `{!PreOrder R}.
Context (mmap : Z → Z → Z → Z → M S Z) (on_load : M S unit).
Hypothesis Hmmap : ∀ p v n f, mstable R (mmap p v n f).
Hypothesis Hload : mstable R on_load.
Hypothesis Hstore : ∀ s a b s', v_store8 s a b = Ok s' → R s s'.

Lemma v_copy_stable n : ∀ dest src, mstable R (v_copy n dest src).
Proof using All.
  induction n as [|n IH]; intros dest src; [by apply mstable_ret|]. cbn [v_copy].
  apply mstable_bind; [done| |intros; apply IH].
  intros s [] s' H. destruct (v_store8 s dest (v_load8 s src)) as [s1| | | |] eqn:E; try done.
  injection H as <-. by eapply Hstore.
Qed.
Lemma load_phdr_stable ctx i : mstable R (load_phdr mmap ctx i).
Proof using All.
  unfold load_phdr, bad_alignment, c_mod, get32. cbv zeta.
  repeat first
    [ apply mstable_bind; [done| |intros]
    | apply mstable_gets; done | apply mstable_ret; done | apply mstable_ub
    | apply v_copy_stable | apply Hmmap
    | match goal with |- mstable _ (if ?b then _ else _) => destruct b end ].
Qed.
Lemma load_phdrs_stable ctx l : mstable R (load_phdrs mmap ctx l).
Proof using All.
  induction l as [|i l IH]; [by apply mstable_ret|]. cbn [load_phdrs].
  apply mstable_bind; [done|apply load_phdr_stable|]. intros [e|]; [by apply mstable_ret|exact IH].
Qed.
Lemma elf_ctx_load_stable b ctx top : mstable R (elf_ctx_load mmap on_load b ctx top).
Proof using All.
  unfold elf_ctx_load, get16. destruct (negb b); [by apply mstable_ret|].
  apply mstable_bind; [done|by apply mstable_gets|intros n].
  apply mstable_bind; [done|exact Hload|intros _].
  apply mstable_bind; [done|apply load_phdrs_stable|]. intros [e|]; [by apply mstable_ret|].
  apply mstable_bind; [done|apply Hmmap|intros]. by apply mstable_ret.
Qed.
End stable.

(** ** elf_ctx_create *)

Section create.
Context {S : Type} `{!VMem S}.

(** The tests in the order of the code, each with the code of its failure. *)
Definition header_checks (rd : Z → Z) (b : Z) : list (bool * ElfError) :=
  let byte i := rd (u32 (b + i)) in
  let half i := rd16 rd (u32 (b + i)) in
  [ (forallb (λ i, byte (Z.of_nat i) =? nth i elf_magic 0) (seq 0 4), ELF_INVALID_HDR);
    (byte 4 =? 1, ELF_UNSUPP_CLASS);
    (byte 5 =? 1, ELF_UNSUPP_BYTE_ORDER);
    (half 18 =? 3, ELF_UNSUPP_MACHINE);
    (byte 6 =? 1, ELF_UNSUPP_VERSION);
    ((half 16 =? 1) || (half 16 =? 2), ELF_INVALID_TYPE) ].
Definition header_code (rd : Z → Z) (b : Z) : ElfError :=
  default ELF_OK (snd <$> find (λ c, negb (fst c)) (header_checks rd b)).

(** The last section header that describes a symbol table *)
Definition symtab_index (rd : Z → Z) (sh n : Z) : option Z :=
  last (filter (λ i, rd32 rd (u32 (u32 (sh + 40 * i) + 4)) = SHT_SYMTAB) (seqZ 1 (n - 1))).

Definition header_ctx (rd : Z → Z) (b : Z) (ctx : elf_ctx_t) : elf_ctx_t :=
  let sh := u32 (b + rd32 rd (u32 (b + 32))) in
  let ph := u32 (b + rd32 rd (u32 (b + 28))) in
  match symtab_index rd sh (rd16 rd (u32 (b + 48))) with
  | Some i =>
      let shdr := u32 (sh + 40 * i) in
      ElfCtx b sh shdr (u32 (sh + 40 * rd32 rd (u32 (shdr + 24)))) ph (ctx_size ctx)
  | None => ElfCtx b sh (symbol_table ctx) (string_table ctx) ph (ctx_size ctx)
  end.

Lemma find_symtab_eq indices : ∀ ctx s,
  find_symtab indices ctx s = Ok (
    match last (filter (λ i, rd32 (v_load8 s) (u32 (u32 (section_headers ctx + 40 * i) + 4))
                             = SHT_SYMTAB) indices) with
    | Some i =>
        let shdr := u32 (section_headers ctx + 40 * i) in
        ElfCtx (elf_hdr ctx) (section_headers ctx) shdr
          (u32 (section_headers ctx + 40 * rd32 (v_load8 s) (u32 (shdr + 24))))
          (program_headers ctx) (ctx_size ctx)
    | None => ctx
    end, s).
Proof.
  induction indices as [|i l IH]; intros ctx s; [done|]. cbn [find_symtab].
  rewrite get32_bind. rewrite filter_cons. unfold sizeof_Elf_Shdr, sh_type, sh_link.
  destruct (Z.eqb_spec (rd32 (v_load8 s) (u32 (u32 (section_headers ctx + 40 * i) + 4))) SHT_SYMTAB)
    as [E|E].
  - rewrite get32_bind, IH. cbn [elf_hdr section_headers program_headers ctx_size].
    rewrite decide_True by done. rewrite last_cons.
    by destruct (last _).
  - rewrite decide_False by done. apply IH.
Qed.

Lemma elf_check_hdr_eq b s :
  elf_check_hdr b s =
    Ok (if forallb (λ i, v_load8 s (u32 (b + Z.of_nat i)) =? nth i elf_magic 0) (seq 0 4)
        then ELF_OK else ELF_INVALID_HDR, s).
Proof.
  unfold elf_check_hdr, elf_magic, check_magic, get8. mstep. cbn [seq forallb nth].
  change (b + Z.of_nat 0) with (b + 0). change (b + Z.of_nat 1) with (b + (0 + 1)).
  change (b + Z.of_nat 2) with (b + (0 + 1 + 1)). change (b + Z.of_nat 3) with (b + (0 + 1 + 1 + 1)).
  repeat (destruct (_ =? _); [cbn|done]). done.
Qed.

Lemma elf_check_arch_eq b s :
  elf_check_arch_supported b s =
    Ok (default ELF_OK (snd <$> find (λ c, negb (fst c)) (tail (header_checks (v_load8 s) b))), s).
Proof.
  unfold elf_check_arch_supported, get8, get16, header_checks. mstep. cbn [tail find fst].
  unfold EIDX_CLASS, ELFCLASS32, EIDX_BYTE_ORDER, ELFDATA2LSB, e_machine, EM_386, EIDX_VERSION,
    ARCH_ELF_TARGET_VERSION, e_type, ET_REL, ET_EXEC.
  destruct (v_load8 s (u32 (b + 4)) =? 1); [|done]. cbn [negb].
  destruct (v_load8 s (u32 (b + 5)) =? 1); [|done]. cbn [negb].
  destruct (rd16 (v_load8 s) (u32 (b + 18)) =? 3); [|done]. cbn [negb].
  destruct (v_load8 s (u32 (b + 6)) =? 1); [|done]. cbn [negb].
  by destruct (rd16 (v_load8 s) (u32 (b + 16)) =? 1), (rd16 (v_load8 s) (u32 (b + 16)) =? 2).
Qed.

Lemma header_code_eq (rd : Z → Z) b :
  header_code rd b =
    if forallb (λ i, rd (u32 (b + Z.of_nat i)) =? nth i elf_magic 0) (seq 0 4)
    then default ELF_OK (snd <$> find (λ c, negb (fst c)) (tail (header_checks rd b)))
    else ELF_INVALID_HDR.
Proof.
  unfold header_code. set (t := tail (header_checks rd b)).
  change (header_checks rd b) with (((forallb (λ i, rd (u32 (b + Z.of_nat i)) =?
    nth i elf_magic 0) (seq 0 4)), ELF_INVALID_HDR) :: t).
  set (magic := forallb _ _). cbn [find fst]. by destruct magic.
Qed.

Lemma elf_ctx_create_eq ctx buf size s :
  elf_ctx_create ctx buf size s =
    Ok ((header_code (v_load8 s) buf,
         if bool_decide (header_code (v_load8 s) buf = ELF_OK)
         then header_ctx (v_load8 s) buf ctx else ctx), s).
Proof.
  unfold elf_ctx_create. rewrite (bind_Ok_M _ _ _ _ _ (elf_check_hdr_eq buf s)).
  pose proof (header_code_eq (v_load8 s) buf) as Hc. cbv zeta in Hc.
  set (magic := forallb _ _) in *. destruct magic.
  2: { by rewrite Hc. }
  rewrite bool_decide_eq_true_2 by done. cbn [negb].
  rewrite (bind_Ok_M _ _ _ _ _ (elf_check_arch_eq buf s)), <-Hc.
  destruct (bool_decide_reflect (header_code (v_load8 s) buf = ELF_OK)) as [E|E]; [|done].
  rewrite E.
  cbn [negb]. unfold elf_get_sheader. unfold mbind at 1, M_bind at 1. rewrite get32_bind.
  cbn [mret M_ret]. rewrite get32_bind, get16_bind.
  rewrite (bind_Ok_M _ _ _ _ _ (find_symtab_eq _ _ _)). unfold mret, M_ret.
  unfold header_ctx, symtab_index, e_shoff, e_phoff, e_shnum. cbn [section_headers elf_hdr
    symbol_table string_table program_headers ctx_size].
  by destruct (last _).
Qed.
End create.

(** ** A concrete environment

    Bytes exist once they are requested; every non-empty request is served. *)
Section flat.
#[local] Instance flat_vmem : VMem mem := {
  v_load8 m x := u8 (default 0 (m !! x));
  v_store8 m x b :=
    match m !! x with Some _ => Ok (<[x := u8 b]> m) | None => UB "page fault" end;
}.
Definition flat_back (x : Z) (m : mem) : mem :=
  match m !! x with Some _ => m | None => <[x := 0]> m end.
Definition flat_mmap (paddr v n flags : Z) : M mem Z := λ m,
  Ok (0, foldr flat_back m (seqZ v n)).
Definition flat_on_load : M mem unit := mret tt.
Definition flat_mapped (m : mem) (x : Z) : Prop := is_Some (m !! x).
Definition flat_serves (m : mem) (v n : Z) : Prop := 0 < n.
Definition flat_room (m : mem) : Z := 1000000.

Lemma flat_back_lookup l (m : mem) x :
  foldr flat_back m l !! x =
    match m !! x with Some b => Some b | None => if decide (x ∈ l) then Some 0 else None end.
Proof.
  induction l as [|y l IH]; [|].
  { cbn [foldr]. destruct (m !! x) as [b|]; [done|].
    rewrite decide_False; [done|]. by intros ?%elem_of_nil. }
  cbn [foldr]. unfold flat_back at 1.
  destruct (decide (x = y)) as [->|Hne].
  - rewrite (decide_True (P := y ∈ y :: l)) by left.
    destruct (foldr flat_back m l !! y) as [b|] eqn:E.
    + rewrite E. rewrite IH in E. destruct (m !! y); [done|]. case_decide; congruence.
    + rewrite lookup_insert_eq. rewrite IH in E. by destruct (m !! y).
  - assert (Hl : match foldr flat_back m l !! y with
                 | Some _ => foldr flat_back m l
                 | None => <[y:=0]> (foldr flat_back m l)
                 end !! x = foldr flat_back m l !! x).
    { destruct (foldr flat_back m l !! y); [done|]. by rewrite lookup_insert_ne. }
    rewrite Hl, IH. destruct (m !! x); [done|].
    rewrite (decide_ext (x ∈ y :: l) (x ∈ l)); [done|]. rewrite elem_of_cons. naive_solver.
Qed.

#[local] Instance flat_env :
  ExecEnv flat_mmap flat_on_load flat_mapped flat_mapped flat_serves flat_room.
Proof.
  split.
  - intros v n flags m Hn _ _. exists 0, (foldr flat_back m (seqZ v n)). split; [done|].
    assert (Hin : ∀ x, v ≤ x < v + n → flat_mapped (foldr flat_back m (seqZ v n)) x).
    { intros x Hx. unfold flat_mapped. rewrite flat_back_lookup. destruct (m !! x); [done|].
      rewrite decide_True; [done|]. apply elem_of_seqZ. lia. }
    split_and!; [|done|done|unfold flat_room, frames_for, ARCH_PAGE_SIZE|done|done].
    + intros x [b Hb]. unfold flat_mapped. cbn [v_load8 flat_vmem].
      by rewrite flat_back_lookup, Hb.
    + unfold flat_serves in Hn. Z.to_euclidean_division_equations. lia.
  - intros m. exists m. split_and!; [done|intros x Hx; by split|done|done].
  - intros m a b [c Hc]. exists (<[a := u8 b]> m). cbn [v_store8 v_load8 flat_vmem].
    rewrite Hc. split_and!; try done.
    + intros x [d Hd]. unfold flat_mapped. cbn [v_load8 flat_vmem].
      destruct (decide (x = a)) as [->|Hx].
      * rewrite lookup_insert_eq. done.
      * rewrite lookup_insert_ne by done. split; [by rewrite Hd|done].
    + rewrite lookup_insert_eq. cbn. apply u8_idemp.
    + intros x [d Hd]. unfold flat_mapped. destruct (decide (x = a)) as [->|Hx].
      * by rewrite lookup_insert_eq.
      * by rewrite lookup_insert_ne, Hd.
  - done.
  - intros m x. cbn. apply u8_range.
Qed.

(** A module of 92 bytes: the header, one program header and eight bytes of
    code. *)
Definition demo_image : list Z :=
  [0x7F; 69; 76; 70; 1; 1; 1; 0; 0; 0; 0; 0; 0; 0; 0; 0; 2; 0; 3; 0; 1; 0; 0; 0;
   0; 0; 0x40; 0; 52; 0; 0; 0; 0; 0; 0; 0; 0; 0; 0; 0; 52; 0; 32; 0; 1; 0; 40; 0; 0; 0; 0; 0] ++
  [1; 0; 0; 0; 84; 0; 0; 0; 0; 0; 0x40; 0; 0; 0; 0x40; 0; 8; 0; 0; 0; 0; 0x10; 0; 0; 5; 0; 0; 0;
   0; 0x10; 0; 0] ++ [0xB8; 1; 0; 0; 0; 0xEB; 0xFE; 0x90].
Definition demo_mem : mem := list_to_map (zip (seqZ 0x1000 92) demo_image).
Definition demo_ctx : elf_ctx_t := ElfCtx 0x1000 0x1000 0 0 0x1034 0.

Lemma demo_mapped_in x : 0x1000 ≤ x < 0x1000 + 92 → flat_mapped demo_mem x.
Proof.
  intros Hx. unfold flat_mapped, demo_mem.
  destruct (list_to_map _ !! x) as [b|] eqn:E; [done|].
  apply not_elem_of_list_to_map_2 in E. contradict E.
  rewrite fst_zip by (vm_compute; lia). apply elem_of_seqZ. lia.
Qed.

Lemma demo_seg :
  read_phdrs (v_load8 demo_mem) 0x1034 1 = [Segment 1 84 0x400000 8 0x1000 5 0x1000].
Proof. vm_compute. reflexivity. Qed.

Lemma demo_loadable :
  loadable (mapped := flat_mapped) (serves := flat_serves) (room := flat_room)
    demo_ctx 92 1 demo_mem.
Proof.
  split; cbn [elf_hdr program_headers demo_ctx]; rewrite ?demo_seg.
  - split; [done|done|]. intros x Hx. by apply demo_mapped_in.
  - done.
  - unfold sizeof_Elf_Phdr. lia.
  - apply Forall_singleton. split; intros _; vm_compute; intuition congruence.
  - split; [apply Forall_nil_2|done].
  - by vm_compute.
  - apply Forall_singleton. intros _. left. by vm_compute.
  - by vm_compute.
Qed.
End flat.

(** ** Properties *)

(** C11. elf_ctx_load loads a well-formed module: against any environment that
    serves its mapping requests it returns ELF_OK and the stack top, every byte
    the file gives a PT_LOAD segment is then found at its virtual address, each
    such segment is mapped to its full memory size, the stack is mapped
    writable, and every other byte that was mapped before, the module included,
    is still mapped and unchanged. *)
Theorem elf_ctx_load_loads {S} `{!VMem S} (mmap : Z → Z → Z → Z → M S Z) (on_load : M S unit)
    (mapped writable : S → Z → Prop) (serves : S → Z → Z → Prop) (room : S → Z)
    (HE : ExecEnv mmap on_load mapped writable serves room)
    (ctx : elf_ctx_t) (len top : Z) (s : S) :
  let n := rd16 (v_load8 s) (u32 (elf_hdr ctx + e_phnum)) in
  let sgs := read_phdrs (v_load8 s) (program_headers ctx) n in
  loadable (mapped := mapped) (serves := serves) (room := room) ctx len n s →
  ∃ s', elf_ctx_load mmap on_load true ctx top s = Ok ((ELF_OK, ARCH_MAIN_THREAD_STACK_ADDR), s') ∧
    keeps mapped (λ x, ∃ sg, sg ∈ sgs ∧ file_byte sg x) s s' ∧
    (∀ sg i, sg ∈ sgs → loads sg = true → 0 ≤ i < sg_filesz sg →
       v_load8 s' (sg_vaddr sg + i) = v_load8 s (elf_hdr ctx + sg_offset sg + i)) ∧
    (∀ sg x, sg ∈ sgs → loads sg = true →
       sg_vaddr sg ≤ x < sg_vaddr sg + sg_memsz sg → mapped s' x) ∧
    (∀ x, STACK_BASE ≤ x < STACK_BASE + STACK_BYTES → writable s' x).
Proof.
  intros n sgs Hlo. destruct (elf_ctx_load_ok ctx len top s Hlo) as (s' & H1 & H2 & H3 & H4 & H5 & _).
  by exists s'.
Qed.
Lemma elf_ctx_load_loads_witness :
  ∃ s', elf_ctx_load (VMem0 := flat_vmem) flat_mmap flat_on_load true demo_ctx 0 demo_mem =
          Ok ((ELF_OK, 0x80000000), s') ∧
    v_load8 (VMem := flat_vmem) s' 0x400005 = 0xEB.
Proof.
  destruct (elf_ctx_load_loads (VMem0 := flat_vmem) flat_mmap flat_on_load flat_mapped flat_mapped
    flat_serves flat_room flat_env demo_ctx 92 0 demo_mem) as (s' & H1 & _ & H2 & _).
  - exact demo_loadable.
  - exists s'. split; [exact H1|].
    transitivity (v_load8 (VMem := flat_vmem) demo_mem (0x1000 + 84 + 5)); [|vm_compute; reflexivity].
    apply (H2 (Segment 1 84 0x400000 8 0x1000 5 0x1000) 5).
    + vm_compute. left.
    + reflexivity.
    + cbn. lia.
Defined.

(** Elf_ctx_load rejects a PT_LOAD header with more file bytes than memory
    by ELF_INVALID_PH and without a stack: the segments before it stay loaded,
    the recorded stack top and the module are unchanged. *)
Theorem elf_ctx_load_rejects {S} `{!VMem S} (mmap : Z → Z → Z → Z → M S Z) (on_load : M S unit)
    (mapped writable : S → Z → Prop) (serves : S → Z → Z → Prop) (room : S → Z)
    (HE : ExecEnv mmap on_load mapped writable serves room)
    (ctx : elf_ctx_t) (len top k : Z) (s : S) :
  let n := rd16 (v_load8 s) (u32 (elf_hdr ctx + e_phnum)) in
  let sgs := read_phdrs (v_load8 s) (program_headers ctx) k in
  let bad := read_phdr (v_load8 s) (u32 (program_headers ctx + sizeof_Elf_Phdr * k)) in
  0 ≤ k < n → loadable (mapped := mapped) (serves := serves) (room := room) ctx len k s →
  program_headers ctx + sizeof_Elf_Phdr * (k + 1) ≤ elf_hdr ctx + len →
  sg_type bad = PT_LOAD → sg_memsz bad < sg_filesz bad →
  ∃ s', elf_ctx_load mmap on_load true ctx top s = Ok ((ELF_INVALID_PH, top), s') ∧
    (∀ sg i, sg ∈ sgs → loads sg = true → 0 ≤ i < sg_filesz sg →
       v_load8 s' (sg_vaddr sg + i) = v_load8 s (elf_hdr ctx + sg_offset sg + i)) ∧
    (∀ x, elf_hdr ctx ≤ x < elf_hdr ctx + len → v_load8 s' x = v_load8 s x).
Proof.
  intros n sgs bad Hk Hlo Hp Ht Hsz.
  destruct (load_run ctx len k s (proj1 Hk) Hlo) as (s0 & s1 & E0 & E1 & Hal & Hsame).
  exists s1. split_and!; [|by apply Hal|done].
  assert (Hbad : sg_at ctx s1 k = bad).
  { destruct Hlo as [[Hb0 Hb1 _] _ [Hp1 _] _ _ _ _ _]. unfold sizeof_Elf_Phdr in *.
    subst bad. unfold sg_at, phdr_at, sizeof_Elf_Phdr. rewrite u32_small by lia.
    apply read_phdr_ext; [lia|lia|]. intros x Hx. apply Hsame. lia. }
  unfold elf_ctx_load. cbn [negb]. rewrite get16_bind. fold n.
  rewrite (bind_Ok_M _ _ _ _ _ E0).
  assert (E : load_phdrs mmap ctx (seqZ 0 n) s0 = Ok (Some ELF_INVALID_PH, s1)).
  { replace (seqZ 0 n) with (seqZ 0 k ++ k :: seqZ (k + 1) (n - k - 1)).
    - apply load_phdrs_reject; by rewrite ?Hbad.
    - replace n with (k + (n - k)) at 2 by lia. rewrite seqZ_app by lia. f_equal.
      rewrite Z.add_0_l, (seqZ_cons k) by lia. f_equal; lia. }
  by rewrite (bind_Ok_M _ _ _ _ _ E).
Qed.
(** The module with a file size of 0x2008 bytes: its first header is rejected. *)
Definition demo_bad_mem : mem := <[0x1045 := 0x20]> demo_mem.
Lemma elf_ctx_load_rejects_witness :
  ∃ s', elf_ctx_load (VMem0 := flat_vmem) flat_mmap flat_on_load true demo_ctx 7 demo_bad_mem =
          Ok ((ELF_INVALID_PH, 7), s').
Proof.
  destruct (elf_ctx_load_rejects (VMem0 := flat_vmem) flat_mmap flat_on_load flat_mapped flat_mapped
    flat_serves flat_room flat_env demo_ctx 92 7 0 demo_bad_mem) as (s' & H1 & _).
  - vm_compute. split; congruence.
  - split; cbn [elf_hdr program_headers demo_ctx].
    + split; [done|done|]. intros x Hx. unfold flat_mapped, demo_bad_mem.
      destruct (decide (x = 0x1045)) as [->|Hne]; [by rewrite lookup_insert_eq|].
      rewrite lookup_insert_ne by done. by apply demo_mapped_in.
    + done.
    + unfold sizeof_Elf_Phdr. lia.
    + apply Forall_nil_2.
    + exact I.
    + vm_compute. reflexivity.
    + apply Forall_nil_2.
    + vm_compute. congruence.
  - unfold sizeof_Elf_Phdr. cbn. lia.
  - vm_compute. reflexivity.
  - vm_compute. reflexivity.
  - exists s'. exact H1.
Defined.

(** C21. elf_ctx_create returns the code of the first test, in their order, that
    the header fails, and ELF_OK if there is none; only then is the context
    filled, with the header tables at their offsets and the last symbol table
    section with the string table it links to. The size of the buffer plays no
    part. *)
Theorem elf_ctx_create_checks {S} `{!VMem S} (ctx : elf_ctx_t) (buf size : Z) (s : S) :
  elf_ctx_create ctx buf size s =
    Ok ((header_code (v_load8 s) buf,
         if bool_decide (header_code (v_load8 s) buf = ELF_OK)
         then header_ctx (v_load8 s) buf ctx else ctx), s).
Proof. apply elf_ctx_create_eq. Qed.

(** C39. What the tests of a PT_LOAD header with sizes in order do not catch:
    an alignment of 0 is divided by; every other alignment passes, however the
    address and the offset are aligned; and a segment without file bytes is
    skipped, so that its memory is never mapped. *)
Theorem load_phdr_gaps {S} `{!VMem S} (mmap : Z → Z → Z → Z → M S Z) (on_load : M S unit)
    (mapped writable : S → Z → Prop) (serves : S → Z → Z → Prop) (room : S → Z)
    (HE : ExecEnv mmap on_load mapped writable serves room) (ctx : elf_ctx_t) (i : Z) (s : S) :
  let phdr := u32 (program_headers ctx + sizeof_Elf_Phdr * i) in
  let sg := read_phdr (v_load8 s) phdr in
  sg_type sg = PT_LOAD → sg_filesz sg ≤ sg_memsz sg →
  (sg_align sg = 0 → load_phdr mmap ctx i s = UB "modulo zero") ∧
  (sg_align sg ≠ 0 → bad_alignment phdr s = Ok (false, s)) ∧
  (sg_align sg ≠ 0 → sg_filesz sg = 0 → load_phdr mmap ctx i s = Ok (None, s)).
Proof.
  intros phdr sg Ht Hsz.
  pose proof (load_phdr_eq ctx i s) as Hl. cbv zeta in Hl. fold phdr in Hl. fold sg in Hl.
  rewrite Ht in Hl. cbn [negb Z.eqb PT_LOAD Pos.eqb] in Hl.
  destruct (Z.gtb_spec (sg_filesz sg) (sg_memsz sg)); [lia|]. split_and!.
  - intros E. rewrite Hl, E. done.
  - intros E. pose proof (bad_alignment_eq phdr s) as Hb. fold sg in Hb.
    by rewrite (proj2 (Z.eqb_neq _ _) E) in Hb.
  - intros E1 E2. rewrite Hl, E2, (proj2 (Z.eqb_neq _ _) E1). done.
Qed.
(** The module with the file size set to 0: nothing is mapped for its 4096
    bytes. *)
Lemma load_phdr_gaps_witness :
  load_phdr (VMem0 := flat_vmem) flat_mmap demo_ctx 0 (<[0x1044 := 0]> demo_mem) =
    Ok (None, <[0x1044 := 0]> demo_mem).
Proof.
  apply (load_phdr_gaps (VMem0 := flat_vmem) flat_mmap flat_on_load flat_mapped flat_mapped
    flat_serves flat_room flat_env demo_ctx 0 (<[0x1044 := 0]> demo_mem)).
  all: vm_compute; congruence.
Defined.
