(* ===== verification/ElfSpace.v ===== *)
(** * ElfSpace: loading a module into a real address space

    The interface the module loader relies on, [ExecEnv], is met by the page
    tables: virtual memory is read through the walk of the memory management
    unit, and the mapping callback is bootstrap_elf_mmap. The interface is met
    on a set [L] of pages, the ones the loader uses; other mappings of the same
    directory (the kernel's, the identity mapping of the page tables) may alias
    frames and are left alone. *)

From S2P Require Import Prelude Machine ArchPaging KInfo Exec Paging PagingInv PagingProps Space Elf ElfProps.

(** ** Protection bits *)

Lemma land_pow2_bit f k : 0 ≤ k → Z.land f (2 ^ k) = if Z.testbit f k then 2 ^ k else 0.
Proof.
  intros Hk. apply Z.bits_inj'. intros n Hn. rewrite Z.land_spec, Z.pow2_bits_eqb by done.
  destruct (Z.eqb_spec k n) as [->|Hne].
  - destruct (Z.testbit f n) eqn:E; [by rewrite Z.pow2_bits_true|by rewrite Z.bits_0].
  - rewrite andb_false_r. destruct (Z.testbit f k); [|by rewrite Z.bits_0].
    by rewrite Z.pow2_bits_false.
Qed.

(** Readable or writable segments are present, writable ones are writable. *)
Lemma elf_flags_bits flags :
  let g := mmap_flags (elf_prot flags) in
  (Z.land flags (Z.lor PF_W PF_R) ≠ 0 → Z.testbit g 0 = true) ∧
  (Z.testbit flags 1 = true → Z.testbit g 1 = true).
Proof.
  unfold elf_prot, PF_X, PF_W, PF_R.
  pose proof (land_pow2_bit flags 0 ltac:(lia)) as E0. pose proof (land_pow2_bit flags 1 ltac:(lia)) as E1.
  pose proof (land_pow2_bit flags 2 ltac:(lia)) as E2.
  change (2 ^ 0) with 1 in E0. change (2 ^ 1) with 2 in E1. change (2 ^ 2) with 4 in E2.
  change (Z.lor 2 4) with (Z.lor 2 4). rewrite Z.land_lor_distr_r, E0, E1, E2.
  destruct (Z.testbit flags 0), (Z.testbit flags 1), (Z.testbit flags 2); vm_compute;
    split; congruence.
Qed.

(** ** The state of an address space the loader works in *)

Section env.
(** The module's directory; the loader's pages, among them the module's own; the
    private memory, from the directory to the end of the free frames; the memory
    before the module is loaded *)
Context (debug : bool) (info : exec_info) (L U : Z → Prop) (lo hi : Z) (m0 : mem).
Abbreviation pd := (page_directory_of info).

Definition free_addr (s : paging_st) : Z :=
  match memmaps (p_kinfo s) with e :: _ => mm_addr e | [] => 0 end.
Definition free_frames (s : paging_st) : Z := (hi - free_addr s) / 4096.

(** The frame of page [v] *)
Definition frame (m : mem) (v : Z) : Z := Z.land (epte pd m v) ARCH_PAGE_MASK.

(** Two pages of memory that do not overlap *)
Definition pages_apart (f g : Z) : Prop := f + 4096 ≤ g ∨ g + 4096 ≤ f.

(** The loader's pages are present, in frames of their own, outside the free
    frames and the paging structures. *)
Record frames_ok (s : paging_st) : Prop := {
  fo_page v : L v → 0 ≤ v < 1048576 → epte pd (p_mem s) v ≠ 0 →
    Z.testbit (epte pd (p_mem s) v) 0 = true ∧
    (frame (p_mem s) v + 4096 ≤ free_addr s ∨ hi ≤ frame (p_mem s) v) ∧
    pages_apart (frame (p_mem s) v) pd ∧
    ∀ i, 0 ≤ i < 1024 → pde pd (p_mem s) i ≠ 0 →
      pages_apart (frame (p_mem s) v) (table pd (p_mem s) i);
  fo_user v : L v → U v → 0 ≤ v < 1048576 → epte pd (p_mem s) v ≠ 0 →
    lo ≤ frame (p_mem s) v ∧ frame (p_mem s) v + 4096 ≤ free_addr s;
  fo_inj v w : L v → L w → 0 ≤ v < 1048576 → 0 ≤ w < 1048576 →
    epte pd (p_mem s) v ≠ 0 → epte pd (p_mem s) w ≠ 0 → v ≠ w →
    frame (p_mem s) v ≠ frame (p_mem s) w;
}.
Record env_inv (s : paging_st) : Prop := {
  ei_space : space pd s (free_addr s) (free_frames s);
  ei_hi : free_addr s + 4096 * free_frames s = hi;
  ei_frames : frames_ok s;
  ei_pd : lo ≤ pd ∧ pd + 4096 ≤ free_addr s;
  ei_tables v : U v → 0 ≤ v < 1048576 → pde pd (p_mem s) (v / 1024) ≠ 0 →
    lo ≤ table pd (p_mem s) (v / 1024) ∧ table pd (p_mem s) (v / 1024) + 4096 ≤ free_addr s;
  ei_rest x : 0 ≤ x < 4294967296 → ¬ lo ≤ x < hi → load8 (p_mem s) x = load8 m0 x;
  ei_old i : 0 ≤ i < 1024 → pde pd m0 i ≠ 0 → pde pd (p_mem s) i = pde pd m0 i;
}.

Definition mapped (s : paging_st) (x : Z) : Prop :=
  env_inv s ∧ 0 ≤ x < 4294967296 ∧ L (x / 4096) ∧ epte pd (p_mem s) (x / 4096) ≠ 0.
Definition writable (s : paging_st) (x : Z) : Prop :=
  mapped s x ∧ U (x / 4096) ∧ Z.testbit (epte pd (p_mem s) (x / 4096)) 1 = true.
(** Requests below 4 MB: for larger ones the first loop of bootstrap_mmap may
    make a table more than the pages need. *)
Record serves (s : paging_st) (v n : Z) : Prop := {
  sv_inv : env_inv s;
  sv_req : request 0 v n;
  sv_small : n < 4194304;
  sv_pages : ∀ w, v / 4096 ≤ w < v / 4096 + n / 4096 → L w ∧ U w;
  sv_range : v / 4096 / 1024 + 2 ≤ 1024;
  sv_cover : mmap_covered info v n s;
}.

(** Virtual memory is physical memory through the walk. *)
Definition paging_vmem : VMem paging_st := {|
  v_load8 s x :=
    match mmu_walk (p_mem s) pd (x / 4096) with
    | Some (f, _) => load8 (p_mem s) (f + x mod 4096)
    | None => 0
    end;
  v_store8 s x b :=
    match mmu_walk (p_mem s) pd (x / 4096) with
    | Some (f, fl) =>
        if Z.testbit fl 1 then Ok (p_with_mem (λ m, store8 m (f + x mod 4096) b) s)
        else UB "page fault"
    | None => UB "page fault"
    end;
|}.
#[local] Existing Instance paging_vmem.

Lemma frame_page m v : frame m v mod 4096 = 0 ∧ 0 ≤ frame m v ∧ frame m v + 4096 ≤ 4294967296.
Proof using.
  unfold frame. rewrite land_page_mask. pose proof (u32_range (epte pd m v)) as H.
  revert H. generalize (u32 (epte pd m v)). clear. intros z H.
  Z.to_euclidean_division_equations. lia.
Qed.

Lemma page_of x : 0 ≤ x < 4294967296 → 0 ≤ x / 4096 < 1048576 ∧ 0 ≤ x mod 4096 < 4096.
Proof using. clear. intros. Z.to_euclidean_division_equations. lia. Qed.

Lemma mapped_walk s x : mapped s x →
  mmu_walk (p_mem s) pd (x / 4096) =
    Some (frame (p_mem s) (x / 4096), epte pd (p_mem s) (x / 4096) mod 4096).
Proof using.
  intros ([[_ Hdir] _ Hf] & Hx & HL & Hz). destruct (page_of x Hx) as [Hv _].
  rewrite (walk_epte _ _ _ _ _ _ _ Hdir) by (clear -Hv; Z.to_euclidean_division_equations; lia).
  unfold walk_entry. by destruct (fo_page _ Hf _ HL Hv Hz) as [-> _].
Qed.

Lemma mapped_load s x : mapped s x →
  v_load8 s x = load8 (p_mem s) (frame (p_mem s) (x / 4096) + x mod 4096).
Proof using. intros H. cbn [v_load8 paging_vmem]. by rewrite mapped_walk. Qed.

(** A byte of a loader's page is no byte of a table or a free frame. *)
Lemma mapped_outside s x n : mapped s x → 4096 * n ≤ 4096 * free_frames s →
  ¬ structural pd (p_mem s) (frame (p_mem s) (x / 4096) + x mod 4096) ∧
  ¬ within (free_addr s) (4096 * n) (frame (p_mem s) (x / 4096) + x mod 4096).
Proof using.
  intros ([[[_ (A0 & _ & Ae & _)] Hdir] Hh Hf] & Hx & HL & Hz) Hn.
  destruct (page_of x Hx) as [Hv Ho]. destruct (frame_page (p_mem s) (x / 4096)) as (_ & F0 & Fe).
  destruct (fo_page _ Hf _ HL Hv Hz) as (_ & Hfr & Hp & Ht). set (f := frame _ _) in *.
  set (o := x mod 4096) in *. destruct (dir_pd _ _ _ _ _ _ Hdir) as (P0 & Pe & _). split.
  - intros [Hw|(i & Hi & Hzi & Hw)].
    + unfold pages_apart in Hp. clear -Hw Hp Ho F0 Fe P0 Pe. unfold within in Hw. wrap_lia.
    + specialize (Ht i Hi Hzi). destruct (table_page pd (p_mem s) i) as (_ & T0 & Te).
      unfold pages_apart in Ht. clear -Hw Ht Ho F0 Fe T0 Te. unfold within in Hw. wrap_lia.
  - intros Hw. clear -Hw Hfr Ho F0 Fe A0 Ae Hh Hn. unfold within in Hw. wrap_lia.
Qed.

(** ** One mapping call *)

Lemma free_before_lt m v0 i j :
  0 ≤ i < j → epte pd m (v0 + i) = 0 → free_before pd m v0 i < free_before pd m v0 j.
Proof using.
  intros Hij Hz. unfold free_before.
  replace j with (i + (1 + (j - i - 1))) by lia. rewrite (seqZ_app v0) by lia.
  rewrite (seqZ_app (v0 + i)) by lia. rewrite !filter_app, !length_app.
  rewrite (seqZ_cons (v0 + i) 1), (seqZ_nil _ (Z.pred 1)) by lia.
  rewrite filter_cons_True by done. simpl. lia.
Qed.

Section call.
Context (v n flags : Z) (s : paging_st).
Hypothesis Hs : serves s v n.
Hypothesis Hroom : frames_for n ≤ free_frames s.
Hypothesis Hfl : Z.land flags (Z.lor PF_W PF_R) ≠ 0.
Abbreviation A := (free_addr s).
Abbreviation N := (n / 4096).
Abbreviation v0 := (v / 4096).
Abbreviation A1 := (mmap_A info v n s A).
Abbreviation after := (mapped_in info PAGE_ALLOCATE v n (elf_prot flags) s A (free_frames s)).

Lemma mmap_call :
  ∃ s' u, bootstrap_elf_mmap debug info PAGE_ALLOCATE v n flags s = Ok (0, s') ∧ after s' u.
Proof using Hs Hroom.
  destruct Hs as [Hinv Hreq Hsm _ Hr Hc].
  destruct (mmap_counts info 0 v n s Hreq) as (_ & En & Hv0 & HN & Hve & _ & _ & Hk1 & Hk2).
  assert (EN : N / 1024 = 0) by (apply Z.div_small; lia). rewrite EN in Hk2.
  unfold frames_for, ARCH_PAGE_SIZE in Hroom.
  assert (0 ≤ n / 4194304) by (apply Z.div_pos; lia).
  apply space_mmap; [apply (ei_space _ Hinv)|]. constructor; [done|lia|lia|done].
Qed.

Section effect.
Context (s' : paging_st) (u : Z) (M : after s' u).

Lemma free_after : free_addr s' = A + 4096 * u ∧ free_frames s' = free_frames s - u ∧
  0 ≤ u ≤ frames_for n.
Proof using Hs M.
  destruct Hs as [[_ Hh _] Hreq Hsm _ _ _].
  destruct (mmap_counts info 0 v n s Hreq) as (_ & En & _ & HN & _ & _ & _ & _ & Hk2).
  assert (EN : N / 1024 = 0) by (apply Z.div_small; lia). rewrite EN in Hk2.
  destruct (sup_entry _ _ _ (sp_supply _ _ _ _ (mo_space _ _ _ _ _ _ _ _ _ _ M)))
    as (e & rest & Em & Ea & _).
  assert (E : free_addr s' = A + 4096 * u) by (unfold free_addr; by rewrite Em).
  pose proof (mo_used _ _ _ _ _ _ _ _ _ _ M) as Hu.
  split_and!; [done| |lia|].
  - unfold free_frames at 1. rewrite E. rewrite <-Hh at 1.
    replace (A + 4096 * free_frames s - (A + 4096 * u)) with ((free_frames s - u) * 4096) by lia.
    by rewrite Z.div_mul.
  - unfold frames_for, ARCH_PAGE_SIZE. assert (0 ≤ n / 4194304) by (apply Z.div_pos; lia). lia.
Qed.

(** An entry of the range afterwards *)
Lemma range_entry j : 0 ≤ j < N →
  let f := mapped_frame pd (p_mem s) PAGE_ALLOCATE A1 v0 j in
  (epte pd (p_mem s) (v0 + j) = 0 → f = A1 + 4096 * free_before pd (p_mem s) v0 j ∧
     A1 ≤ f ∧ f + 4096 ≤ free_addr s') ∧
  (epte pd (p_mem s) (v0 + j) ≠ 0 → f = frame (p_mem s) (v0 + j)) ∧
  epte pd (p_mem s') (v0 + j) ≠ 0 ∧ frame (p_mem s') (v0 + j) = f ∧
  Z.testbit (epte pd (p_mem s') (v0 + j)) 0 = true ∧
  epte pd (p_mem s') (v0 + j) mod 4096 = mmap_flags (elf_prot flags).
Proof using Hs M Hfl.
  intros Hj f. destruct free_after as (Ef & _ & _).
  pose proof (mo_take _ _ _ _ _ _ _ _ _ _ M eq_refl) as Htk.
  pose proof (mo_space _ _ _ _ _ _ _ _ _ _ M) as [[_ (_ & _ & Hue & Hu0)] _].
  destruct Hs as [[[[_ (A0 & Am & _)] _] _ _] _ _ _ _ _].
  assert (HA1 : A ≤ A1 ∧ A1 mod 4096 = 0).
  { unfold mmap_A, missing. split; [lia|]. clear -Am. Z.to_euclidean_division_equations. lia. }
  assert (Hz : epte pd (p_mem s) (v0 + j) = 0 → f = A1 + 4096 * free_before pd (p_mem s) v0 j ∧
     A1 ≤ f ∧ f + 4096 ≤ free_addr s').
  { intros Ez. subst f. unfold mapped_frame. rewrite decide_True by done. simpl.
    pose proof (free_before_lt (p_mem s) v0 j N Hj Ez).
    assert (0 ≤ free_before pd (p_mem s) v0 j) by (unfold free_before; lia).
    rewrite Ef, <-Htk. split; [done|]. lia. }
  assert (Hnz : epte pd (p_mem s) (v0 + j) ≠ 0 → f = frame (p_mem s) (v0 + j)).
  { intros Ez. subst f. unfold mapped_frame. by rewrite decide_False. }
  assert (Hfr : f mod 4096 = 0 ∧ 0 ≤ f < 4294967296).
  { destruct (decide (epte pd (p_mem s) (v0 + j) = 0)) as [Ez|Ez].
    - destruct (Hz Ez) as (E & E1 & E2). split; [|lia]. rewrite E.
      destruct HA1 as [_ Hm]. clear -Hm. Z.to_euclidean_division_equations. lia.
    - rewrite (Hnz Ez). destruct (frame_page (p_mem s) (v0 + j)) as (? & ? & ?). split; [done|lia]. }
  pose proof (mmap_flags_range (elf_prot flags)) as Hg.
  destruct (elf_flags_bits flags) as [Hb _]. specialize (Hb Hfl).
  pose proof (mo_in _ _ _ _ _ _ _ _ _ _ M j Hj) as E. fold f in E.
  destruct (entry_parts f (mmap_flags (elf_prot flags))) as (_ & E1 & E2 & E3); [lia|apply Hfr|done|].
  split; [done|]. split; [done|]. rewrite E. unfold frame. rewrite E, E1, E2, E3, Hb.
  split_and!; try done. intros E0. rewrite E0 in E3. rewrite Hb in E3. done.
Qed.

(** A page keeps the frame it has. *)
Lemma page_kept w : 0 ≤ w < 1048576 → L w → epte pd (p_mem s) w ≠ 0 →
  epte pd (p_mem s') w ≠ 0 ∧ frame (p_mem s') w = frame (p_mem s) w ∧
  Z.testbit (epte pd (p_mem s') w) 0 = true.
Proof using Hs M Hfl.
  intros Hw HL Hz. destruct (decide (v0 ≤ w < v0 + N)) as [Hin|Hout].
  - destruct (range_entry (w - v0) ltac:(lia)) as (_ & H2 & H3 & H4 & H5 & _).
    replace (v0 + (w - v0)) with w in * by lia. rewrite H4, (H2 Hz). done.
  - pose proof (mo_out _ _ _ _ _ _ _ _ _ _ M w Hw ltac:(lia)) as E. unfold frame. rewrite E.
    split_and!; [done..|]. destruct Hs as [[_ _ Hf] _ _ _ _ _]. by apply (fo_page _ Hf).
Qed.

(** A page that gets its entry gets one of the frames taken. *)
Lemma page_new w : 0 ≤ w < 1048576 → epte pd (p_mem s) w = 0 → epte pd (p_mem s') w ≠ 0 →
  v0 ≤ w < v0 + N ∧ Z.testbit (epte pd (p_mem s') w) 0 = true ∧
  frame (p_mem s') w = A1 + 4096 * free_before pd (p_mem s) v0 (w - v0) ∧
  A1 ≤ frame (p_mem s') w ∧ frame (p_mem s') w + 4096 ≤ free_addr s'.
Proof using Hs M Hfl.
  intros Hw Hz Hnz. destruct (decide (v0 ≤ w < v0 + N)) as [Hin|Hout].
  - destruct (range_entry (w - v0) ltac:(lia)) as (H1 & _ & _ & H4 & H5 & _).
    replace (v0 + (w - v0)) with w in * by lia. rewrite H4.
    destruct (H1 Hz) as (-> & ? & ?). done.
  - rewrite (mo_out _ _ _ _ _ _ _ _ _ _ M w Hw ltac:(lia)) in Hnz. done.
Qed.

(** The tables afterwards are the old ones or were made of free frames. *)
Lemma table_after i : 0 ≤ i < 1024 → pde pd (p_mem s') i ≠ 0 →
  (pde pd (p_mem s) i ≠ 0 ∧ table pd (p_mem s') i = table pd (p_mem s) i) ∨
  (A ≤ table pd (p_mem s') i ∧ table pd (p_mem s') i + 4096 ≤ A1).
Proof using Hs M.
  intros Hi Hz. destruct (decide (pde pd (p_mem s) i = 0)) as [E|E].
  - right. by destruct (mo_new _ _ _ _ _ _ _ _ _ _ M i Hi E Hz) as (_ & ? & ?).
  - left. split; [done|]. apply table_same. by apply (mo_old _ _ _ _ _ _ _ _ _ _ M).
Qed.

(** Below 4 MB no table is made beyond the pages. *)
Lemma tables_in_span : mmap_k info v n s = mmap_span v n.
Proof using Hs.
  destruct Hs as [_ Hreq Hsm _ _ _]. unfold mmap_k.
  destruct (mmap_counts info 0 v n s Hreq) as (Ev & En & Hv0 & HN & Hve & Hsp & _).
  pose proof (mmap_tables_eq (p_mem s) pd v0 N Hv0 HN Hve) as EK. rewrite <-Ev, <-En in EK.
  assert (EN : N / 1024 = 0) by (apply Z.div_small; lia). rewrite EN in EK.
  assert (HN4 : N < 1024) by lia. apply Z.max_l. rewrite EK. unfold mmap_span in *.
  destruct (v0 mod 1024 + N >? 1024) eqn:E1; [|destruct (_ =? 0); lia].
  apply Z.gtb_lt in E1.
  assert ((v0 + N - 1) / 1024 - v0 / 1024 + 1 = 2)
    by (clear -E1 HN HN4 Hv0; Z.to_euclidean_division_equations; lia).
  destruct (_ =? 0); lia.
Qed.

(** Every directory entry of the range covers a page of the range. *)
Lemma range_user i : v0 / 1024 ≤ i < v0 / 1024 + mmap_k info v n s →
  ∃ w, U w ∧ 0 ≤ w < 1048576 ∧ w / 1024 = i.
Proof using Hs.
  intros Hi. rewrite tables_in_span in Hi. unfold mmap_span in Hi.
  destruct Hs as [_ Hreq _ HL _ _].
  destruct (mmap_counts info 0 v n s Hreq) as (Ev & En & Hv0 & HN & Hve & _).
  exists (Z.max v0 (1024 * i)).
  assert (v0 ≤ Z.max v0 (1024 * i) < v0 + N ∧ Z.max v0 (1024 * i) / 1024 = i) as [Hw Hd]
    by (clear -Hi Hv0 HN; Z.to_euclidean_division_equations; lia).
  split; [by apply HL|]. split; [lia|done].
Qed.

(** What the call changes is private. *)
Lemma rest_after x : 0 ≤ x < 4294967296 → ¬ lo ≤ x < hi → load8 (p_mem s') x = load8 m0 x.
Proof using Hs M.
  intros Hx Hout. destruct free_after as (EA & En & Hu & _). pose proof Hs as [Hinv Hreq _ _ _ _].
  pose proof Hinv as [[[_ (B0 & _)] Hdir] Hh _ [Hlo Hpd] Ht Hr _].
  rewrite <-(Hr x Hx Hout). destruct (dir_pd _ _ _ _ _ _ Hdir) as (P0 & Pe & _).
  pose proof (mo_space _ _ _ _ _ _ _ _ _ _ M) as [[_ (A0 & _ & Ae & Hn0)] _].
  destruct (mmap_counts info 0 v n s Hreq) as (_ & _ & Hv0 & _ & _ & _ & _ & Hk & _).
  assert (0 ≤ v0 / 1024) by (apply Z.div_pos; lia).
  apply (mo_far _ _ _ _ _ _ _ _ _ _ M).
  - pose proof (range_user (v0 / 1024 + mmap_k info v n s - 1) ltac:(lia)) as (w & _ & Hw & Ew).
    assert (w / 1024 < 1024) by (apply Z.div_lt_upper_bound; lia).
    intros Hw'. apply Hout. clear -Hw' Hlo Hpd Hh P0 Pe Hk H H0 Ew Hx A0 Hn0 Hu.
    unfold within, entry in Hw'. wrap_lia.
  - intros Hw'. apply Hout. clear -Hw' Hlo Hpd Hh Hx A0 Ae Hn0 Hu B0.
    unfold within in Hw'. wrap_lia.
  - intros i Hi Hz Hw'. destruct (range_user i Hi) as (w & HU & Hw & <-).
    destruct (Ht w HU Hw Hz) as [T1 T2]. destruct (table_page pd (p_mem s) (w / 1024)) as (_ & T0 & Te).
    apply Hout. clear -Hw' T1 T2 T0 Te Hx Hh A0 Hn0 Hu EA. unfold within in Hw'. wrap_lia.
Qed.

Lemma inv_after : env_inv s'.
Proof using Hs M Hfl.
  destruct free_after as (EA & En & Hu & _).
  destruct Hs as [[[Hsup Hdir] Hh [Fp Fu Fi] [Hlo Hpdf] Htb _ Hold] _ _ _ _ _].
  pose proof (mo_first _ _ _ _ _ _ _ _ _ _ M) as Hf.
  pose proof (mo_space _ _ _ _ _ _ _ _ _ _ M) as Hsp. rewrite <-EA, <-En in Hsp.
  pose proof (sup_addr _ _ _ (sp_supply _ _ _ _ Hsp)) as (_ & _ & _ & Hn0).
  assert (HA1 : A ≤ A1) by (unfold mmap_A, missing; lia).
  destruct (dir_pd _ _ _ _ _ _ Hdir) as (_ & _ & Hpd).
  constructor; [done|lia| |lia| |exact rest_after|].
  3: { intros i Hi Hz. rewrite <-(Hold i Hi Hz). apply (mo_old _ _ _ _ _ _ _ _ _ _ M); [done|].
    by rewrite (Hold i Hi Hz). }
  2: { intros w HU Hw Hz.
    assert (Hi : 0 ≤ w / 1024 < 1024) by (clear -Hw; Z.to_euclidean_division_equations; lia).
    destruct (table_after _ Hi Hz) as [[Hzo ->]|[T1 T2]]; [|lia].
    specialize (Htb w HU Hw Hzo). lia. }
  constructor.
  - intros w HL Hw Hz. destruct (decide (epte pd (p_mem s) w = 0)) as [E|E].
    + destruct (page_new w Hw E Hz) as (_ & Hb & _ & N1 & N2).
      split_and!; [done|lia|unfold pages_apart; lia|]. intros i Hi Hzi.
      destruct (table_after i Hi Hzi) as [[Hzo ->]|[T1 T2]]; unfold pages_apart; [|lia].
      destruct (dir_tab _ _ _ _ _ _ Hdir i Hi Hzo) as (_ & _ & ?). lia.
    + destruct (page_kept w Hw HL E) as (_ & -> & Hb).
      destruct (Fp w HL Hw E) as (_ & P1 & P2 & P3). split_and!; [done|lia|done|].
      intros i Hi Hzi. destruct (table_after i Hi Hzi) as [[Hzo ->]|[T1 T2]]; [by apply P3|].
      unfold pages_apart. lia.
  - intros w HL HU Hw Hz. destruct (decide (epte pd (p_mem s) w = 0)) as [E|E].
    + destruct (page_new w Hw E Hz) as (_ & _ & _ & N1 & N2). lia.
    + destruct (page_kept w Hw HL E) as (_ & -> & _). specialize (Fu w HL HU Hw E). lia.
  - assert (Hmix : ∀ v1 v2, L v1 → 0 ≤ v1 < 1048576 → 0 ≤ v2 < 1048576 →
      epte pd (p_mem s) v1 ≠ 0 → epte pd (p_mem s) v2 = 0 → epte pd (p_mem s') v2 ≠ 0 →
      frame (p_mem s') v1 ≠ frame (p_mem s') v2).
    { intros v1 v2 L1 H1 H2 E1 E2 Z2. destruct (page_kept v1 H1 L1 E1) as (_ & -> & _).
      destruct (page_new v2 H2 E2 Z2) as (_ & _ & _ & N1 & N2).
      destruct (Fp v1 L1 H1 E1) as (_ & P1 & _). lia. }
    intros v1 v2 L1 L2 H1 H2 Z1 Z2 Hne.
    destruct (decide (epte pd (p_mem s) v1 = 0)) as [E1|E1], (decide (epte pd (p_mem s) v2 = 0)) as [E2|E2].
    + destruct (page_new v1 H1 E1 Z1) as (R1 & _ & -> & _).
      destruct (page_new v2 H2 E2 Z2) as (R2 & _ & -> & _).
      assert (Hlt := free_before_lt (p_mem s) v0).
      destruct (Z.lt_total v1 v2) as [Hlt'|[?|Hlt']]; [|done|].
      * specialize (Hlt (v1 - v0) (v2 - v0) ltac:(lia)).
        replace (v0 + (v1 - v0)) with v1 in Hlt by lia. specialize (Hlt E1). lia.
      * specialize (Hlt (v2 - v0) (v1 - v0) ltac:(lia)).
        replace (v0 + (v2 - v0)) with v2 in Hlt by lia. specialize (Hlt E2). lia.
    + intros E. symmetry in E. by apply (Hmix v2 v1) in E.
    + by apply Hmix.
    + destruct (page_kept v1 H1 L1 E1) as (_ & -> & _).
      destruct (page_kept v2 H2 L2 E2) as (_ & -> & _). by apply Fi.
Qed.

Lemma keeps_after : keeps mapped (λ _, False) s s'.
Proof using Hs M Hfl Hroom.
  intros x Hx. pose proof Hx as (Hinv & Hr & HL & Hz). destruct (page_of x Hr) as [Hw _].
  destruct (page_kept _ Hw HL Hz) as (Hz' & Ef & _).
  assert (Hx' : mapped s' x) by exact (conj inv_after (conj Hr (conj HL Hz'))).
  split; [done|]. intros _. rewrite !mapped_load, Ef by done.
  destruct free_after as (_ & En & Hu & _).
  pose proof (mo_space _ _ _ _ _ _ _ _ _ _ M) as [[_ (_ & _ & _ & Hn0)] _].
  destruct (mapped_outside s x u Hx ltac:(lia)) as [X1 X2].
  by apply (mo_mem _ _ _ _ _ _ _ _ _ _ M).
Qed.

Lemma range_after x : v ≤ x < v + n →
  mapped s' x ∧ (Z.testbit flags 1 = true → writable s' x).
Proof using Hs M Hfl.
  intros Hx. pose proof Hs as [_ Hreq _ HL _ _].
  destruct (mmap_counts info 0 v n s Hreq) as (Ev & En & Hv0 & _ & Hve & _).
  assert (Hj : 0 ≤ x / 4096 - v0 < N ∧ 0 ≤ x < 4294967296).
  { clear -Hx Ev En Hv0 Hve. Z.to_euclidean_division_equations. lia. }
  destruct (range_entry (x / 4096 - v0) (proj1 Hj)) as (_ & _ & H3 & _ & H5 & H6).
  replace (v0 + (x / 4096 - v0)) with (x / 4096) in * by lia.
  assert (Hm : mapped s' x).
  { refine (conj inv_after (conj (proj2 Hj) (conj _ H3))). apply HL. lia. }
  split; [done|]. intros Hw. split; [done|]. split; [apply HL; lia|].
  destruct (elf_flags_bits flags) as [_ Hb]. specialize (Hb Hw).
  rewrite <-Hb, <-H6. change 4096 with (2 ^ 12). by rewrite Z.mod_pow2_bits_low.
Qed.

(** What can be requested *)
Lemma serves_again : serves s' v n.
Proof using Hs M Hfl.
  destruct Hs as [_ Hreq Hsm HL Hr _]. constructor; [apply inv_after|done..|].
  intros i Hi. apply (mo_tables _ _ _ _ _ _ _ _ _ _ M).
  destruct (mmap_counts info 0 v n s Hreq) as (_ & _ & _ & _ & _ & _ & HK & _).
  assert (mmap_span v n ≤ mmap_k info v n s) by (unfold mmap_k; lia).
  destruct (mmap_counts info 0 v n s' Hreq) as (_ & _ & _ & _ & _ & _ & HK' & _). lia.
Qed.

Lemma one_table_covered w k s1 : request 0 w k → one_table w k → mmap_covered info w k s1.
Proof using.
  intros Hreq (Hk0 & Hk & He). apply (covered_linear _ 0 _ _ _ Hreq). right.
  destruct Hreq as [(W0 & Wm & _) _ (_ & Km)]. clear -W0 Wm Km Hk0 Hk He.
  Z.to_euclidean_division_equations. lia.
Qed.

Lemma serves_other w k : serves s w k → one_table w k ∨ tables_apart v n w k → serves s' w k.
Proof using Hs M Hfl.
  intros [_ Hreq Hsm HL Hr Hc] Hap. constructor; [apply inv_after|done..|].
  destruct Hap as [Hone|Hap]; [by apply one_table_covered|].
  pose proof Hs as [_ Hreqv _ _ _ _].
  destruct (mmap_counts info 0 v n s Hreqv) as (Ev & En & Hv0 & HN & Hve & _ & _ & Hk1 & _).
  pose proof tables_in_span as Hts. unfold mmap_span in Hts.
  destruct (mmap_counts info 0 w k s Hreq) as (Ew & Ek & Hw0 & HK & Hwe & Hspw & _).
  assert (Hsame : ∀ i, w / 4096 / 1024 ≤ i < w / 4096 / 1024 + mmap_span w k →
    pde pd (p_mem s') i = pde pd (p_mem s) i).
  { intros i Hi. unfold mmap_span in Hi.
    assert (Hi2 : 0 ≤ i < 1024 ∧ ¬ v0 / 1024 ≤ i < v0 / 1024 + mmap_k info v n s).
    { rewrite Hts. unfold tables_apart in Hap. clear -Hap Hi Ev En Hv0 HN Hve Ew Ek Hw0 HK Hwe.
      rewrite Ev, En, Ew, Ek in Hap. Z.to_euclidean_division_equations. lia. }
    destruct (decide (pde pd (p_mem s) i = 0)) as [E|E].
    - rewrite E. destruct (decide (pde pd (p_mem s') i = 0)) as [|E']; [done|].
      destruct (mo_new _ _ _ _ _ _ _ _ _ _ M i (proj1 Hi2) E E') as (? & _). tauto.
    - exact (mo_old _ _ _ _ _ _ _ _ _ _ M i (proj1 Hi2) E). }
  assert (Et : mmap_tables (p_mem s') pd w k = mmap_tables (p_mem s) pd w k).
  { pose proof (mmap_tables_eq (p_mem s) pd (w / 4096) (k / 4096) Hw0 HK Hwe) as E1.
    pose proof (mmap_tables_eq (p_mem s') pd (w / 4096) (k / 4096) Hw0 HK Hwe) as E2.
    rewrite <-Ew, <-Ek in E1, E2. rewrite E1, E2. unfold table. by rewrite Hsame by lia. }
  intros i Hi. rewrite Et in Hi. rewrite Hsame; [by apply Hc|].
  destruct (mmap_counts info 0 w k s Hreq) as (_ & _ & _ & _ & _ & _ & HKt & _). lia.
Qed.
End effect.
End call.

(** ** One store *)

Section store.
Context (s : paging_st) (a b : Z) (Ha : writable s a).
Abbreviation P := (frame (p_mem s) (a / 4096) + a mod 4096).
Abbreviation s' := (p_with_mem (λ m, store8 m P b) s).

Lemma store_runs : v_store8 s a b = Ok s'.
Proof using Ha.
  destruct Ha as (Hm & _ & Hb). cbn [v_store8 paging_vmem]. rewrite (mapped_walk s a Hm).
  assert (E : Z.testbit (epte pd (p_mem s) (a / 4096) mod 4096) 1 = true).
  { rewrite <-Hb. change 4096 with (2 ^ 12) at 2. by rewrite Z.mod_pow2_bits_low. }
  by rewrite E.
Qed.

Lemma address_range x : 0 ≤ x < 4294967296 →
  0 ≤ frame (p_mem s) (x / 4096) + x mod 4096 < 4294967296.
Proof using.
  intros Hx. destruct (page_of x Hx). destruct (frame_page (p_mem s) (x / 4096)) as (_ & ? & ?). lia.
Qed.

(** The paging structures are the same bytes. *)
Lemma store_structural x : structural pd (p_mem s) x → 0 ≤ x < 4294967296 →
  load8 (p_mem s') x = load8 (p_mem s) x.
Proof using Ha.
  intros Hst Hx. destruct Ha as [Hm _]. pose proof Hm as (Hinv & Hr & _).
  destruct (mapped_outside s a 0 Hm) as [X1 _].
  { pose proof (sup_addr _ _ _ (sp_supply _ _ _ _ (ei_space _ Hinv))). lia. }
  pose proof (address_range a Hr) as HP.
  apply store8_out. intros Hw. assert (x = P) as -> by (clear -Hw HP Hx; unfold within in Hw; wrap_lia).
  done.
Qed.

Lemma store_pde i : 0 ≤ i < 1024 → pde pd (p_mem s') i = pde pd (p_mem s) i.
Proof using Ha.
  intros Hi. destruct Ha as [(Hinv & _) _].
  pose proof (dir_pd _ _ _ _ _ _ (sp_dir _ _ _ _ (ei_space _ Hinv))) as (P0 & Pe & _).
  apply load32_ext. intros j Hj. apply store_structural; [left|]; unfold within, entry;
    clear -P0 Pe Hi Hj; wrap_lia.
Qed.

Lemma store_epte w : 0 ≤ w < 1048576 → epte pd (p_mem s') w = epte pd (p_mem s) w.
Proof using Ha.
  intros Hw. assert (Hi : 0 ≤ w / 1024 < 1024 ∧ 0 ≤ w mod 1024 < 1024)
    by (clear -Hw; Z.to_euclidean_division_equations; lia).
  unfold epte. rewrite store_pde by apply Hi. case_decide as E; [done|].
  unfold pte, table. rewrite store_pde by apply Hi. fold (table pd (p_mem s) (w / 1024)).
  destruct (table_page pd (p_mem s) (w / 1024)) as (_ & T0 & Te).
  apply load32_ext. intros j Hj. apply store_structural.
  - right. exists (w / 1024). split_and!; [lia|lia|done|]. unfold within, entry.
    clear -T0 Te Hi Hj. destruct Hi as [_ Hi]. wrap_lia.
  - unfold entry. clear -T0 Te Hi Hj. lia.
Qed.

Lemma store_frame w : 0 ≤ w < 1048576 → frame (p_mem s') w = frame (p_mem s) w.
Proof using Ha.
  intros Hw. change (Z.land (epte pd (p_mem s') w) ARCH_PAGE_MASK =
    Z.land (epte pd (p_mem s) w) ARCH_PAGE_MASK). by rewrite store_epte.
Qed.

Lemma store_inv : env_inv s'.
Proof using Ha.
  destruct Ha as [([[[S1 S2] [D1 D2 D3 D4]] Hh [Fp Fu Fi] Hpd Htb Hre Hold] & Ra & La & Za) [Ua _]].
  assert (Ht : ∀ i, 0 ≤ i < 1024 → table pd (p_mem s') i = table pd (p_mem s) i)
    by (intros; by apply table_same, store_pde).
  constructor; [|done| |done| | |intros i Hi Hz; rewrite store_pde by done; by apply Hold].
  - constructor; [by constructor|]. constructor; [done|done| |].
    + intros i Hi. rewrite store_pde, Ht by lia. by apply D3.
    + intros i j Hi Hj. rewrite !store_pde, !Ht by lia. by apply D4.
  - constructor.
    + intros v HL Hv. rewrite store_epte, store_frame by done. intros Hz.
      destruct (Fp v HL Hv Hz) as (H1 & H2 & H3 & H4). split_and!; [done..|].
      intros i Hi. rewrite store_pde, Ht by done. by apply H4.
    + intros v HL HU Hv. rewrite store_epte, store_frame by done. by apply Fu.
    + intros v w L1 L2 H1 H2. rewrite !store_epte, !store_frame by done. by apply Fi.
  - intros v HU Hv. assert (0 ≤ v / 1024 < 1024) by (clear -Hv; Z.to_euclidean_division_equations; lia).
    rewrite store_pde, Ht by done. by apply Htb.
  - intros x Hx Hout. rewrite <-(Hre x Hx Hout). apply store8_out. intros Hw. apply Hout.
    pose proof (address_range a Ra) as HP. destruct (page_of a Ra) as [Va Oa].
    destruct (Fu _ La Ua Va Za) as [F1 F2].
    destruct S2 as (_ & _ & _ & Hn0). clear -Hw HP Hx F1 F2 Hh Oa Hn0.
    unfold within in Hw. wrap_lia.
Qed.

Lemma store_mapped x : mapped s x → mapped s' x ∧ frame (p_mem s') (x / 4096) = frame (p_mem s) (x / 4096).
Proof using Ha.
  intros (_ & Hx & HL & Hz). destruct (page_of x Hx) as [Hv _]. split; [|by apply store_frame].
  refine (conj store_inv (conj Hx (conj HL _))). by rewrite (store_epte _ Hv).
Qed.

Lemma store_keeps : keeps mapped (eq a) s s' ∧ v_load8 s' a = u8 b.
Proof using Ha.
  destruct Ha as [Hm _]. split.
  - intros x Hx. destruct (store_mapped x Hx) as [Hx' Ef]. split; [done|]. intros Hne.
    rewrite !mapped_load, Ef by done. apply store8_out. intros Hw. apply Hne.
    pose proof Hm as (Hinv & Ra & La & Za). pose proof Hx as (_ & Rx & Lx & Zx).
    pose proof (address_range a Ra) as HPa. pose proof (address_range x Rx) as HPx.
    assert (E : frame (p_mem s) (x / 4096) + x mod 4096 = P)
      by (clear -Hw HPa HPx; unfold within in Hw; wrap_lia).
    destruct (page_of a Ra) as [Va Oa], (page_of x Rx) as [Vx Ox].
    destruct (frame_page (p_mem s) (a / 4096)) as (Fa & _), (frame_page (p_mem s) (x / 4096)) as (Fx & _).
    destruct (decide (x / 4096 = a / 4096)) as [Ep|Ep].
    + rewrite Ep in E. clear -E Ep Ra Rx. Z.to_euclidean_division_equations. lia.
    + destruct (fo_inj _ (ei_frames _ Hinv) _ _ Lx La Vx Va Zx Za Ep).
      clear -E Oa Ox Fa Fx. Z.to_euclidean_division_equations. lia.
  - destruct (store_mapped a Hm) as [Ha' Ef]. rewrite mapped_load, Ef by done. apply load8_store8_eq.
Qed.

Lemma store_writable x : writable s x → writable s' x.
Proof using Ha.
  intros (Hx & HU & Hb). split; [by apply store_mapped|]. split; [done|]. destruct Hx as (_ & Hr & _).
  destruct (page_of x Hr) as [Hv _]. by rewrite (store_epte _ Hv).
Qed.

Lemma store_serves w k : serves s w k → serves s' w k.
Proof using Ha.
  intros [_ Hreq Hsm HL Hr Hc]. constructor; [apply store_inv|done..|].
  destruct (mmap_counts info 0 w k s Hreq) as (Ew & Ek & Hw0 & HK & Hwe & _ & HKt & _).
  pose proof (mmap_tables_eq (p_mem s) pd (w / 4096) (k / 4096) Hw0 HK Hwe) as E1.
  pose proof (mmap_tables_eq (p_mem s') pd (w / 4096) (k / 4096) Hw0 HK Hwe) as E2.
  rewrite <-Ew, <-Ek in E1, E2.
  assert (Hsp : ∀ i, w / 4096 / 1024 ≤ i < w / 4096 / 1024 + mmap_span w k → 0 ≤ i < 1024).
  { intros i. unfold mmap_span. clear -Hw0 HK Hwe. Z.to_euclidean_division_equations. lia. }
  assert (Et : mmap_tables (p_mem s') pd w k = mmap_tables (p_mem s) pd w k).
  { rewrite E1, E2. unfold table. rewrite store_pde; [done|].
    clear -Hw0 HK Hwe. Z.to_euclidean_division_equations. lia. }
  intros i Hi. rewrite Et in Hi. rewrite store_pde by (apply Hsp; lia). by apply Hc.
Qed.
End store.

(** ** The interface is met *)

Definition elf_mmap (paddr v n flags : Z) : M paging_st Z :=
  bootstrap_elf_mmap debug info paddr v n flags.

#[local] Instance paging_env :
  ExecEnv elf_mmap (bootstrap_elf_on_load info) mapped writable serves free_frames.
Proof.
  constructor.
  - intros v n flags s Hs Hfl Hroom. destruct (mmap_call v n flags s Hs Hroom) as (s' & u & Hr & M).
    exists 0, s'. split; [exact Hr|]. split; [by eapply keeps_after|].
    split; [intros x Hx; eapply proj1, range_after; eassumption|].
    split; [intros Hb x Hx; eapply range_after; eassumption|].
    destruct (free_after v n flags s Hs s' u M) as (_ & En & Hu).
    split; [lia|]. split; [by eapply serves_again|]. intros w k. by eapply serves_other.
  - intros s. exists s. split; [done|]. split; [intros x Hx; by split|]. split; [lia|done].
  - intros s a b Ha. exists (p_with_mem (λ m, store8 m (frame (p_mem s) (a / 4096) + a mod 4096) b) s).
    destruct (store_keeps s a b Ha) as [Hk Hl].
    split; [exact (store_runs s a b Ha)|]. split; [done|]. split; [done|].
    split; [intros x; exact (store_writable s a b Ha x)|]. split; [done|]. intros w k. exact (store_serves s a b Ha w k).
  - intros s x [H _]. exact H.
  - intros s x. cbn [v_load8 paging_vmem]. destruct (mmu_walk _ _ _) as [[f fl]|]; [apply load8_range|lia].
Qed.
End env.

(** ** A module in the identity mapping, to be loaded

    The directory at 1 MB has one table, which maps the image to itself; the
    loader's pages are the image, one page for the segment and the stack. *)

Definition load_info : exec_info := ExecInfo 0x100000 0 false.
Definition load_image : mem :=
  foldr (λ '(i, b) m, store8 m (0x110000 + i) b)
    (store32 (store32 ∅ 0x100000 0x101007) (0x101000 + 4 * 0x110) 0x110003)
    (zip (seqZ 0 92) demo_image).
Definition load_state : paging_st :=
  let r := MemRange 0 0 in
  PagingSt load_image
    (KernelInfo [MmapEntry 0x200000 0x100000 1 0] 1 0 [] 0 r r r r r 0xFE800000 0 0) [].
Definition load_ctx : elf_ctx_t := ElfCtx 0x110000 0x110000 0 0 0x110034 0.
Definition load_pages (v : Z) : Prop := v = 0x110 ∨ v = 0x400 ∨ 0x7FFFC ≤ v < 0x80001.
Definition load_user (v : Z) : Prop := v = 0x400 ∨ 0x7FFFC ≤ v < 0x80001.
Definition load_hi : Z := 0x220000.

Lemma load_pde i : 0 ≤ i < 1024 →
  pde 0x100000 load_image i = if i =? 0 then 0x101007 else 0.
Proof.
  intros Hi. assert (H : forallb (λ i, pde 0x100000 load_image i =? if i =? 0 then 0x101007 else 0)
    (seqZ 0 1024) = true) by (vm_compute; reflexivity).
  rewrite forallb_forall in H. apply Z.eqb_eq, H, list_elem_of_In, elem_of_seqZ. lia.
Qed.
Lemma load_epte v : load_pages v →
  epte 0x100000 load_image v = if v =? 0x110 then 0x110003 else 0.
Proof.
  intros [->|[->|Hv]]; [vm_compute; reflexivity..|].
  assert (H : forallb (λ v, epte 0x100000 load_image v =? 0) (seqZ 0x7FFFC 5) = true)
    by (vm_compute; reflexivity).
  rewrite forallb_forall in H. rewrite (proj2 (Z.eqb_neq v 0x110)) by lia.
  apply Z.eqb_eq, H, list_elem_of_In, elem_of_seqZ. lia.
Qed.

Lemma load_inv : env_inv load_info load_pages load_user 0x100000 load_hi load_image load_state.
Proof.
  assert (En : free_frames load_hi load_state = 32) by reflexivity.
  assert (Et : table 0x100000 load_image 0 = 0x101000) by (vm_compute; reflexivity).
  assert (Ef : frame load_info load_image 0x110 = 0x110000) by (vm_compute; reflexivity).
  assert (H0 : ∀ i, 0 ≤ i < 1024 → pde 0x100000 load_image i ≠ 0 → i = 0).
  { intros i Hi. rewrite (load_pde i Hi). destruct (Z.eqb_spec i 0); congruence. }
  assert (H1 : ∀ v, load_pages v → epte 0x100000 load_image v ≠ 0 → v = 0x110).
  { intros v Hv. rewrite (load_epte v Hv). destruct (Z.eqb_spec v 0x110); congruence. }
  assert (HU : ∀ v, load_user v → v ≠ 0x110 ∧ 0 < v / 1024 < 1024).
  { intros v Hv. unfold load_user in Hv. clear -Hv. Z.to_euclidean_division_equations. lia. }
  constructor; [|reflexivity| | | |done|done].
  - rewrite En. change (free_addr load_state) with 0x200000. constructor.
    + constructor; [|split_and!; reflexivity || lia]. eexists _, _.
      split; [reflexivity|]. split; [reflexivity|]. simpl. lia.
    + change (page_directory_of load_info) with 0x100000. change (p_mem load_state) with load_image.
      constructor; [lia|lia| |].
      * intros i Hi Hz. rewrite (H0 i Hi Hz), Et. split; [vm_compute; reflexivity|lia].
      * intros i j Hi Hj Hzi Hzj Hne. destruct (Hne (eq_trans (H0 i Hi Hzi) (eq_sym (H0 j Hj Hzj)))).
  - constructor; change (page_directory_of load_info) with 0x100000;
      change (p_mem load_state) with load_image.
    + intros v HL Hv Hz. rewrite (H1 v HL Hz), Ef. change (free_addr load_state) with 0x200000.
      split_and!; [vm_compute; reflexivity|left; lia|right; lia|].
      intros i Hi Hzi. rewrite (H0 i Hi Hzi), Et. right. lia.
    + intros v HL Hv _ Hz. destruct (proj1 (HU v Hv)). by apply H1.
    + intros v w Lv Lw _ _ Zv Zw Hne. destruct (Hne (eq_trans (H1 v Lv Zv) (eq_sym (H1 w Lw Zw)))).
  - split; vm_compute; congruence.
  - change (page_directory_of load_info) with 0x100000. change (p_mem load_state) with load_image.
    intros v Hv _ Hz. destruct (HU v Hv) as [_ Hd]. rewrite load_pde in Hz by lia.
    destruct (Z.eqb_spec (v / 1024) 0); [lia|congruence].
Qed.

Lemma load_serves v n : request 0 v n → n < 4194304 →
  (∀ w, v / 4096 ≤ w < v / 4096 + n / 4096 → load_user w) → 1 ≤ v / 4096 / 1024 < 1023 →
  serves load_info load_pages load_user 0x100000 load_hi load_image load_state v n.
Proof.
  intros Hr Hn HL Hd. constructor; [exact load_inv|done|done| |lia|].
  { intros w Hw. split; [right|]; by apply HL. }
  apply (covered_linear _ 0 _ _ _ Hr). left. unfold table.
  change (page_directory_of load_info) with 0x100000. change (p_mem load_state) with load_image.
  rewrite load_pde by lia. by rewrite (proj2 (Z.eqb_neq _ 0)) by lia.
Qed.

Lemma load_segments :
  read_phdrs (v_load8 (VMem := paging_vmem load_info) load_state) 0x110034 1 =
    [Segment 1 84 0x400000 8 0x1000 5 0x1000].
Proof. vm_compute. reflexivity. Qed.

Lemma load_ready :
  loadable (VMem0 := paging_vmem load_info) (mapped := mapped load_info load_pages load_user 0x100000 load_hi load_image)
    (serves := serves load_info load_pages load_user 0x100000 load_hi load_image) (room := free_frames load_hi)
    load_ctx 92 1 load_state.
Proof.
  split; cbn [elf_hdr program_headers load_ctx]; rewrite ?load_segments.
  - split; [lia|lia|]. intros x Hx. assert (Ep : x / 4096 = 0x110)
      by (clear -Hx; Z.to_euclidean_division_equations; lia).
    split; [exact load_inv|]. split; [lia|]. rewrite Ep. split; [by left|]. vm_compute. congruence.
  - lia.
  - unfold sizeof_Elf_Phdr. lia.
  - apply Forall_singleton.
    split; intros _; [vm_compute; congruence|vm_compute; congruence| |vm_compute; congruence..|right; vm_compute; congruence].
    apply load_serves; [split; vm_compute; intuition congruence|reflexivity| |vm_compute; intuition congruence].
    intros w Hw. left. change (sg_vaddr _ / 4096) with 0x400 in Hw.
    change (sg_memsz _ / 4096) with 1 in Hw. lia.
  - split; [apply Forall_nil_2|done].
  - apply load_serves; [split; vm_compute; intuition congruence|reflexivity| |vm_compute; intuition congruence].
    intros w Hw. right. change (STACK_BASE / 4096) with 0x7FFFC in Hw.
    change (STACK_BYTES / 4096) with 5 in Hw. lia.
  - apply Forall_singleton. intros _. left. by vm_compute.
  - by vm_compute.
Qed.

(** ** Properties *)

(** C9. A module enters its address space: elf_ctx_load with the callback that
    maps into a page directory, on a directory in order whose loader pages are
    disjoint frames, returns ELF_OK; the memory management unit then finds at
    every file byte of every PT_LOAD segment the byte of the module, and all
    pages of the stack writable; the bytes of the other loader pages, the module
    image included, are unchanged, and the directory is in order again, with the
    frames used taken from the free ones. *)
Theorem elf_ctx_load_pages (debug : bool) (info : exec_info) (L U : Z → Prop) (lo hi : Z) (m0 : mem)
    (ctx : elf_ctx_t) (len top : Z) (s : paging_st) :
  let vm := paging_vmem info in
  let pd := page_directory_of info in
  let n := rd16 (v_load8 s) (u32 (elf_hdr ctx + e_phnum)) in
  let sgs := read_phdrs (v_load8 s) (program_headers ctx) n in
  loadable (mapped := mapped info L U lo hi m0) (serves := serves info L U lo hi m0) (room := free_frames hi)
    ctx len n s →
  ∃ s', elf_ctx_load (elf_mmap debug info) (bootstrap_elf_on_load info) true ctx top s =
      Ok ((ELF_OK, ARCH_MAIN_THREAD_STACK_ADDR), s') ∧
    (∀ sg i, sg ∈ sgs → loads sg = true → 0 ≤ i < sg_filesz sg →
       ∃ f fl, mmu_walk (p_mem s') pd ((sg_vaddr sg + i) / 4096) = Some (f, fl) ∧
         load8 (p_mem s') (f + (sg_vaddr sg + i) mod 4096) =
           v_load8 s (elf_hdr ctx + sg_offset sg + i)) ∧
    (∀ x, STACK_BASE ≤ x < STACK_BASE + STACK_BYTES →
       ∃ f fl, mmu_walk (p_mem s') pd (x / 4096) = Some (f, fl) ∧ Z.testbit fl 1 = true) ∧
    (∀ x, mapped info L U lo hi m0 s x → (∀ sg, sg ∈ sgs → ¬ file_byte sg x) →
       v_load8 s' x = v_load8 s x) ∧
    env_inv info L U lo hi m0 s'.
Proof.
  intros vm pd n sgs Hlo. subst vm pd. pose proof (paging_env debug info L U lo hi m0) as HE.
  destruct (elf_ctx_load_ok (HE := HE) ctx len top s Hlo) as (s' & Hr & Hk & Hb & Hm & Hst & _).
  exists s'. split; [exact Hr|]. pose proof Hlo as [_ _ _ Hsegs _ _ _ _].
  split; [|split; [|split]].
  - intros sg i Hs Hl Hi. specialize (Hb sg i Hs Hl Hi).
    rewrite Forall_forall in Hsegs. pose proof (so_sizes _ _ _ _ (Hsegs sg Hs)) as Hsz.
    assert (Hx : mapped info L U lo hi m0 s' (sg_vaddr sg + i)).
    { apply (Hm sg); [done|done|]. assert (sg_type sg = PT_LOAD); [|specialize (Hsz ltac:(done)); lia].
      unfold loads in Hl. by destruct (Z.eqb_spec (sg_type sg) PT_LOAD). }
    eexists _, _. split; [exact (mapped_walk _ _ _ _ _ _ _ _ Hx)|]. rewrite <-Hb. symmetry.
    exact (mapped_load _ _ _ _ _ _ _ _ Hx).
  - intros x Hx. destruct (Hst x Hx) as (Hmx & _ & Hb1). eexists _, _.
    split; [exact (mapped_walk _ _ _ _ _ _ _ _ Hmx)|].
    rewrite <-Hb1. change 4096 with (2 ^ 12) at 2. by rewrite Z.mod_pow2_bits_low.
  - intros x Hx Hno. apply (Hk x Hx). intros (sg & Hs & Hf). by apply (Hno sg).
  - assert (Hx : mapped info L U lo hi m0 s' STACK_BASE) by (apply Hst; vm_compute; intuition congruence).
    apply Hx.
Qed.
Lemma elf_ctx_load_pages_witness :
  ∃ s', elf_ctx_load (VMem0 := paging_vmem load_info) (elf_mmap true load_info)
          (bootstrap_elf_on_load load_info) true load_ctx 0 load_state = Ok ((ELF_OK, 0x80000000), s') ∧
    ∃ f fl, mmu_walk (p_mem s') 0x100000 0x400 = Some (f, fl) ∧ load8 (p_mem s') (f + 5) = 0xEB.
Proof.
  destruct (elf_ctx_load_pages true load_info load_pages load_user 0x100000 load_hi load_image load_ctx 92 0 load_state load_ready)
    as (s' & H1 & H2 & _).
  exists s'. split; [exact H1|].
  destruct (H2 (Segment 1 84 0x400000 8 0x1000 5 0x1000) 5) as (f & fl & E1 & E2).
  - vm_compute. left.
  - reflexivity.
  - cbn. lia.
  - exists f, fl. split; [exact E1|]. etrans; [exact E2|]. vm_compute. reflexivity.
Defined.
