(* ===== verification/Startup.v ===== *)
(** * Startup: from the entry of the kernel proper to the first thread

    kern/main.c and arch/i686/init.c, composed of the components. The state puts
    theirs side by side: the console, the kernel's address space and heap (Kmem),
    and interrupts, timer, scheduler and the kernel's data (Tick). Physical memory,
    reached through frames, and the kernel's data, reached through the addresses of
    variables, are two memories. *)

From S2P Require Import Prelude Machine CString ArchPaging Thread KInfo Exec Paging Sched Console.
From S2P Require Import Kmem PortIO Pic Interrupt Timer Tick Descriptors Elf ElfSpace.

(** conf.h *)
Definition CONF_MAX_BOOT_MODULES : Z := 8.

(** regs.h *)
Definition I386_SYSENTER_CS : Z := 0x174.
Definition I386_SYSENTER_ESP : Z := 0x175.
Definition I386_SYSENTER_EIP : Z := 0x176.

(** ** init.c *)

Section init.
Context {X : Type} `{!HasMem X}.
(** The tables of gdt.c and idt.c, the variable kstack_top, the stubs of
    interrupt.asm, page_fault_handler and arch_sysenter_stub *)
Context (gdt_entries gdt tss kstack_top idt_entries idt : Z) (eh irq : Z → Z)
  (f_page_fault_handler arch_sysenter_stub : Z).

(** init.c:19 *)
Definition arch_init : M (hw X) unit :=
  _ ← modify (h_with_ext (x_with_mem (init_gdt gdt_entries gdt tss kstack_top)));
  _ ← io PIC_init;
  _ ← modify (h_with_ext (x_with_mem (init_idt idt_entries idt eh irq)));
  _ ← register_interrupt_callback 0xe f_page_fault_handler;
  _ ← io (msr_write I386_SYSENTER_CS 0x8);
  _ ← io (msr_write I386_SYSENTER_EIP arch_sysenter_stub);
  sp0 ← gets (λ h, load32 (x_mem (h_ext h)) (tss + tss_sp0));
  io (msr_write I386_SYSENTER_ESP sp0).
End init.

(** ** main.c *)

Record boot_st := BootSt {
  b_interrupts : bool;
  b_con : console;
  b_kmem : kmem_st;
  b_hw : hw sched_st;
}.
Abbreviation B := (M boot_st).

Definition on_con (c : console → outcome console) : B unit := λ s,
  k ← c (b_con s); Ok (tt, BootSt (b_interrupts s) k (b_kmem s) (b_hw s)).
Definition on_kmem {A} (c : M kmem_st A) : B A := λ s,
  '(a, k) ← c (b_kmem s); Ok (a, BootSt (b_interrupts s) (b_con s) k (b_hw s)).
Definition on_paging {A} (c : P A) : B A := on_kmem (on_pg c).
Definition on_hw {A} (c : M (hw sched_st) A) : B A := λ s,
  '(a, h) ← c (b_hw s); Ok (a, BootSt (b_interrupts s) (b_con s) (b_kmem s) h).
(** The scheduler and the kernel's data *)
Definition on_ext {A} (c : M sched_st A) : M (hw sched_st) A := λ h,
  '(a, x) ← c (h_ext h); Ok (a, h_with_ext (λ _, x) h).
Definition b_info (s : boot_st) : kernel_info_t := p_kinfo (km_pg (b_kmem s)).
(** A call on physical memory *)
Definition phys_mem {A} (f : mem → outcome (A * mem)) : P unit :=
  m ← gets p_mem;
  '(_, m) ← lift (f m);
  modify (p_with_mem (λ _, m)).
(** An assignment to a variable of the kernel *)
Definition kstore (f : mem → outcome mem) : B unit :=
  on_hw (on_ext (λ x, m ← f (s_mem x); Ok (tt, s_with_mem (λ _, m) x))).

Section main.
Context (debug : bool) (dev : device).
(** The tables of paging_utils.c and the symbols of link.ld *)
Context (boot_page_directory page_directory module_bootstrap_pt kernel_pt bootstrap_pt : Z)
  (K_HIGH_VMA : Z) (y : ksyms).
(** boot_processes and boot_processes_threads, the names of the modules, the
    literals, the ready queues of sched_rr.c *)
Context (boot_processes boot_processes_threads : Z) (name_addr : Z → Z) (lit : string → Z)
  (ready_queue : Z).
(** Descriptor tables, handlers and stubs *)
Context (gdt_entries gdt tss kstack_top idt_entries idt : Z) (eh irq : Z → Z)
  (f_page_fault_handler arch_sysenter_stub f_hwclock_irq_handler f_rr_tick_handler : Z).

(** main.c:82-94: the process and its thread *)
Definition init_boot_process (proc thread pd_addr pid entry stack_top : Z) (m : mem) : outcome mem :=
  let m := store32 m (proc + proc_page_dir) pd_addr in
  let m := store32 m (proc + proc_priority) 0 in
  let m := store32 m (proc + proc_id) pid in
  let m := store32 m (proc + proc_threads) thread in
  let m := store32 m (proc + proc_thread_count) 1 in
  let m := store32 m (thread + tcb_proc) proc in
  let m := store32 m (thread + tcb_priority) 0 in
  let m := store32 m (thread + tcb_id) 0 in
  native_create_thread m thread entry stack_top.

(** main.c:54-68: a directory of its own, a copy of the boot directory *)
Definition create_module_dir : P Z :=
  pd_addr ← bootstrap_create_page_dir debug;
  if pd_addr =? 0 then panic "Unable to create page directory for module"
  else
    _ ← phys_mem (λ m, memset m pd_addr 0 ARCH_PAGE_SIZE);
    _ ← phys_mem (λ m, memcpy m pd_addr (kphys K_HIGH_VMA boot_page_directory) sizeof_page_table);
    _ ← modify (load_pagedir pd_addr);
    mret pd_addr.

(** main.c:46, the body of the loop; the result is info.main_thread_stack_top *)
Definition load_boot_module (i pid stack_top : Z) : B Z :=
  info ← gets b_info;
  match modules info !! Z.to_nat i with
  | None => ub "modules index out of range"
  | Some module =>
      if negb (i <? CONF_MAX_BOOT_MODULES) then ub "boot_processes index out of range" else
      let module_start := start_paddr module in
      let module_size := end_paddr module ⊟ start_paddr module in
      let proc := boot_processes + sizeof_proc * i in
      let thread := boot_processes_threads + sizeof_tcb * i in
      pd_addr ← on_paging create_module_dir;
      let exec := ExecInfo pd_addr stack_top false in
      let vm := paging_vmem exec in
      _ ← on_kmem (km_note (Note "INFO" 70 "Loading module %s..." [name_addr i]));
      '(err, module_ctx) ← on_paging
        (elf_ctx_create (VMem0 := vm) (ElfCtx 0 0 0 0 0 0) module_start module_size);
      if negb (bool_decide (err = ELF_OK)) then
        _ ← on_kmem (km_note (Note "ERR" 73 "Failed to load module %s: %s"
              [name_addr i; lit (elf_strerror err)]));
        panic "Unable to load boot modules!"
      else
      '(err, stack_top) ← on_paging
        (elf_ctx_load (VMem0 := vm) (bootstrap_elf_mmap debug exec) (bootstrap_elf_on_load exec)
           true module_ctx stack_top);
      if negb (bool_decide (err = ELF_OK)) then
        _ ← on_kmem (km_note (Note "ERR" 78 "Failed to load module %s: %s"
              [name_addr i; lit (elf_strerror err)]));
        panic "Unable to load boot modules!"
      else
      entry ← on_paging (get32 (VMem0 := vm) (elf_hdr module_ctx + e_entry));
      _ ← kstore (init_boot_process proc thread pd_addr pid entry stack_top);
      mret stack_top
  end.

(** main.c:31; the process ids count from 1 *)
Fixpoint load_modules (indices : list Z) (stack_top : Z) : B Z :=
  match indices with
  | [] => mret stack_top
  | i :: indices' =>
      stack_top ← load_boot_module i (i + 1) stack_top;
      load_modules indices' stack_top
  end.
Definition load_boot_modules : B unit :=
  no_modules ← gets (λ s, no_modules (b_info s));
  _ ← ASSERT debug (no_modules <? CONF_MAX_BOOT_MODULES);
  _ ← load_modules (seqZ 0 no_modules) 0;
  mret tt.

(** arch_interrupt.h:9 *)
Definition native_disable_interrupts : B unit :=
  modify (λ s, BootSt false (b_con s) (b_kmem s) (b_hw s)).

(** main.c:115-127, once the modules are loaded *)
Definition start_scheduling : B cpu_regs :=
  _ ← on_kmem (kmem_init_cleanup boot_page_directory);
  _ ← on_hw (arch_init gdt_entries gdt tss kstack_top idt_entries idt eh irq
               f_page_fault_handler arch_sysenter_stub);
  no_modules ← gets (λ s, no_modules (b_info s));
  _ ← on_hw (on_ext (sched_init debug (Some (sched_rr debug ready_queue)) boot_processes no_modules));
  _ ← on_hw (ktime_init dev f_hwclock_irq_handler f_rr_tick_handler);
  gets (λ s, let x := h_ext (b_hw s) in
    arch_return_to_user (s_mem x) (current_thread_execution_ctx (thr x))).

(** main.c:99 *)
Definition bootstrap (info : kernel_info_t) : B cpu_regs :=
  _ ← native_disable_interrupts;
  _ ← on_paging (modify (p_with_kinfo (λ _, info)));
  _ ← on_con (console_init (console_debug y));
  _ ← on_kmem (km_note (Note "INFO" 107 "Bootstrap started" []));
  _ ← on_kmem (km_note (Note "INFO" 108 "Initializing kernel memory" []));
  kinfo ← gets b_info;
  _ ← on_kmem (kmem_init debug page_directory kernel_pt bootstrap_pt K_HIGH_VMA y kinfo);
  kinfo ← gets b_info;
  _ ← on_paging (bootstrap_identity_map_init_mem boot_page_directory page_directory
        module_bootstrap_pt K_HIGH_VMA debug kinfo);
  _ ← load_boot_modules;
  start_scheduling.
End main.
