(* ===== verification/StartupProps.v ===== *)
(** * StartupProps: from the loaded modules to the first thread

    The processes and threads load_boot_modules prepares are what the scheduler
    starts from; start_scheduling, with its tables, interrupt controllers and
    timer, ends in the first thread, and the timer interrupt finds the state it
    relies on. *)

From S2P Require Import Prelude Machine CString ArchPaging Thread KInfo Exec Paging Sched SchedInv SchedProps.
From S2P Require Import Kmem Printf Console PortIO Pic Interrupt Timer Tick Descriptors Elf ElfSpace Startup.

(** ** One process and its thread *)

Record task_ok (m : mem) (proc thread pd pid entry stack : Z) : Prop := {
  tk_pd : load32 m (proc + proc_page_dir) = pd;
  tk_id : load32 m (proc + proc_id) = pid;
  tk_threads : load32 m (proc + proc_threads) = thread;
  tk_count : load32 m (proc + proc_thread_count) = 1;
  tk_proc : load32 m (thread + tcb_proc) = proc;
  tk_prio : load32 m (thread + tcb_priority) = 0;
  tk_regs : arch_return_to_user m (thread + tcb_exec_ctx) = user_regs entry stack;
}.

Lemma task_frame m m' proc thread pd pid entry stack :
  (∀ o, 0 ≤ o < 28 → load8 m' (proc + o) = load8 m (proc + o)) →
  (∀ o, 0 ≤ o < 96 → load8 m' (thread + o) = load8 m (thread + o)) →
  task_ok m proc thread pd pid entry stack → task_ok m' proc thread pd pid entry stack.
Proof.
  intros Hp Ht [H1 H2 H3 H4 H5 H6 H7].
  assert (Ep : ∀ o, 0 ≤ o ≤ 24 → load32 m' (proc + o) = load32 m (proc + o)).
  { intros o Ho. apply load32_ext. intros i Hi. rewrite <-!Z.add_assoc. apply Hp. lia. }
  assert (Et : ∀ o, 0 ≤ o ≤ 92 → load32 m' (thread + o) = load32 m (thread + o)).
  { intros o Ho. apply load32_ext. intros i Hi. rewrite <-!Z.add_assoc. apply Ht. lia. }
  constructor; rewrite ?Ep, ?Et by (vm_compute; intuition congruence); try done.
  rewrite <-H7. apply arch_return_ext. intros o Ho. unfold tcb_exec_ctx.
  rewrite <-!Z.add_assoc. apply Et. lia.
Qed.

Lemma init_boot_process_ok proc thread pd pid entry stack m :
  0 ≤ proc → proc + 28 ≤ 4294967296 → 0 ≤ thread → thread + 96 ≤ 4294967296 →
  proc + 28 ≤ thread ∨ thread + 96 ≤ proc →
  0 ≤ pd < 4294967296 → 0 ≤ pid < 4294967296 →
  0 ≤ entry < 4294967296 → 0 ≤ stack < 4294967296 →
  ∃ m', init_boot_process proc thread pd pid entry stack m = Ok m' ∧
    task_ok m' proc thread pd pid entry stack ∧
    ∀ x, ¬ within proc 28 x → ¬ within thread 96 x → load8 m' x = load8 m x.
Proof.
  intros P0 Pe T0 Te Hap Hpd Hpid He Hs. unfold init_boot_process. cbv zeta.
  match goal with |- context [native_create_thread ?m _ _ _] => set (m1 := m) end.
  destruct (create_thread_ok m1 thread entry stack He Hs) as (m' & Hr & Hc & Hregs).
  exists m'. split; [exact Hr|].
  assert (Hk : ∀ a, disj (thread + tcb_exec_ctx) sizeof_ctx a 4 → load32 m' a = load32 m1 a)
    by (intros; by apply (changes_only_load32 _ _ _ _ _ Hc)).
  unfold tcb_exec_ctx, sizeof_ctx in *. split.
  - constructor; try exact Hregs;
      unfold proc_page_dir, proc_id, proc_threads, proc_thread_count, tcb_proc, tcb_priority;
      (rewrite Hk by (apply disj_linear; lia)); subst m1;
      unfold proc_page_dir, proc_id, proc_threads, proc_thread_count, proc_priority, tcb_proc,
        tcb_priority, tcb_id;
      repeat first [rewrite load32_store32_eq | rewrite load32_store32_disj by (apply disj_linear; lia)];
      apply u32_small; lia.
  - intros x Xp Xt. rewrite Hc by (contradict Xt; unfold within in *; wrap_lia).
    subst m1. unfold proc_page_dir, proc_id, proc_threads, proc_thread_count, proc_priority, tcb_proc,
        tcb_priority, tcb_id.
    rewrite !store32_out; [done|..];
      first [contradict Xp; unfold within in *; wrap_lia | contradict Xt; unfold within in *; wrap_lia].
Qed.

(** ** The processes and threads of the modules *)

Section tasks.
Context (rq bp bt : Z).
Definition proc_at (i : Z) : Z := bp + sizeof_proc * i.
Definition thread_at (i : Z) : Z := bt + sizeof_tcb * i.
Definition boot_threads (n : Z) : list Z := thread_at <$> seqZ 0 n.
Definition boot_proc (t : Z) : Z := proc_at ((t - bt) / sizeof_tcb).
Definition boot_prio (t : Z) : Z := 0.
Definition boot_pd (pds : Z → Z) (p : Z) : Z := pds ((p - bp) / sizeof_proc).

(** boot_processes, boot_processes_threads and ready_queue are three objects. *)
Record tasks_apart : Prop := {
  ta_bp : 0 < bp ∧ bp + sizeof_proc * CONF_MAX_BOOT_MODULES ≤ 4294967296;
  ta_bt : 0 < bt ∧ bt + sizeof_tcb * CONF_MAX_BOOT_MODULES ≤ 4294967296;
  ta_rq : 0 ≤ rq ∧ rq + 1536 ≤ 4294967296;
  ta_bp_bt : bp + sizeof_proc * CONF_MAX_BOOT_MODULES ≤ bt ∨
             bt + sizeof_tcb * CONF_MAX_BOOT_MODULES ≤ bp;
  ta_bp_rq : bp + sizeof_proc * CONF_MAX_BOOT_MODULES ≤ rq ∨ rq + 1536 ≤ bp;
  ta_bt_rq : bt + sizeof_tcb * CONF_MAX_BOOT_MODULES ≤ rq ∨ rq + 1536 ≤ bt;
}.
Definition tasks_ok (m : mem) (k : Z) (pds entries : Z → Z) : Prop :=
  ∀ i, 0 ≤ i < k → task_ok m (proc_at i) (thread_at i) (pds i) (i + 1) (entries i)
                     ARCH_MAIN_THREAD_STACK_ADDR.

Lemma elem_of_boot_threads n t : t ∈ boot_threads n ↔ ∃ i, 0 ≤ i < n ∧ t = thread_at i.
Proof using.
  unfold boot_threads. rewrite list_elem_of_fmap. split; intros (i & H1 & H2); exists i.
  - apply elem_of_seqZ in H2. split; [lia|done].
  - split; [done|]. apply elem_of_seqZ. lia.
Qed.
Lemma boot_proc_at i : boot_proc (thread_at i) = proc_at i.
Proof using.
  unfold boot_proc, thread_at. f_equal. replace (bt + sizeof_tcb * i - bt) with (i * sizeof_tcb) by lia.
  by apply Z.div_mul.
Qed.
Lemma boot_pd_at pds i : boot_pd pds (proc_at i) = pds i.
Proof using.
  unfold boot_pd, proc_at. f_equal. replace (bp + sizeof_proc * i - bp) with (i * sizeof_proc) by lia.
  by apply Z.div_mul.
Qed.

Hypothesis Hap : tasks_apart.

Lemma boot_layout n :
  n ≤ CONF_MAX_BOOT_MODULES → layout rq (boot_threads n) boot_prio boot_proc.
Proof using Hap.
  destruct Hap as [[P0 Pe] [T0 Te] [R0 Re] Hpt Hpr Htr]. intros Hn.
  unfold CONF_MAX_BOOT_MODULES, sizeof_proc, sizeof_tcb in *.
  split.
  - lia.
  - apply NoDup_fmap_2_strong; [|apply NoDup_seqZ].
    intros x y _ _. unfold thread_at, sizeof_tcb. lia.
  - intros t (i & Hi & ->)%elem_of_boot_threads. unfold thread_at, sizeof_tcb. lia.
  - intros t u (i & Hi & ->)%elem_of_boot_threads (j & Hj & ->)%elem_of_boot_threads.
    unfold thread_at, sizeof_tcb. lia.
  - intros t (i & Hi & ->)%elem_of_boot_threads. rewrite boot_proc_at.
    unfold proc_at, sizeof_proc. split_and!; [lia|lia|lia|].
    intros u (j & Hj & ->)%elem_of_boot_threads. unfold thread_at, sizeof_tcb. lia.
  - intros. unfold boot_prio. lia.
Qed.

Lemma tasks_boot n pds entries s :
  tasks_ok (s_mem s) n pds entries → current_proc (thr s) = NULL → nsec_to_next_tick s = 0 →
  boot_state (boot_threads n) boot_prio boot_proc (boot_pd pds) bp s.
Proof using.
  intros Hok Hc Ht. constructor; try done.
  - intros i t. unfold boot_threads. rewrite list_lookup_fmap. intros Hi.
    destruct (seqZ 0 n !! i) as [j|] eqn:Hj; [|done]. injection Hi as <-.
    apply lookup_seqZ in Hj as [-> _]. by rewrite boot_proc_at.
  - intros t (i & Hi & ->)%elem_of_boot_threads. rewrite boot_proc_at, boot_pd_at.
    destruct (Hok i Hi). done.
Qed.

(** Preparing the next process *)
Lemma tasks_next m k pds entries pd entry :
  0 ≤ k < CONF_MAX_BOOT_MODULES → tasks_ok m k pds entries →
  pds k = pd → entries k = entry → 0 ≤ pd < 4294967296 → 0 ≤ entry < 4294967296 →
  ∃ m', init_boot_process (proc_at k) (thread_at k) pd (k + 1) entry
          ARCH_MAIN_THREAD_STACK_ADDR m = Ok m' ∧
    tasks_ok m' (k + 1) pds entries ∧
    ∀ x, ¬ within bp (sizeof_proc * CONF_MAX_BOOT_MODULES) x →
      ¬ within bt (sizeof_tcb * CONF_MAX_BOOT_MODULES) x → load8 m' x = load8 m x.
Proof using Hap.
  destruct Hap as [[P0 Pe] [T0 Te] _ Hpt _ _]. intros Hk Hok Epd Een Rpd Ren.
  unfold CONF_MAX_BOOT_MODULES, sizeof_proc, sizeof_tcb in *.
  destruct (init_boot_process_ok (proc_at k) (thread_at k) pd (k + 1) entry
    ARCH_MAIN_THREAD_STACK_ADDR m) as (m' & Hr & Htk & Hout);
    try (unfold proc_at, thread_at, sizeof_proc, sizeof_tcb; lia); try lia.
  { unfold ARCH_MAIN_THREAD_STACK_ADDR. lia. }
  exists m'. split; [exact Hr|]. split.
  - intros i Hi. destruct (decide (i = k)) as [->|Hne]; [by rewrite Epd, Een|].
    specialize (Hok i ltac:(lia)). revert Hok.
    apply task_frame; intros o Ho; apply Hout;
      unfold within, proc_at, thread_at, sizeof_proc, sizeof_tcb; wrap_lia.
  - intros x X1 X2. apply Hout; [contradict X1|contradict X2];
      unfold within, proc_at, thread_at, sizeof_proc, sizeof_tcb in *; wrap_lia.
Qed.
End tasks.

(** ** init.c *)

Section arch.
Context (gdt_entries gdt tss kstack_top idt_entries idt : Z) (eh irq : Z → Z)
  (f_page_fault_handler arch_sysenter_stub : Z).
Abbreviation arch_init := (arch_init (X := sched_st) gdt_entries gdt tss kstack_top idt_entries idt
  eh irq f_page_fault_handler arch_sysenter_stub).
Definition tables_mem (m : mem) : mem :=
  init_idt idt_entries idt eh irq (init_gdt gdt_entries gdt tss kstack_top m).

Lemma arch_init_run h :
  length (h_callback h) = 256%nat →
  ∃ tr, PIC_init (h_trace h) = Ok (tt, tr) ∧
    arch_init h = Ok (tt, Hw
      (tr ++ [Msr I386_SYSENTER_CS 8; Msr I386_SYSENTER_EIP (u64 arch_sysenter_stub);
              Msr I386_SYSENTER_ESP (load32 (tables_mem (s_mem (h_ext h))) (tss + tss_sp0))])
      (<[14%nat := f_page_fault_handler]> (h_callback h)) (h_cur_callback h) (h_freq_hz h)
      (h_ctr_val h) (h_tv_sec h) (h_tv_nsec h) (s_with_mem tables_mem (h_ext h))).
Proof using.
  intros Hl. eexists. split; [apply PIC_init_run|].
  unfold Startup.arch_init. rewrite modify_bind.
  erewrite bind_Ok_M; [|unfold io; rewrite PIC_init_run; reflexivity].
  rewrite modify_bind. unfold register_interrupt_callback. rewrite modify_bind.
  change (Z.to_nat (u8 14)) with 14%nat.
  erewrite bind_Ok_M; [|unfold io, msr_write, modify; reflexivity].
  erewrite bind_Ok_M; [|unfold io, msr_write, modify; reflexivity].
  rewrite gets_bind. unfold io, msr_write, modify. cbn [h_trace h_with_trace h_with_callback h_with_ext h_ext
    h_callback h_cur_callback h_freq_hz h_ctr_val h_tv_sec h_tv_nsec].
  set (pic := [Out 0x20 0x11; Out 0xA0 0x11; Out 0x21 0x20; Out 0xA1 0x28;
    Out 0x21 4; Out 0xA1 2; Out 0x21 1; Out 0xA1 1; Out 0x21 0xFB; Out 0xA1 0xFF]).
  change (x_mem (x_with_mem (init_idt idt_entries idt eh irq)
    (x_with_mem (init_gdt gdt_entries gdt tss kstack_top) (h_ext h))))
    with (tables_mem (s_mem (h_ext h))).
  rewrite (u64_small (load32 _ _)).
  - change (u32 I386_SYSENTER_CS) with I386_SYSENTER_CS. change (u32 I386_SYSENTER_EIP) with I386_SYSENTER_EIP.
    change (u32 I386_SYSENTER_ESP) with I386_SYSENTER_ESP. change (u64 8) with 8.
    rewrite <-!app_assoc. reflexivity.
  - pose proof (load32_range (tables_mem (s_mem (h_ext h))) (tss + tss_sp0)). lia.
Qed.

Lemma tables_mem_out m x :
  ¬ within gdt_entries 48 x → ¬ within gdt 6 x → ¬ within tss 104 x →
  ¬ within idt_entries 2048 x → ¬ within idt 6 x → load8 (tables_mem m) x = load8 m x.
Proof using. intros. unfold tables_mem. by rewrite init_idt_out, init_gdt_out. Qed.
End arch.

(** All threads are of one class: the first is picked. *)
Lemma ready_class0 ts : ∀ q qs,
  RR.ready boot_prio (q :: qs) ts = (q ++ ts) :: qs.
Proof.
  induction ts as [|t ts IH]; intros q qs; [by rewrite app_nil_r|].
  change (RR.ready boot_prio (q :: qs) (t :: ts)) with (RR.ready boot_prio ((q ++ [t]) :: qs) ts).
  by rewrite IH, <-app_assoc.
Qed.
Lemma init_class0 quantum t ts :
  a_cur (RR.init boot_prio quantum (t :: ts)) = t.
Proof. unfold RR.init. cbn [replicate]. by rewrite ready_class0. Qed.

(** ** start_scheduling *)

Section start.
Context (debug : bool) (dev : device).
Context (boot_page_directory bp bt rq : Z).
Context (gdt_entries gdt tss kstack_top idt_entries idt : Z) (eh irq : Z → Z)
  (f_page_fault_handler arch_sysenter_stub f_clock f_tick : Z).
Abbreviation start := (start_scheduling debug dev boot_page_directory bp rq gdt_entries gdt tss
  kstack_top idt_entries idt eh irq f_page_fault_handler arch_sysenter_stub f_clock f_tick).

(** The descriptor tables are not in the arrays of the processes and threads. *)
Definition area_apart (a n : Z) : Prop :=
  0 ≤ a ∧ a + n ≤ 4294967296 ∧
  (a + n ≤ bp ∨ bp + sizeof_proc * CONF_MAX_BOOT_MODULES ≤ a) ∧
  (a + n ≤ bt ∨ bt + sizeof_tcb * CONF_MAX_BOOT_MODULES ≤ a).
Record tables_apart_tasks : Prop := {
  tt_gdt_entries : area_apart gdt_entries 48;
  tt_gdt : area_apart gdt 6;
  tt_tss : area_apart tss 104;
  tt_idt_entries : area_apart idt_entries 2048;
  tt_idt : area_apart idt 6;
}.

Lemma tasks_tables m n pds entries :
  tasks_apart rq bp bt → tables_apart_tasks → n ≤ CONF_MAX_BOOT_MODULES →
  tasks_ok bp bt m n pds entries →
  tasks_ok bp bt (tables_mem gdt_entries gdt tss kstack_top idt_entries idt eh irq m) n pds entries.
Proof using.
  clear dev. intros [[P0 Pe] [T0 Te] _ _ _ _] [G1 G2 G3 G4 G5] Hn Hok i Hi. specialize (Hok i Hi). revert Hok.
  unfold area_apart, CONF_MAX_BOOT_MODULES, sizeof_proc, sizeof_tcb in *.
  apply task_frame; intros o Ho; apply tables_mem_out;
    unfold within, proc_at, thread_at, sizeof_proc, sizeof_tcb; wrap_lia.
Qed.

Lemma start_scheduling_ok (n : Z) (pds entries : Z → Z) (s : boot_st) :
  let h := b_hw s in
  ReadsBack dev is_data → tasks_apart rq bp bt → tables_apart_tasks →
  0 < n ≤ CONF_MAX_BOOT_MODULES → no_modules (b_info s) = n →
  tasks_ok bp bt (s_mem (h_ext h)) n pds entries →
  current_proc (thr (h_ext h)) = NULL → nsec_to_next_tick (h_ext h) = 0 →
  length (h_callback h) = 256%nat →
  ∃ s', start s = Ok (user_regs (entries 0) ARCH_MAIN_THREAD_STACK_ADDR, s') ∧
    rr_inv rq (boot_threads bt n) boot_prio (boot_proc bp bt) (boot_pd bp pds)
      (RR.init boot_prio 10000000000 (boot_threads bt n)) (h_ext (b_hw s')) ∧
    current_thread (h_ext (b_hw s')) = thread_at bt 0 ∧
    head (cr3_writes (thr (h_ext (b_hw s')))) = Some (pds 0) ∧
    h_callback (b_hw s') !! 32%nat = Some f_clock ∧
    h_callback (b_hw s') !! 14%nat = Some f_page_fault_handler ∧
    h_cur_callback (b_hw s') = f_tick ∧
    masks (h_trace (b_hw s')) (masked0 ∖ {[ 0 ]}) ∧
    p_mem (km_pg (b_kmem s')) = p_mem (km_pg (b_kmem s)).
Proof using.
  intros h Hdev Hta Htt Hn Hmod Hok Hproc Htick Hcb.
  set (T := boot_threads bt n) in *.
  assert (Hlen : Z.of_nat (length T) = n) by (unfold T, boot_threads; rewrite length_fmap, length_seqZ; lia).
  assert (HT : ∃ ts, T = thread_at bt 0 :: ts).
  { unfold T, boot_threads. rewrite seqZ_cons by lia. by eexists. }
  pose proof (boot_layout rq bp bt Hta n ltac:(lia)) as Hlay. fold T in Hlay.
  destruct (arch_init_run gdt_entries gdt tss kstack_top idt_entries idt eh irq f_page_fault_handler
    arch_sysenter_stub h Hcb) as (tr & Hpic & Harch).
  pose proof (PIC_init_masks _ _ Hpic) as Hm0.
  pose proof (tasks_tables _ n pds entries Hta Htt ltac:(lia) Hok) as Hok1.
  set (f := tables_mem gdt_entries gdt tss kstack_top idt_entries idt eh irq) in *.
  set (tr1 := tr ++ _) in Harch.
  assert (Hm1 : masks tr1 masked0).
  { intros i Hi. rewrite <-(Hm0 i Hi). unfold tr1, last_out. by rewrite foldl_app. }
  set (x1 := s_with_mem f (h_ext h)) in *.
  assert (Hb : boot_state T boot_prio (boot_proc bp bt) (boot_pd bp pds) bp x1)
    by (eapply tasks_boot; [exact Hok1|exact Hproc|exact Htick]).
  destruct (rr_init_full rq T boot_prio (boot_proc bp bt) (boot_pd bp pds) Hlay bp x1) as (x2 & Hrun & Hinv & Hck).
  { destruct HT as [ts ->]. done. }
  { exact Hb. }
  rewrite Hlen in Hrun.
  assert (Hsched : sched_init debug (Some (sched_rr debug rq)) bp n x1 = Ok (sched_rr debug rq, x2)).
  { unfold sched_init. mstep. rewrite !andb_false_r. simpl. by rewrite Hrun. }
  destruct (hwclock_init_run dev f_clock CONF_SCHED_TICK_FREQ_HZ
    (Hw tr1 (<[14%nat := f_page_fault_handler]> (h_callback h)) f_tick (h_freq_hz h)
       (h_ctr_val h) (h_tv_sec h) (h_tv_nsec h) x2) masked0 Hdev ltac:(done) Hm1) as (v & w & Hhw & Hm2).
  assert (Hcur : a_cur (RR.init boot_prio 10000000000 T) = thread_at bt 0).
  { destruct HT as [ts ->]. apply init_class0. }
  assert (Hin : thread_at bt 0 ∈ T) by (destruct HT as [ts ->]; by left).
  eexists. split.
  - unfold start_scheduling.
    erewrite bind_Ok_M; [|reflexivity].
    erewrite bind_Ok_M; [|unfold on_hw; cbn [b_hw]; fold h; rewrite Harch; reflexivity].
    rewrite gets_bind. change (no_modules (b_info _)) with (no_modules (b_info s)). rewrite Hmod.
    erewrite bind_Ok_M; [|unfold on_hw, on_ext; cbn [b_hw h_ext]; rewrite Hsched; reflexivity].
    cbn [b_kmem b_con b_interrupts b_hw].
    erewrite bind_Ok_M; [|unfold on_hw, ktime_init, hw_register_callback, hwclock, hw_init,
      hwclock_register_callback; cbn [b_hw h_with_ext]; rewrite modify_bind;
      cbn [h_with_ext h_trace h_callback h_freq_hz h_ctr_val h_tv_sec h_tv_nsec h_ext];
      rewrite Hhw; reflexivity].
    unfold gets. cbn [b_hw h_ext].
    rewrite (ri_ctx _ _ _ _ _ _ _ Hinv), Hcur. do 2 f_equal.
    rewrite (arch_return_ext (s_mem x1)).
    + apply (tk_regs _ _ _ _ _ _ _ (Hok1 0 ltac:(lia))).
    + intros o Ho. unfold tcb_exec_ctx. rewrite <-!Z.add_assoc. apply Hck; [done|lia].
  - cbn [b_hw b_kmem h_ext h_callback h_cur_callback h_trace]. split_and!; try done.
    + by rewrite (ri_current _ _ _ _ _ _ _ Hinv).
    + rewrite (ri_cr3 _ _ _ _ _ _ _ Hinv), Hcur, boot_proc_at, boot_pd_at. done.
    + apply list_lookup_insert_eq. rewrite length_insert. lia.
    + rewrite list_lookup_insert_ne by done. apply list_lookup_insert_eq. lia.
Qed.
End start.
