(* ===== verification/Modules.v ===== *)
(** * Modules: loading the boot modules into their address spaces

    load_boot_modules on physical memory: every module gets a directory that
    shares the kernel's tables, its segments and a stack in frames of its own,
    and what was loaded before stays. *)

From S2P Require Import Prelude Machine CString ArchPaging Thread KInfo Exec Paging PagingInv PagingProps Space.
From S2P Require Import Elf ElfProps ElfSpace Sched SchedInv Kmem Printf Console PortIO Pic Interrupt Timer Tick Startup StartupProps.

(** ** Memory that agrees *)

(** Outside [a, b) the two memories are the same. *)
Definition same_outside (a b : Z) (m m' : mem) : Prop :=
  ∀ x, 0 ≤ x < 4294967296 → ¬ a ≤ x < b → load8 m' x = load8 m x.
#[export] Instance same_outside_preorder a b : PreOrder (same_outside a b).
Proof.
  split; [done|]. intros m1 m2 m3 H1 H2 x Hx Hn. by rewrite (H2 x Hx Hn), (H1 x Hx Hn).
Qed.
Lemma same_outside_weaken a b a' b' m m' :
  a' ≤ a → b ≤ b' → same_outside a b m m' → same_outside a' b' m m'.
Proof. intros Ha Hb H x Hx Hn. apply H; [done|lia]. Qed.
Lemma same_outside_load32 a b m m' x :
  same_outside a b m m' → 0 ≤ x → x + 4 ≤ 4294967296 → x + 4 ≤ a ∨ b ≤ x →
  load32 m' x = load32 m x.
Proof. intros H H0 H1 Hd. apply load32_ext. intros i Hi. apply H; lia. Qed.

Section tables.
Context (pd a b : Z) (m m' : mem).
Hypothesis Hsame : same_outside a b m m'.
Hypothesis Hpd : 0 ≤ pd ∧ pd + 4096 ≤ 4294967296 ∧ (pd + 4096 ≤ a ∨ b ≤ pd).

Lemma outside_pde i : 0 ≤ i < 1024 → pde pd m' i = pde pd m i.
Proof using Hsame Hpd.
  intros Hi. apply (same_outside_load32 _ _ _ _ _ Hsame); unfold entry; lia.
Qed.
Lemma outside_table i : 0 ≤ i < 1024 → table pd m' i = table pd m i.
Proof using Hsame Hpd. intros Hi. unfold table. by rewrite outside_pde. Qed.
End tables.

(** Two directories with the same entries, whose tables are in memory that
    agrees, translate alike. *)
Lemma same_tables_epte pd pd' a b m m' v :
  same_outside a b m m' → 0 ≤ v < 1048576 →
  (∀ i, 0 ≤ i < 1024 → pde pd' m' i = pde pd m i) →
  (∀ i, 0 ≤ i < 1024 → pde pd m i ≠ 0 → table pd m i + 4096 ≤ a ∨ b ≤ table pd m i) →
  epte pd' m' v = epte pd m v.
Proof.
  intros Hs Hv He Ht.
  assert (Hi : 0 ≤ v / 1024 < 1024 ∧ 0 ≤ v mod 1024 < 1024)
    by (clear -Hv; Z.to_euclidean_division_equations; lia).
  unfold epte. rewrite He by apply Hi. case_decide as E; [done|].
  unfold pte, table. rewrite He by apply Hi. fold (table pd m (v / 1024)).
  destruct (table_page pd m (v / 1024)) as (_ & T0 & Te). specialize (Ht _ (proj1 Hi) E).
  apply (same_outside_load32 _ _ _ _ _ Hs); unfold entry; lia.
Qed.

(** ** A directory for a module *)

(** The same four bytes at another place *)
Lemma load32_moved m m' a a' :
  (∀ i, 0 ≤ i < 4 → load8 m' (a' + i) = load8 m (a + i)) → load32 m' a' = load32 m a.
Proof.
  intros H. unfold load32, load16. rewrite <-!Z.add_assoc. rewrite !H by lia.
  rewrite <-(Z.add_0_r a'), <-(Z.add_0_r a), !H by lia. rewrite !Z.add_0_r. done.
Qed.

Lemma read_bytes_lookup m a n i :
  0 ≤ i < n → read_bytes m a n !! Z.to_nat i = Some (load8 m (a + i)).
Proof.
  intros Hi. destruct (lookup_lt_is_Some_2 (read_bytes m a n) (Z.to_nat i)) as [x Hx].
  { rewrite length_read_bytes. lia. }
  pose proof (lookup_read_bytes m a n (Z.to_nat i)) as H. rewrite Z2Nat.id in H by lia.
  rewrite H; [done|lia].
Qed.

Lemma create_module_dir_ok debug boot_page_directory K_HIGH_VMA p A n :
  let bd := kphys K_HIGH_VMA boot_page_directory in
  supply p A n → 0 < n → bd + 4096 ≤ A ∨ A + 4096 ≤ bd → 0 ≤ bd → bd + 4096 ≤ 4294967296 →
  ∃ p', create_module_dir debug boot_page_directory K_HIGH_VMA p = Ok (A, p') ∧
    supply p' (A + 4096) (n - 1) ∧ same_info p p' ∧
    (∀ i, 0 ≤ i < 1024 → pde A (p_mem p') i = pde bd (p_mem p) i) ∧
    same_outside A (A + 4096) (p_mem p) (p_mem p').
Proof.
  intros bd Hsup Hn Hap Hb0 Hbe.
  destruct (fetch_ok debug p A n Hsup Hn) as (p1 & Hf & Em & _ & Hsup1).
  pose proof Hsup as [_ (A0 & _ & Ae & _)].
  destruct (memset_ok (p_mem p1) A 0 ARCH_PAGE_SIZE) as (m1 & Hset & Hm1);
    [unfold ARCH_PAGE_SIZE; lia|].
  destruct (memcpy_exact m1 A bd sizeof_page_table) as (m2 & Hcpy & Hrd & Hch).
  { unfold sizeof_page_table. lia. }
  { right. unfold sizeof_page_table. wrap_lia. }
  set (p2 := load_pagedir A (p_with_mem (λ _, m2) (p_with_mem (λ _, m1) p1))).
  assert (Hrun : create_module_dir debug boot_page_directory K_HIGH_VMA p = Ok (A, p2)).
  { unfold create_module_dir, bootstrap_create_page_dir.
    rewrite (bind_Ok_M _ _ _ _ _ Hf). rewrite (proj2 (Z.eqb_neq A 0)) by lia.
    assert (E1 : phys_mem (λ m, memset m A 0 ARCH_PAGE_SIZE) p1 = Ok (tt, p_with_mem (λ _, m1) p1)).
    { unfold phys_mem. rewrite gets_bind.
      erewrite bind_Ok_M; [|unfold lift; rewrite Hset; reflexivity]. reflexivity. }
    rewrite (bind_Ok_M _ _ _ _ _ E1).
    assert (E2 : phys_mem (λ m, memcpy m A bd sizeof_page_table) (p_with_mem (λ _, m1) p1)
                 = Ok (tt, p_with_mem (λ _, m2) (p_with_mem (λ _, m1) p1))).
    { unfold phys_mem. rewrite gets_bind.
      erewrite bind_Ok_M; [|unfold lift; cbn [p_mem p_with_mem]; rewrite Hcpy; reflexivity].
      reflexivity. }
    rewrite (bind_Ok_M _ _ _ _ _ E2). reflexivity. }
  exists p2. split; [exact Hrun|]. split.
  { destruct Hsup1 as [S1 S2]. split; [exact S1|exact S2]. }
  split.
  { destruct (fetch_page_info debug p A p1 Hf) as [l Hl]. by exists l. }
  assert (Hset_out : ∀ x, ¬ within A 4096 x → load8 m1 x = load8 (p_mem p) x).
  { intros x Hx. rewrite Hm1. rewrite decide_False by done. by rewrite Em. }
  split.
  - intros i Hi. change (p_mem p2) with m2. apply load32_moved. intros k Hk.
    assert (Eb : ∀ o, 0 ≤ o < 4096 → load8 m2 (A + o) = load8 m1 (bd + o)).
    { intros o Ho. pose proof (read_bytes_lookup m2 A sizeof_page_table o Ho) as L1.
      pose proof (read_bytes_lookup m1 bd sizeof_page_table o Ho) as L2.
      rewrite Hrd, L2 in L1. by injection L1. }
    replace (entry A i + k) with (A + (4 * i + k)) by (unfold entry; lia).
    rewrite Eb by lia. rewrite Hset_out by (unfold within; wrap_lia).
    f_equal. unfold entry. lia.
  - intros x Hx Hout. change (p_mem p2) with m2.
    rewrite Hch by (unfold within, sizeof_page_table; wrap_lia).
    apply Hset_out. unfold within. wrap_lia.
Qed.

(** ** Private pages *)

(** Page [v] of the directory [pd] is translated by a table in [a, b) to a frame
    in [a, b), and the directory is there too. *)
Record private_page (m : mem) (pd a b v f fl : Z) : Prop := {
  pp_page : 0 ≤ v < 1048576;
  pp_walk : mmu_walk m pd v = Some (f, fl);
  pp_pd : a ≤ pd ∧ pd + 4096 ≤ b;
  pp_table : a ≤ table pd m (v / 1024) ∧ table pd m (v / 1024) + 4096 ≤ b;
  pp_frame : a ≤ f ∧ f + 4096 ≤ b;
}.

(** Nothing of it depends on memory elsewhere. *)
Definition same_inside (a b : Z) (m m' : mem) : Prop := ∀ x, a ≤ x < b → load8 m' x = load8 m x.
Lemma same_inside_load32 a b m m' x : same_inside a b m m' → a ≤ x → x + 4 ≤ b → load32 m' x = load32 m x.
Proof. intros H H1 H2. apply load32_ext. intros i Hi. apply H. lia. Qed.

Lemma private_page_frame m m' pd a b v f fl :
  same_inside a b m m' → private_page m pd a b v f fl → private_page m' pd a b v f fl.
Proof.
  intros Hs [Hv Hw Hpd Ht Hf].
  assert (Hi : 0 ≤ v / 1024 < 1024 ∧ 0 ≤ v mod 1024 < 1024)
    by (clear -Hv; Z.to_euclidean_division_equations; lia).
  assert (Ed : load32 m' (entry pd (v / 1024)) = load32 m (entry pd (v / 1024))).
  { apply (same_inside_load32 _ _ _ _ _ Hs); unfold entry; lia. }
  assert (Et : table pd m' (v / 1024) = table pd m (v / 1024)) by (unfold table, pde; by rewrite Ed).
  constructor; [done| |done|by rewrite Et|done].
  unfold mmu_walk in *. rewrite Ed. destruct (Z.testbit _ 0); [|done].
  change (Z.land (load32 m (entry pd (v / 1024))) ARCH_PAGE_MASK) with (table pd m (v / 1024)) in *.
  rewrite (same_inside_load32 _ _ _ _ (entry (table pd m (v / 1024)) (v mod 1024)) Hs) by (unfold entry; lia).
  done.
Qed.

(** ** Reading an image

    Two ways of reading that find the same [n] bytes from [b'] on and from [b] on
    find the same headers there. *)

Section image.
Context (rd rd' : Z → Z) (b b' n : Z).
Hypothesis Hn : 52 ≤ n.
Hypothesis Hb : 0 ≤ b ∧ b + n ≤ 4294967296.
Hypothesis Hb' : 0 ≤ b' ∧ b' + n ≤ 4294967296.
Hypothesis Hsame : ∀ i, 0 ≤ i < n → rd' (b' + i) = rd (b + i).

Lemma same_rd16 o : 0 ≤ o → o + 2 ≤ n → rd16 rd' (b' + o) = rd16 rd (b + o).
Proof using Hb Hb' Hsame.
  intros H1 H2. unfold rd16. rewrite !u32_small, <-!Z.add_assoc by lia. by rewrite !Hsame by lia.
Qed.
Lemma same_rd32 o : 0 ≤ o → o + 4 ≤ n → rd32 rd' (b' + o) = rd32 rd (b + o).
Proof using Hb Hb' Hsame.
  intros H1 H2. unfold rd32. rewrite (u32_small (b' + o + 2)), (u32_small (b + o + 2)), <-!Z.add_assoc by lia.
  by rewrite !same_rd16 by lia.
Qed.
Lemma same_header : header_code rd' b' = header_code rd b.
Proof using Hn Hb Hb' Hsame.
  unfold header_code, header_checks. cbn [seq forallb].
  rewrite !(u32_small (b + _)), !(u32_small (b' + _)) by lia. by rewrite !Hsame, !same_rd16 by lia.
Qed.
Lemma same_phdr o : 0 ≤ o → o + sizeof_Elf_Phdr ≤ n → read_phdr rd' (b' + o) = read_phdr rd (b + o).
Proof using Hb Hb' Hsame.
  intros H1 H2. unfold read_phdr, p_type, p_offset, p_vaddr, p_filesz, p_memsz, p_flags, p_align, sizeof_Elf_Phdr in *.
  rewrite !u32_small, <-!Z.add_assoc by lia. by rewrite !same_rd32 by lia.
Qed.
Lemma same_phdrs o k : 0 ≤ o → o + sizeof_Elf_Phdr * k ≤ n →
  read_phdrs rd' (b' + o) k = read_phdrs rd (b + o) k.
Proof using Hb Hb' Hsame.
  intros H1 H2. unfold read_phdrs. apply list_fmap_ext. intros i j Hj. apply lookup_seqZ in Hj as [-> Hi].
  unfold sizeof_Elf_Phdr in *. rewrite !u32_small, <-!Z.add_assoc by lia.
  apply same_phdr; unfold sizeof_Elf_Phdr; lia.
Qed.
End image.

(** ** The boot directory and the modules, as load_boot_modules finds them *)

Section modules.
(** The boot directory, the free frames [A0, hi), the physical memory before *)
Context (bd A0 hi : Z) (m0 : mem).

(** The tables of the boot directory lie apart from each other and from the
    free frames. *)
Record boot_space : Prop := {
  bo_free : 0 < A0 ∧ A0 ≤ hi ∧ hi ≤ 4294967296;
  bo_dir : 0 ≤ bd ∧ bd + 4096 ≤ 4294967296 ∧ (bd + 4096 ≤ A0 ∨ hi ≤ bd);
  bo_table i : 0 ≤ i < 1024 → pde bd m0 i ≠ 0 →
    Z.testbit (pde bd m0 i) 0 = true ∧ (table bd m0 i + 4096 ≤ A0 ∨ hi ≤ table bd m0 i);
  bo_inj i j : 0 ≤ i < 1024 → 0 ≤ j < 1024 → pde bd m0 i ≠ 0 → pde bd m0 j ≠ 0 → i ≠ j →
    pages_apart (table bd m0 i) (table bd m0 j);
}.

(** A page of no table of the boot directory *)
Definition user_page (v : Z) : Prop := pde bd m0 (v / 1024) = 0.
Definition image_page (md : boot_module) (v : Z) : Prop :=
  start_paddr md / 4096 ≤ v ≤ (end_paddr md - 1) / 4096.

(** What the loader reads of the image *)
Definition module_phdrs (md : boot_module) : Z :=
  u32 (start_paddr md + rd32 (load8 m0) (u32 (start_paddr md + e_phoff))).
Definition module_count (md : boot_module) : Z := rd16 (load8 m0) (u32 (start_paddr md + e_phnum)).
Definition module_segs (md : boot_module) : list segment :=
  read_phdrs (load8 m0) (module_phdrs md) (module_count md).
Definition module_entry (md : boot_module) : Z :=
  rd32 (load8 m0) (u32 (start_paddr md + e_entry)).
(** Frames the module may use: its directory, its segments and its stack *)
Definition module_need (md : boot_module) : Z :=
  1 + total_cost (module_segs md) + frames_for STACK_BYTES.

(** A segment the loader accepts, for user memory [U] *)
Record seg_wf (U : Z → Prop) (md : boot_module) (sg : segment) : Prop := {
  sr_sizes : sg_type sg = PT_LOAD → sg_filesz sg ≤ sg_memsz sg;
  sr_align : sg_type sg = PT_LOAD → sg_align sg ≠ 0;
  sr_flags : loads sg = true → Z.land (sg_flags sg) (Z.lor PF_W PF_R) ≠ 0;
  sr_file : loads sg = true → start_paddr md + sg_offset sg + sg_filesz sg ≤ end_paddr md;
  sr_request : loads sg = true → request 0 (sg_vaddr sg) (sg_memsz sg);
  sr_small : loads sg = true → sg_memsz sg < 4194304;
  sr_range : loads sg = true → sg_vaddr sg / 4096 / 1024 + 2 ≤ 1024;
  sr_user w : loads sg = true →
    sg_vaddr sg / 4096 ≤ w < sg_vaddr sg / 4096 + sg_memsz sg / 4096 → U w;
}.
(** A well-formed module: its header, its program headers, its segments *)
Record module_wf (U : Z → Prop) (md : boot_module) : Prop := {
  mw_header : header_code (load8 m0) (start_paddr md) = ELF_OK;
  mw_phdrs : start_paddr md ≤ module_phdrs md ∧
    module_phdrs md + sizeof_Elf_Phdr * module_count md ≤ end_paddr md;
  mw_segs : Forall (seg_wf U md) (module_segs md);
  mw_compat : compatible (module_segs md);
  mw_stack_apart : Forall (λ sg, loads sg = true →
    tables_apart (sg_vaddr sg) (sg_memsz sg) STACK_BASE STACK_BYTES) (module_segs md);
}.

(** An image in identity-mapped memory outside the free frames *)
Record image_ready (md : boot_module) : Prop := {
  ir_range : 0 ≤ start_paddr md ∧ start_paddr md + 52 ≤ end_paddr md ∧ end_paddr md ≤ 4294967296;
  ir_identity v : image_page md v →
    Z.testbit (epte bd m0 v) 0 = true ∧ Z.land (epte bd m0 v) ARCH_PAGE_MASK = 4096 * v;
  ir_apart v : image_page md v →
    (4096 * v + 4096 ≤ A0 ∨ hi ≤ 4096 * v) ∧
    ∀ i, 0 ≤ i < 1024 → pde bd m0 i ≠ 0 → pages_apart (4096 * v) (table bd m0 i);
}.
(** A well-formed module in such an image *)
Record module_ready (md : boot_module) : Prop := {
  mr_image : image_ready md;
  mr_wf : module_wf user_page md;
}.
Definition stack_ready : Prop :=
  ∀ w, STACK_BASE / 4096 ≤ w < STACK_BASE / 4096 + STACK_BYTES / 4096 → user_page w.

(** The module [md] is loaded in the directory at [pd], in memory up to [b]. *)
Record module_in (m : mem) (md : boot_module) (pd b : Z) : Prop := {
  ml_size : pd + 4096 ≤ b;
  ml_kernel i : 0 ≤ i < 1024 → pde bd m0 i ≠ 0 → pde pd m i = pde bd m0 i;
  ml_bytes sg i : sg ∈ module_segs md → loads sg = true → 0 ≤ i < sg_filesz sg →
    ∃ f fl, private_page m pd pd b ((sg_vaddr sg + i) / 4096) f fl ∧
      load8 m (f + (sg_vaddr sg + i) mod 4096) = load8 m0 (start_paddr md + sg_offset sg + i);
  ml_space sg x : sg ∈ module_segs md → loads sg = true →
    sg_vaddr sg ≤ x < sg_vaddr sg + sg_memsz sg →
    ∃ f fl, private_page m pd pd b (x / 4096) f fl;
  ml_stack x : STACK_BASE ≤ x < STACK_BASE + STACK_BYTES →
    ∃ f fl, private_page m pd pd b (x / 4096) f fl ∧ Z.testbit fl 1 = true;
}.

Lemma module_in_frame m m' md pd b :
  same_inside pd b m m' → module_in m md pd b → module_in m' md pd b.
Proof.
  intros Hs [H1 H2 H3 H4 H5]. constructor; [done|..].
  - intros i Hi Hz. rewrite <-(H2 i Hi Hz). apply (same_inside_load32 _ _ _ _ _ Hs); unfold entry; lia.
  - intros sg i Hsg Hl Hi. destruct (H3 sg i Hsg Hl Hi) as (f & fl & Hp & Hb).
    exists f, fl. split; [by eapply private_page_frame|]. rewrite <-Hb. apply Hs.
    pose proof (pp_frame _ _ _ _ _ _ _ Hp). pose proof (Z.mod_pos_bound (sg_vaddr sg + i) 4096 ltac:(lia)). lia.
  - intros sg x Hsg Hl Hx. destruct (H4 sg x Hsg Hl Hx) as (f & fl & Hp).
    exists f, fl. by eapply private_page_frame.
  - intros x Hx. destruct (H5 x Hx) as (f & fl & Hp & Hb). exists f, fl.
    split; [by eapply private_page_frame|done].
Qed.
(** ** One module in its new directory *)

Section one.
Context (md : boot_module) (A top : Z) (p : paging_st).
Abbreviation info := (ExecInfo A top false).
Abbreviation img := (λ v, image_page md v ∨ user_page v).
Abbreviation m := (p_mem p).

Hypothesis Hspace : boot_space.
Hypothesis Him : image_ready md.
Hypothesis Hstack : stack_ready.
(** The directory is the frame before the free ones, a copy of the boot
    directory; the rest of what was there before stays. *)
Hypothesis HA : A0 ≤ A ∧ 0 < A ∧ A mod 4096 = 0.
Hypothesis Hsup : supply p (A + 4096) ((hi - (A + 4096)) / 4096).
Hypothesis Hhi : (A + 4096) + 4096 * ((hi - (A + 4096)) / 4096) = hi.
Hypothesis Hdir : ∀ i, 0 ≤ i < 1024 → pde A m i = pde bd m0 i.
Hypothesis Hrest : same_outside A0 hi m0 m.

Lemma module_epte v : 0 ≤ v < 1048576 → epte A m v = epte bd m0 v.
Proof using Hspace Hdir Hrest.
  intros Hv. apply (same_tables_epte bd A A0 hi); [done|done|done|].
  intros i Hi Hz. by apply (bo_table Hspace).
Qed.
Lemma module_table i : 0 ≤ i < 1024 → table A m i = table bd m0 i.
Proof using Hdir. intros Hi. unfold table. by rewrite Hdir. Qed.

Lemma free_addr_eq : free_addr p = A + 4096.
Proof using Hsup. destruct (sup_entry _ _ _ Hsup) as (e & rest & E & Ea & _). unfold free_addr. by rewrite E. Qed.

(** A page without an entry in the boot directory has no entry. *)
Lemma user_epte v : 0 ≤ v < 1048576 → user_page v → epte A m v = 0.
Proof using Hspace Hdir Hrest.
  intros Hv Hu. rewrite module_epte by done. unfold epte. by rewrite decide_True.
Qed.
Lemma image_not_user v : 0 ≤ v < 1048576 → image_page md v → ¬ user_page v.
Proof using Him.
  intros Hv Hi Hu. destruct (ir_identity _ Him v Hi) as [Hb _]. unfold epte in Hb.
  rewrite decide_True in Hb by done. done.
Qed.
Lemma image_frame v : 0 ≤ v < 1048576 → image_page md v → frame info m v = 4096 * v.
Proof using Hspace Hdir Hrest Him.
  intros Hv Hi. unfold frame. cbn [page_directory_of]. rewrite module_epte by done.
  by apply (ir_identity _ Him).
Qed.
(** The pages with an entry are the image's. *)
Lemma present_image v : 0 ≤ v < 1048576 → img v → epte A m v ≠ 0 → image_page md v.
Proof using Hspace Hdir Hrest.
  intros Hv [Hi|Hu] Hz; [done|]. by rewrite user_epte in Hz.
Qed.

Lemma module_inv : env_inv info img user_page A hi m p.
Proof using Hspace Him HA Hsup Hhi Hdir Hrest.
  destruct Hspace as [(F0 & F1 & F2) (B0 & B1 & B2) Ht Hinj]. destruct HA as (HA1 & HA2 & HA3).
  assert (EF : free_frames hi p = (hi - (A + 4096)) / 4096)
    by (unfold free_frames; by rewrite free_addr_eq).
  pose proof (sup_addr _ _ _ Hsup) as (_ & _ & Se & Sn).
  constructor; rewrite ?EF, ?free_addr_eq; cbn [page_directory_of]; [|done| |lia| |done|done].
  - constructor; [done|]. rewrite Hhi. constructor; [lia|lia| |].
    + intros i Hi Hz. rewrite Hdir in Hz by lia. destruct (Ht i ltac:(lia) Hz) as [Hb Hd].
      rewrite Hdir, module_table by lia. split_and!; [done|lia|lia].
    + intros i j Hi Hj Hzi Hzj Hne. rewrite Hdir in Hzi, Hzj by lia. rewrite !module_table by lia.
      by apply Hinj; [lia|lia|..].
  - constructor; cbn [page_directory_of]; rewrite ?free_addr_eq.
    + intros v HL Hv Hz. pose proof (present_image v Hv HL Hz) as Hi.
      rewrite image_frame by done. destruct (ir_apart _ Him v Hi) as [Hd Hta].
      rewrite module_epte by done. unfold pages_apart.
      split_and!; [by apply (ir_identity _ Him)|lia|lia|].
      intros i Hi' Hz'. rewrite Hdir in Hz' by done. rewrite module_table by done. by apply Hta.
    + intros v HL HU Hv Hz. by rewrite user_epte in Hz.
    + intros v w L1 L2 H1 H2 Z1 Z2 Hne.
      rewrite !image_frame by (done || by apply present_image). lia.
  - intros v HU Hv Hz. assert (0 ≤ v / 1024 < 1024) by (clear -Hv; Z.to_euclidean_division_equations; lia).
    by rewrite Hdir in Hz.
Qed.

Abbreviation mp := (mapped info img user_page A hi m).
Abbreviation sv := (serves info img user_page A hi m).
#[local] Instance module_vmem : VMem paging_st := paging_vmem info.

Lemma image_bytes x : start_paddr md ≤ x < end_paddr md →
  0 ≤ x < 4294967296 ∧ 0 ≤ x / 4096 < 1048576 ∧ image_page md (x / 4096).
Proof using Him.
  intros Hx. destruct (ir_range _ Him) as (R0 & R1 & R2). unfold image_page.
  clear -Hx R0 R1 R2. Z.to_euclidean_division_equations. lia.
Qed.
Lemma image_mapped x : start_paddr md ≤ x < end_paddr md → mp p x.
Proof using Hspace Him HA Hsup Hhi Hdir Hrest.
  intros Hx. destruct (image_bytes x Hx) as (Rx & Rv & Hi).
  split; [exact module_inv|]. split; [done|]. split; [by left|].
  cbn [page_directory_of]. rewrite module_epte by done. intros E.
  destruct (ir_identity _ Him _ Hi) as [Hb _]. by rewrite E in Hb.
Qed.
Lemma image_load x : start_paddr md ≤ x < end_paddr md → v_load8 p x = load8 m0 x.
Proof using Hspace Him HA Hsup Hhi Hdir Hrest.
  intros Hx. destruct (image_bytes x Hx) as (Rx & Rv & Hi).
  etrans; [exact (mapped_load _ _ _ _ _ _ _ _ (image_mapped x Hx))|].
  rewrite image_frame by done. destruct (ir_apart _ Him _ Hi) as [Hd _].
  rewrite <-(Z_div_mod_eq_full x 4096). apply Hrest; [done|].
  clear -Hd. Z.to_euclidean_division_equations. lia.
Qed.

(** The loader reads the headers that are in memory. *)
Lemma image_offset i : 0 ≤ i < end_paddr md - start_paddr md →
  v_load8 p (start_paddr md + i) = load8 m0 (start_paddr md + i).
Proof using Hspace Him HA Hsup Hhi Hdir Hrest. intros Hi. apply image_load. lia. Qed.
Lemma image_size : 52 ≤ end_paddr md - start_paddr md ∧
  (0 ≤ start_paddr md ∧ start_paddr md + (end_paddr md - start_paddr md) ≤ 4294967296).
Proof using Him. destruct (ir_range _ Him). lia. Qed.
Lemma image_rd16 o : 0 ≤ o → o + 2 ≤ end_paddr md - start_paddr md →
  rd16 (v_load8 p) (start_paddr md + o) = rd16 (load8 m0) (start_paddr md + o).
Proof using Hspace Him HA Hsup Hhi Hdir Hrest.
  exact (same_rd16 _ _ _ _ _ (proj2 image_size) (proj2 image_size) image_offset o).
Qed.
Lemma image_rd32 o : 0 ≤ o → o + 4 ≤ end_paddr md - start_paddr md →
  rd32 (v_load8 p) (start_paddr md + o) = rd32 (load8 m0) (start_paddr md + o).
Proof using Hspace Him HA Hsup Hhi Hdir Hrest.
  exact (same_rd32 _ _ _ _ _ (proj2 image_size) (proj2 image_size) image_offset o).
Qed.
Lemma image_header : header_code (v_load8 p) (start_paddr md) = header_code (load8 m0) (start_paddr md).
Proof using Hspace Him HA Hsup Hhi Hdir Hrest.
  exact (same_header _ _ _ _ _ (proj1 image_size) (proj2 image_size) (proj2 image_size) image_offset).
Qed.

Hypothesis Hmd : module_ready md.

Definition module_ctx : elf_ctx_t := header_ctx (v_load8 p) (start_paddr md) (ElfCtx 0 0 0 0 0 0).
Lemma module_ctx_hdr : elf_hdr module_ctx = start_paddr md.
Proof using. unfold module_ctx, header_ctx. by destruct (symtab_index _ _ _). Qed.
Lemma module_ctx_phdrs : program_headers module_ctx = module_phdrs md.
Proof using Hspace Him Hmd HA Hsup Hhi Hdir Hrest.
  destruct (ir_range _ Him) as (R0 & R1 & R2). unfold module_phdrs, e_phoff.
  rewrite (u32_small (start_paddr md + 28)) by lia. rewrite <-image_rd32 by lia.
  unfold module_ctx, header_ctx. rewrite (u32_small (start_paddr md + 28)) by lia.
  by destruct (symtab_index _ _ _).
Qed.
Lemma module_count_eq : rd16 (v_load8 p) (u32 (elf_hdr module_ctx + e_phnum)) = module_count md.
Proof using Hspace Him Hmd HA Hsup Hhi Hdir Hrest.
  destruct (ir_range _ Him) as (R0 & R1 & R2). rewrite module_ctx_hdr. unfold module_count, e_phnum.
  rewrite u32_small by lia. apply image_rd16; lia.
Qed.
Lemma module_segs_eq :
  read_phdrs (v_load8 p) (program_headers module_ctx) (module_count md) = module_segs md.
Proof using Hspace Him Hmd HA Hsup Hhi Hdir Hrest.
  rewrite module_ctx_phdrs. destruct (mw_phdrs _ _ (mr_wf _ Hmd)) as [P1 P2]. unfold module_segs.
  replace (module_phdrs md) with (start_paddr md + (module_phdrs md - start_paddr md)) by lia.
  apply (same_phdrs _ _ _ _ _ (proj2 image_size) (proj2 image_size) image_offset); lia.
Qed.

(** Requests for user pages are served. *)
Lemma user_serves v n : request 0 v n → n < 4194304 → v / 4096 / 1024 + 2 ≤ 1024 →
  (∀ w, v / 4096 ≤ w < v / 4096 + n / 4096 → user_page w) → sv p v n.
Proof using Hspace Him Hmd HA Hsup Hhi Hdir Hrest.
  intros Hr Hn Hd HU. constructor; [exact module_inv|done|done| |done|].
  { intros w Hw. split; [right|]; by apply HU. }
  apply (covered_linear _ 0 _ _ _ Hr). left. cbn [page_directory_of].
  destruct Hr as [(V0 & Vm & Ve) _ (N0 & Nm)].
  assert (Hv : 0 ≤ v / 4096 / 1024 < 1024 ∧ v / 4096 ≤ v / 4096 < v / 4096 + n / 4096)
    by (clear -V0 Vm Ve N0 Nm; Z.to_euclidean_division_equations; lia).
  specialize (HU _ (proj2 Hv)). unfold user_page in HU. unfold table.
  rewrite Hdir by apply Hv. by rewrite HU.
Qed.

(** User memory is not the image. *)
Lemma user_apart v k :
  0 ≤ v → 0 < k → v + k ≤ 4294967296 → (∀ w, v / 4096 ≤ w ≤ (v + k - 1) / 4096 → user_page w) →
  v + k ≤ start_paddr md ∨ end_paddr md ≤ v.
Proof using Him Hmd.
  intros V0 Hk Ve HU. destruct (ir_range _ Him) as (R0 & R1 & R2).
  destruct (Z_le_gt_dec (v + k) (start_paddr md)) as [?|H1]; [by left|].
  destruct (Z_le_gt_dec (end_paddr md) v) as [?|H2]; [by right|]. exfalso.
  set (x := Z.max v (start_paddr md)).
  apply (image_not_user (x / 4096)).
  - apply (image_bytes x). lia.
  - apply (image_bytes x). lia.
  - apply HU. split; apply Z.div_le_mono; lia.
Qed.

Hypothesis Hroom : total_cost (module_segs md) + frames_for STACK_BYTES ≤ (hi - (A + 4096)) / 4096.

Lemma module_loadable :
  loadable (VMem0 := module_vmem) (mapped := mp) (serves := sv) (room := free_frames hi)
    module_ctx (end_paddr md - start_paddr md) (module_count md) p.
Proof using Hspace Him Hmd Hstack HA Hsup Hhi Hdir Hrest Hroom.
  destruct (ir_range _ Him) as (R0 & R1 & R2). destruct (mw_phdrs _ _ (mr_wf _ Hmd)) as [P1 P2].
  constructor; rewrite ?module_segs_eq, ?module_ctx_hdr, ?module_ctx_phdrs.
  - constructor; [lia|lia|]. intros x Hx. apply image_mapped. lia.
  - lia.
  - unfold sizeof_Elf_Phdr in *. lia.
  - apply Forall_forall. intros sg Hsg. pose proof (mw_segs _ _ (mr_wf _ Hmd)) as Hs.
    rewrite Forall_forall in Hs. destruct (Hs sg Hsg) as [S1 S2 S3 S4 S5 S6 S7 S8].
    constructor; [done|done| |done| | |].
    + intros Hl. apply user_serves; auto.
    + intros Hl. destruct (S5 Hl) as [(? & ? & ?) _ _]. done.
    + intros Hl. specialize (S4 Hl). lia.
    + intros Hl. destruct (S5 Hl) as [(V0 & Vm & Ve) _ (N0 & Nm)].
      assert (sg_type sg = PT_LOAD ∧ sg_filesz sg ≠ 0) as [Ht Hf].
      { unfold loads in Hl. destruct (Z.eqb_spec (sg_type sg) PT_LOAD), (Z.eqb_spec (sg_filesz sg) 0); done. }
      specialize (S1 Ht).
      assert (0 ≤ sg_filesz sg).
      { unfold module_segs in Hsg. apply list_elem_of_fmap in Hsg as (j & -> & _).
        apply (rd32_range (load8 m0)). apply load8_range. }
      destruct (user_apart (sg_vaddr sg) (sg_filesz sg)) as [?|?]; [done|lia|lia| |lia|lia].
      intros w Hw. apply (S8 w Hl). clear -Hw S1 V0 Vm N0 Nm.
      Z.to_euclidean_division_equations. lia.
  - apply (mw_compat _ _ (mr_wf _ Hmd)).
  - apply user_serves; [split; vm_compute; intuition congruence|reflexivity|vm_compute; congruence|].
    exact Hstack.
  - apply (mw_stack_apart _ _ (mr_wf _ Hmd)).
  - unfold free_frames. rewrite free_addr_eq. done.
Qed.

(** ** What loading leaves *)

Lemma user_private p' x : env_inv info img user_page A hi m p' → user_page (x / 4096) →
  mp p' x → ∃ fl, private_page (p_mem p') A A (free_addr p') (x / 4096) (frame info (p_mem p') (x / 4096)) fl ∧
    fl = epte A (p_mem p') (x / 4096) mod 4096.
Proof using.
  intros Hinv HU Hx. pose proof Hx as (_ & Rx & HL & Hz). destruct (page_of x Rx) as [Hv _].
  eexists. split; [|done]. constructor; [done|..].
  - exact (mapped_walk _ _ _ _ _ _ _ _ Hx).
  - apply (ei_pd _ _ _ _ _ _ _ Hinv).
  - apply (ei_tables _ _ _ _ _ _ _ Hinv _ HU Hv). cbn [page_directory_of] in *.
    unfold epte in Hz. by case_decide.
  - by apply (fo_user _ _ _ _ _ _ (ei_frames _ _ _ _ _ _ _ Hinv)).
Qed.

(** The bytes of a segment are on user pages. *)
Lemma seg_user sg x : sg ∈ module_segs md → loads sg = true →
  sg_vaddr sg ≤ x < sg_vaddr sg + sg_memsz sg → user_page (x / 4096).
Proof using Him Hmd.
  intros Hsg Hl Hx. pose proof (mw_segs _ _ (mr_wf _ Hmd)) as Hs. rewrite Forall_forall in Hs.
  destruct (sr_request _ _ _ (Hs sg Hsg) Hl) as [(V0 & Vm & Ve) _ (N0 & Nm)].
  apply (sr_user _ _ _ (Hs sg Hsg) _ Hl). clear -Hx V0 Vm N0 Nm. Z.to_euclidean_division_equations. lia.
Qed.
Lemma file_in_memory sg : sg ∈ module_segs md → loads sg = true → sg_filesz sg ≤ sg_memsz sg.
Proof using Him Hmd.
  intros Hsg Hl. pose proof (mw_segs _ _ (mr_wf _ Hmd)) as Hs. rewrite Forall_forall in Hs.
  apply (sr_sizes _ _ _ (Hs sg Hsg)). unfold loads in Hl. by destruct (Z.eqb_spec (sg_type sg) PT_LOAD).
Qed.
Lemma image_no_file_byte x : start_paddr md ≤ x < end_paddr md →
  ¬ ∃ sg, sg ∈ module_segs md ∧ file_byte sg x.
Proof using Him Hmd.
  intros Hx (sg & Hsg & Hl & Hf). destruct (image_bytes x Hx) as (_ & Rv & Hi).
  pose proof (file_in_memory sg Hsg Hl).
  apply (image_not_user _ Rv Hi), (seg_user sg x Hsg Hl). lia.
Qed.

Lemma module_loads debug :
  ∃ p', elf_ctx_load (VMem0 := module_vmem) (bootstrap_elf_mmap debug info) (bootstrap_elf_on_load info)
          true module_ctx top p = Ok ((ELF_OK, ARCH_MAIN_THREAD_STACK_ADDR), p') ∧
    module_in (p_mem p') md A (free_addr p') ∧
    supply p' (free_addr p') (free_frames hi p') ∧ free_addr p' + 4096 * free_frames hi p' = hi ∧
    free_frames hi p - (total_cost (module_segs md) + frames_for STACK_BYTES) ≤ free_frames hi p' ∧
    same_outside A hi m (p_mem p') ∧
    rd32 (v_load8 p') (u32 (elf_hdr module_ctx + e_entry)) = module_entry md.
Proof using Hspace Him Hmd Hstack HA Hsup Hhi Hdir Hrest Hroom.
  pose proof (paging_env debug info img user_page A hi m) as HE.
  pose proof (elf_ctx_load_ok (VMem0 := module_vmem) (HE := HE) module_ctx (end_paddr md - start_paddr md) top p) as Hload.
  cbv zeta in Hload. rewrite module_count_eq in Hload. specialize (Hload module_loadable).
  rewrite module_segs_eq in Hload. destruct Hload as (p' & Hr & Hk & Hb & Hm & Hst & Hro). exists p'. split; [exact Hr|].
  assert (Hinv : env_inv info img user_page A hi m p').
  { assert (Hx : mp p' STACK_BASE) by (apply Hst; vm_compute; intuition congruence). apply Hx. }
  destruct (ir_range _ Him) as (R0 & R1 & R2). pose proof (mw_segs _ _ (mr_wf _ Hmd)) as Hs. rewrite Forall_forall in Hs.
  split_and!; [|apply (sp_supply _ _ _ _ (ei_space _ _ _ _ _ _ _ Hinv))|apply (ei_hi _ _ _ _ _ _ _ Hinv)
    |exact Hro|intros x Hx Hn; by apply (ei_rest _ _ _ _ _ _ _ Hinv)|].
  - constructor.
    + apply (ei_pd _ _ _ _ _ _ _ Hinv).
    + intros i Hi Hz. rewrite <-Hdir in Hz |- * by done. by apply (ei_old _ _ _ _ _ _ _ Hinv).
    + intros sg i Hsg Hl Hi. set (x := sg_vaddr sg + i).
      pose proof (file_in_memory sg Hsg Hl) as Hfm.
      assert (Hmx : mp p' x) by (apply (Hm sg); [done|done|]; subst x; lia).
      destruct (user_private p' x Hinv) as (fl & Hp & _); [apply (seg_user sg); [done..|subst x; lia]|done|].
      eexists _, fl. split; [exact Hp|].
      rewrite <-(mapped_load _ _ _ _ _ _ _ _ Hmx). etrans; [exact (Hb sg i Hsg Hl Hi)|].
      rewrite module_ctx_hdr. apply image_load. pose proof (sr_file _ _ _ (Hs sg Hsg) Hl).
      assert (0 ≤ sg_offset sg); [|lia].
      unfold module_segs in Hsg. apply list_elem_of_fmap in Hsg as (j & -> & _).
      apply (rd32_range (load8 m0)). apply load8_range.
    + intros sg x Hsg Hl Hx. destruct (user_private p' x Hinv) as (fl & Hp & _);
        [by apply (seg_user sg)|by apply (Hm sg)|]. by eexists _, fl.
    + intros x Hx. destruct (Hst x Hx) as (Hmx & Hu & Hbit).
      destruct (user_private p' x Hinv Hu Hmx) as (fl & Hp & ->). eexists _, _. split; [exact Hp|].
      rewrite <-Hbit. change 4096 with (2 ^ 12) at 2. by rewrite Z.mod_pow2_bits_low.
  - rewrite module_ctx_hdr. unfold module_entry, e_entry. rewrite u32_small by lia.
    rewrite <-image_rd32 by lia. apply rd32_ext; [lia|lia|]. intros x Hx.
    apply (Hk x); [apply image_mapped; lia|apply image_no_file_byte; lia].
Qed.
End one.
End modules.

(** ** One turn of the loop *)

Definition b_with_pg (p : paging_st) (s : boot_st) : boot_st :=
  BootSt (b_interrupts s) (b_con s) (KmemSt (km_log (b_kmem s)) p (km_heap (b_kmem s))) (b_hw s).
Definition b_with_log (l : list note) (s : boot_st) : boot_st :=
  BootSt (b_interrupts s) (b_con s) (KmemSt l (km_pg (b_kmem s)) (km_heap (b_kmem s))) (b_hw s).
Definition b_with_hw (h : hw sched_st) (s : boot_st) : boot_st :=
  BootSt (b_interrupts s) (b_con s) (b_kmem s) h.
Abbreviation b_pg s := (km_pg (b_kmem s)).
Abbreviation b_mem s := (s_mem (h_ext (b_hw s))).
Definition with_kmem (m : mem) (h : hw sched_st) : hw sched_st := h_with_ext (s_with_mem (λ _, m)) h.

Lemma on_kmem_Ok {A} (c : M kmem_st A) s a k :
  c (b_kmem s) = Ok (a, k) → on_kmem c s = Ok (a, BootSt (b_interrupts s) (b_con s) k (b_hw s)).
Proof. intros H. unfold on_kmem. by rewrite H. Qed.
Lemma on_paging_Ok {A} (c : P A) s a p : c (b_pg s) = Ok (a, p) → on_paging c s = Ok (a, b_with_pg p s).
Proof. intros H. unfold on_paging, on_kmem, on_pg. by rewrite H. Qed.
Lemma km_note_Ok n s : on_kmem (km_note n) s = Ok (tt, b_with_log (km_log (b_kmem s) ++ [n]) s).
Proof. done. Qed.
Lemma kstore_Ok f s m : f (b_mem s) = Ok m → kstore f s = Ok (tt, b_with_hw (with_kmem m (b_hw s)) s).
Proof. intros H. unfold kstore, on_hw, on_ext. cbn beta. rewrite H. reflexivity. Qed.

Definition put (f : Z → Z) (k v j : Z) : Z := if decide (j = k) then v else f j.
Lemma put_eq f k v : put f k v k = v.
Proof. unfold put. by rewrite decide_True. Qed.
Lemma put_ne f k v j : j ≠ k → put f k v j = f j.
Proof. intros. unfold put. by rewrite decide_False. Qed.
Lemma tasks_ok_put bp bt m k pds v entries :
  tasks_ok bp bt m k pds entries → tasks_ok bp bt m k (put pds k v) entries.
Proof. intros H i Hi. rewrite put_ne by lia. by apply H. Qed.

Lemma module_need_pos m md : 1 + frames_for STACK_BYTES ≤ module_need m md.
Proof.
  unfold module_need. enough (0 ≤ total_cost (module_segs m md)) by lia. apply total_cost_nonneg.
  apply Forall_forall. intros sg Hsg. unfold module_segs in Hsg. apply list_elem_of_fmap in Hsg as (j & -> & _).
  apply (rd32_range (load8 m)). apply load8_range.
Qed.
Definition modules_need (m : mem) (l : list boot_module) : Z := foldr (λ md, Z.add (module_need m md)) 0 l.
Lemma modules_need_nonneg m l : 0 ≤ modules_need m l.
Proof.
  induction l as [|md l IH]; [done|]. cbn [modules_need foldr]. fold (modules_need m l).
  pose proof (module_need_pos m md). assert (0 ≤ frames_for STACK_BYTES) by done. lia.
Qed.

Section turn.
Context (debug : bool) (boot_page_directory K_HIGH_VMA : Z) (name_addr : Z → Z) (lit : string → Z).
Context (bp bt : Z).
Context (A0 hi : Z) (m0 : mem).
Abbreviation bd := (kphys K_HIGH_VMA boot_page_directory).
Abbreviation load_one := (load_boot_module debug boot_page_directory K_HIGH_VMA bp bt name_addr lit).
Abbreviation frames A := ((hi - A) / 4096).

Hypothesis Hspace : boot_space bd A0 hi m0.
Hypothesis Hstack : stack_ready bd m0.

(** The free frames start at [A]; what is outside of them and of what was taken
    is as it was before. *)
Record frames_left (p : paging_st) (A : Z) : Prop := {
  fl_supply : supply p A (frames A);
  fl_hi : A + 4096 * frames A = hi;
  fl_from : A0 ≤ A;
  fl_rest : same_outside A0 hi m0 (p_mem p);
}.

(** The directory of the next module *)
Lemma new_dir p A :
  frames_left p A → 0 < frames A →
  ∃ p1, create_module_dir debug boot_page_directory K_HIGH_VMA p = Ok (A, p1) ∧
    same_info p p1 ∧ same_outside A (A + 4096) (p_mem p) (p_mem p1) ∧
    (A0 ≤ A ∧ 0 < A ∧ A mod 4096 = 0) ∧ frames (A + 4096) = frames A - 1 ∧
    supply p1 (A + 4096) (frames (A + 4096)) ∧ A + 4096 + 4096 * frames (A + 4096) = hi ∧
    (∀ i, 0 ≤ i < 1024 → pde A (p_mem p1) i = pde bd m0 i) ∧ same_outside A0 hi m0 (p_mem p1).
Proof using Hspace.
  intros [Hsup Hh HA Hr] Hn.
  pose proof (bo_dir _ _ _ _ Hspace) as (B0 & B1 & B2). pose proof (bo_free _ _ _ _ Hspace) as (F0 & F1 & F2).
  pose proof (sup_addr _ _ _ Hsup) as (_ & Am & _ & _).
  destruct (create_module_dir_ok debug boot_page_directory K_HIGH_VMA p A (frames A) Hsup)
    as (p1 & Hrun & Hsup1 & Hinfo & Hdir & Hout); [lia|lia|lia|lia|].
  assert (Ef : frames (A + 4096) = frames A - 1).
  { replace (hi - (A + 4096)) with (hi - A + (-1) * 4096) by lia. rewrite Z.div_add by lia. lia. }
  rewrite <-Ef in Hsup1. exists p1. split_and!; try done; try lia.
  - intros j Hj. rewrite Hdir by done. apply (outside_pde _ A0 hi); [done|lia|done].
  - etrans; [exact Hr|]. apply (same_outside_weaken A (A + 4096)); [lia|lia|done].
Qed.

(** The turn up to the result of elf_ctx_create *)
Definition module_log (i : Z) : list note := [Note "INFO" 70 "Loading module %s..." [name_addr i]].
Lemma turn_created md i pid top s A p1 :
  modules (b_info s) !! Z.to_nat i = Some md → 0 ≤ i < CONF_MAX_BOOT_MODULES →
  create_module_dir debug boot_page_directory K_HIGH_VMA (b_pg s) = Ok (A, p1) →
  let exec := ExecInfo A top false in
  let rd := v_load8 (VMem := paging_vmem exec) p1 in
  let ctx := header_ctx rd (start_paddr md) (ElfCtx 0 0 0 0 0 0) in
  let s1 := b_with_pg p1 (b_with_log (km_log (b_kmem s) ++ module_log i) s) in
  (header_code rd (start_paddr md) ≠ ELF_OK →
     load_one i pid top s = Panic "Unable to load boot modules!") ∧
  (∀ top' p2 entry, header_code rd (start_paddr md) = ELF_OK →
     elf_ctx_load (VMem0 := paging_vmem exec) (bootstrap_elf_mmap debug exec) (bootstrap_elf_on_load exec)
       true ctx top p1 = Ok ((ELF_OK, top'), p2) →
     rd32 (v_load8 (VMem := paging_vmem exec) p2) (u32 (elf_hdr ctx + e_entry)) = entry →
     load_one i pid top s
     = (m ← init_boot_process (proc_at bp i) (thread_at bt i) A pid entry top' (b_mem s);
        Ok (top', b_with_hw (with_kmem m (b_hw s)) (b_with_pg p2 s1)))).
Proof using.
  intros Hm Hi Hrun exec rd ctx s1.
  pose proof (elf_ctx_create_eq (VMem0 := paging_vmem exec) (ElfCtx 0 0 0 0 0 0) (start_paddr md)
    (end_paddr md ⊟ start_paddr md) p1) as Hcr. fold rd in Hcr. fold ctx in Hcr.
  assert (Hstart : ∀ r, load_one i pid top s = r ↔
    ('(err, module_ctx) ← on_paging
        (elf_ctx_create (VMem0 := paging_vmem exec) (ElfCtx 0 0 0 0 0 0) (start_paddr md)
           (end_paddr md ⊟ start_paddr md));
      if negb (bool_decide (err = ELF_OK)) then
        _ ← on_kmem (km_note (Note "ERR" 73 "Failed to load module %s: %s"
              [name_addr i; lit (elf_strerror err)]));
        panic "Unable to load boot modules!"
      else
      '(err, stack_top) ← on_paging
        (elf_ctx_load (VMem0 := paging_vmem exec) (bootstrap_elf_mmap debug exec) (bootstrap_elf_on_load exec)
           true module_ctx top);
      if negb (bool_decide (err = ELF_OK)) then
        _ ← on_kmem (km_note (Note "ERR" 78 "Failed to load module %s: %s"
              [name_addr i; lit (elf_strerror err)]));
        panic "Unable to load boot modules!"
      else
      entry ← on_paging (get32 (VMem0 := paging_vmem exec) (elf_hdr module_ctx + e_entry));
      _ ← kstore (init_boot_process (proc_at bp i) (thread_at bt i) A pid entry stack_top);
      mret stack_top) s1 = r).
  { intros r. unfold load_boot_module. rewrite gets_bind, Hm. rewrite (proj2 (Z.ltb_lt i _)) by lia.
    cbn [negb]. cbv zeta. rewrite (bind_Ok_M _ _ _ _ _ (on_paging_Ok _ s _ _ Hrun)). cbn beta. fold exec.
    rewrite (bind_Ok_M _ _ _ _ _ (km_note_Ok _ _)). cbn beta. reflexivity. }
  split.
  - intros Hc. apply Hstart. rewrite bool_decide_eq_false_2 in Hcr by done.
    erewrite bind_Ok_M; [|apply on_paging_Ok; exact Hcr]. cbn iota beta.
    rewrite bool_decide_eq_false_2 by done. cbn [negb]. by rewrite (bind_Ok_M _ _ _ _ _ (km_note_Ok _ _)).
  - intros top' p2 entry Hc Hload Hent. apply Hstart. rewrite Hc in Hcr.
    rewrite bool_decide_eq_true_2 in Hcr by done.
    erewrite bind_Ok_M; [|apply on_paging_Ok; exact Hcr]. cbn iota beta.
    rewrite bool_decide_eq_true_2 by done. cbn [negb].
    erewrite bind_Ok_M; [|apply on_paging_Ok; exact Hload]. cbn iota beta.
    rewrite bool_decide_eq_true_2 by done. cbn [negb].
    assert (Hget : get32 (VMem0 := paging_vmem exec) (elf_hdr ctx + e_entry) p2 = Ok (entry, p2))
      by (unfold get32, gets; by rewrite Hent).
    erewrite bind_Ok_M; [|apply on_paging_Ok; exact Hget]. cbn beta.
    unfold kstore, on_hw, on_ext. cbn [b_with_pg b_with_log b_hw b_kmem km_log s1].
    unfold mbind at 1, M_bind at 1.
    destruct (init_boot_process _ _ _ _ _ _ _); reflexivity.
Qed.

Lemma load_boot_module_ok md i pid top s A :
  modules (b_info s) !! Z.to_nat i = Some md → 0 ≤ i < CONF_MAX_BOOT_MODULES →
  module_ready bd A0 hi m0 md → frames_left (b_pg s) A → module_need m0 md ≤ frames A →
  ∃ p' A' log, load_one i pid top s
      = (m ← init_boot_process (proc_at bp i) (thread_at bt i) A pid (module_entry m0 md)
               ARCH_MAIN_THREAD_STACK_ADDR (b_mem s);
         Ok (ARCH_MAIN_THREAD_STACK_ADDR,
             b_with_hw (with_kmem m (b_hw s)) (b_with_pg p' (b_with_log log s)))) ∧
    module_in bd m0 (p_mem p') md A A' ∧ frames_left p' A' ∧ A + 4096 ≤ A' ∧
    frames A - module_need m0 md ≤ frames A' ∧ same_info (b_pg s) p' ∧
    same_outside A hi (p_mem (b_pg s)) (p_mem p').
Proof using Hspace Hstack.
  intros Hm Hi Hmd Hleft Hneed.
  pose proof (module_need_pos m0 md) as Hc0. assert (0 ≤ frames_for STACK_BYTES) by done.
  destruct (new_dir (b_pg s) A Hleft ltac:(lia))
    as (p1 & Hrun1 & Hinfo1 & Hout1 & HA1 & Ef & Hsup1 & Hh1 & Hd & Hr1).
  pose proof Hleft as [Hsup Hh HA Hr]. pose proof (mr_image _ _ _ _ _ Hmd) as Him. unfold module_need in *.
  pose proof (sup_addr _ _ _ Hsup1) as (_ & _ & Ae & Hn1).
  destruct (module_loads bd A0 hi m0 md A top p1 Hspace Him Hstack HA1 Hsup1 Hh1 Hd Hr1 Hmd ltac:(lia) debug)
    as (p2 & Hrun2 & Hin & Hsup2 & Hh2 & Hfr2 & Hout2 & Hent).
  pose proof (image_header bd A0 hi m0 md A top p1 Hspace Him HA1 Hsup1 Hh1 Hd Hr1) as Hhdr.
  rewrite (mw_header _ _ _ (mr_wf _ _ _ _ _ Hmd)) in Hhdr. unfold free_frames in Hsup2, Hh2, Hfr2.
  rewrite (free_addr_eq hi A p1 Hsup1) in Hfr2.
  destruct (turn_created md i pid top s A p1 Hm Hi Hrun1) as [_ Hturn].
  pose proof (ml_size _ _ _ _ _ _ Hin) as Hsz.
  assert (Hout : same_outside A hi (p_mem (b_pg s)) (p_mem p2)).
  { etrans; [|exact Hout2]. apply (same_outside_weaken A (A + 4096)); [lia|lia|done]. }
  exists p2, (free_addr p2), (km_log (b_kmem s) ++ module_log i).
  split; [exact (Hturn _ _ _ Hhdr Hrun2 Hent)|]. split_and!; try done.
  - constructor; [done|done|lia|]. etrans; [exact Hr|]. by apply (same_outside_weaken A hi); [lia|lia|].
  - lia.
  - etrans; [exact Hinfo1|]. revert Hrun2.
    apply (elf_ctx_load_stable (VMem0 := paging_vmem (ExecInfo A top false)) same_info).
    + intros. apply bootstrap_mmap_info.
    + unfold bootstrap_elf_on_load. apply mstable_ret. apply _.
    + intros t a b t'. cbn [v_store8 paging_vmem]. destruct (mmu_walk _ _ _) as [[f fl]|]; [|done].
      destruct (Z.testbit fl 1); [|done]. intros [= <-]. exists (memmaps (p_kinfo t)). by destruct t as [? [] ?].
Qed.

Lemma load_boot_module_rejects md i pid top s A :
  modules (b_info s) !! Z.to_nat i = Some md → 0 ≤ i < CONF_MAX_BOOT_MODULES →
  image_ready bd A0 hi m0 md → header_code (load8 m0) (start_paddr md) ≠ ELF_OK →
  frames_left (b_pg s) A → 0 < frames A →
  load_one i pid top s = Panic "Unable to load boot modules!".
Proof using Hspace.
  intros Hm Hi Him Hc Hleft Hn.
  destruct (new_dir (b_pg s) A Hleft Hn) as (p1 & Hrun1 & _ & _ & HA1 & _ & Hsup1 & Hh1 & Hd & Hr1).
  destruct (turn_created md i pid top s A p1 Hm Hi Hrun1) as [Hturn _]. apply Hturn.
  intros E. apply Hc. rewrite <-E. symmetry.
  exact (image_header bd A0 hi m0 md A top p1 Hspace Him HA1 Hsup1 Hh1 Hd Hr1).
Qed.

(** ** All modules *)

Section all.
Context (rq : Z) (s0 : boot_st) (mods : list boot_module).
Hypothesis Htasks : tasks_apart rq bp bt.
Hypothesis Hmods : take (length mods) (modules (b_info s0)) = mods.
Hypothesis Hcount : Z.of_nat (length mods) ≤ CONF_MAX_BOOT_MODULES.
Hypothesis Hready : Forall (module_ready bd A0 hi m0) mods.

Definition entry_of (j : Z) : Z :=
  default 0 (module_entry m0 <$> mods !! Z.to_nat j).

(** The first [k] modules are loaded: module [j] in the directory [pds j], in
    memory that ends at [ends j]; their processes and threads are prepared. *)
Record loaded_to (k : Z) (pds ends : Z → Z) (A : Z) (s : boot_st) : Prop := {
  lt_left : frames_left (b_pg s) A;
  lt_info : same_info (b_pg s0) (b_pg s);
  lt_in j md : 0 ≤ j < k → mods !! Z.to_nat j = Some md →
    module_in bd m0 (p_mem (b_pg s)) md (pds j) (ends j);
  lt_apart j : 0 ≤ j < k → A0 ≤ pds j ∧ pds j + 4096 ≤ ends j ∧ ends j ≤ A ∧
    ∀ i, 0 ≤ i < j → ends i ≤ pds j;
  lt_hw : ∃ m, b_hw s = with_kmem m (b_hw s0) ∧ tasks_ok bp bt m k pds entry_of ∧
    ∀ x, ¬ within bp (sizeof_proc * CONF_MAX_BOOT_MODULES) x →
      ¬ within bt (sizeof_tcb * CONF_MAX_BOOT_MODULES) x → load8 m x = load8 (b_mem s0) x;
}.
Lemma load_next k pds ends A s md top :
  0 ≤ k < Z.of_nat (length mods) → mods !! Z.to_nat k = Some md →
  loaded_to k pds ends A s → module_need m0 md ≤ frames A →
  ∃ s' A', load_one k (k + 1) top s = Ok (ARCH_MAIN_THREAD_STACK_ADDR, s') ∧
    loaded_to (k + 1) (put pds k A) (put ends k A') A' s' ∧
    frames A - module_need m0 md ≤ frames A'.
Proof using Hspace Hstack Htasks Hmods Hcount Hready.
  intros Hk Hmd [Hl [kl Hkl] Hin Hap (m & Hhw & Htk & Hout)] Hneed.
  assert (Hr : module_ready bd A0 hi m0 md).
  { rewrite Forall_forall in Hready. apply Hready. by eapply list_elem_of_lookup_2. }
  assert (Hlk : modules (b_info s) !! Z.to_nat k = Some md).
  { unfold b_info. rewrite Hkl. change (modules (b_info s0) !! Z.to_nat k = Some md).
    rewrite <-Hmd, <-Hmods. rewrite lookup_take_lt; [done|]. lia. }
  destruct (load_boot_module_ok md k (k + 1) top s A Hlk ltac:(lia) Hr Hl Hneed)
    as (p' & A' & log & Hrun & Hin' & Hl' & HA' & Hfr & Hinfo' & Hout').
  pose proof (sup_addr _ _ _ (fl_supply _ _ Hl)) as (_ & _ & Ae & _).
  pose proof (fl_hi _ _ Hl) as Hh. pose proof (fl_from _ _ Hl) as HA0.
  pose proof (fl_hi _ _ Hl') as Hh'. pose proof (sup_addr _ _ _ (fl_supply _ _ Hl')) as (_ & _ & _ & Hn').
  pose proof (bo_free _ _ _ _ Hspace) as (F0 & F1 & F2).
  assert (Eb : b_mem s = m) by (rewrite Hhw; done).
  destruct (tasks_next rq bp bt Htasks m k (put pds k A) entry_of A (module_entry m0 md))
    as (m' & Hinit & Htk' & Hout2); [lia|by apply tasks_ok_put|apply put_eq| |lia| |].
  { unfold entry_of. by rewrite Hmd. }
  { apply (rd32_range (load8 m0)). apply load8_range. }
  rewrite Eb, Hinit in Hrun. rewrite bind_Ok in Hrun.
  eexists _, A'. split; [exact Hrun|]. split; [|done].
  constructor; cbn [b_with_hw b_with_pg b_with_log b_kmem km_pg b_hw].
  - done.
  - etrans; [by exists kl|done].
  - intros j mdj Hj Hmj. destruct (decide (j = k)) as [->|Hne].
    + rewrite !put_eq. rewrite Hmd in Hmj. injection Hmj as <-. exact Hin'.
    + rewrite !put_ne by done. destruct (Hap j ltac:(lia)) as (P1 & P2 & P3 & _).
      eapply module_in_frame; [|by apply Hin; [lia|]]. intros x Hx. apply Hout'; lia.
  - intros j Hj. destruct (decide (j = k)) as [->|Hne].
    + rewrite !put_eq. split_and!; [done|lia|lia|]. intros i Hi. rewrite put_ne by lia.
      destruct (Hap i Hi) as (_ & _ & ? & _). lia.
    + rewrite !put_ne by done. destruct (Hap j ltac:(lia)) as (P1 & P2 & P3 & P4).
      split_and!; [lia|lia|lia|]. intros i Hi. rewrite put_ne by lia. by apply P4.
  - exists m'. split; [by rewrite Hhw|]. split; [exact Htk'|].
    intros x X1 X2. rewrite <-(Hout x X1 X2). by apply Hout2.
Qed.

Lemma load_modules_ok (r : nat) : ∀ k pds ends A s top,
  0 ≤ k → k + Z.of_nat r = Z.of_nat (length mods) → loaded_to k pds ends A s →
  modules_need m0 (drop (Z.to_nat k) mods) ≤ frames A →
  ∃ s' pds' ends' A' top', load_modules debug boot_page_directory K_HIGH_VMA bp bt name_addr lit
      (seqZ k (Z.of_nat r)) top s = Ok (top', s') ∧
    loaded_to (Z.of_nat (length mods)) pds' ends' A' s' ∧
    frames A - modules_need m0 (drop (Z.to_nat k) mods) ≤ frames A'.
Proof using Hspace Hstack Htasks Hmods Hcount Hready.
  induction r as [|r IH]; intros k pds ends A s top Hk Hr Hlt Hneed.
  - exists s, pds, ends, A, top. split; [done|].
    replace (Z.of_nat (length mods)) with k by lia. split; [done|].
    pose proof (modules_need_nonneg m0 (drop (Z.to_nat k) mods)). lia.
  - destruct (lookup_lt_is_Some_2 mods (Z.to_nat k)) as [md Hmd]; [lia|].
    rewrite (drop_S _ _ _ Hmd) in Hneed |- *. cbn [modules_need foldr] in Hneed |- *.
    fold (modules_need m0 (drop (S (Z.to_nat k)) mods)) in Hneed |- *.
    pose proof (modules_need_nonneg m0 (drop (S (Z.to_nat k)) mods)).
    destruct (load_next k pds ends A s md top ltac:(lia) Hmd Hlt ltac:(lia)) as (s1 & A1 & Hrun & Hlt1 & Hfr).
    destruct (IH (k + 1) _ _ A1 s1 ARCH_MAIN_THREAD_STACK_ADDR ltac:(lia) ltac:(lia) Hlt1)
      as (s' & pds' & ends' & A' & top' & Hrun' & Hlt' & Hfr').
    { replace (Z.to_nat (k + 1)) with (S (Z.to_nat k)) by lia. lia. }
    replace (Z.to_nat (k + 1)) with (S (Z.to_nat k)) in Hfr' by lia.
    exists s', pds', ends', A', top'. split; [|split; [done|lia]].
    rewrite seqZ_cons by lia. cbn [load_modules]. rewrite (bind_Ok_M _ _ _ _ _ Hrun).
    replace (Z.succ k) with (k + 1) by lia. by replace (Z.pred (Z.of_nat (S r))) with (Z.of_nat r) by lia.
Qed.

(** Before the loop *)
Lemma loaded_none :
  frames_left (b_pg s0) A0 → loaded_to 0 (λ _, 0) (λ _, 0) A0 s0.
Proof using.
  clear Hmods. intros Hl. constructor; [done|reflexivity|intros; lia|intros; lia|].
  exists (b_mem s0). split; [|split; [intros i Hi; lia|done]].
  destruct s0 as [? ? ? [? ? ? ? ? ? ? [[] ? ? ?]]]. done.
Qed.
Lemma load_modules_all top :
  frames_left (b_pg s0) A0 → modules_need m0 mods ≤ frames A0 →
  ∃ s' pds ends A top', load_modules debug boot_page_directory K_HIGH_VMA bp bt name_addr lit
      (seqZ 0 (Z.of_nat (length mods))) top s0 = Ok (top', s') ∧
    loaded_to (Z.of_nat (length mods)) pds ends A s' ∧
    frames A0 - modules_need m0 mods ≤ frames A.
Proof using Hspace Hstack Htasks Hmods Hcount Hready.
  intros Hl Hneed.
  destruct (load_modules_ok (length mods) 0 _ _ A0 s0 top ltac:(lia) ltac:(lia) (loaded_none Hl) Hneed)
    as (s' & pds & ends & A & top' & Hrun & Hlt & Hfr).
  by exists s', pds, ends, A, top'.
Qed.
End all.

Lemma load_modules_app l1 l2 : ∀ top s,
  load_modules debug boot_page_directory K_HIGH_VMA bp bt name_addr lit (l1 ++ l2) top s
  = (top' ← load_modules debug boot_page_directory K_HIGH_VMA bp bt name_addr lit l1 top;
     load_modules debug boot_page_directory K_HIGH_VMA bp bt name_addr lit l2 top') s.
Proof using.
  induction l1 as [|i l1 IH]; intros top s; [done|]. cbn [app load_modules].
  rewrite assoc_bind. unfold mbind, M_bind. destruct (load_one i (i + 1) top s) as [[t s1]| | | |]; done.
Qed.
End turn.

(** ** Properties *)

Section boot.
Context (debug : bool) (dev : device) (boot_page_directory K_HIGH_VMA : Z) (name_addr : Z → Z) (lit : string → Z).
Context (bp bt rq : Z).
Context (gdt_entries gdt tss kstack_top idt_entries idt : Z) (eh irq : Z → Z)
  (f_page_fault_handler arch_sysenter_stub f_clock f_tick : Z).
Abbreviation bd := (kphys K_HIGH_VMA boot_page_directory).
Abbreviation load_all := (load_boot_modules debug boot_page_directory K_HIGH_VMA bp bt name_addr lit).
Abbreviation start := (start_scheduling debug dev boot_page_directory bp rq gdt_entries gdt tss
  kstack_top idt_entries idt eh irq f_page_fault_handler arch_sysenter_stub f_clock f_tick).

(** The machine before load_boot_modules: the free frames [A0, hi), the boot
    directory and the modules [mods] *)
Record boot_ready (A0 hi : Z) (mods : list boot_module) (s : boot_st) : Prop := {
  br_space : boot_space bd A0 hi (p_mem (b_pg s));
  br_stack : stack_ready bd (p_mem (b_pg s));
  br_tasks : tasks_apart rq bp bt;
  br_mods : take (length mods) (modules (b_info s)) = mods;
  br_count : no_modules (b_info s) = Z.of_nat (length mods) ∧ Z.of_nat (length mods) < CONF_MAX_BOOT_MODULES;
  br_free : supply (b_pg s) A0 ((hi - A0) / 4096) ∧ A0 + 4096 * ((hi - A0) / 4096) = hi;
}.

Lemma boot_left A0 hi mods s :
  boot_ready A0 hi mods s → frames_left A0 hi (p_mem (b_pg s)) (b_pg s) A0.
Proof using. intros [_ _ _ _ _ [H1 H2]]. constructor; [done|done|lia|done]. Qed.

Lemma load_boot_modules_run A0 hi mods s :
  let m := p_mem (b_pg s) in
  boot_ready A0 hi mods s → Forall (module_ready bd A0 hi m) mods →
  modules_need m mods ≤ (hi - A0) / 4096 →
  ∃ s' pds ends A, load_all s = Ok (tt, s') ∧
    loaded_to boot_page_directory K_HIGH_VMA bp bt A0 hi m s mods (Z.of_nat (length mods)) pds ends A s' ∧ A ≤ hi.
Proof using.
  intros m Hb Hready Hneed. pose proof Hb as [Hsp Hst Hta Hmods [Hn Hmax] _].
  destruct (load_modules_all debug boot_page_directory K_HIGH_VMA name_addr lit bp bt A0 hi m Hsp Hst rq s
    mods Hta Hmods ltac:(lia) Hready 0 (boot_left _ _ _ _ Hb) Hneed)
    as (s' & pds & ends & A & top' & Hrun & Hlt & HA).
  exists s', pds, ends, A. split; [|split; [done|]].
  - unfold load_boot_modules. rewrite gets_bind, Hn.
    rewrite (proj2 (Z.ltb_lt _ _) Hmax). erewrite bind_Ok_M; [|unfold ASSERT; rewrite andb_false_r; reflexivity].
    by rewrite (bind_Ok_M _ _ _ _ _ Hrun).
  - destruct Hlt as [[_ Hh _ _] _ _ _ _]. lia.
Qed.

(** Load_boot_modules brings every module into an address space of its own:
    for well-formed modules in identity-mapped memory and enough free frames it
    returns; module [j] has a directory with every entry of the boot directory,
    in which the memory management unit finds at each file byte of each PT_LOAD
    segment the byte of the module, every segment mapped to its memory size and
    the pages of the stack writable. Directory, tables and frames of module [j]
    lie in [pds j, ends j); these ranges are apart from each other, so what a
    module is given no other module reaches through its user pages. Memory
    outside the free frames is unchanged, and process and thread [j] are
    prepared with the directory and the entry point of module [j]. *)
Theorem load_boot_modules_loads (A0 hi : Z) (mods : list boot_module) (s : boot_st) :
  let m := p_mem (b_pg s) in
  boot_ready A0 hi mods s → Forall (module_ready bd A0 hi m) mods →
  modules_need m mods ≤ (hi - A0) / 4096 →
  ∃ s' pds ends, load_all s = Ok (tt, s') ∧
    (∀ j md, 0 ≤ j → mods !! Z.to_nat j = Some md →
       module_in bd m (p_mem (b_pg s')) md (pds j) (ends j)) ∧
    (∀ j, 0 ≤ j < Z.of_nat (length mods) →
       A0 ≤ pds j ∧ ends j ≤ hi ∧ ∀ i, 0 ≤ i < j → ends i ≤ pds j) ∧
    same_outside A0 hi m (p_mem (b_pg s')) ∧
    tasks_ok bp bt (b_mem s') (Z.of_nat (length mods)) pds (entry_of m mods).
Proof using.
  intros m Hb Hr Hn.
  destruct (load_boot_modules_run A0 hi mods s Hb Hr Hn) as (s' & pds & ends & A & Hrun & Hlt & HA).
  exists s', pds, ends. split; [exact Hrun|]. destruct Hlt as [Hl Hi Hin Hap (k & Hk & Htk & _)].
  split_and!.
  - intros j md Hj Hm. apply Hin; [|done]. pose proof (lookup_lt_Some _ _ _ Hm). lia.
  - intros j Hj. destruct (Hap j Hj) as (H1 & H2 & H3 & H4). split_and!; [done|lia|done].
  - apply (fl_rest _ _ _ _ _ Hl).
  - by rewrite Hk.
Qed.

(** Once the modules are loaded the kernel enters the first one: after
    load_boot_modules, start_scheduling returns with the registers of a user
    thread at the entry point of the first module, on the stack mapped for it,
    with its page directory loaded; the scheduler holds the thread of every
    module, with vector 32 handled by the timer, whose callback is the
    scheduler's tick, with page faults handled by their handler, and with no
    interrupt line open but the timer's and the cascade. *)
Theorem boot_enters_first_module (A0 hi : Z) (mods : list boot_module) (md : boot_module) (s : boot_st) :
  let m := p_mem (b_pg s) in
  let h := b_hw s in
  let n := Z.of_nat (length mods) in
  boot_ready A0 hi mods s → Forall (module_ready bd A0 hi m) mods →
  modules_need m mods ≤ (hi - A0) / 4096 → mods !! 0%nat = Some md →
  ReadsBack dev is_data →
  tables_apart_tasks bp bt gdt_entries gdt tss idt_entries idt →
  current_proc (thr (h_ext h)) = NULL → nsec_to_next_tick (h_ext h) = 0 →
  length (h_callback h) = 256%nat →
  ∃ s' pds ends, (_ ← load_all; start) s
      = Ok (user_regs (module_entry m md) ARCH_MAIN_THREAD_STACK_ADDR, s') ∧
    (∀ j mdj, 0 ≤ j → mods !! Z.to_nat j = Some mdj →
       module_in bd m (p_mem (b_pg s')) mdj (pds j) (ends j)) ∧
    (∀ j, 0 ≤ j < n → A0 ≤ pds j ∧ ends j ≤ hi ∧ ∀ i, 0 ≤ i < j → ends i ≤ pds j) ∧
    same_outside A0 hi m (p_mem (b_pg s')) ∧
    head (cr3_writes (thr (h_ext (b_hw s')))) = Some (pds 0) ∧
    current_thread (h_ext (b_hw s')) = thread_at bt 0 ∧
    rr_inv rq (boot_threads bt n) boot_prio (boot_proc bp bt) (boot_pd bp pds)
      (RR.init boot_prio 10000000000 (boot_threads bt n)) (h_ext (b_hw s')) ∧
    h_callback (b_hw s') !! 32%nat = Some f_clock ∧ h_cur_callback (b_hw s') = f_tick ∧
    h_callback (b_hw s') !! 14%nat = Some f_page_fault_handler ∧
    masks (h_trace (b_hw s')) (masked0 ∖ {[ 0 ]}).
Proof using.
  intros m h n Hb Hr Hn H0 Hdev Htt Hproc Htick Hcb.
  destruct (load_boot_modules_run A0 hi mods s Hb Hr Hn) as (s1 & pds & ends & A & Hrun & Hlt & HA).
  pose proof Hb as [_ _ Hta _ [Hno Hmax] _]. pose proof (lookup_lt_Some _ _ _ H0) as Hpos.
  destruct Hlt as [Hl [l Hi] Hin Hap (k & Hk & Htk & _)].
  destruct (start_scheduling_ok debug dev boot_page_directory bp bt rq gdt_entries gdt tss kstack_top
    idt_entries idt eh irq f_page_fault_handler arch_sysenter_stub f_clock f_tick n pds (entry_of m mods) s1
    Hdev Hta Htt) as (s2 & Hrun2 & Hinv & Hcur & Hcr3 & Hc32 & Hc14 & Hcc & Hmasks & Hmem).
  - unfold n. lia.
  - unfold b_info. rewrite Hi. exact Hno.
  - by rewrite Hk.
  - by rewrite Hk.
  - by rewrite Hk.
  - by rewrite Hk.
  - exists s2, pds, ends. split.
    + rewrite (bind_Ok_M _ _ _ _ _ Hrun), Hrun2. unfold entry_of. change (Z.to_nat 0) with 0%nat.
      by rewrite H0.
    + split_and!; try done; rewrite ?Hmem.
      * intros j mdj Hj Hm. apply Hin; [|done]. pose proof (lookup_lt_Some _ _ _ Hm). lia.
      * intros j Hj. destruct (Hap j Hj) as (P1 & P2 & P3 & P4). split_and!; [done|lia|done].
      * apply (fl_rest _ _ _ _ _ Hl).
Qed.

End boot.

(** ** A machine with one module

    The image of ElfSpace, mapped to itself by the only table of the boot
    directory at 1 MB; the free frames are at 2 MB. *)

Definition demo_md : boot_module := BootModule 0x110000 0x11005C 0 [].
(** An image that begins four bytes late *)
Definition demo_bad : boot_module := BootModule 0x110004 0x11005C 0 [].
Definition demo_boot (md : boot_module) : boot_st :=
  let r := MemRange 0 0 in
  BootSt false (Console ∅ 0 0 0 0 0 0 0)
    (KmemSt [] (PagingSt load_image
       (KernelInfo [MmapEntry 0x200000 0x100000 1 0] 1 0 [md] 1 r r r r r 0xFE800000 0 0) [])
       (Kmalloc.KHeap ∅ 0 0 0 []))
    (Hw [] (replicate 256 0) 0 0 0 0 0 (SchedSt (ThreadSt ∅ 0 0 []) 0 0 0)).

Lemma demo_boot_space : boot_space 0x100000 0x200000 load_hi load_image.
Proof.
  assert (Et : table 0x100000 load_image 0 = 0x101000) by (vm_compute; reflexivity).
  assert (H0 : ∀ i, 0 ≤ i < 1024 → pde 0x100000 load_image i ≠ 0 → i = 0).
  { intros i Hi. rewrite load_pde by done. destruct (Z.eqb_spec i 0); done. }
  constructor; [vm_compute; intuition congruence|vm_compute; intuition congruence| |].
  - intros i Hi Hz. rewrite (H0 i Hi Hz), Et. split; [vm_compute; reflexivity|left; lia].
  - intros i j Hi Hj Hzi Hzj. by rewrite (H0 i Hi Hzi), (H0 j Hj Hzj).
Qed.
Lemma demo_user v : 1024 ≤ v < 1048576 → user_page 0x100000 load_image v.
Proof.
  intros Hv. unfold user_page. rewrite load_pde by (clear -Hv; Z.to_euclidean_division_equations; lia).
  rewrite (proj2 (Z.eqb_neq _ 0)); [done|]. clear -Hv. Z.to_euclidean_division_equations. lia.
Qed.
Lemma demo_stack : stack_ready 0x100000 load_image.
Proof.
  intros w Hw. apply demo_user. change (STACK_BASE / 4096) with 0x7FFFC in Hw.
  change (STACK_BYTES / 4096) with 5 in Hw. lia.
Qed.
Lemma demo_tasks : tasks_apart 0x10000 0x30000 0x20000.
Proof. constructor; vm_compute; intuition congruence. Qed.

Lemma demo_image_ready md : md = demo_md ∨ md = demo_bad →
  image_ready 0x100000 0x200000 load_hi load_image md.
Proof.
  intros Hmd. assert (Hv : ∀ v, image_page md v → v = 0x110).
  { intros v. unfold image_page. destruct Hmd as [-> | ->].
    - change (start_paddr demo_md / 4096) with 0x110. change ((end_paddr demo_md - 1) / 4096) with 0x110. lia.
    - change (start_paddr demo_bad / 4096) with 0x110. change ((end_paddr demo_bad - 1) / 4096) with 0x110. lia. }
  constructor.
  - destruct Hmd as [-> | ->]; vm_compute; intuition congruence.
  - intros v ->%Hv. vm_compute. done.
  - intros v ->%Hv. split; [left; lia|]. intros i Hi Hz. rewrite load_pde in Hz by done.
    destruct (Z.eqb_spec i 0) as [->|]; [|done].
    assert (table 0x100000 load_image 0 = 0x101000) as -> by (vm_compute; reflexivity). right. lia.
Qed.

Lemma demo_segs : module_segs load_image demo_md = [Segment 1 84 0x400000 8 0x1000 5 0x1000].
Proof. vm_compute. reflexivity. Qed.
Lemma demo_module_ready : module_ready 0x100000 0x200000 load_hi load_image demo_md.
Proof.
  constructor; [apply demo_image_ready; by left|]. constructor; rewrite ?demo_segs.
  - vm_compute. reflexivity.
  - vm_compute. intuition congruence.
  - apply Forall_singleton. constructor.
    1-4,6-7: by vm_compute.
    { intros _. split; vm_compute; intuition congruence. }
    intros w _ Hw. apply demo_user. change (sg_vaddr _ / 4096) with 0x400 in Hw.
    change (sg_memsz _ / 4096) with 1 in Hw. lia.
  - split; [apply Forall_nil_2|done].
  - apply Forall_singleton. intros _. left. by vm_compute.
Qed.
Lemma demo_need : modules_need load_image [demo_md] = 17.
Proof. unfold modules_need, module_need. cbn [foldr]. rewrite demo_segs. reflexivity. Qed.

Lemma demo_boot_ready md : boot_ready 0xFE900000 0xFE800000 0x30000 0x20000 0x10000 0x200000 load_hi [md] (demo_boot md).
Proof.
  assert (E : kphys 0xFE800000 0xFE900000 = 0x100000) by reflexivity.
  constructor; rewrite ?E.
  - exact demo_boot_space.
  - exact demo_stack.
  - exact demo_tasks.
  - reflexivity.
  - split; reflexivity.
  - split; [|reflexivity]. constructor; [|vm_compute; intuition congruence].
    eexists _, _. split; [reflexivity|]. split; [reflexivity|]. vm_compute. intuition congruence.
Qed.

Lemma load_boot_modules_loads_witness :
  ∃ s' pd, load_boot_modules true 0xFE900000 0xFE800000 0x30000 0x20000 (λ _, 0) (λ _, 0) (demo_boot demo_md)
      = Ok (tt, s') ∧
    ∃ f fl, mmu_walk (p_mem (b_pg s')) pd 0x400 = Some (f, fl) ∧ load8 (p_mem (b_pg s')) (f + 5) = 0xEB.
Proof.
  destruct (load_boot_modules_loads true 0xFE900000 0xFE800000 (λ _, 0) (λ _, 0) 0x30000 0x20000 0x10000
    0x200000 load_hi [demo_md] (demo_boot demo_md) (demo_boot_ready demo_md))
    as (s' & pds & ends & Hrun & Hin & _).
  - apply Forall_singleton. exact demo_module_ready.
  - change (p_mem (b_pg (demo_boot demo_md))) with load_image. rewrite demo_need. vm_compute. congruence.
  - exists s', (pds 0). split; [exact Hrun|].
    destruct (Hin 0 demo_md ltac:(lia) eq_refl) as [_ _ Hb _ _].
    destruct (Hb (Segment 1 84 0x400000 8 0x1000 5 0x1000) 5) as (f & fl & Hp & Eb).
    + change (p_mem (b_pg (demo_boot demo_md))) with load_image. rewrite demo_segs. by left.
    + reflexivity.
    + cbn. lia.
    + exists f, fl. split; [exact (pp_walk _ _ _ _ _ _ _ Hp)|]. etrans; [exact Eb|]. vm_compute. reflexivity.
Defined.

Lemma demo_task_areas : tables_apart_tasks 0x30000 0x20000 0x40000 0x41000 0x42000 0x43000 0x44000.
Proof. constructor; unfold area_apart; vm_compute; intuition congruence. Qed.
Lemma boot_enters_first_module_witness :
  ∃ s', (_ ← load_boot_modules true 0xFE900000 0xFE800000 0x30000 0x20000 (λ _, 0) (λ _, 0);
         start_scheduling true last_out 0xFE900000 0x30000 0x10000 0x40000 0x41000 0x42000 0x45000 0x43000
           0x44000 (λ _, 0) (λ _, 0) 0x5000 0x6000 0x7000 0x8000) (demo_boot demo_md)
      = Ok (user_regs 0x400000 0x80000000, s') ∧
    current_thread (h_ext (b_hw s')) = 0x20000.
Proof.
  destruct (boot_enters_first_module true last_out 0xFE900000 0xFE800000 (λ _, 0) (λ _, 0) 0x30000 0x20000 0x10000
    0x40000 0x41000 0x42000 0x45000 0x43000 0x44000 (λ _, 0) (λ _, 0) 0x5000 0x6000 0x7000 0x8000
    0x200000 load_hi [demo_md] demo_md (demo_boot demo_md) (demo_boot_ready demo_md))
    as (s' & pds & ends & Hrun & _ & _ & _ & _ & Hcur & _).
  - apply Forall_singleton. exact demo_module_ready.
  - change (p_mem (b_pg (demo_boot demo_md))) with load_image. rewrite demo_need. vm_compute. congruence.
  - reflexivity.
  - intros tr port _. reflexivity.
  - exact demo_task_areas.
  - reflexivity.
  - reflexivity.
  - reflexivity.
  - exists s'. split; [|exact Hcur]. rewrite Hrun.
    assert (module_entry (p_mem (b_pg (demo_boot demo_md))) demo_md = 0x400000) as -> by (vm_compute; reflexivity).
    reflexivity.
Defined.

