(* ===== verification/Frames.v ===== *)
(** * Frames: the physical frame allocators of kern/mem

    phys_alloc.c, phys_alloc.h and stack_alloc.c: the space for allocator
    metadata, handed out from one end to the other; the scan of the loader's
    memory map; a stack of free frames. The build files do not name these sources,
    and the tree has no declaration of [struct multiboot_info] nor of the [size]
    of a map entry, so the offsets of the loader's fields are an argument. *)

From S2P Require Import Prelude Machine ArchPaging KInfo.

(** ** phys_alloc.h *)

Definition NO_PHYS_MEM_REGION : Z := 3.
Definition PHYS_MEM_REGION_KERNEL : Z := 2.

(** struct phys_mem_region, by offsets *)
Definition pr_start : Z := 0.
Definition pr_end : Z := 4.
Definition pr_available : Z := 8.
Definition pr_in_use : Z := 12.
Definition pr_size : Z := 16.
Definition sizeof_phys_mem_region : Z := 20.

(** Where the loader's header puts the fields the code reads: three of
    [struct multiboot_info], four of [multiboot_memory_map_t]. *)
Record mb_fields := MbFields {
  f_mem_upper : Z; f_mmap_length : Z; f_mmap_addr : Z;
  f_size : Z; f_addr : Z; f_len : Z; f_type : Z;
}.

(** ** The static variables of both files *)

Record metadata_region_info_t := MetadataRegion {
  md_start : Z; md_end : Z; md_current_offset : Z;
}.
Record frames_st := FramesSt {
  f_mem : mem;
  f_out : list (string * list Z); (** the calls of kprintf *)
  total_frames_available : Z;
  metadata_region_info : metadata_region_info_t;
  free_frames_stack_top : Z;
  free_frames_stack : Z;
  memory_region : Z;
}.
Definition f_with_mem (f : mem → mem) (s : frames_st) : frames_st :=
  FramesSt (f (f_mem s)) (f_out s) (total_frames_available s) (metadata_region_info s)
    (free_frames_stack_top s) (free_frames_stack s) (memory_region s).
Definition f_print (p : string * list Z) (s : frames_st) : frames_st :=
  FramesSt (f_mem s) (f_out s ++ [p]) (total_frames_available s) (metadata_region_info s)
    (free_frames_stack_top s) (free_frames_stack s) (memory_region s).
Definition f_with_total (t : Z) (s : frames_st) : frames_st :=
  FramesSt (f_mem s) (f_out s) t (metadata_region_info s)
    (free_frames_stack_top s) (free_frames_stack s) (memory_region s).
Definition f_with_metadata (d : metadata_region_info_t) (s : frames_st) : frames_st :=
  FramesSt (f_mem s) (f_out s) (total_frames_available s) d
    (free_frames_stack_top s) (free_frames_stack s) (memory_region s).
Definition f_with_top (t : Z) (s : frames_st) : frames_st :=
  FramesSt (f_mem s) (f_out s) (total_frames_available s) (metadata_region_info s)
    t (free_frames_stack s) (memory_region s).
Definition f_with_stack (p : Z) (s : frames_st) : frames_st :=
  FramesSt (f_mem s) (f_out s) (total_frames_available s) (metadata_region_info s)
    (free_frames_stack_top s) p (memory_region s).
Definition f_with_region (r : Z) (s : frames_st) : frames_st :=
  FramesSt (f_mem s) (f_out s) (total_frames_available s) (metadata_region_info s)
    (free_frames_stack_top s) (free_frames_stack s) r.

(** The values the static variables are initialised with *)
Definition frames_boot (m : mem) : frames_st :=
  FramesSt m [] 0 (MetadataRegion 0 0 0) (-1) NULL NULL.

Abbreviation F := (M frames_st).

(** frame_allocator_t *)
Record frame_allocator := FrameAllocator {
  fa_init : Z → Z → F unit;
  fa_alloc : F Z;
  fa_free : Z → F unit;
}.

Section frames.
Context (fo : mb_fields) (debug : bool).
(** The linker's symbols and the address of [memory_regions] *)
Context (K_METADATA_VMA K_METADATA_SIZE K_HIGH_VMA kernel_start kernel_end : Z)
  (memory_regions : Z).

Definition entry_size (m : mem) (entry : Z) : Z := load32 m (entry + f_size fo).
Definition entry_addr (m : mem) (entry : Z) : Z := load64 m (entry + f_addr fo).
Definition entry_len (m : mem) (entry : Z) : Z := load64 m (entry + f_len fo).
Definition entry_type (m : mem) (entry : Z) : Z := load32 m (entry + f_type fo).

(** The condition both scans skip an entry on *)
Definition entry_skipped (m : mem) (mmap_addr entry : Z) : bool :=
  negb (entry_type m entry =? MULTIBOOT_MEMORY_AVAILABLE)
  || ((mmap_addr >=? u32 (entry_addr m entry))
      && (mmap_addr <=? u32 (u64 (entry_addr m entry + entry_len m entry)))).
(** curr_addr += entry->size + sizeof(multiboot_memory_map_t* ) *)
Definition next_entry (m : mem) (entry : Z) : Z := entry ⊞ (entry_size m entry ⊞ 4).

(** ** phys_alloc.c *)

Definition DMA_REGION_MIN_SIZE : Z := Z.shiftl 1 20.
Definition KERNEL_REGION_MIN_SIZE : Z := Z.shiftl 1 20.

(** phys_alloc.c:52, one entry *)
Definition count_entry (m : mem) (mmap_addr : Z) : Z * Z → outcome (Z * Z) :=
  λ '(curr_addr, total),
  let region_no_frames := u32 (entry_len m curr_addr / PAGE_SIZE) in
  if entry_skipped m mmap_addr curr_addr then Ok (next_entry m curr_addr, total)
  else Ok (next_entry m curr_addr, total ⊞ region_no_frames).

(** phys_alloc.c:29 *)
Definition init_free_memory (multiboot_info_ptr : Z) : F unit :=
  m ← gets f_mem;
  let mmap_length := load32 m (multiboot_info_ptr + f_mmap_length fo) in
  let mmap_addr := load32 m (multiboot_info_ptr + f_mmap_addr fo) in
  let mem_upper := load32 m (multiboot_info_ptr + f_mem_upper fo) in
  let mmap_end_addr := mmap_addr ⊞ mmap_length in
  let kernel_size := kernel_end ⊟ kernel_start in
  let metadata_region_size := K_METADATA_SIZE in
  _ ← modify (f_with_metadata
        (MetadataRegion K_METADATA_VMA (K_METADATA_VMA ⊞ metadata_region_size) K_METADATA_VMA));
  _ ← modify (f_print ("Detected %d MB of free memory", [mem_upper / 1024]));
  if DMA_REGION_MIN_SIZE + KERNEL_REGION_MIN_SIZE >? mem_upper ⊠ 1024 then
    panic "Insufficient physical memory available!"
  else
    total ← gets total_frames_available;
    '(_, total) ← lift (while_loop (λ '(curr_addr, _), curr_addr <? mmap_end_addr)
                          (count_entry m mmap_addr) (mmap_addr, total));
    let occupied := kernel_size / PAGE_SIZE ⊞ metadata_region_size / PAGE_SIZE in
    let total := total ⊟ occupied in
    _ ← modify (f_with_total total);
    _ ← modify (f_print ("%d frames available", [total]));
    _ ← (if debug then modify (f_print ("The kernel occupies %d frames", [occupied]))
         else mret tt);
    let kernel_end_page_align := Z.land kernel_end 0xFFFFF000 ⊞ PAGE_SIZE in
    let kernel_memory_region_size := Z.shiftl 2 20 in
    let kernel_memory_region_start := kernel_end_page_align ⊟ K_HIGH_VMA in
    let region := memory_regions + sizeof_phys_mem_region * PHYS_MEM_REGION_KERNEL in
    _ ← modify (f_with_mem (λ m, store32 m (region + pr_size) kernel_memory_region_size));
    _ ← modify (f_with_mem (λ m, store32 m (region + pr_start) kernel_memory_region_start));
    modify (f_with_mem (λ m, store32 m (region + pr_end)
      (kernel_memory_region_start ⊞ kernel_memory_region_size))).

(** phys_alloc.c:94 *)
Definition reserve_metadata_space (size : Z) : F Z :=
  d ← gets metadata_region_info;
  if md_current_offset d ⊞ size >? md_end d then mret NULL
  else
    let ret := md_current_offset d in
    _ ← modify (f_with_metadata
          (MetadataRegion (md_start d) (md_end d) (md_current_offset d ⊞ size)));
    mret ret.

(** ** stack_alloc.c *)

(** ++ on an int *)
Definition int_incr (i : Z) : outcome Z :=
  if i =? 2147483647 then UB "signed overflow" else Ok (i + 1).

(** stack_alloc.c:68, the loop over the frames of one entry; the state is memory,
    the stack's top, the frames acquired and the address *)
Definition push_frame (stack : Z) : mem * Z * Z * Z → outcome (mem * Z * Z * Z) :=
  λ '(m, top, acquired, addr),
  top ← int_incr top;
  Ok (store32 m (stack + 4 * top) addr, top, acquired ⊞ 1, addr ⊞ PAGE_SIZE).
Definition push_frames (stack no_frames_required region_end : Z)
    : mem * Z * Z * Z → outcome (mem * Z * Z * Z) :=
  while_loop (λ '(_, _, acquired, addr),
                (addr <? region_end) && (acquired <? no_frames_required))
    (push_frame stack).

(** stack_alloc.c:51, one entry *)
Definition scan_entry (stack mmap_addr region_start no_frames_required : Z)
    : mem * Z * Z * Z → outcome (mem * Z * Z * Z) :=
  λ '(m, top, acquired, curr_addr),
  let mmap_region_addr_start := u32 (entry_addr m curr_addr) in
  let mmap_region_addr_end := u32 (u64 (entry_addr m curr_addr + entry_len m curr_addr)) in
  if entry_skipped m mmap_addr curr_addr then Ok (m, top, acquired, next_entry m curr_addr)
  else if negb ((region_start >=? mmap_region_addr_start)
                || (region_start <? mmap_region_addr_end)) then
    Ok (m, top, acquired, next_entry m curr_addr)
  else
    let addr := if mmap_region_addr_start >? region_start then mmap_region_addr_start
                else region_start in
    '(m, top, acquired, _) ←
      push_frames stack no_frames_required mmap_region_addr_end (m, top, acquired, addr);
    Ok (m, top, acquired, next_entry m curr_addr).

(** stack_alloc.c:28 *)
Definition stack_frames_required (size : Z) : Z :=
  let n := (size / PAGE_SIZE ⊠ 4) / PAGE_SIZE in
  if n =? 0 then 1 else n.

(** stack_alloc.c:22 *)
Definition stack_alloc_init (multiboot_info_ptr region : Z) : F unit :=
  m ← gets f_mem;
  let mmap_length := load32 m (multiboot_info_ptr + f_mmap_length fo) in
  let mmap_addr := load32 m (multiboot_info_ptr + f_mmap_addr fo) in
  let mmap_end_addr := mmap_addr ⊞ mmap_length in
  let no_frames_required := stack_frames_required (load32 m (region + pr_size)) in
  _ ← modify (f_with_region region);
  _ ← modify (f_with_mem (λ m, store32 m (region + pr_in_use) 0));
  _ ← modify (f_with_mem (λ m, store32 m (region + pr_available) 0));
  stack ← reserve_metadata_space (no_frames_required ⊠ 4);
  _ ← modify (f_with_stack stack);
  if stack =? NULL then panic "No space left in metadata region!"
  else
    region_start ← gets (λ s, load32 (f_mem s) (region + pr_start));
    s ← gets id;
    '(m, top, acquired, _) ← lift (while_loop
        (λ '(_, _, acquired, curr_addr),
           (curr_addr <? mmap_end_addr) && (acquired <? no_frames_required))
        (scan_entry stack mmap_addr region_start no_frames_required)
        (f_mem s, free_frames_stack_top s, 0, mmap_addr));
    _ ← modify (f_with_mem (λ _, m));
    _ ← modify (f_with_top top);
    if negb (acquired =? no_frames_required) then
      panic "Stack allocator: Insufficient memory!"
    else modify (f_with_mem (λ m, store32 m (region + pr_available) acquired)).

(** memory_region->no_frames_in_use += d; memory_region->no_frames_available -= d *)
Definition count_frames (d : Z) : F unit :=
  r ← gets memory_region;
  _ ← modify (f_with_mem (λ m, store32 m (r + pr_in_use) (load32 m (r + pr_in_use) ⊞ d)));
  modify (f_with_mem (λ m, store32 m (r + pr_available) (load32 m (r + pr_available) ⊟ d))).

(** stack_alloc.c:86 *)
Definition stack_alloc_frame : F Z :=
  top ← gets free_frames_stack_top;
  if top >=? 0 then
    frame_addr ← gets (λ s, load32 (f_mem s) (free_frames_stack s + 4 * top));
    _ ← modify (f_with_top (top - 1));
    _ ← count_frames 1;
    mret frame_addr
  else
    _ ← modify (f_print ("Stack allocator: No free frames left!", []));
    mret 0.

(** stack_alloc.c:104; before the initialisation both pointers are null *)
Definition stack_free_frame (addr : Z) : F unit :=
  stack ← gets free_frames_stack;
  if stack =? NULL then ub "NULL stack"
  else
    top ← gets free_frames_stack_top;
    top ← lift (int_incr top);
    _ ← modify (f_with_top top);
    _ ← modify (f_with_mem (λ m, store32 m (stack + 4 * top) addr));
    count_frames (-1).

Definition stack_allocator : frame_allocator :=
  FrameAllocator stack_alloc_init stack_alloc_frame stack_free_frame.
End frames.
