(* ===== verification/FramesProps.v ===== *)
(** * FramesProps: what the frame allocators promise

    The memory map as a list of entries; the frames the scan of stack_alloc.c
    collects; the stack in memory against a list; clients of any allocator that
    keeps the interface [FrameAllocator_ok]. *)

From S2P Require Import Prelude Machine ArchPaging KInfo Frames.

(** ** The stack in memory *)

Section stack.
(** The stack's address, its capacity in frames, the region structure *)
Context (stack region cap : Z).

Record stack_layout : Prop := StackLayout {
  sl_stack : 0 < stack;
  sl_stack_end : stack + 4 * cap ≤ 4294967296;
  sl_cap : cap < 2147483648;
  sl_region : 0 ≤ region;
  sl_region_end : region + sizeof_phys_mem_region ≤ 4294967296;
  sl_apart : stack + 4 * cap ≤ region ∨ region + sizeof_phys_mem_region ≤ stack;
}.

(** The words of the stack are the frames of [l], whose head is the top. *)
Definition stack_words (l : list Z) (m : mem) : Prop :=
  ∀ (i : nat) x, reverse l !! i = Some x → load32 m (stack + 4 * Z.of_nat i) = x.

Record stack_rep (l : list Z) (s : frames_st) : Prop := StackRep {
  sr_stack : free_frames_stack s = stack;
  sr_region : memory_region s = region;
  sr_top : free_frames_stack_top s = Z.of_nat (length l) - 1;
  sr_words : stack_words l (f_mem s);
  sr_cap : Z.of_nat (length l) ≤ cap;
  sr_available : load32 (f_mem s) (region + pr_available) = Z.of_nat (length l);
  sr_in_use : load32 (f_mem s) (region + pr_in_use) = cap - Z.of_nat (length l);
}.

Context (HL : stack_layout).

(** A word of the stack and a field of the region do not meet. *)
Lemma word_field (i : nat) off :
  Z.of_nat i < cap → 0 ≤ off ≤ 16 → disj (region + off) 4 (stack + 4 * Z.of_nat i) 4.
Proof using HL.
  destruct HL as [????? Ha]. unfold sizeof_phys_mem_region in *. intros ??.
  apply disj_linear; lia.
Qed.
Lemma field_word (i : nat) off :
  Z.of_nat i < cap → 0 ≤ off ≤ 16 → disj (stack + 4 * Z.of_nat i) 4 (region + off) 4.
Proof using HL.
  destruct HL as [????? Ha]. unfold sizeof_phys_mem_region in *. intros ??.
  apply disj_linear; lia.
Qed.

Lemma words_push l m a :
  Z.of_nat (length l) < cap → 0 ≤ a < 4294967296 →
  stack_words l m → stack_words (a :: l) (store32 m (stack + 4 * Z.of_nat (length l)) a).
Proof using HL.
  intros Hl Ha Hw i x. rewrite reverse_cons, lookup_app_Some, length_reverse.
  destruct HL as [? Hend ????].
  intros [Hx|[Hi [Hi0 Hx]%list_lookup_singleton_Some]].
  - pose proof (lookup_lt_Some _ _ _ Hx) as Hi. rewrite length_reverse in Hi.
    rewrite load32_store32_disj; [by apply Hw|]. apply disj_linear; lia.
  - replace i with (length l) by lia. rewrite load32_store32_eq. subst x. by apply u32_small.
Qed.
Lemma words_pop a l m : stack_words (a :: l) m → stack_words l m.
Proof using. intros Hw i x Hx. apply Hw. rewrite reverse_cons. by apply lookup_app_l_Some. Qed.
Lemma words_top a l m :
  stack_words (a :: l) m → load32 m (stack + 4 * Z.of_nat (length l)) = a.
Proof using.
  intros Hw. apply Hw. rewrite reverse_cons, lookup_app_r by (rewrite length_reverse; lia).
  by rewrite length_reverse, Nat.sub_diag.
Qed.
Lemma words_field l m off v :
  Z.of_nat (length l) ≤ cap → 0 ≤ off ≤ 16 →
  stack_words l m → stack_words l (store32 m (region + off) v).
Proof using HL.
  intros Hl Ho Hw i x Hx. pose proof (lookup_lt_Some _ _ _ Hx) as Hi.
  rewrite length_reverse in Hi. rewrite load32_store32_disj; [by apply Hw|].
  apply word_field; lia.
Qed.

(** The two counters move together. *)
Lemma count_frames_ok d n s :
  memory_region s = region →
  0 ≤ n ≤ cap → 0 ≤ n - d ≤ cap →
  load32 (f_mem s) (region + pr_available) = n →
  load32 (f_mem s) (region + pr_in_use) = cap - n →
  ∃ m, count_frames d s = Ok (tt, f_with_mem (λ _, m) s) ∧
    load32 m (region + pr_available) = n - d ∧
    load32 m (region + pr_in_use) = cap - (n - d) ∧
    (∀ l' : list Z, Z.of_nat (length l') ≤ cap →
       stack_words l' (f_mem s) → stack_words l' m).
Proof using HL.
  intros Hr Hl Hd Ha Hu. unfold count_frames. mstep. rewrite Hr. cbn [f_with_mem f_mem].
  destruct HL as [? Hend Hcap Hreg Hrend _].
  unfold sizeof_phys_mem_region, pr_available, pr_in_use in *.
  eexists. split; [reflexivity|]. cbn [f_with_mem f_mem]. fields. rewrite Ha, Hu. split_and!; try wrap_lia.
  intros l' Hl' Hw. by repeat (apply words_field; [done|lia|]).
Qed.

Lemma stack_alloc_frame_ok l s :
  stack_rep l s →
  ∃ x s', stack_alloc_frame s = Ok (x, s') ∧
    match l with
    | [] => x = 0 ∧ stack_rep [] s'
    | y :: l' => x = y ∧ stack_rep l' s'
    end.
Proof using HL.
  intros [Hst Hr Ht Hw Hc Ha Hu]. unfold stack_alloc_frame. rewrite gets_bind, Ht.
  destruct l as [|y l]; cbn [length] in *.
  - assert ((Z.of_nat 0 - 1 >=? 0) = false) as -> by done. rewrite modify_bind.
    exists 0. eexists. split; [reflexivity|]. split; [done|].
    by constructor.
  - assert ((Z.of_nat (S (length l)) - 1 >=? 0) = true) as -> by (apply Z.geb_le; lia).
    rewrite gets_bind, Hst.
    replace (Z.of_nat (S (length l)) - 1) with (Z.of_nat (length l)) by lia.
    rewrite (words_top y l) by done. rewrite modify_bind.
    destruct (count_frames_ok 1 (Z.of_nat (S (length l))) (f_with_top (Z.of_nat (length l) - 1) s))
      as (m & E & Ha' & Hu' & Hw'); cbn [length memory_region f_with_top f_mem]; try done; try lia.
    rewrite (bind_Ok_M _ _ _ _ _ E). eexists _, _. split; [reflexivity|].
    cbn [length] in *. split; [done|]. constructor; cbn; try done; try lia.
    apply Hw'; [lia|]. by apply (words_pop y).
Qed.

Lemma stack_free_frame_ok l s a :
  stack_rep l s → Z.of_nat (length l) < cap → 0 ≤ a < 4294967296 →
  ∃ s', stack_free_frame a s = Ok (tt, s') ∧ stack_rep (a :: l) s'.
Proof using HL.
  intros [Hst Hr Ht Hw Hc Ha Hu] Hl Hx. unfold stack_free_frame.
  pose proof (sl_stack HL). pose proof (sl_cap HL).
  rewrite gets_bind, Hst. assert ((stack =? NULL) = false) as -> by (unfold NULL; lia).
  rewrite gets_bind, Ht. unfold int_incr.
  assert ((Z.of_nat (length l) - 1 =? 2147483647) = false) as -> by lia.
  rewrite (bind_Ok_M _ _ _ (Z.of_nat (length l)) s)
    by (unfold lift; cbn; do 2 f_equal; lia).
  rewrite !modify_bind.
  edestruct (count_frames_ok (-1) (Z.of_nat (length l)) (f_with_mem (λ m, store32 m (stack + 4 * Z.of_nat (length l)) a)
    (f_with_top (Z.of_nat (length l)) s))) as (m & E & Ha' & Hu' & Hw');
    cbn [memory_region f_with_top f_with_mem f_mem]; try done; try lia.
  - rewrite load32_store32_disj; [done|]. apply field_word; [lia|]. unfold pr_available. lia.
  - rewrite load32_store32_disj; [done|]. apply field_word; [lia|]. unfold pr_in_use. lia.
  - eexists. split; [exact E|]. constructor; cbn [length] in *; cbn; try done; try lia.
    apply Hw'; cbn [length f_mem f_with_mem f_with_top]; [lia|]. by apply words_push.
Qed.
End stack.

(** ** Clients of an allocator

    What the free pool [rep l] of an allocator promises to the code that calls
    it: a frame of the pool is taken out, one that is given back is put in; an
    empty pool yields 0 and stays empty. *)
Class FrameAllocator_ok (A : frame_allocator) (capacity : nat)
    (rep : list Z → frames_st → Prop) : Prop := {
  fa_alloc_ok : ∀ l s, rep l s →
    ∃ x l' s', fa_alloc A s = Ok (x, s') ∧ rep l' s' ∧
      (l = [] ∧ x = 0 ∧ l' = [] ∨ l ≡ₚ x :: l');
  fa_free_ok : ∀ l s x, rep l s → (length l < capacity)%nat → 0 ≤ x < 4294967296 →
    ∃ l' s', fa_free A x s = Ok (tt, s') ∧ rep l' s' ∧ l' ≡ₚ x :: l;
}.

(** A client asks for frames and gives back frames it holds, the [k]-th. *)
Inductive frame_call := Alloc | Free (k : nat).
Fixpoint run_client (A : frame_allocator) (cs : list frame_call) (held : list Z) : F (list Z) :=
  match cs with
  | [] => mret held
  | Alloc :: cs' =>
      x ← fa_alloc A;
      run_client A cs' (if x =? 0 then held else x :: held)
  | Free k :: cs' =>
      match held !! k with
      | Some x => _ ← fa_free A x; run_client A cs' (delete k held)
      | None => run_client A cs' held
      end
  end.

Section client.
Context {A : frame_allocator} {capacity : nat} {rep : list Z → frames_st → Prop}
  {HA : FrameAllocator_ok A capacity rep}.

Lemma run_client_ok (pool : list Z) (cs : list frame_call) :
  length pool = capacity → Forall (λ x, 0 < x < 4294967296) pool →
  ∀ held l s, rep l s → held ++ l ≡ₚ pool →
  ∃ held' l' s', run_client A cs held s = Ok (held', s') ∧ rep l' s' ∧ held' ++ l' ≡ₚ pool.
Proof using HA.
  intros Hcap Hpool. induction cs as [|[|k] cs IH]; intros held l s Hl Hp.
  - by exists held, l, s.
  - destruct (fa_alloc_ok l s Hl) as (x & l' & s' & E & Hl' & Hx). cbn [run_client].
    rewrite (bind_Ok_M _ _ _ _ _ E). apply (IH _ l'); [done|].
    destruct Hx as [(-> & -> & ->)|Hx]; [done|].
    assert (0 < x < 4294967296) as [Hx0 _].
    { rewrite Forall_forall in Hpool. apply Hpool. rewrite <-Hp, Hx. set_solver. }
    rewrite (proj2 (Z.eqb_neq x 0)) by lia.
    rewrite <-Hp, Hx. simpl. apply Permutation_middle.
  - cbn [run_client]. destruct (held !! k) as [x|] eqn:Ek; [|by apply (IH _ l)].
    pose proof (delete_Permutation _ _ _ Ek) as Hd.
    generalize dependent (delete k held). intros rest Hd.
    destruct (fa_free_ok l s x Hl) as (l' & s' & E & Hl' & Hx).
    { rewrite <-Hcap, <-Hp, Hd, length_app. simpl. lia. }
    { rewrite Forall_forall in Hpool. assert (0 < x < 4294967296); [|lia].
      apply Hpool. rewrite <-Hp, Hd. set_solver. }
    rewrite (bind_Ok_M _ _ _ _ _ E). apply (IH _ l'); [done|].
    rewrite <-Hp, Hx, Hd. simpl. symmetry. apply Permutation_middle.
Qed.
End client.

#[export] Instance stack_allocator_ok fo stack region cap :
  stack_layout stack region cap →
  FrameAllocator_ok (stack_allocator fo) (Z.to_nat cap) (stack_rep stack region cap).
Proof.
  intros HL. split.
  - intros l s Hl. destruct (stack_alloc_frame_ok _ _ _ HL l s Hl) as (x & s' & E & H).
    destruct l as [|y l]; destruct H as [-> H].
    + exists 0, [], s'. eauto 6.
    + exists y, l, s'. eauto 6.
  - intros l s x Hl Hc Hx.
    destruct (stack_free_frame_ok _ _ _ HL l s x Hl ltac:(lia) Hx) as (s' & E & H).
    by exists (x :: l), s'.
Qed.

(** ** The memory map the loader leaves *)

Section map.
Context (fo : mb_fields).

(** Fields within a record that its [size] covers *)
Record fields_ok : Prop := FieldsOk {
  fk_size : 0 ≤ f_size fo; fk_size_in : f_size fo + 4 ≤ 24;
  fk_addr : 0 ≤ f_addr fo; fk_addr_in : f_addr fo + 8 ≤ 24;
  fk_len : 0 ≤ f_len fo; fk_len_in : f_len fo + 8 ≤ 24;
  fk_type : 0 ≤ f_type fo; fk_type_in : f_type fo + 4 ≤ 24;
}.

Record map_entry := MapEntry { me_size : Z; me_addr : Z; me_len : Z; me_type : Z }.

Definition reads_entry (m : mem) (a : Z) (e : map_entry) : Prop :=
  entry_size fo m a = me_size e ∧ entry_addr fo m a = me_addr e ∧
  entry_len fo m a = me_len e ∧ entry_type fo m a = me_type e.

(** The entries [es] lie one after the other from [a] to [end_]. *)
Fixpoint map_at (m : mem) (a end_ : Z) (es : list map_entry) : Prop :=
  match es with
  | [] => a = end_
  | e :: es' =>
      reads_entry m a e ∧ 20 ≤ me_size e ∧
      a + me_size e + 4 ≤ end_ ∧ map_at m (a + me_size e + 4) end_ es'
  end.

(** First and last address of an entry, as the 32-bit code computes them *)
Definition me_lo (e : map_entry) : Z := u32 (me_addr e).
Definition me_hi (e : map_entry) : Z := u32 (u64 (me_addr e + me_len e)).
Definition me_skipped (mmap_addr : Z) (e : map_entry) : bool :=
  negb (me_type e =? MULTIBOOT_MEMORY_AVAILABLE)
  || ((mmap_addr >=? me_lo e) && (mmap_addr <=? me_hi e)).

(** The frames from [a] on that begin below [hi] *)
Definition frames_from (a hi : Z) : list Z :=
  (λ i, a + 4096 * i) <$> seqZ 0 ((hi - a + 4095) / 4096).
(** The frames that one entry, and the whole map, offer above [start] *)
Definition entry_frames (mmap_addr start : Z) (e : map_entry) : list Z :=
  if me_skipped mmap_addr e then [] else frames_from (Z.max (me_lo e) start) (me_hi e).
Definition map_frames (mmap_addr start : Z) (es : list map_entry) : list Z :=
  concat (entry_frames mmap_addr start <$> es).

Lemma frames_from_cons a hi : a < hi → frames_from a hi = a :: frames_from (a + 4096) hi.
Proof.
  intros H. unfold frames_from.
  assert ((hi - a + 4095) / 4096 = Z.succ ((hi - (a + 4096) + 4095) / 4096)) as ->.
  { replace (hi - a + 4095) with (hi - (a + 4096) + 4095 + 1 * 4096) by lia.
    rewrite Z.div_add by lia. lia. }
  rewrite seqZ_cons by (Z.to_euclidean_division_equations; lia).
  rewrite Z.pred_succ, fmap_cons. f_equal; [lia|].
  change (Z.succ 0) with (1 + 0). rewrite <-(fmap_add_seqZ 1 0), <-list_fmap_compose.
  apply list_fmap_ext. intros _ x _. simpl. lia.
Qed.
Lemma frames_from_nil a hi : hi ≤ a → frames_from a hi = [].
Proof.
  intros H. unfold frames_from. rewrite seqZ_nil; [done|].
  Z.to_euclidean_division_equations; lia.
Qed.

Lemma map_at_le m a end_ es : map_at m a end_ es → a ≤ end_.
Proof.
  revert a. induction es as [|e es IH]; intros a; simpl; [lia|]. intros (_ & ? & ? & _). lia.
Qed.

Context (HF : fields_ok).

Lemma reads_entry_ext m m' a e :
  (∀ i, 0 ≤ i < 24 → load8 m' (a + i) = load8 m (a + i)) →
  reads_entry m a e → reads_entry m' a e.
Proof using HF.
  intros Hm (E1 & E2 & E3 & E4). unfold reads_entry.
  rewrite <-E1, <-E2, <-E3, <-E4. unfold entry_size, entry_addr, entry_len,
    entry_type, load64. clear E1 E2 E3 E4. destruct HF.
  assert (H4 : ∀ f, 0 ≤ f → f + 4 ≤ 24 → load32 m' (a + f) = load32 m (a + f)).
  { intros f ??. apply load32_ext. intros i Hi. rewrite <-Z.add_assoc. apply Hm. lia. }
  rewrite <-!Z.add_assoc, !H4 by lia. done.
Qed.

Lemma map_at_ext m m' a end_ es :
  (∀ x, a ≤ x < end_ → load8 m' x = load8 m x) →
  map_at m a end_ es → map_at m' a end_ es.
Proof using HF.
  revert a. induction es as [|e es IH]; intros a Hm; simpl; [done|].
  intros (He & ? & Hle & Hes). split_and!; try done.
  - eapply reads_entry_ext; [|done]. intros i Hi. apply Hm. lia.
  - apply IH; [|done]. intros x Hx. apply Hm. lia.
Qed.

Lemma next_entry_ok m a end_ e :
  reads_entry m a e → 0 ≤ a → 20 ≤ me_size e → a + me_size e + 4 ≤ end_ →
  end_ < 4294967296 → next_entry fo m a = a + me_size e + 4.
Proof.
  intros (Hs & _) ????. unfold next_entry. rewrite Hs. wrap_lia.
Qed.
Lemma entry_skipped_ok m mmap_addr a e :
  reads_entry m a e → entry_skipped fo m mmap_addr a = me_skipped mmap_addr e.
Proof. intros (_ & Ha & Hl & Ht). unfold entry_skipped. by rewrite Ha, Hl, Ht. Qed.
End map.

(** ** The scan *)

Section scan.
Context (fo : mb_fields) (HF : fields_ok fo).
(** The stack with room for the [want] frames, the loader's map from
    [mmap_addr] to [mmap_end], the start of the region *)
Context (stack : Z) (want : nat) (mmap_addr mmap_end start : Z).
Context (Hwant : Z.of_nat want < 2147483648).
Context (Hstack : 0 ≤ stack) (Hstack_end : stack + 4 * Z.of_nat want ≤ 4294967296).
Context (Hmap : 0 ≤ mmap_addr) (Hmap_end : mmap_end < 4294967296).
Context (Hapart : stack + 4 * Z.of_nat want ≤ mmap_addr ∨ mmap_end ≤ stack).
Context (Hstart : 0 ≤ start < 4294967296).

(** The frames [fs] have been pushed, the last one on top. *)
Record pushed (m0 : mem) (fs : list Z) (m : mem) (top acquired : Z) : Prop := Pushed {
  pu_words : stack_words stack (reverse fs) m;
  pu_top : top = Z.of_nat (length fs) - 1;
  pu_acquired : acquired = Z.of_nat (length fs);
  pu_room : (length fs ≤ want)%nat;
  pu_only : changes_only stack (4 * Z.of_nat want) m0 m;
}.

Lemma push_frame_ok m0 fs m top acquired addr :
  pushed m0 fs m top acquired → acquired < Z.of_nat want → 0 ≤ addr < 4294963200 →
  ∃ m', push_frame stack (m, top, acquired, addr) =
    Ok (m', top + 1, acquired + 1, addr + 4096) ∧
    pushed m0 (fs ++ [addr]) m' (top + 1) (acquired + 1).
Proof using Hwant Hstack Hstack_end.
  intros [Hw -> -> Hr Ho] Hlt Ha. unfold push_frame, int_incr.
  assert ((Z.of_nat (length fs) - 1 =? 2147483647) = false) as -> by lia.
  rewrite bind_Ok. replace (Z.of_nat (length fs) - 1 + 1) with (Z.of_nat (length fs)) by lia.
  rewrite !u32_small by (unfold PAGE_SIZE, ARCH_PAGE_SIZE; lia).
  eexists. split; [reflexivity|].
  split; rewrite ?length_app; simpl; try lia.
  - intros i x. rewrite reverse_involutive, lookup_app_Some.
    intros [Hx|[Hi [Hi0 Hx]%list_lookup_singleton_Some]].
    + pose proof (lookup_lt_Some _ _ _ Hx) as Hi.
      rewrite load32_store32_disj; [apply Hw; by rewrite reverse_involutive|].
      apply disj_linear; lia.
    + replace i with (length fs) by lia. rewrite load32_store32_eq. subst x.
      apply u32_small. lia.
  - apply changes_only_store32; [done| | |]; lia.
Qed.

(** The loop over the frames of one entry *)
Lemma push_frames_ok m0 fs m top acquired addr hi :
  pushed m0 fs m top acquired → 0 ≤ addr < 4294967296 → 0 ≤ hi ≤ 4294963200 →
  ∃ m' top' acquired' addr',
    push_frames stack (Z.of_nat want) hi (m, top, acquired, addr) =
      Ok (m', top', acquired', addr') ∧
    pushed m0 (take want (fs ++ frames_from addr hi)) m' top' acquired'.
Proof using Hwant Hstack Hstack_end.
  intros Hp Ha Hhi. remember (take want (fs ++ frames_from addr hi)) as all eqn:Eall. unfold push_frames.
  loop_rule (λ '(m, top, acquired, addr), ∃ fs,
      pushed m0 fs m top acquired ∧ 0 ≤ addr < 4294967296 ∧
      take want (fs ++ frames_from addr hi) = all)
    (λ '((_, _, acquired, _) : mem * Z * Z * Z), Z.to_nat (Z.of_nat want - acquired))
    as [[[m' top'] acquired'] addr'] (fs' & Hp' & Ha' & Hall) Hend.
  - rewrite (pu_acquired _ _ _ _ _ Hp). unfold FUEL. lia.
  - by exists fs.
  - clear dependent fs m top acquired addr. intros [[[m top] acquired] addr] (fs & Hp & Ha & Hall).
    rewrite andb_true_iff, !Z.ltb_lt. intros [Hlt Hroom].
    destruct (push_frame_ok m0 fs m top acquired addr Hp Hroom ltac:(lia)) as (m' & E & Hp').
    eexists. split; [exact E|]. split; [|lia]. exists (fs ++ [addr]).
    split_and!; [done|lia|lia|]. rewrite <-Hall, (frames_from_cons addr hi) by lia.
    by rewrite <-app_assoc.
  - exists m', top', acquired', addr'. split; [reflexivity|]. rewrite <-Hall.
    rewrite andb_false_iff, !Z.ltb_ge in Hend.
    assert (take want (fs' ++ frames_from addr' hi) = fs') as ->; [|done].
    destruct Hp' as [_ _ -> Hr _]. destruct Hend as [Hend|Hend].
    + rewrite frames_from_nil, app_nil_r by lia. by apply take_ge.
    + rewrite take_app_le by lia. by apply take_ge.
Qed.

(** No entry the scan uses reaches the last page of the address space. *)
Definition entry_ok (e : map_entry) : Prop :=
  me_skipped mmap_addr e = false → me_hi e ≤ 4294963200.

Lemma me_range e : 0 ≤ me_lo e < 4294967296 ∧ 0 ≤ me_hi e < 4294967296.
Proof using. unfold me_lo, me_hi. split; apply u32_range. Qed.

(** One entry of the map *)
Lemma scan_entry_ok m0 fs m top acquired curr e es :
  pushed m0 fs m top acquired →
  mmap_addr ≤ curr → map_at fo m curr mmap_end (e :: es) → entry_ok e →
  ∃ m' top' acquired',
    scan_entry fo stack mmap_addr start (Z.of_nat want) (m, top, acquired, curr) =
      Ok (m', top', acquired', curr + me_size e + 4) ∧
    pushed m0 (take want (fs ++ entry_frames mmap_addr start e)) m' top' acquired' ∧
    map_at fo m' (curr + me_size e + 4) mmap_end es.
Proof using All.
  intros Hp Hc (He & Hs & Hle & Hes) Hok.
  assert (Hnext : ∀ m', reads_entry fo m' curr e →
    next_entry fo m' curr = curr + me_size e + 4).
  { intros m' He'. apply (next_entry_ok fo m' curr mmap_end); lia || done. }
  pose proof (me_range e) as [Hlo Hhi].
  unfold scan_entry, entry_frames. rewrite (entry_skipped_ok fo m mmap_addr curr e He).
  assert (Hfs : take want fs = fs) by (apply take_ge, Hp).
  destruct (me_skipped mmap_addr e) eqn:Hskip.
  { exists m, top, acquired. rewrite Hnext, app_nil_r, Hfs by done. done. }
  specialize (Hok Hskip). destruct He as (Es & Ea & El & Et). rewrite Ea, El.
  fold (me_lo e) (me_hi e).
  destruct (negb _) eqn:Hout.
  - rewrite negb_true_iff, orb_false_iff, Z.geb_leb, Z.leb_gt, Z.ltb_ge in Hout.
    exists m, top, acquired. rewrite Hnext, frames_from_nil, app_nil_r, Hfs by (done || lia). done.
  - assert ((if me_lo e >? start then me_lo e else start) = Z.max (me_lo e) start) as ->
      by (destruct (Z.gtb_spec (me_lo e) start); lia).
    destruct (push_frames_ok m0 fs m top acquired (Z.max (me_lo e) start) (me_hi e))
      as (m' & top' & acquired' & addr' & E & Hp'); [done|lia|lia|].
    rewrite E. cbn [mbind outcome_bind]. exists m', top', acquired'.
    assert (Hkeep : ∀ x, mmap_addr ≤ x < mmap_end → load8 m' x = load8 m x).
    { intros x Hx. assert (¬ within stack (4 * Z.of_nat want) x) as Hn
        by (unfold within; wrap_lia).
      by rewrite (pu_only _ _ _ _ _ Hp' x Hn), (pu_only _ _ _ _ _ Hp x Hn). }
    assert (map_at fo m' (curr + me_size e + 4) mmap_end es ∧ reads_entry fo m' curr e)
      as [Hes' He'].
    { split.
      - eapply map_at_ext; [done| |exact Hes]. intros x Hx. apply Hkeep. lia.
      - apply (reads_entry_ext fo HF m); [|done]. intros i Hi. apply Hkeep. lia. }
    by rewrite Hnext.
Qed.

(** The whole scan *)
Lemma scan_ok m top es :
  pushed m [] m top 0 → map_at fo m mmap_addr mmap_end es → Forall entry_ok es →
  ∃ m' top' acquired' curr',
    while_loop (λ '(_, _, acquired, curr_addr),
        (curr_addr <? mmap_end) && (acquired <? Z.of_nat want))
      (scan_entry fo stack mmap_addr start (Z.of_nat want)) (m, top, 0, mmap_addr) =
      Ok (m', top', acquired', curr') ∧
    pushed m (take want (map_frames mmap_addr start es)) m' top' acquired'.
Proof using All.
  intros Hp Hm Hes. remember (take want (map_frames mmap_addr start es)) as all eqn:Eall.
  loop_rule (λ '(m', top, acquired, curr), ∃ fs es,
      pushed m fs m' top acquired ∧ mmap_addr ≤ curr ∧ map_at fo m' curr mmap_end es ∧
      Forall entry_ok es ∧
      take want (fs ++ map_frames mmap_addr start es) = all)
    (λ '((_, _, _, curr) : mem * Z * Z * Z), Z.to_nat (mmap_end - curr))
    as [[[m' top'] acquired'] curr'] (fs & es' & Hp' & Hc & Hm' & Hes' & Hall) Hend.
  - unfold FUEL. lia.
  - exists [], es. split_and!; try done; lia.
  - clear dependent top es. intros [[[m' top] acquired] curr] (fs & es & Hp & Hc & Hm & Hes & Hall).
    rewrite andb_true_iff, !Z.ltb_lt. intros [Hlt Hroom].
    destruct es as [|e es]; [simpl in Hm; lia|]. pose proof Hm as (_ & Hs & _ & Hm2).
    apply map_at_le in Hm2. apply Forall_cons in Hes as [He Hes].
    destruct (scan_entry_ok m fs m' top acquired curr e es Hp Hc Hm He)
      as (m2 & top2 & acquired2 & E & Hp2 & Hes2).
    eexists. split; [exact E|]. split; [|lia].
    exists (take want (fs ++ entry_frames mmap_addr start e)), es.
    split_and!; try done; [lia|]. rewrite <-Hall. unfold map_frames. rewrite fmap_cons. cbn [concat].
    rewrite app_assoc. generalize (fs ++ entry_frames mmap_addr start e). intros l.
    generalize (concat (entry_frames mmap_addr start <$> es)). intros k.
    destruct (decide (length l ≤ want)%nat).
    + by rewrite (take_ge l).
    + rewrite (take_app_le l) by lia.
      rewrite take_app_le by (rewrite length_take; lia). apply take_idemp.
  - exists m', top', acquired', curr'. split; [reflexivity|]. rewrite <-Hall.
    rewrite andb_false_iff, !Z.ltb_ge in Hend.
    assert (take want (fs ++ map_frames mmap_addr start es') = fs) as ->; [|done].
    destruct Hp' as [_ _ -> Hr _]. destruct Hend as [Hend|Hend].
    + destruct es' as [|e es']; [simpl; rewrite app_nil_r; by apply take_ge|].
      destruct Hm' as (_ & ? & ? & Hle%map_at_le). lia.
    + rewrite take_app_le by lia. by apply take_ge.
Qed.
End scan.

(** ** Initialisation *)

Lemma stack_frames_required_range size :
  0 ≤ size < 4294967296 → 1 ≤ stack_frames_required size < 1048576.
Proof.
  intros H. unfold stack_frames_required, PAGE_SIZE, ARCH_PAGE_SIZE.
  destruct (Z.eqb_spec ((size / 4096 ⊠ 4) / 4096) 0); wrap_lia.
Qed.

(** reserve_metadata_space on requests that do not leave the address space *)
Lemma reserve_metadata_space_ok size s :
  let d := metadata_region_info s in
  0 ≤ md_current_offset d → 0 ≤ size → md_current_offset d + size < 4294967296 →
  reserve_metadata_space size s =
    if md_end d <? md_current_offset d + size then Ok (NULL, s)
    else Ok (md_current_offset d, f_with_metadata
      (MetadataRegion (md_start d) (md_end d) (md_current_offset d + size)) s).
Proof.
  intros d ???. unfold reserve_metadata_space. rewrite gets_bind. fold d.
  rewrite u32_small, Z.gtb_ltb by lia. by destruct (md_end d <? md_current_offset d + size).
Qed.

(** The counters of a region before the scan *)
Definition zeroed (region : Z) (m : mem) : mem :=
  store32 (store32 m (region + pr_in_use) 0) (region + pr_available) 0.

Lemma zeroed_out region m x : ¬ within region 20 x → load8 (zeroed region m) x = load8 m x.
Proof.
  intros Hx. apply (changes_only_store32 region 20 m); unfold pr_in_use, pr_available; try lia;
    [|done].
  apply changes_only_store32; try lia. by intros ? ?.
Qed.
Lemma zeroed_start region m :
  load32 (zeroed region m) (region + pr_start) = load32 m (region + pr_start).
Proof. unfold zeroed, pr_in_use, pr_available, pr_start. by fields. Qed.
Lemma zeroed_in_use region m : load32 (zeroed region m) (region + pr_in_use) = 0.
Proof. unfold zeroed, pr_in_use, pr_available. by fields. Qed.

(** What is left after the scan: the number of frames *)
Lemma pushed_rep stack region (cap : nat) m0 fs m top acquired s :
  stack_layout stack region (Z.of_nat cap) →
  pushed stack cap (zeroed region m0) fs m top acquired → length fs = cap →
  f_mem s = store32 m (region + pr_available) acquired →
  free_frames_stack s = stack → memory_region s = region → free_frames_stack_top s = top →
  stack_rep stack region (Z.of_nat cap) (reverse fs) s.
Proof.
  intros HL [Hw Htop Hacq _ Honly] Hlen Em Es Er Et. pose proof HL as [????? Hap].
  unfold sizeof_phys_mem_region in *.
  split; rewrite ?length_reverse, ?Em; try done; try lia.
  - apply (words_field stack region (Z.of_nat cap) HL);
      [rewrite length_reverse; lia|unfold pr_available; lia|done].
  - rewrite load32_store32_eq, u32_small; lia.
  - unfold pr_available, pr_in_use. rewrite load32_store32_disj by off_disj.
    rewrite (changes_only_load32 _ _ _ _ _ Honly) by (apply disj_linear; lia).
    change 12 with pr_in_use. rewrite (zeroed_in_use region m0). lia.
Qed.

Section init.
Context (fo : mb_fields) (HF : fields_ok fo) (info region : Z) (s : frames_st).

Let mmap_addr : Z := load32 (f_mem s) (info + f_mmap_addr fo).
Let mmap_end : Z := mmap_addr + load32 (f_mem s) (info + f_mmap_length fo).
Let start : Z := load32 (f_mem s) (region + pr_start).
Let cap : Z := stack_frames_required (load32 (f_mem s) (region + pr_size)).
Let stack : Z := md_current_offset (metadata_region_info s).

(** A boot state in which the allocator can be set up: the loader's map [es],
    the region structure and the space for the stack lie apart. *)
Record init_ready (es : list map_entry) : Prop := InitReady {
  ir_map : map_at fo (f_mem s) mmap_addr mmap_end es;
  ir_entries : Forall (entry_ok mmap_addr) es;
  ir_map_end : mmap_end < 4294967296;
  ir_top : free_frames_stack_top s = -1;
  ir_layout : stack_layout stack region cap;
  ir_stack_end : stack + 4 * cap < 4294967296;
  ir_map_stack : stack + 4 * cap ≤ mmap_addr ∨ mmap_end ≤ stack;
  ir_map_region : region + sizeof_phys_mem_region ≤ mmap_addr ∨ mmap_end ≤ region;
}.

Definition init_pool (es : list map_entry) : list Z :=
  take (Z.to_nat cap) (map_frames mmap_addr start es).

Lemma stack_alloc_init_ok es :
  init_ready es →
  if md_end (metadata_region_info s) <? stack + 4 * cap then
    stack_alloc_init fo info region s = Panic "No space left in metadata region!"
  else if Z.of_nat (length (init_pool es)) <? cap then
    stack_alloc_init fo info region s = Panic "Stack allocator: Insufficient memory!"
  else ∃ s', stack_alloc_init fo info region s = Ok (tt, s') ∧
    stack_rep stack region cap (reverse (init_pool es)) s'.
Proof using HF.
  intros [Hm Hes Hme Ht HL Hse Hms Hmr]. pose proof HL as [Hs0 _ Hc31 Hr0 Hr1 _].
  pose proof (stack_frames_required_range _ (load32_range (f_mem s) (region + pr_size))) as Hcap.
  pose proof (load32_range (f_mem s) (info + f_mmap_addr fo)) as Hma.
  pose proof (load32_range (f_mem s) (region + pr_start)) as Hst.
  fold cap in Hcap. fold mmap_addr in Hma. fold start in Hst.
  pose proof (map_at_le _ _ _ _ _ Hm) as Hle. unfold sizeof_phys_mem_region in *.
  unfold stack_alloc_init. rewrite gets_bind. fold mmap_addr cap.
  rewrite (u32_small (mmap_addr + _)) by (subst mmap_end; lia). fold mmap_end.
  rewrite !modify_bind, (u32_small (cap * 4)), (Z.mul_comm cap 4) by lia.
  set (s1 := f_with_mem _ (f_with_mem _ (f_with_region region s))).
  pose proof (reserve_metadata_space_ok (4 * cap) s1 ltac:(subst s1; simpl; lia)
    ltac:(lia) Hse) as Hres.
  change (md_end (metadata_region_info s1)) with (md_end (metadata_region_info s)) in Hres.
  change (md_current_offset (metadata_region_info s1)) with stack in Hres.
  destruct (md_end (metadata_region_info s) <? stack + 4 * cap);
    rewrite (bind_Ok_M _ _ _ _ _ Hres), modify_bind; [reflexivity|].
  assert ((stack =? NULL) = false) as -> by (unfold NULL; lia).
  set (s2 := f_with_stack stack _). rewrite !gets_bind.
  change (f_mem s2) with (zeroed region (f_mem s)). rewrite zeroed_start. fold start.
  change (id s2) with s2. change (free_frames_stack_top s2) with (free_frames_stack_top s).
  change (f_mem s2) with (zeroed region (f_mem s)). rewrite Ht.
  destruct (scan_ok fo HF stack (Z.to_nat cap) mmap_addr mmap_end start ltac:(lia) ltac:(lia)
    ltac:(lia) ltac:(lia) ltac:(lia) ltac:(lia) ltac:(lia) (zeroed region (f_mem s)) (-1) es)
    as (m' & top' & acquired' & curr' & E & Hp).
  { split; simpl; try done; lia. }
  { eapply map_at_ext; [done| |exact Hm]. intros x Hx. apply zeroed_out. unfold within. wrap_lia. }
  { done. }
  rewrite Z2Nat.id in E by lia. fold (init_pool es) in Hp.
  erewrite bind_Ok_M by (unfold lift; rewrite E; reflexivity). cbn beta iota.
  rewrite !modify_bind. rewrite (pu_acquired _ _ _ _ _ _ _ Hp).
  destruct (Z.ltb_spec (Z.of_nat (length (init_pool es))) cap) as [Hlt|Hge].
  { rewrite (proj2 (Z.eqb_neq _ cap)) by lia. reflexivity. }
  pose proof (pu_room _ _ _ _ _ _ _ Hp).
  rewrite (proj2 (Z.eqb_eq _ cap)) by lia. eexists. split; [reflexivity|].
  rewrite <-(Z2Nat.id cap) in HL |- * by lia.
  apply (pushed_rep stack region _ _ _ _ _ _ _ HL Hp); try reflexivity; [lia|].
  by rewrite (pu_acquired _ _ _ _ _ _ _ Hp).
Qed.
End init.

(** ** The properties *)

Lemma entry_frames_range mmap_addr start e :
  0 < start → Forall (λ x, 0 < x < 4294967296) (entry_frames mmap_addr start e).
Proof.
  intros Hs. unfold entry_frames. destruct (me_skipped mmap_addr e); [constructor|].
  unfold frames_from. apply Forall_forall. intros x (i & -> & Hi%elem_of_seqZ)%list_elem_of_fmap.
  assert (0 ≤ me_hi e < 4294967296) by apply u32_range.
  Z.to_euclidean_division_equations. lia.
Qed.
Lemma map_frames_range mmap_addr start es :
  0 < start → Forall (λ x, 0 < x < 4294967296) (map_frames mmap_addr start es).
Proof.
  intros Hs. apply Forall_concat, Forall_fmap, Forall_forall.
  intros e _. by apply entry_frames_range.
Qed.

(** C25. Setting up the stack allocator on the loader's memory map: without room in
    the metadata region, or with fewer frames in the map than the stack takes, it
    panics; otherwise the stack holds the first frames of the usable entries above
    the region's start, in the map's order, and the region's counters say so. *)
Theorem stack_alloc_init_fills fo info region s es :
  let mmap_addr := load32 (f_mem s) (info + f_mmap_addr fo) in
  let start := load32 (f_mem s) (region + pr_start) in
  let stack := md_current_offset (metadata_region_info s) in
  let cap := stack_frames_required (load32 (f_mem s) (region + pr_size)) in
  let pool := take (Z.to_nat cap) (map_frames mmap_addr start es) in
  fields_ok fo → init_ready fo info region s es →
  (md_end (metadata_region_info s) < stack + 4 * cap →
     stack_alloc_init fo info region s = Panic "No space left in metadata region!") ∧
  (stack + 4 * cap ≤ md_end (metadata_region_info s) → Z.of_nat (length pool) < cap →
     stack_alloc_init fo info region s = Panic "Stack allocator: Insufficient memory!") ∧
  (stack + 4 * cap ≤ md_end (metadata_region_info s) → cap ≤ Z.of_nat (length pool) →
     ∃ s', stack_alloc_init fo info region s = Ok (tt, s') ∧
       stack_rep stack region cap (reverse pool) s').
Proof.
  intros mmap_addr start stack cap pool HF HR.
  pose proof (stack_alloc_init_ok fo HF info region s es HR) as H.
  change (init_pool fo info region s es) with pool in H. fold stack cap in H.
  destruct (Z.ltb_spec (md_end (metadata_region_info s)) (stack + 4 * cap));
    [split_and!; lia || done|].
  destruct (Z.ltb_spec (Z.of_nat (length pool)) cap); split_and!; lia || done.
Qed.


(** ** The scan of phys_alloc.c *)

(** The frames of the entries that are not skipped *)
Definition map_total (mmap_addr : Z) (es : list map_entry) : Z :=
  foldr Z.add 0 ((λ e, if me_skipped mmap_addr e then 0 else u32 (me_len e / PAGE_SIZE)) <$> es).

Lemma count_entries_ok fo m mmap_addr mmap_end es total :
  map_at fo m mmap_addr mmap_end es → 0 ≤ mmap_addr → mmap_end < 4294967296 →
  ∃ total', while_loop (λ '(curr_addr, _), curr_addr <? mmap_end) (count_entry fo m mmap_addr)
      (mmap_addr, total) = Ok (mmap_end, total') ∧
    u32 total' = u32 (total + map_total mmap_addr es).
Proof.
  intros Hm Ha He.
  loop_rule (λ '(curr, t), ∃ es', map_at fo m curr mmap_end es' ∧ mmap_addr ≤ curr ∧
      u32 (t + map_total mmap_addr es') = u32 (total + map_total mmap_addr es))
    (λ '((curr, _) : Z * Z), Z.to_nat (mmap_end - curr))
    as [curr t] (es' & Hm' & Hc & Ht) Hend.
  - unfold FUEL. lia.
  - by exists es.
  - clear Hm. intros [curr t] (es' & Hm' & Hc & Ht) Hlt%Z.ltb_lt.
    destruct es' as [|e es']; [simpl in Hm'; lia|]. destruct Hm' as (Hr & Hs & Hle & Hm').
    unfold count_entry. rewrite (entry_skipped_ok fo m mmap_addr curr e Hr).
    rewrite (next_entry_ok fo m curr mmap_end e Hr) by lia.
    change (map_total mmap_addr (e :: es')) with
      ((if me_skipped mmap_addr e then 0 else u32 (me_len e / PAGE_SIZE)) +
       map_total mmap_addr es') in Ht. destruct Hr as (_ & _ & -> & _).
    destruct (me_skipped mmap_addr e); (eexists; split; [reflexivity|]; split; [|lia]); exists es';
      (split_and!; [done|lia|]); rewrite <-Ht; [f_equal; lia|].
    rewrite u32_add_l. f_equal. lia.
  - apply Z.ltb_ge in Hend. destruct es' as [|e es'].
    + simpl in Hm'. subst curr. exists t. split; [reflexivity|]. rewrite <-Ht.
      unfold map_total. simpl. f_equal. lia.
    + destruct Hm' as (_ & ? & ? & ?%map_at_le). lia.
Qed.

(** The scan of the memory map: less than 2 MB of upper memory, counted modulo
    4 GB, is a panic; otherwise the total is the sum of the frames of the usable
    entries less those of the kernel and of the metadata region, both reported, and
    the kernel's region is the 2 MB behind the kernel's last page. *)
Theorem init_free_memory_counts fo debug vma msize high kstart kend regions info s es :
  let mmap_addr := load32 (f_mem s) (info + f_mmap_addr fo) in
  let mmap_end := mmap_addr + load32 (f_mem s) (info + f_mmap_length fo) in
  let mem_upper := load32 (f_mem s) (info + f_mem_upper fo) in
  let occupied := (kend ⊟ kstart) / PAGE_SIZE ⊞ msize / PAGE_SIZE in
  let total := u32 (total_frames_available s + map_total mmap_addr es - occupied) in
  let region := regions + sizeof_phys_mem_region * PHYS_MEM_REGION_KERNEL in
  map_at fo (f_mem s) mmap_addr mmap_end es → mmap_end < 4294967296 →
  if mem_upper ⊠ 1024 <? 0x200000 then
    init_free_memory fo debug vma msize high kstart kend regions info s =
      Panic "Insufficient physical memory available!"
  else ∃ s', init_free_memory fo debug vma msize high kstart kend regions info s = Ok (tt, s') ∧
    total_frames_available s' = total ∧
    metadata_region_info s' = MetadataRegion vma (vma ⊞ msize) vma ∧
    f_out s' = f_out s ++ [("Detected %d MB of free memory", [mem_upper / 1024]);
      ("%d frames available", [total])] ++
      (if debug then [("The kernel occupies %d frames", [occupied])] else []) ∧
    load32 (f_mem s') (region + pr_size) = 0x200000 ∧
    load32 (f_mem s') (region + pr_start) = u32 (Z.land kend 0xFFFFF000 + 4096 - high) ∧
    load32 (f_mem s') (region + pr_end) = load32 (f_mem s') (region + pr_start) ⊞ 0x200000.
Proof.
  intros mmap_addr mmap_end mem_upper occupied total region Hm He.
  pose proof (load32_range (f_mem s) (info + f_mmap_addr fo)) as Ha. fold mmap_addr in Ha.
  pose proof (map_at_le _ _ _ _ _ Hm) as Hle.
  unfold init_free_memory. rewrite gets_bind. fold mmap_addr mem_upper.
  rewrite (u32_small (mmap_addr + _)) by (subst mmap_end; lia). fold mmap_end.
  rewrite !modify_bind, Z.gtb_ltb.
  change (DMA_REGION_MIN_SIZE + KERNEL_REGION_MIN_SIZE) with 0x200000.
  destruct (mem_upper ⊠ 1024 <? 0x200000); [reflexivity|]. rewrite gets_bind.
  destruct (count_entries_ok fo (f_mem s) mmap_addr mmap_end es (total_frames_available s))
    as (t & E & Ht); [done|lia|done|].
  erewrite bind_Ok_M by (unfold lift; cbn [f_print f_with_metadata total_frames_available];
    rewrite E; reflexivity).
  cbn beta iota. fold occupied. rewrite <-(u32_sub_l t), Ht, (u32_sub_l (_ + map_total mmap_addr es)).
  fold total.
  rewrite !modify_bind. fold region.
  destruct debug; [rewrite modify_bind|rewrite ret_bind]; rewrite !modify_bind;
    (eexists; split; [reflexivity|]; split_and!; try reflexivity;
     [cbn; by rewrite <-!app_assoc| | |]);
    cbn [f_mem f_with_mem f_print f_with_total f_with_metadata];
    unfold pr_size, pr_start, pr_end; fields; try reflexivity;
    unfold PAGE_SIZE, ARCH_PAGE_SIZE; autorewrite with wrap; reflexivity.
Qed.

(** ** A concrete map

    The field offsets of Multiboot 1; two entries at 0x2000, of which the first
    holds the map itself; an 8 MB region, for which the stack takes two frames. *)
Definition mb1 : mb_fields := MbFields 8 44 48 0 4 12 20.
Definition demo_low : map_entry := MapEntry 20 0 0x9FC00 1.
Definition demo_high : map_entry := MapEntry 20 0x100000 0x1F00000 1.
Definition demo_es : list map_entry := [demo_low; demo_high].
Definition store_entry (m : mem) (a : Z) (e : map_entry) : mem :=
  store32 (store64 (store64 (store32 m a (me_size e)) (a + 4) (me_addr e)) (a + 12) (me_len e))
    (a + 20) (me_type e).
Definition demo_mem : mem :=
  let m := store_entry (store_entry ∅ 0x2000 demo_low) 0x2018 demo_high in
  let m := store32 (store32 (store32 m 0x1008 0x7C00) 0x102C 48) 0x1030 0x2000 in
  store32 (store32 m 0x3000 0x200000) 0x3010 0x800000.
Definition demo_frames : frames_st :=
  f_with_metadata (MetadataRegion 0x10000 0x11000 0x10000) (frames_boot demo_mem).

Lemma mb1_ok : fields_ok mb1.
Proof. split; simpl; lia. Qed.
Lemma demo_loads :
  load32 (f_mem demo_frames) (0x1000 + f_mmap_addr mb1) = 0x2000 ∧
  load32 (f_mem demo_frames) (0x1000 + f_mmap_length mb1) = 48 ∧
  load32 (f_mem demo_frames) (0x3000 + pr_start) = 0x200000 ∧
  load32 (f_mem demo_frames) (0x3000 + pr_size) = 0x800000 ∧
  stack_frames_required 0x800000 = 2.
Proof. vm_compute. auto. Qed.
Lemma demo_map : map_at mb1 (f_mem demo_frames) 0x2000 0x2030 demo_es.
Proof. vm_compute. repeat split; discriminate. Qed.
Lemma demo_frames_ready : init_ready mb1 0x1000 0x3000 demo_frames demo_es.
Proof.
  destruct demo_loads as (Ha & Hl & Hs & Hz & Hc).
  split; rewrite ?Ha, ?Hl, ?Hs, ?Hz, ?Hc; try (simpl; lia).
  - exact demo_map.
  - repeat constructor; intros _; by vm_compute.
  - split; simpl; unfold sizeof_phys_mem_region; lia.
Qed.

Lemma stack_alloc_init_fills_witness :
  ∃ s', stack_alloc_init mb1 0x1000 0x3000 demo_frames = Ok (tt, s') ∧
    stack_rep 0x10000 0x3000 2 [0x201000; 0x200000] s'.
Proof.
  destruct (stack_alloc_init_fills mb1 0x1000 0x3000 demo_frames demo_es mb1_ok demo_frames_ready)
    as (_ & _ & H).
  exact (H ltac:(vm_compute; congruence) ltac:(vm_compute; congruence)).
Defined.


Lemma init_free_memory_counts_witness :
  ∃ s', init_free_memory mb1 false 0x10000 0x1000 0xC0000000 0xC0100000 0xC0180000 0x4000
      0x1000 demo_frames = Ok (tt, s') ∧
    total_frames_available s' = 7807.
Proof.
  pose proof (init_free_memory_counts mb1 false 0x10000 0x1000 0xC0000000 0xC0100000 0xC0180000
    0x4000 0x1000 demo_frames demo_es (ir_map _ _ _ _ _ demo_frames_ready)
    (ir_map_end _ _ _ _ _ demo_frames_ready)) as H.
  assert (load32 (f_mem demo_frames) (0x1000 + f_mem_upper mb1) ⊠ 1024 <? 0x200000 = false) as E
    by (vm_compute; reflexivity).
  rewrite E in H. destruct H as (s' & H & Ht & _). exists s'. split; [exact H|].
  rewrite Ht. vm_compute. reflexivity.
Defined.
