(* ===== verification/Bootstrap.v ===== *)
(** * Bootstrap: the whole start-up

    bootstrap of kern/main.c from the machine early_main leaves to the first
    user thread: kernel memory (KmemProps), the directory the modules are loaded
    under (here), the modules (Modules) and the hand-over to the scheduler
    (StartupProps). *)

From S2P Require Import Prelude Machine CString ArchPaging Thread KInfo Exec Paging PagingInv PagingProps Space.
From S2P Require Kmalloc.
From S2P Require Import Elf ElfProps ElfSpace Sched SchedInv Kmem Printf Console PortIO Pic Interrupt Timer Tick Startup StartupProps.
From S2P Require Import Modules KmemProps.

(** ** The directory the modules start from *)

(** The bytes bootstrap_identity_map_init_mem maps: eight pages and its own size
    rounded up per module *)
Definition module_window (md : boot_module) : Z :=
  4096 * 8 + ((end_paddr md - start_paddr md) / 4096 * 4096 + 4096).
Definition window (mods : list boot_module) : Z := foldr (λ md t, module_window md + t) 0 mods.

Lemma window_range mods : Forall module_ok mods → 0 ≤ window mods ∧ window mods mod 4096 = 0.
Proof.
  induction 1 as [|md mods (H1 & _ & H2 & _) _ IH]; [done|]. cbn [window foldr].
  fold (window mods). unfold module_window. Z.to_euclidean_division_equations. lia.
Qed.
Lemma bootstrap_end_eq mods : ∀ a,
  Forall module_ok mods → 0 ≤ a → a + window mods < 4294967296 →
  bootstrap_end mods a = a + window mods.
Proof.
  unfold bootstrap_end. induction mods as [|md mods IH]; intros a Hok Ha Hw; [cbn; lia|].
  apply Forall_cons in Hok as [(H1 & _ & H2 & H3) Hok]. pose proof (window_range mods Hok) as [Hw0 _].
  cbn [window foldr] in *. fold (window mods) in *.
  assert (Hm : 0 ≤ module_window md) by (unfold module_window; Z.to_euclidean_division_equations; lia).
  cbn [foldl].
  match goal with |- foldl _ ?x _ = _ => assert (Ex : x = a + module_window md) end.
  { rewrite (u32_small (end_paddr md - start_paddr md)) by lia.
    rewrite land_page_mask, (u32_small (end_paddr md - start_paddr md)) by lia.
    unfold module_window, ARCH_PAGE_SIZE in *.
    assert (Hq : 0 ≤ (end_paddr md - start_paddr md) / 4096 * 4096 ≤ 4194304)
      by (clear -H1 H2 H3; Z.to_euclidean_division_equations; lia).
    set (q := (end_paddr md - start_paddr md) / 4096 * 4096) in *.
    rewrite (u32_small (q + 4096)), (u32_small (a + 4096 * 8)), u32_small; lia. }
  rewrite Ex, IH by (done || lia). lia.
Qed.

Section init_mem.
Context (boot_page_directory page_directory module_bootstrap_pt K_HIGH_VMA : Z).
Abbreviation vma := K_HIGH_VMA.
Abbreviation bd := (kphys vma boot_page_directory).
Abbreviation pd := (kphys vma page_directory).
Abbreviation mb := (kphys vma module_bootstrap_pt).

(** bootstrap_identity_map_init_mem copies the kernel's directory and gives the
    4 MB around the first free frame a table of its own, which maps the frames
    the modules will use to themselves. *)
Lemma init_mem_ok debug s A mods :
  let info := p_kinfo s in
  (∃ e rest, memmaps info = e :: rest ∧ mm_addr e = A) →
  visited_modules info = Ok mods → Forall module_ok mods →
  0 ≤ A < 4294967296 → A mod 4096 = 0 → A mod 4194304 + window mods ≤ 4194304 →
  A + window mods < 4294967296 →
  kernel_high_vma info = vma → mb mod 4096 = 0 →
  bd + 4096 ≤ 4294967296 → pd + 4096 ≤ 4294967296 → mb + 4096 ≤ 4294967296 →
  pages_apart bd pd → pages_apart bd mb → pages_apart pd mb →
  ∃ m', bootstrap_identity_map_init_mem boot_page_directory page_directory module_bootstrap_pt vma
      debug info s = Ok (tt, load_pagedir bd (PagingSt m'
        (with_bootstrap_range (MemRange A (A + window mods)) info) (p_cr3 s))) ∧
    (∀ i, 0 ≤ i < 1024 →
       pde bd m' i = if i =? A / 4194304 then mb + 3 else pde pd (p_mem s) i) ∧
    (∀ v, A ≤ 4096 * v < A + window mods → load32 m' (entry mb (v mod 1024)) = 4096 * v + 3) ∧
    ∀ x, ¬ within bd 4096 x → ¬ within mb 4096 x → load8 m' x = load8 (p_mem s) x.
Proof.
  intros info (e & rest & Em & Ea) Hmods Hok HA HAm Hwin Hend Hvma Hmbm Hbe Hpe Hme A1 A2 A3.
  pose proof (window_range mods Hok) as [Hw0 Hwm]. unfold pages_apart in *.
  assert (Hb0 : 0 ≤ bd) by apply u32_range. assert (Hp0 : 0 ≤ pd) by apply u32_range.
  assert (Hm0 : 0 ≤ mb) by apply u32_range.
  destruct (memcpy_exact (p_mem s) bd pd sizeof_page_table) as (m1 & Hcpy & Hrd & Hch1);
    [unfold sizeof_page_table; lia|right; unfold sizeof_page_table; wrap_lia|].
  destruct (memset_ok m1 mb 0 sizeof_page_table ltac:(unfold sizeof_page_table; lia)) as (m2 & Hset & Hm2).
  set (i0 := (A / 4096) mod 1024). set (k := window mods / 4096).
  assert (Hk : window mods = 4096 * k ∧ 0 ≤ k ∧ 0 ≤ i0 ∧ i0 + k ≤ 1024).
  { subst i0 k. clear -Hw0 Hwm HAm Hwin HA. Z.to_euclidean_division_equations. lia. }
  destruct (identity_map_ok m2 mb A (A + window mods) k i0) as (m3 & Hid & I1 & I2 & Hch3); try lia.
  set (w := Z.lor (Z.land (module_bootstrap_pt ⊟ kernel_high_vma info) ARCH_PAGE_MASK)
    (Z.lor ARCH_PD_ENTRY_PRESENT ARCH_PD_ENTRY_RW)).
  assert (Ew : w = mb + 3).
  { subst w. rewrite Hvma. destruct (table_entry (module_bootstrap_pt - vma)) as [-> _].
    fold (kphys vma module_bootstrap_pt). clear -Hmbm. Z.to_euclidean_division_equations. lia. }
  set (d := A / 4194304). assert (Hd : 0 ≤ d < 1024) by (subst d; clear -HA; Z.to_euclidean_division_equations; lia).
  exists (store32 m3 (entry bd d) w). split; [|split; [|split]].
  - unfold bootstrap_identity_map_init_mem. rewrite Em. rewrite modify_bind.
    rewrite (u32_small (mm_addr e)) by lia. rewrite Ea.
    change ARCH_PAGE_SIZE with 4096. rewrite HAm.
    erewrite bind_Ok_M; [|unfold ASSERT; rewrite andb_false_r; reflexivity].
    rewrite gets_bind. cbn [p_mem p_with_kinfo].
    erewrite bind_Ok_M; [|unfold lift; rewrite Hcpy; reflexivity]. cbn iota beta.
    erewrite bind_Ok_M; [|unfold lift; rewrite Hmods; reflexivity].
    rewrite (bootstrap_end_eq mods A Hok) by lia.
    erewrite bind_Ok_M; [|unfold lift; rewrite Hset; reflexivity]. cbn iota beta.
    rewrite pt_shift. fold i0. erewrite bind_Ok_M; [|unfold lift; rewrite Hid; reflexivity].
    rewrite modify_bind. rewrite pd_index, (Z.mod_small (A / 4194304)) by (fold d; lia). fold d.
    rewrite modify_bind. unfold modify. fold w. rewrite Hvma. reflexivity.
  - intros i Hi. destruct (Z.eqb_spec i d) as [->|Hne].
    + unfold pde. rewrite load32_store32_eq, Ew. apply u32_small. clear -Hmbm Hm0 Hme.
      Z.to_euclidean_division_equations. lia.
    + unfold pde. rewrite load32_store32_disj by (apply entry_disj; lia).
      rewrite (changes_only_load32 _ _ _ _ _ Hch3) by (apply disj_linear; unfold entry; lia).
      apply load32_moved. intros b Hb. unfold entry.
      rewrite Hm2, decide_False by (unfold within, sizeof_page_table; clear -A2 Hb Hi Hb0 Hbe Hm0 Hme; wrap_lia).
      rewrite <-!Z.add_assoc.
      pose proof (read_bytes_lookup m1 bd sizeof_page_table (4 * i + b) ltac:(unfold sizeof_page_table; lia)) as L1.
      pose proof (read_bytes_lookup (p_mem s) pd sizeof_page_table (4 * i + b) ltac:(unfold sizeof_page_table; lia)) as L2.
      rewrite Hrd, L2 in L1. by injection L1.
  - intros v Hv. rewrite load32_store32_disj by (apply disj_linear; unfold entry; pose proof (Z.mod_pos_bound v 1024); lia).
    replace (v mod 1024) with (i0 + (v - A / 4096)).
    + rewrite I1; [clear -HAm; Z.to_euclidean_division_equations; lia|].
      clear -Hk HAm Hv. Z.to_euclidean_division_equations. lia.
    + subst i0. clear -Hv Hwin HAm. Z.to_euclidean_division_equations. lia.
  - intros x X1 X2. rewrite store32_out.
    + rewrite Hch3, Hm2, decide_False by done. by apply Hch1.
    + contradict X1. unfold within, entry in *. clear -X1 Hd Hb0 Hbe. wrap_lia.
Qed.
End init_mem.

(** ** A module before and after *)

(** The image of [md] is at the place of [md'] in another memory. *)
Record image_moved (m m' : mem) (md md' : boot_module) : Prop := {
  im_size : start_paddr md + 52 ≤ end_paddr md ∧
    end_paddr md - start_paddr md ≤ end_paddr md' - start_paddr md';
  im_range : 0 ≤ start_paddr md ∧ end_paddr md ≤ 4294967296;
  im_range' : 0 ≤ start_paddr md' ∧ end_paddr md' < 4294967296;
  im_bytes i : 0 ≤ i < end_paddr md - start_paddr md →
    load8 m' (start_paddr md' + i) = load8 m (start_paddr md + i);
}.

Section moved.
Context (m m' : mem) (md md' : boot_module).
Hypothesis HM : image_moved m m' md md'.
Abbreviation b := (start_paddr md).
Abbreviation b' := (start_paddr md').
Abbreviation n := (end_paddr md - start_paddr md).

Lemma moved_ranges : 52 ≤ n ∧ (0 ≤ b ∧ b + n ≤ 4294967296) ∧ (0 ≤ b' ∧ b' + n ≤ 4294967296).
Proof using HM. destruct HM. lia. Qed.
Lemma moved_rd16 o : 0 ≤ o → o + 2 ≤ n → rd16 (load8 m') (b' + o) = rd16 (load8 m) (b + o).
Proof using HM. destruct moved_ranges as (_ & R1 & R2). exact (same_rd16 _ _ _ _ _ R1 R2 (im_bytes _ _ _ _ HM) o). Qed.
Lemma moved_rd32 o : 0 ≤ o → o + 4 ≤ n → rd32 (load8 m') (b' + o) = rd32 (load8 m) (b + o).
Proof using HM. destruct moved_ranges as (_ & R1 & R2). exact (same_rd32 _ _ _ _ _ R1 R2 (im_bytes _ _ _ _ HM) o). Qed.

Lemma moved_phdrs : b ≤ module_phdrs m md → module_phdrs m md ≤ end_paddr md →
  module_phdrs m' md' = b' + (module_phdrs m md - b).
Proof using HM.
  destruct moved_ranges as (R0 & R1 & R2). unfold module_phdrs, e_phoff.
  rewrite (u32_small (b' + 28)), (u32_small (b + 28)), moved_rd32 by lia.
  pose proof (rd32_range (load8 m) (b + 28) (load8_range m)) as Hr. intros H1 H2.
  assert (E : u32 (b + rd32 (load8 m) (b + 28)) = b + rd32 (load8 m) (b + 28)).
  { destruct (decide (b + rd32 (load8 m) (b + 28) < 4294967296)) as [|n0]; [apply u32_small; lia|].
    exfalso. clear -H1 Hr R1 n0. wrap_lia. }
  rewrite E in *. rewrite u32_small; [lia|]. pose proof (im_size _ _ _ _ HM). pose proof (im_range' _ _ _ _ HM). lia.
Qed.
Lemma moved_count : module_count m' md' = module_count m md.
Proof using HM.
  destruct moved_ranges as (R0 & R1 & R2). unfold module_count, e_phnum.
  rewrite (u32_small (b' + 44)), (u32_small (b + 44)) by lia. apply moved_rd16; lia.
Qed.
Lemma moved_entry : module_entry m' md' = module_entry m md.
Proof using HM.
  destruct moved_ranges as (R0 & R1 & R2). unfold module_entry, e_entry.
  rewrite (u32_small (b' + 24)), (u32_small (b + 24)) by lia. apply moved_rd32; lia.
Qed.
Lemma moved_segs : b ≤ module_phdrs m md →
  module_phdrs m md + sizeof_Elf_Phdr * module_count m md ≤ end_paddr md →
  0 ≤ module_count m md → module_segs m' md' = module_segs m md.
Proof using HM.
  intros H1 H2 H3. destruct moved_ranges as (R0 & R1 & R2). unfold sizeof_Elf_Phdr in *.
  unfold module_segs. rewrite moved_phdrs, moved_count by lia.
  replace (module_phdrs m md) with (b + (module_phdrs m md - b)) at 2 by lia.
  apply (same_phdrs _ _ _ _ _ R1 R2 (im_bytes _ _ _ _ HM)); unfold sizeof_Elf_Phdr; lia.
Qed.

Lemma module_wf_same (U U' : Z → Prop) :
  (∀ w, U w → U' w) → module_wf m U md →
  module_wf m' U' md' ∧ module_segs m' md' = module_segs m md ∧ module_entry m' md' = module_entry m md.
Proof using HM.
  intros HU [W1 [W2 W2'] W3 W4 W5]. destruct moved_ranges as (R0 & R1 & R2). pose proof HM as [M1 _ _ _].
  assert (Hc : 0 ≤ module_count m md).
  { unfold module_count, rd16. pose proof (load8_range m) as Hl.
    set (x1 := u32 (b + e_phnum)). pose proof (Hl x1). pose proof (Hl (u32 (x1 + 1))). lia. }
  assert (Es : module_segs m' md' = module_segs m md) by by apply moved_segs.
  unfold sizeof_Elf_Phdr in *.
  split; [|split; [exact Es|exact moved_entry]].
  constructor; rewrite ?Es; [| | |done|done].
  - by rewrite (same_header _ _ _ _ _ R0 R1 R2 (im_bytes _ _ _ _ HM)).
  - rewrite moved_phdrs, moved_count by lia. unfold sizeof_Elf_Phdr. lia.
  - eapply Forall_impl; [exact W3|]. intros sg [S1 S2 S3 S4 S5 S6 S7 S8].
    constructor; try done; [intros Hl; specialize (S4 Hl); lia|]. intros w Hl Hw. by apply HU, S8.
Qed.
End moved.

(** ** The machine at the entry of bootstrap *)

Section whole.
Context (boot_page_directory page_directory module_bootstrap_pt kernel_pt bootstrap_pt K_HIGH_VMA : Z).
Context (y : ksyms).
Abbreviation vma := K_HIGH_VMA.
Abbreviation bd := (kphys vma boot_page_directory).
Abbreviation pd := (kphys vma page_directory).
Abbreviation mb := (kphys vma module_bootstrap_pt).
Abbreviation kp := (kphys vma kernel_pt).
Abbreviation bp := (kphys vma bootstrap_pt).
Abbreviation kdir := (kernel_dir vma).

(** All five tables are in the .ktable section, and the kernel is in the upper
    half of the address space. *)
Record tables_layout : Prop := {
  tl_kernel : kernel_layout page_directory kernel_pt bootstrap_pt vma y;
  tl_more : Forall (λ t, kernel_start y ≤ t ∧ t + 4096 ≤ ktable_end y ∧ t mod 4096 = 0)
    [boot_page_directory; module_bootstrap_pt];
  tl_apart : NoDup [page_directory; kernel_pt; bootstrap_pt; boot_page_directory; module_bootstrap_pt];
  tl_upper : 0x80400000 ≤ vma;
}.
Hypothesis TL : tables_layout.

Definition in_ktable (t : Z) : Prop := kernel_start y ≤ t ∧ t + 4096 ≤ ktable_end y ∧ t mod 4096 = 0.
Lemma ktable_phys t : in_ktable t →
  0 < kphys vma t ∧ kphys vma t + 4096 ≤ ktable_end y - vma ∧ kphys vma t mod 4096 = 0.
Proof using TL.
  pose proof (tl_kernel TL) as L. pose proof L as [(V1 & V2 & V3) _ HO _ _]. intros (H1 & H2 & H3).
  destruct (table_phys _ _ _ _ _ L t H1 H2) as (E & P & _). rewrite E in *. split; [done|]. split; [lia|].
  clear -V2 H3. Z.to_euclidean_division_equations. lia.
Qed.
Lemma ktable_apart t u : in_ktable t → in_ktable u → t ≠ u → pages_apart (kphys vma t) (kphys vma u).
Proof using TL.
  intros Ht Hu Hne. pose proof (tl_kernel TL) as L. pose proof L as [(V1 & V2 & V3) _ HO _ _].
  destruct (table_phys _ _ _ _ _ L t) as (E1 & _); [apply Ht..|].
  destruct (table_phys _ _ _ _ _ L u) as (E2 & _); [apply Hu..|].
  destruct Ht as (_ & _ & H1), Hu as (_ & _ & H2). unfold pages_apart. rewrite E1, E2.
  clear -H1 H2 Hne. Z.to_euclidean_division_equations. lia.
Qed.
Lemma five_tables : in_ktable boot_page_directory ∧ in_ktable page_directory ∧
  in_ktable module_bootstrap_pt ∧ in_ktable kernel_pt ∧ in_ktable bootstrap_pt.
Proof using TL.
  destruct TL as [L H2 _ _]. pose proof (kl_tables _ _ _ _ _ L) as H1.
  repeat (apply Forall_cons in H1 as [? H1]). repeat (apply Forall_cons in H2 as [? H2]). done.
Qed.
Lemma five_apart : pages_apart bd pd ∧ pages_apart bd mb ∧ pages_apart pd mb ∧ pages_apart mb kp ∧
  pages_apart mb bp ∧ pages_apart bd bp ∧ pages_apart bd kp.
Proof using TL.
  destruct five_tables as (T1 & T2 & T3 & T4 & T5). pose proof (tl_apart TL) as H.
  repeat (apply NoDup_cons in H as [? H]). rewrite !elem_of_cons in *.
  split_and!; apply ktable_apart; try done; intros ->; tauto.
Qed.

(** ** The directory of the modules, once the kernel is mapped *)

Section after.
Context (info : kernel_info_t) (s1 : paging_st) (A n : Z) (m' : mem).
Abbreviation m1 := (p_mem s1).
Abbreviation A1 := (A + 4096 * kernel_frames).
Abbreviation hi := (A + 4096 * n).
Abbreviation d1 := (A1 / 4194304).
Hypothesis Hks : kernel_space page_directory kernel_pt bootstrap_pt vma y info s1 A n.
Hypothesis Hbehind : ktable_end y - vma ≤ A.
Hypothesis Hlow : A1 < 0x7FC00000.
Hypothesis Hpde : ∀ i, 0 ≤ i < 1024 → pde bd m' i = if i =? d1 then mb + 3 else pde pd m1 i.
Hypothesis Hout : ∀ x, ¬ within bd 4096 x → ¬ within mb 4096 x → load8 m' x = load8 m1 x.

Lemma frames_range : 0 < A ∧ A mod 4096 = 0 ∧ A1 ≤ hi ∧ hi ≤ 4294967296 ∧ 0 < d1 ≤ 510 ∧
  512 < kdir ≤ 1019.
Proof using TL Hks Hbehind Hlow.
  destruct (ks_free _ _ _ _ _ _ _ _ _ Hks) as [[_ (H1 & H2 & H3 & H4)] _].
  pose proof (tl_kernel TL) as L. pose proof L as [(V1 & V2 & V3) _ HO _ _]. pose proof (tl_upper TL).
  unfold kernel_frames, kernel_dir in *.
  split_and!; try lia; clear -H1 H2 H3 H4 Hbehind Hlow V1 V2 V3 HO H; Z.to_euclidean_division_equations; lia.
Qed.

(** An entry is that of the frames of the modules or one of the kernel's. *)
Lemma boot_entry i : 0 ≤ i < 1024 → pde bd m' i ≠ 0 →
  Z.testbit (pde bd m' i) 0 = true ∧ table bd m' i + 4096 ≤ A1 ∧
  (i = d1 ∧ table bd m' i = mb ∨
   i ≠ d1 ∧ pde pd m1 i ≠ 0 ∧ table bd m' i = table pd m1 i ∧
     (i = 0 ∧ table pd m1 i = bp ∨ i = kdir ∧ table pd m1 i = kp ∨ kdir < i ∧ A ≤ table pd m1 i)).
Proof using TL Hks Hbehind Hlow Hpde.
  intros Hi Hz. destruct frames_range as (A0 & Am & Ah & Hh & Hd & Hk).
  destruct five_tables as (_ & _ & T3 & T4 & T5).
  destruct (ktable_phys _ T3) as (M1 & M2 & M3), (ktable_phys _ T4) as (_ & K2 & _), (ktable_phys _ T5) as (_ & B2 & _).
  pose proof (u32_range (module_bootstrap_pt - vma)) as Mr. fold (kphys vma module_bootstrap_pt) in Mr.
  unfold table in *. rewrite (Hpde i Hi) in *. destruct (Z.eqb_spec i d1) as [->|Hne].
  - destruct (entry_parts mb 3) as (_ & -> & _ & ->); [done|done|lia|].
    split; [done|]. split; [unfold kernel_frames; lia|]. by left.
  - destruct (dir_tab _ _ _ _ _ _ (sp_dir _ _ _ _ (ks_free _ _ _ _ _ _ _ _ _ Hks)) i ltac:(lia) Hz) as (Hb & _ & _).
    fold (table pd m1 i) in *.
    destruct (ks_dir _ _ _ _ _ _ _ _ _ Hks i Hi Hz) as [[[E1 E2]|[E1 E2]]|(E1 & E2 & E3)].
    + split; [done|]. split; [unfold kernel_frames; lia|]. right. split_and!; try done. by left.
    + split; [done|]. split; [unfold kernel_frames; lia|]. right. split_and!; try done. right. by left.
    + split; [done|]. split; [lia|]. right. split_and!; try done. right. right. lia.
Qed.

Lemma module_boot_space : boot_space bd A1 hi m'.
Proof using TL Hks Hbehind Hlow Hpde.
  destruct frames_range as (A0 & Am & Ah & Hh & Hd & Hk). pose proof five_apart as (P1 & P2 & P3 & P4 & P5 & P6 & P7).
  destruct five_tables as (T1 & _ & T3 & T4 & T5).
  destruct (ktable_phys _ T1) as (D1 & D2 & D3), (ktable_phys _ T3) as (_ & M2 & _).
  constructor.
  - unfold kernel_frames in *. lia.
  - unfold kernel_frames in *. lia.
  - intros i Hi Hz. destruct (boot_entry i Hi Hz) as (H1 & H2 & _). split; [done|by left].
  - intros i j Hi Hj Hzi Hzj Hne. destruct (boot_entry i Hi Hzi) as (_ & _ & Ei), (boot_entry j Hj Hzj) as (_ & _ & Ej).
    unfold pages_apart in *.
    destruct Ei as [[-> ->]|(Ni & Zi & -> & Ei)], Ej as [[-> ->]|(Nj & Zj & -> & Ej)]; [done|lia|lia|].
    apply (dir_inj _ _ _ _ _ _ (sp_dir _ _ _ _ (ks_free _ _ _ _ _ _ _ _ _ Hks))); done || lia.
Qed.

(** Pages below the kernel and above 4 MB, but for the 4 MB of the frames *)
Definition user_region (v : Z) : Prop := 1024 ≤ v ∧ v / 1024 < kdir ∧ v / 1024 ≠ d1.
Lemma user_region_free v : user_region v → user_page bd m' v.
Proof using TL Hks Hbehind Hlow Hpde.
  intros (H1 & H2 & H3). destruct frames_range as (_ & _ & _ & _ & Hd & Hk).
  assert (Hi : 1 ≤ v / 1024 < 1024) by (clear -H1 H2 Hk; Z.to_euclidean_division_equations; lia).
  unfold user_page. destruct (decide (pde bd m' (v / 1024) = 0)) as [|Hz]; [done|].
  destruct (boot_entry (v / 1024) ltac:(lia) Hz) as (_ & _ & [[]|(_ & _ & _ & [[]|[[]|[]]])]); lia.
Qed.
Lemma module_stack_ready : stack_ready bd m'.
Proof using TL Hks Hbehind Hlow Hpde.
  intros w Hw. change (STACK_BASE / 4096) with 0x7FFFC in Hw. change (STACK_BYTES / 4096) with 5 in Hw.
  destruct frames_range as (_ & _ & _ & _ & Hd & Hk). apply user_region_free. unfold user_region.
  assert (Hi : 511 ≤ w / 1024 ≤ 512) by (clear -Hw; Z.to_euclidean_division_equations; lia). lia.
Qed.

(** A page of the kernel is translated as before. *)
Lemma boot_walk v : 0 ≤ v < 1048576 → v / 1024 ≠ d1 → pde pd m1 (v / 1024) ≠ 0 →
  epte bd m' v = epte pd m1 v.
Proof using TL Hks Hbehind Hlow Hpde Hout.
  intros Hv Hne Hz. destruct frames_range as (A0 & Am & Ah & Hh & Hd & Hk).
  assert (Hi : 0 ≤ v / 1024 < 1024 ∧ 0 ≤ v mod 1024 < 1024) by (clear -Hv; Z.to_euclidean_division_equations; lia).
  pose proof five_apart as (P1 & P2 & P3 & P4 & P5 & P6 & P7). unfold pages_apart in *.
  destruct five_tables as (T1 & T2 & T3 & T4 & T5).
  destruct (ktable_phys _ T1) as (D1 & D2 & D3), (ktable_phys _ T3) as (M1 & M2 & M3).
  assert (Hp : pde bd m' (v / 1024) = pde pd m1 (v / 1024)) by (rewrite Hpde, (proj2 (Z.eqb_neq _ _)) by tauto; done).
  pose proof Hz as Hz'. rewrite <-Hp in Hz'.
  destruct (boot_entry _ (proj1 Hi) Hz') as (_ & Te & [[]|(_ & _ & Et & Hc)]); [done|].
  destruct (table_page bd m' (v / 1024)) as (_ & T0 & _).
  assert (Hap : (table bd m' (v / 1024) + 4096 ≤ bd ∨ bd + 4096 ≤ table bd m' (v / 1024)) ∧
                (table bd m' (v / 1024) + 4096 ≤ mb ∨ mb + 4096 ≤ table bd m' (v / 1024))).
  { rewrite Et. destruct Hc as [[_ ->]|[[_ ->]|[_ Hc]]]; lia. }
  unfold epte. rewrite Hp. case_decide; [done|]. unfold pte, table. rewrite Hp.
  rewrite Et in Te, T0, Hap. fold (table pd m1 (v / 1024)).
  apply load32_ext. intros b Hb.
  apply Hout; apply out_linear; unfold entry, kernel_frames in *; clear -Hb Hi Te T0 Hap D1 D2 M1 M2 Hbehind Ah Hh; lia.
Qed.

(** A module where early_main puts it: between the tables and the free frames *)
Definition module_placed (md : boot_module) : Prop :=
  ktable_end y - vma ≤ start_paddr md ∧ start_paddr md + 52 ≤ end_paddr md ∧ end_paddr md ≤ A.

Lemma placed_identity md v :
  module_ok md → md ∈ boot_modules info → image_page md v →
  0 ≤ v < 1024 ∧ epte bd m' v = epte pd m1 v ∧ walk_entry (epte pd m1 v) = Some (4096 * v, 3).
Proof using TL Hks Hbehind Hlow Hpde Hout.
  intros (O1 & O2 & O3 & O4) Hin Hv. destruct frames_range as (_ & _ & _ & _ & Hd & Hk).
  assert (Hpg : 0 ≤ v < 1024 ∧ module_page md v).
  { unfold image_page, module_page in *. clear -Hv O1 O2 O3 O4. Z.to_euclidean_division_equations. lia. }
  destruct Hpg as [Hv0 Hpg]. assert (Ev : v / 1024 = 0) by (apply Z.div_small; lia).
  destruct (ks_map _ _ _ _ _ _ _ _ _ Hks) as (B & _ & _ & Hw & _). specialize (Hw v ltac:(lia)).
  rewrite (walk_epte _ _ _ _ _ _ _ (sp_dir _ _ _ _ (ks_free _ _ _ _ _ _ _ _ _ Hks))) in Hw by (rewrite Ev; lia).
  unfold kernel_map in Hw. rewrite (proj2 (Z.ltb_lt v 1024)) in Hw by lia.
  assert (Hbp : boot_page info v = true).
  { pose proof (boot_page_spec info v) as Hs. destruct (boot_page info v); [done|].
    destruct Hs as [_ Hs]. by destruct (Hs md Hin). }
  rewrite Hbp in Hw. split; [done|]. split; [|done].
  apply boot_walk; [lia|lia|]. intros E. unfold epte in Hw. rewrite Ev, decide_True in Hw; [done|].
  by rewrite Ev in E.
Qed.

Lemma placed_image md :
  module_ok md → md ∈ boot_modules info → module_placed md → image_ready bd A1 hi m' md.
Proof using TL Hks Hbehind Hlow Hpde Hout.
  intros Hok Hin (P1 & P2 & P3). pose proof Hok as (O1 & O2 & O3 & O4).
  destruct frames_range as (A0 & Am & Ah & Hh & Hd & Hk).
  destruct five_tables as (_ & _ & T3 & T4 & T5).
  destruct (ktable_phys _ T3) as (_ & M2 & _), (ktable_phys _ T4) as (_ & K2 & _), (ktable_phys _ T5) as (_ & B2 & _).
  constructor; [lia|..].
  - intros v Hv. destruct (placed_identity md v Hok Hin Hv) as (Hv0 & -> & Hw).
    unfold walk_entry in Hw. destruct (Z.testbit _ 0); [|done]. injection Hw as Hw _. done.
  - intros v Hv. assert (Hx : start_paddr md ≤ 4096 * v ∧ 4096 * v + 4096 ≤ A).
    { unfold image_page in Hv. clear -Hv O1 O2 O3 P3 Am A0. Z.to_euclidean_division_equations. lia. }
    split; [left; unfold kernel_frames; lia|]. intros i Hi Hz. unfold pages_apart.
    destruct (boot_entry i Hi Hz) as (_ & _ & [[_ ->]|(_ & _ & -> & [[_ ->]|[[_ ->]|[_ ?]]])]); lia.
Qed.

Lemma placed_bytes m0 md x :
  kernel_keeps page_directory kernel_pt bootstrap_pt vma m0 m1 A → module_placed md →
  start_paddr md ≤ x < end_paddr md → load8 m' x = load8 m0 x.
Proof using TL Hks Hbehind Hlow Hout.
  intros Hkeep (P1 & P2 & P3) Hx. destruct frames_range as (A0 & _ & Ah & Hh & _).
  destruct five_tables as (T1 & T2 & T3 & T4 & T5).
  destruct (ktable_phys _ T1) as (? & ? & _), (ktable_phys _ T2) as (? & ? & _), (ktable_phys _ T3) as (? & ? & _),
    (ktable_phys _ T4) as (? & ? & _), (ktable_phys _ T5) as (? & ? & _).
  rewrite Hout; [apply Hkeep|..]; apply out_linear; unfold kernel_frames in *; lia.
Qed.

Lemma placed_ready m0 md :
  kernel_keeps page_directory kernel_pt bootstrap_pt vma m0 m1 A →
  module_ok md → md ∈ boot_modules info → module_placed md → module_wf m0 user_region md →
  module_ready bd A1 hi m' md ∧ module_segs m' md = module_segs m0 md ∧
  module_entry m' md = module_entry m0 md.
Proof using TL Hks Hbehind Hlow Hpde Hout.
  intros Hkeep Hok Hin Hpl Hwf. pose proof (placed_image md Hok Hin Hpl) as Him.
  destruct (ir_range _ _ _ _ _ Him) as (R0 & R1 & R2). pose proof Hok as (_ & _ & _ & O4).
  destruct (module_wf_same m0 m' md md) with (U := user_region) (U' := user_page bd m') as (H1 & H2 & H3).
  - constructor; [lia|lia|lia|]. intros i Hi. apply (placed_bytes m0 md); [done|done|lia].
  - apply user_region_free.
  - done.
  - split; [by constructor|done].
Qed.

(** A directory with the entries of the boot directory translates the kernel's
    pages as the kernel's own directory does. *)
Lemma kernel_shared m2 pdj B v fr :
  same_outside A1 hi m' m2 → (∀ i, 0 ≤ i < 1024 → pde bd m' i ≠ 0 → pde pdj m2 i = pde bd m' i) →
  (∀ v, 0 ≤ v < 1048576 → mmu_walk m1 pd v = kernel_map vma y info B v) →
  0 ≤ v < 1048576 → v / 1024 ≠ d1 → kernel_map vma y info B v = Some fr → mmu_walk m2 pdj v = Some fr.
Proof using TL Hks Hbehind Hlow Hpde Hout.
  intros Hs Hk Hw Hv Hne Hfr. rewrite <-Hw in Hfr by done.
  assert (Hi : 0 ≤ v / 1024 < 1024 ∧ 0 ≤ v mod 1024 < 1024) by (clear -Hv; Z.to_euclidean_division_equations; lia).
  rewrite (walk_epte _ _ _ _ _ _ _ (sp_dir _ _ _ _ (ks_free _ _ _ _ _ _ _ _ _ Hks))) in Hfr by lia.
  assert (Hz : pde pd m1 (v / 1024) ≠ 0).
  { intros E. unfold epte in Hfr. by rewrite decide_True in Hfr. }
  rewrite <-boot_walk in Hfr by done.
  assert (Hz' : pde bd m' (v / 1024) ≠ 0) by (rewrite Hpde, (proj2 (Z.eqb_neq _ _)) by tauto; done).
  destruct (boot_entry _ (proj1 Hi) Hz') as (Hb & Ht & _). destruct (table_page bd m' (v / 1024)) as (_ & T0 & _).
  destruct frames_range as (A0 & _ & Ah & Hh & _).
  unfold mmu_walk. change (load32 m2 (entry pdj (v / 1024))) with (pde pdj m2 (v / 1024)).
  rewrite Hk by (done || apply Hi). rewrite Hb. fold (table bd m' (v / 1024)).
  rewrite (same_outside_load32 _ _ _ _ (entry (table bd m' (v / 1024)) (v mod 1024)) Hs) by (unfold entry; lia).
  unfold walk_entry, epte in Hfr. rewrite decide_False in Hfr by done. exact Hfr.
Qed.
End after.

(** ** Up to the modules *)

(** The machine early_main leaves: the boot information with [mods], free frames
    from [A] on, the kernel's tables empty, console and heap untouched *)
Record machine_ready (info : kernel_info_t) (A n : Z) (mods : list boot_module) (s : boot_st) : Prop := {
  ma_kmem : KmemProps.boot_ready page_directory kernel_pt vma y
    (p_with_kinfo (λ _, info) (km_pg (b_kmem s))) A n;
  ma_mods : boot_modules info = mods ∧ no_modules info < CONF_MAX_BOOT_MODULES;
  ma_heap : ∃ m, km_heap (b_kmem s) = Kmalloc.kheap_boot m;
  ma_console : c_x (b_con s) = 0 ∧ c_y (b_con s) = 0;
  ma_low : A + 4096 * kernel_frames < 0x7FC00000;
  ma_window : (A + 4096 * kernel_frames) mod 4194304 + window mods ≤ 4194304;
}.

Section steps.
Context (debug : bool) (dev : device) (boot_processes boot_processes_threads : Z) (name_addr : Z → Z)
  (lit : string → Z) (rq : Z).
Context (gdt_entries gdt tss kstack_top idt_entries idt : Z) (eh irq : Z → Z)
  (f_page_fault_handler arch_sysenter_stub f_clock f_tick : Z).
Abbreviation run := (bootstrap debug dev boot_page_directory page_directory module_bootstrap_pt kernel_pt
  bootstrap_pt vma y boot_processes boot_processes_threads name_addr lit rq gdt_entries gdt tss kstack_top
  idt_entries idt eh irq f_page_fault_handler arch_sysenter_stub f_clock f_tick).
Abbreviation load_all := (load_boot_modules debug boot_page_directory vma boot_processes
  boot_processes_threads name_addr lit).
Abbreviation start := (start_scheduling debug dev boot_page_directory boot_processes rq gdt_entries gdt tss
  kstack_top idt_entries idt eh irq f_page_fault_handler arch_sysenter_stub f_clock f_tick).

Lemma bootstrap_memory info A n mods s :
  machine_ready info A n mods s →
  ∃ s1 s2, run info s = (_ ← load_all; start) s2 ∧
    kernel_space page_directory kernel_pt bootstrap_pt vma y info s1 A n ∧
    kernel_keeps page_directory kernel_pt bootstrap_pt vma (p_mem (b_pg s)) (p_mem s1) A ∧
    supply (b_pg s2) (A + 4096 * kernel_frames) (n - kernel_frames) ∧
    modules (b_info s2) = modules info ∧ no_modules (b_info s2) = no_modules info ∧
    b_hw s2 = b_hw s ∧
    (∀ i, 0 ≤ i < 1024 → pde bd (p_mem (b_pg s2)) i =
       if i =? (A + 4096 * kernel_frames) / 4194304 then mb + 3 else pde pd (p_mem s1) i) ∧
    (∀ x, ¬ within bd 4096 x → ¬ within mb 4096 x → load8 (p_mem (b_pg s2)) x = load8 (p_mem s1) x).
Proof using TL.
  intros [Hkm [Hmods _] [mh Hheap] [Hx Hy] Hlow Hwin].
  destruct s as [ints con [lg pg hp] hw]. cbn [b_kmem km_pg km_heap b_con b_hw b_pg] in *.
  pose proof (tl_kernel TL) as L. pose proof Hkm as [Hsup _ _ Hvma [Hno Hok] _].
  destruct (console_init_ok (console_debug y) con) as (con' & Hcon & _); [|done|done|].
  { destruct L as [(V1 & V2 & V3) _ HO _ _]. lia. }
  set (lg' := (lg ++ [Note "INFO" 107 "Bootstrap started" []]) ++ [Note "INFO" 108 "Initializing kernel memory" []]).
  destruct (kmem_init_ok debug page_directory kernel_pt bootstrap_pt vma y info
    (KmemSt lg' (p_with_kinfo (λ _, info) pg) hp) A n mh L Hkm Hheap)
    as ([lg1 s1 hp1] & Hkmem & Hks & _ & _ & _ & Hkeep).
  cbn [km_pg] in Hks, Hkeep. destruct (ks_free _ _ _ _ _ _ _ _ _ Hks) as [Hsup1 _].
  destruct (ks_info _ _ _ _ _ _ _ _ _ Hks) as (l & r & Ek).
  pose proof Hsup1 as [(e & rest & Em & Ea & Hlen) (H1 & H2 & H3 & H4)].
  destruct five_tables as (T1 & T2 & T3 & _). pose proof five_apart as (P1 & P2 & P3 & _).
  destruct L as [(V1 & V2 & V3) _ HO _ _].
  destruct (ktable_phys _ T1) as (? & ? & _), (ktable_phys _ T2) as (? & ? & _), (ktable_phys _ T3) as (? & ? & ?).
  assert (Hokm : Forall module_ok mods) by (rewrite <-Hmods; exact Hok).
  pose proof (window_range mods Hokm) as [Hw0 _]. unfold pages_apart in *.
  destruct (init_mem_ok boot_page_directory page_directory module_bootstrap_pt vma debug s1
    (A + 4096 * kernel_frames) mods) as (m2 & Hinit & Hpde & _ & Hout).
  { exists e, rest. by split. }
  { unfold visited_modules. rewrite Ek. cbn [no_modules modules with_kheap_range with_memmaps].
    rewrite (proj2 (Z.leb_le _ _)) by apply Hno. rewrite <-Hmods. reflexivity. }
  { exact Hokm. }
  { lia. }
  { exact H2. }
  { exact Hwin. }
  { pose proof (Z.mod_pos_bound (A + 4096 * kernel_frames) 4194304 ltac:(lia)). lia. }
  { rewrite Ek. exact Hvma. }
  1-4: lia.
  1-3: assumption.
  set (ka := KmemSt lg' (p_with_kinfo (λ _, info) pg) hp) in *. set (sa := BootSt false con' ka hw).
  set (sb := BootSt false con' (KmemSt lg1 s1 hp1) hw).
  set (p2 := load_pagedir bd (PagingSt m2 (with_bootstrap_range (MemRange (A + 4096 * kernel_frames)
    (A + 4096 * kernel_frames + window mods)) (p_kinfo s1)) (p_cr3 s1))) in *.
  assert (Ea' : on_kmem (kmem_init debug page_directory kernel_pt bootstrap_pt vma y info) sa = Ok (tt, sb))
    by (exact (on_kmem_Ok _ sa _ _ Hkmem)).
  assert (Eb : on_paging (bootstrap_identity_map_init_mem boot_page_directory page_directory
      module_bootstrap_pt vma debug (p_kinfo s1)) sb = Ok (tt, b_with_pg p2 sb))
    by (exact (on_paging_Ok _ sb _ _ Hinit)).
  exists s1, (b_with_pg p2 sb). split.
  - unfold bootstrap, native_disable_interrupts. rewrite modify_bind. cbn [b_con b_kmem b_hw].
    rewrite (bind_Ok_M _ _ _ tt (BootSt false con (KmemSt lg (p_with_kinfo (λ _, info) pg) hp) hw))
      by reflexivity.
    rewrite (bind_Ok_M _ _ _ tt (BootSt false con' (KmemSt lg (p_with_kinfo (λ _, info) pg) hp) hw))
      by (unfold on_con; cbn [b_con]; rewrite Hcon; reflexivity).
    rewrite (bind_Ok_M _ _ _ tt (BootSt false con' (KmemSt (lg ++ [Note "INFO" 107 "Bootstrap started" []])
      (p_with_kinfo (λ _, info) pg) hp) hw)) by reflexivity.
    rewrite (bind_Ok_M _ _ _ tt sa) by reflexivity. rewrite gets_bind. change (b_info sa) with info.
    rewrite (bind_Ok_M _ _ _ _ _ Ea'). rewrite gets_bind. change (b_info sb) with (p_kinfo s1).
    rewrite (bind_Ok_M _ _ _ _ _ Eb). reflexivity.
  - split; [exact Hks|]. split; [exact Hkeep|]. split; [|split; [|split; [|split]]].
    + constructor; [|exact (conj H1 (conj H2 (conj H3 H4)))]. exists e, rest. split; [exact Em|by split].
    + change (modules (p_kinfo s1) = modules info). by rewrite Ek.
    + change (no_modules (p_kinfo s1) = no_modules info). by rewrite Ek.
    + reflexivity.
    + split; [exact Hpde|exact Hout].
Qed.

(** The frames left after kernel memory *)
Lemma frames_hi A n : 0 ≤ n - kernel_frames →
  (A + 4096 * n - (A + 4096 * kernel_frames)) / 4096 = n - kernel_frames.
Proof using.
  intros H. replace (A + 4096 * n - (A + 4096 * kernel_frames)) with ((n - kernel_frames) * 4096) by lia.
  by apply Z.div_mul.
Qed.

(** What the machine has become *)
Record booted (info : kernel_info_t) (A n : Z) (mods : list boot_module) (m : mem) (s' : boot_st)
    (pds ends : Z → Z) : Prop := {
  bt_bytes j md sg i : 0 ≤ j → mods !! Z.to_nat j = Some md → sg ∈ module_segs m md →
    loads sg = true → 0 ≤ i < sg_filesz sg →
    ∃ f fl, private_page (p_mem (b_pg s')) (pds j) (pds j) (ends j) ((sg_vaddr sg + i) / 4096) f fl ∧
      load8 (p_mem (b_pg s')) (f + (sg_vaddr sg + i) mod 4096) = load8 m (start_paddr md + sg_offset sg + i);
  bt_stack j x : 0 ≤ j < Z.of_nat (length mods) → STACK_BASE ≤ x < STACK_BASE + STACK_BYTES →
    ∃ f fl, private_page (p_mem (b_pg s')) (pds j) (pds j) (ends j) (x / 4096) f fl ∧ Z.testbit fl 1 = true;
  bt_apart j : 0 ≤ j < Z.of_nat (length mods) →
    A + 4096 * kernel_frames ≤ pds j ∧ ends j ≤ A + 4096 * n ∧ ∀ i, 0 ≤ i < j → ends i ≤ pds j;
  bt_kernel : ∃ B, ∀ j v fr, 0 ≤ j < Z.of_nat (length mods) → 0 ≤ v < 1048576 →
    v / 1024 ≠ (A + 4096 * kernel_frames) / 4194304 →
    kernel_map vma y info B v = Some fr → mmu_walk (p_mem (b_pg s')) (pds j) v = Some fr;
}.

(** A module the boot accepts, in the memory at the entry *)
Definition bootable (A : Z) (m : mem) (md : boot_module) : Prop :=
  module_placed A md ∧ module_wf m (user_region A) md.

Lemma modules_need_same m m' mods :
  Forall (λ md, module_segs m' md = module_segs m md) mods → modules_need m' mods = modules_need m mods.
Proof using.
  induction 1 as [|md mods H _ IH]; [done|]. cbn [modules_need foldr]. fold (modules_need m' mods) (modules_need m mods).
  rewrite IH. unfold module_need. by rewrite H.
Qed.

Lemma seg_file m md sg i (U : Z → Prop) : module_wf m U md → sg ∈ module_segs m md → loads sg = true →
  0 ≤ i < sg_filesz sg →
  start_paddr md ≤ start_paddr md + sg_offset sg + i < end_paddr md.
Proof using.
  intros [_ _ Hw _ _] Hsg Hl Hi. rewrite Forall_forall in Hw. pose proof (sr_file _ _ _ (Hw sg Hsg) Hl).
  assert (0 ≤ sg_offset sg); [|lia].
  unfold module_segs in Hsg. apply list_elem_of_fmap in Hsg as (j & -> & _).
  apply (rd32_range (load8 m)). apply load8_range.
Qed.

Lemma booted_ok info s1 A n m m' mods s' pds ends :
  kernel_space page_directory kernel_pt bootstrap_pt vma y info s1 A n →
  ktable_end y - vma ≤ A → A + 4096 * kernel_frames < 0x7FC00000 →
  (∀ i, 0 ≤ i < 1024 → pde bd m' i =
     if i =? (A + 4096 * kernel_frames) / 4194304 then mb + 3 else pde pd (p_mem s1) i) →
  (∀ x, ¬ within bd 4096 x → ¬ within mb 4096 x → load8 m' x = load8 (p_mem s1) x) →
  kernel_keeps page_directory kernel_pt bootstrap_pt vma m (p_mem s1) A →
  (∀ x, x ∈ mods → bootable A m x ∧ module_segs m' x = module_segs m x) →
  (∀ j md, 0 ≤ j → mods !! Z.to_nat j = Some md → module_in bd m' (p_mem (b_pg s')) md (pds j) (ends j)) →
  (∀ j, 0 ≤ j < Z.of_nat (length mods) →
     A + 4096 * kernel_frames ≤ pds j ∧ ends j ≤ A + 4096 * n ∧ ∀ i, 0 ≤ i < j → ends i ≤ pds j) →
  same_outside (A + 4096 * kernel_frames) (A + 4096 * n) m' (p_mem (b_pg s')) →
  booted info A n mods m s' pds ends.
Proof using TL.
  intros Hks Hbeh Hlow Hpde Hout Hkeep Hsegs Hin Hap Hrest.
  assert (Hnth : ∀ j, 0 ≤ j < Z.of_nat (length mods) → ∃ md, mods !! Z.to_nat j = Some md).
  { intros j Hj. apply lookup_lt_is_Some_2. lia. }
  constructor; [| |exact Hap|].
  - intros j md sg i Hj Hmd Hsg Hl Hi. pose proof (Hin j md Hj Hmd) as [_ _ Hb _ _].
    destruct (Hsegs md) as [[Hpl Hwf] Es]; [by eapply list_elem_of_lookup_2|].
    destruct (Hb sg i) as (f & fl & Hp & E); [by rewrite Es|done|done|].
    exists f, fl. split; [exact Hp|]. rewrite E.
    apply (placed_bytes info s1 A n m' Hks Hbeh Hlow Hout m md _ Hkeep Hpl).
    by apply (seg_file m md sg i (user_region A)).
  - intros j x Hj Hx. destruct (Hnth j Hj) as [md Hmd].
    pose proof (Hin j md ltac:(lia) Hmd) as [_ _ _ _ Hst]. by apply Hst.
  - destruct (ks_map _ _ _ _ _ _ _ _ _ Hks) as (B & _ & _ & Hw & _). exists B.
    intros j v fr Hj Hv Hne Hfr. destruct (Hnth j Hj) as [md Hmd].
    pose proof (Hin j md ltac:(lia) Hmd) as [_ Hk _ _ _].
    by apply (kernel_shared info s1 A n m' Hks Hbeh Hlow Hpde Hout _ _ B v fr Hrest Hk Hw).
Qed.

Lemma bootstrap_ok (info : kernel_info_t) (A n : Z) (mods : list boot_module)
    (md : boot_module) (s : boot_st) :
  let m := p_mem (b_pg s) in
  let h := b_hw s in
  let k := Z.of_nat (length mods) in
  machine_ready info A n mods s → Forall (bootable A m) mods →
  modules_need m mods ≤ n - kernel_frames → mods !! 0%nat = Some md →
  tasks_apart rq boot_processes boot_processes_threads → ReadsBack dev is_data →
  tables_apart_tasks boot_processes boot_processes_threads gdt_entries gdt tss idt_entries idt →
  current_proc (thr (h_ext h)) = NULL → nsec_to_next_tick (h_ext h) = 0 →
  length (h_callback h) = 256%nat →
  ∃ s' pds ends, run info s = Ok (user_regs (module_entry m md) ARCH_MAIN_THREAD_STACK_ADDR, s') ∧
    booted info A n mods m s' pds ends ∧
    head (cr3_writes (thr (h_ext (b_hw s')))) = Some (pds 0) ∧
    current_thread (h_ext (b_hw s')) = thread_at boot_processes_threads 0 ∧
    rr_inv rq (boot_threads boot_processes_threads k) boot_prio
      (boot_proc boot_processes boot_processes_threads) (boot_pd boot_processes pds)
      (RR.init boot_prio 10000000000 (boot_threads boot_processes_threads k)) (h_ext (b_hw s')) ∧
    h_callback (b_hw s') !! 32%nat = Some f_clock ∧ h_cur_callback (b_hw s') = f_tick ∧
    h_callback (b_hw s') !! 14%nat = Some f_page_fault_handler ∧
    masks (h_trace (b_hw s')) (masked0 ∖ {[ 0 ]}).
Proof using TL.
  intros m h k Hma Hbt Hneed H0 Hta Hdev Htt Hproc Htick Hcb.
  destruct (bootstrap_memory info A n mods s Hma)
    as (s1 & s2 & Hrun & Hks & Hkeep & Hsup & Emods & Eno & Ehw & Hpde & Hout).
  pose proof Hma as [[_ Hbeh Hn _ [Hno Hok] _] [Hmods Hmax] _ _ Hlow _].
  cbn [p_kinfo p_with_kinfo] in Hno, Hok. fold (boot_modules info) in Hok. rewrite Hmods in Hok.
  set (m' := p_mem (b_pg s2)) in *.
  assert (Hlen : k = no_modules info).
  { subst k. rewrite <-Hmods. unfold boot_modules. rewrite length_take. lia. }
  assert (Hready : ∀ x, x ∈ mods → module_ready bd (A + 4096 * kernel_frames) (A + 4096 * n) m' x ∧
    module_segs m' x = module_segs m x ∧ module_entry m' x = module_entry m x).
  { intros x Hx. rewrite Forall_forall in Hbt, Hok. destruct (Hbt x Hx) as [Hp Hw].
    apply (placed_ready info s1 A n m' Hks Hbeh Hlow Hpde Hout m x Hkeep (Hok x Hx)); [|done|done].
    by rewrite Hmods. }
  pose proof (modules_need_same m m' mods) as Hnm. rewrite Forall_forall in Hnm.
  rewrite <-Hnm in Hneed by (intros x Hx; apply Hready, Hx).
  assert (Hbr : Modules.boot_ready boot_page_directory vma boot_processes boot_processes_threads rq
    (A + 4096 * kernel_frames) (A + 4096 * n) mods s2).
  { constructor.
    - exact (module_boot_space info s1 A n m' Hks Hbeh Hlow Hpde).
    - exact (module_stack_ready info s1 A n m' Hks Hbeh Hlow Hpde).
    - done.
    - rewrite Emods. etrans; [|exact Hmods]. unfold boot_modules. f_equal. unfold k in Hlen. lia.
    - rewrite Eno. unfold k in Hlen. lia.
    - rewrite frames_hi by (unfold kernel_frames; lia). split; [exact Hsup|lia]. }
  destruct (boot_enters_first_module debug dev boot_page_directory vma name_addr lit boot_processes
    boot_processes_threads rq gdt_entries gdt tss kstack_top idt_entries idt eh irq f_page_fault_handler
    arch_sysenter_stub f_clock f_tick (A + 4096 * kernel_frames) (A + 4096 * n) mods md s2 Hbr)
    as (s' & pds & ends & Hrun' & Hin & Hap & Hrest & Hsched); try assumption.
  - apply Forall_forall. intros x Hx. by apply Hready.
  - by rewrite frames_hi by (unfold kernel_frames; lia).
  - by rewrite Ehw.
  - by rewrite Ehw.
  - by rewrite Ehw.
  - exists s', pds, ends. split.
    + rewrite Hrun, Hrun'. do 2 f_equal. f_equal. apply Hready. by apply list_elem_of_lookup_2 in H0.
    + split; [|exact Hsched].
      apply (booted_ok info s1 A n m m' mods s' pds ends Hks Hbeh Hlow Hpde Hout Hkeep); try assumption.
      intros x Hx. rewrite Forall_forall in Hbt. split; [by apply Hbt|by apply Hready].
Qed.

End steps.
End whole.

(** ** A machine to boot

    An image of 15 pages from 1 MB on, two modules behind it, frames from 4 MB *)

Definition full_syms : ksyms :=
  Ksyms 0xFE901000 0xFE907000 0xFE908000 0xFE908000 0xFE90A000 0xFE90B000 0xFE90C000
    0xFE90D000 0xFE90F000 0xFE90F000.
Definition first_md : boot_module := BootModule 0x110000 0x11005C 0 [].
Definition second_md : boot_module := BootModule 0x111000 0x11105C 0 [].
Definition full_info : kernel_info_t :=
  let r := MemRange 0 0 in
  KernelInfo [MmapEntry 0x400000 0x2000000 1 0] 1 0 [first_md; second_md] 2 r r r r r 0xFE800000 0 0.
Definition full_mem : mem := write_bytes (write_bytes ∅ 0x110000 demo_image) 0x111000 demo_image.
Definition full_boot : boot_st :=
  BootSt true (Console ∅ 0 0 0 0 0 0 0)
    (KmemSt [] (PagingSt full_mem full_info []) (Kmalloc.kheap_boot ∅))
    (Hw [] (replicate 256 0) 0 0 0 0 0 (SchedSt (ThreadSt ∅ 0 0 []) 0 0 0)).

Lemma full_layout : tables_layout 0xFE904000 0xFE901000 0xFE905000 0xFE902000 0xFE903000 0xFE800000 full_syms.
Proof.
  constructor.
  - constructor; cbn; [split_and!; lia || reflexivity|split_and!; reflexivity|split_and!; lia| |lia].
    repeat (apply Forall_cons; split); try (split_and!; lia || reflexivity). apply Forall_nil_2.
  - repeat (apply Forall_cons; split); try (cbn; split_and!; lia || reflexivity). apply Forall_nil_2.
  - refine (bool_decide_eq_true_1 _ _). vm_compute. reflexivity.
  - lia.
Qed.
Lemma full_load8 x : 0 ≤ x < 0x110000 → load8 full_mem x = 0.
Proof.
  intros Hx. assert (El : Z.of_nat (length demo_image) = 92) by reflexivity.
  unfold full_mem. rewrite write_bytes_out, write_bytes_out; rewrite ?El; [reflexivity| |lia| |lia];
    apply out_linear; lia.
Qed.
Lemma full_modules : Forall module_ok [first_md; second_md].
Proof.
  repeat (apply Forall_cons; split); try (unfold module_ok; cbn; split_and!; lia || reflexivity). apply Forall_nil_2.
Qed.

Lemma full_ready : machine_ready 0xFE901000 0xFE902000 0xFE800000 full_syms full_info 0x400000 6144
  [first_md; second_md] full_boot.
Proof.
  constructor; [|split; reflexivity|by exists ∅|split; reflexivity|reflexivity|vm_compute; congruence].
  constructor; [|vm_compute; congruence|lia|reflexivity| |].
  - constructor; [|split_and!; lia || reflexivity]. eexists _, _.
    split; [reflexivity|]. split; [reflexivity|]. cbn. lia.
  - split; [cbn; lia|]. exact full_modules.
  - assert (Hz : ∀ a i, 0 ≤ a → a + 4096 ≤ 0x110000 → 0 ≤ i < 1024 → load32 full_mem (entry a i) = 0).
    { intros a i Ha Hb Hi. rewrite <-(load32_empty (entry a i)). apply load32_ext.
      intros b Hb'. rewrite full_load8 by (unfold entry; lia). reflexivity. }
    change (p_mem _) with full_mem. intros i Hi. split; apply Hz; done.
Qed.

Lemma full_bootable md : md = first_md ∨ md = second_md →
  module_segs full_mem md = [Segment 1 84 0x400000 8 0x1000 5 0x1000] ∧
  bootable 0xFE800000 full_syms 0x400000 full_mem md.
Proof.
  intros Hmd. assert (Es : module_segs full_mem md = [Segment 1 84 0x400000 8 0x1000 5 0x1000])
    by (destruct Hmd as [-> | ->]; vm_compute; reflexivity).
  split; [done|]. split; [destruct Hmd as [-> | ->]; vm_compute; intuition congruence|].
  constructor; rewrite ?Es.
  - destruct Hmd as [-> | ->]; vm_compute; reflexivity.
  - destruct Hmd as [-> | ->]; vm_compute; intuition congruence.
  - apply Forall_singleton. constructor.
    1-3,6-7: by vm_compute.
    { intros _. destruct Hmd as [-> | ->]; vm_compute; congruence. }
    { intros _. split; vm_compute; intuition congruence. }
    intros w _ Hw. change (sg_vaddr _ / 4096) with 0x400 in Hw. change (sg_memsz _ / 4096) with 1 in Hw.
    replace w with 0x400 by lia. vm_compute. intuition congruence.
  - split; [apply Forall_nil_2|done].
  - apply Forall_singleton. intros _. left. by vm_compute.
Qed.

