(* ===== verification/Boot.v ===== *)
(** * Boot: from the Multiboot tags to the first user thread

    boot/boot.asm composes early_main and bootstrap: the memory early_main leaves
    is what bootstrap starts from, the modules it has copied are what the loader
    reads. *)

From S2P Require Import Prelude Machine CString ArchPaging Thread KInfo Exec Paging PagingInv PagingProps Space.
From S2P Require Early EarlyProps EarlyMap EarlyMain.
From S2P Require Kmalloc.
From S2P Require Import Elf ElfProps ElfSpace Sched SchedInv Kmem Printf Console PortIO Pic Interrupt Timer Tick Startup StartupProps.
From S2P Require Import Modules KmemProps Bootstrap.
Import Early EarlyProps.

(** ** Modules where early_main copies them *)

(** A module in the memory of the loader *)
Definition source_of (md : Z * Z * list Z) : boot_module :=
  let '(a, b, name) := md in BootModule a b 0 name.

(** [md] is the copy of [src] between [lo] and [hi]. *)
Record copy_of (m0 m : mem) (lo hi : Z) (src : Z * Z * list Z) (md : boot_module) : Prop := {
  co_range : lo ≤ start_paddr md ∧ end_paddr md ≤ hi;
  co_aligned : start_paddr md mod 4096 = 0;
  co_size : end_paddr md - start_paddr md = pages (end_paddr (source_of src) - start_paddr (source_of src));
  co_bytes i : 0 ≤ i < end_paddr (source_of src) - start_paddr (source_of src) →
    load8 m (start_paddr md + i) = load8 m0 (start_paddr (source_of src) + i);
}.

Lemma copies m0 m mods : ∀ lo,
  Forall (λ md, md.1.1 ≤ md.1.2) mods → lo mod 4096 = 0 → placed_bytes m0 m lo mods →
  Forall2 (copy_of m0 m lo (lo + mods_size mods)) mods (place lo mods).
Proof.
  induction mods as [|[[a b] nm] mods IH]; intros lo Hab Hlo Hb; [done|].
  apply Forall_cons in Hab as [Hab1 Hab]. destruct Hb as [Hb1 Hb]. cbn [fst snd] in Hab1.
  destruct (pages_bounds (b - a) ltac:(lia)) as [Hp Hpm]. destruct (mods_size_aligned mods Hab) as [Hs _].
  cbn [place mods_size]. apply Forall2_cons. split.
  - constructor; cbn [source_of start_paddr end_paddr]; [lia|done|lia|exact Hb1].
  - eapply Forall2_impl; [apply (IH (lo + pages (b - a)) Hab)|].
    + clear -Hlo Hpm. Z.to_euclidean_division_equations. lia.
    + exact Hb.
    + intros src md [C1 C2 C3 C4]. constructor; [lia|done|done|done].
Qed.

Lemma copy_moved m0 m lo hi src md :
  copy_of m0 m lo hi src md → 0 ≤ lo → hi < 4294967296 →
  0 ≤ start_paddr (source_of src) → end_paddr (source_of src) ≤ 4294967296 →
  start_paddr (source_of src) + 52 ≤ end_paddr (source_of src) →
  image_moved m0 m (source_of src) md.
Proof.
  intros [C1 C2 C3 C4] Hlo Hhi H0 H1 H2.
  destruct (pages_bounds (end_paddr (source_of src) - start_paddr (source_of src)) ltac:(lia)) as [Hp _].
  constructor; [lia|lia|lia|done].
Qed.

(** ** The hand-over *)

(** boot.asm:39-46: the memory early_main leaves, and its page directory loaded *)
Definition handover (boot_page_directory K_HIGH_VMA : Z) (s : early_st) (t : boot_st) : boot_st :=
  let k := b_kmem t in
  BootSt (b_interrupts t) (b_con t)
    (KmemSt (km_log k) (load_pagedir (boot_page_directory ⊟ K_HIGH_VMA)
       (PagingSt (e_mem s) (p_kinfo (km_pg k)) (p_cr3 (km_pg k)))) (km_heap k))
    (b_hw t).

Section boot.
Context (boot_page_directory page_directory module_bootstrap_pt kernel_pt bootstrap_pt K_HIGH_VMA : Z).
Context (y : ksyms).
(** The table of the kernel early_main fills, the one in .boot.pt, the symbols
    around the boot code; where the modules go, the tags and the memory *)
Context (boot_kernel_pt boot_pt early_start early_end dend p0 lim : Z).
Context (m0 : mem) (k0 : kernel_info_t) (tags : list (Z * mb_tag)).
Abbreviation vma := K_HIGH_VMA.
Abbreviation pd := (kphys vma page_directory).
Abbreviation kp := (kphys vma kernel_pt).
Abbreviation mods := (bs_mods (EarlyMain.parsed_tags tags)).
Abbreviation kend := (heap_start y - vma).
Abbreviation E := (kend + mods_size mods).
Abbreviation placed := (place kend mods).

(** What the loader and the linker provide *)
Record boot_input (n : Z) : Prop := {
  bi_tables : tables_layout boot_page_directory page_directory module_bootstrap_pt kernel_pt
    bootstrap_pt vma y;
  bi_early : EarlyMain.bootable vma (kernel_start y) (ktable_end y) (heap_start y) early_start
    early_end (console_debug y) boot_page_directory boot_kernel_pt boot_pt dend p0 lim m0 k0 tags;
  bi_boot_kernel_pt : in_ktable y boot_kernel_pt ∧ boot_kernel_pt ≠ page_directory ∧
    boot_kernel_pt ≠ kernel_pt;
  bi_boot_pt : boot_pt + 4096 ≤ kernel_start y - vma;
  bi_empty : ∀ x, within pd 4096 x ∨ within kp 4096 x → load8 m0 x = 0;
  bi_first : ∃ e rest, bs_maps (EarlyMain.parsed_tags tags) = e :: rest ∧ 0 ≤ mm_addr e ≤ kend ∧
    kend - mm_addr e + mods_size mods + 4096 * n < mm_len e < 18446744073709551616;
  bi_frames : 6144 ≤ n ∧ E + 4096 * n ≤ 4294967296;
  bi_window : (E + 4096 * kernel_frames) mod 4194304 + window placed ≤ 4194304;
  bi_mods : Forall (λ src,
    (0 ≤ start_paddr (source_of src) ∧ start_paddr (source_of src) + 52 ≤ end_paddr (source_of src) ∧
     end_paddr (source_of src) ≤ 4294967296) ∧
    module_wf m0 (user_region vma E) (source_of src)) mods;
  bi_need : modules_need m0 (source_of <$> mods) ≤ n - kernel_frames;
}.

(** The state of the kernel's data when it has not run yet *)
Record untouched (t : boot_st) : Prop := {
  un_heap : ∃ m, km_heap (b_kmem t) = Kmalloc.kheap_boot m;
  un_console : c_x (b_con t) = 0 ∧ c_y (b_con t) = 0;
  un_proc : current_proc (thr (h_ext (b_hw t))) = NULL;
  un_tick : nsec_to_next_tick (h_ext (b_hw t)) = 0;
  un_callback : length (h_callback (b_hw t)) = 256%nat;
}.

Context (n : Z) (t : boot_st).
Hypothesis HI : boot_input n.
Hypothesis HU : untouched t.

Lemma kend_range : 0 < kend ∧ kend mod 4096 = 0 ∧ ktable_end y - vma ≤ kend ∧ kend ≤ E ∧
  E mod 4096 = 0 ∧ E + 24576 ≤ 4194304.
Proof using HI.
  pose proof (EarlyMain.bo_layout _ _ _ _ _ _ _ _ _ _ _ _ _ _ _ _ (bi_early _ HI))
    as [[V1 V2] K (_ & _ & A3) _ (E0 & Em & E1) _ _ _ _ _].
  pose proof (tl_kernel _ _ _ _ _ _ _ (bi_tables _ HI)) as [_ _ HO _ _].
  assert (Forall (λ md : Z * Z * list Z, md.1.1 ≤ md.1.2) mods).
  { eapply Forall_impl; [exact (bi_mods _ HI)|]. intros [[a b] nm] [(H1 & H2 & H3) _]. cbn in *. lia. }
  destruct (mods_size_aligned _ H) as [Hs Hsm].
  assert (kend mod 4096 = 0) by (clear -V2 A3; Z.to_euclidean_division_equations; lia).
  unfold heap_start in *. split_and!; try done; lia.
Qed.

(** What the modules are after early_main *)
Lemma mods_copied m' : placed_bytes m0 m' kend mods →
  Forall2 (λ src md, copy_of m0 m' kend E src md ∧ image_moved m0 m' (source_of src) md ∧
    module_wf m0 (user_region vma E) (source_of src)) mods placed.
Proof using HI.
  intros Hb. destruct kend_range as (K1 & K2 & K3 & K4 & K5 & K6).
  assert (Hc : Forall2 (copy_of m0 m' kend E) mods placed).
  { apply copies; [|done|done].
    eapply Forall_impl; [exact (bi_mods _ HI)|]. intros [[a b] nm] [(H1 & H2 & H3) _]. cbn in *. lia. }
  apply Forall2_same_length_lookup. split; [by eapply Forall2_length|].
  intros i src md Hs Hm. rewrite Forall2_lookup in Hc. specialize (Hc i). rewrite Hs, Hm in Hc.
  inversion Hc as [? ? Hco|]; subst.
  pose proof (bi_mods _ HI) as Hmo. rewrite Forall_lookup in Hmo. destruct (Hmo i src Hs) as [(H1 & H2 & H3) Hw].
  split; [done|]. split; [|done]. eapply copy_moved; [done|lia|lia|done|done|done].
Qed.

(** The copies are well-formed for the boot, with the segments of the sources. *)
Definition copied (m' : mem) (src : Z * Z * list Z) (md : boot_module) : Prop :=
  image_moved m0 m' (source_of src) md ∧ module_ok md ∧ bootable vma y E m' md ∧
  module_segs m' md = module_segs m0 (source_of src) ∧
  module_entry m' md = module_entry m0 (source_of src).
Lemma mods_bootable m' : placed_bytes m0 m' kend mods → Forall2 (copied m') mods placed.
Proof using HI.
  intros Hb. destruct kend_range as (K1 & K2 & K3 & K4 & K5 & K6).
  eapply Forall2_impl; [exact (mods_copied m' Hb)|]. intros src md ([C1 C2 C3 C4] & Him & Hw).
  pose proof Him as [[M1 M1'] M2 M3 M4].
  destruct (module_wf_same m0 m' (source_of src) md Him (user_region vma E) (user_region vma E))
    as (H1 & H2 & H3); [done|done|].
  split; [done|]. split; [split_and!; [lia|done|lia|lia]|]. split; [|done].
  split; [|done]. unfold module_placed. lia.
Qed.

Lemma placed_need m' : placed_bytes m0 m' kend mods →
  modules_need m' placed = modules_need m0 (source_of <$> mods).
Proof using HI.
  intros Hb. pose proof (mods_bootable m' Hb) as H. clear -H.
  induction H as [|src md l1 l2 (_ & _ & _ & Hs & _) _ IH]; [done|].
  cbn [fmap list_fmap modules_need foldr]. fold (modules_need m' l2) (modules_need m0 (source_of <$> l1)).
  rewrite IH. unfold module_need. by rewrite Hs.
Qed.

(** The free memory left in the first region *)
Lemma first_region k : no_mmaps k = Z.of_nat (length (bs_maps (EarlyMain.parsed_tags tags))) →
  take (length (bs_maps (EarlyMain.parsed_tags tags))) (memmaps k) =
    on_first (claim_first vma (kernel_start y) (heap_start y) (mods_size mods) E)
      (bs_maps (EarlyMain.parsed_tags tags)) →
  ∃ e rest, memmaps k = e :: rest ∧ mm_addr e = E ∧ 4096 * n < mm_len e < 18446744073709551616.
Proof using HI.
  intros _ Ht. destruct (bi_first _ HI) as (e & rest & Eb & He & Hl). rewrite Eb in Ht.
  destruct kend_range as (K1 & K2 & K3 & K4 & K5 & K6).
  destruct (memmaps k) as [|e' l]; [done|]. cbn [length take on_first] in Ht. injection Ht as -> _.
  eexists _, l. split; [done|]. cbn [claim_first mm_addr mm_len]. split; [done|].
  unfold kernel_range. cbn [range_end]. rewrite (u32_small kend) by lia.
  destruct (bi_frames _ HI) as [F1 F2].
  rewrite (u32_small (kend - mm_addr e)), (u64_small (mm_len e - (kend - mm_addr e))), u64_small by lia. lia.
Qed.

(** The kernel's own tables are still empty. *)
Lemma still_empty m' tb : EarlyMain.kept vma (heap_start y) boot_page_directory boot_kernel_pt boot_pt dend m0 m' →
  in_ktable y tb → tb ≠ boot_page_directory → tb ≠ boot_kernel_pt →
  (∀ x, within (kphys vma tb) 4096 x → load8 m0 x = 0) →
  ∀ i, 0 ≤ i < 1024 → load32 m' (entry (kphys vma tb) i) = 0.
Proof using HI.
  intros Hk Ht N1 N2 Hz i Hi. pose proof (bi_tables _ HI) as TL.
  destruct (five_tables _ _ _ _ _ _ _ TL) as (T1 & _). destruct (bi_boot_kernel_pt _ HI) as (T2 & _ & _).
  pose proof (bi_boot_pt _ HI) as Hbp. pose proof (tl_kernel _ _ _ _ _ _ _ TL) as L.
  destruct kend_range as (K1 & K2 & K3 & K4 & K5 & K6).
  destruct (ktable_phys _ _ _ _ _ _ _ TL _ Ht) as (P1 & P2 & _).
  pose proof (ktable_apart _ _ _ _ _ _ _ TL tb _ Ht T1 N1) as A1.
  pose proof (ktable_apart _ _ _ _ _ _ _ TL tb _ Ht T2 N2) as A2.
  destruct (table_phys _ _ _ _ _ L _ (proj1 T1) (proj1 (proj2 T1))) as (E1 & R1 & R1').
  destruct (table_phys _ _ _ _ _ L _ (proj1 T2) (proj1 (proj2 T2))) as (E2 & R2 & R2').
  destruct (table_phys _ _ _ _ _ L _ (proj1 Ht) (proj1 (proj2 Ht))) as (E3 & R3 & R3').
  pose proof (EarlyMain.bo_layout _ _ _ _ _ _ _ _ _ _ _ _ _ _ _ _ (bi_early _ HI)) as [_ _ _ _ _ _ _ _ (B0 & _) _].
  pose proof (EarlyMain.bo_dend _ _ _ _ _ _ _ _ _ _ _ _ _ _ _ _ (bi_early _ HI)) as Hd.
  unfold pages_apart in *. rewrite E1 in A1. rewrite E2 in A2.
  rewrite <-(load32_empty (entry (kphys vma tb) i)). apply load32_ext. intros b Hb.
  change (load8 ∅ _) with 0. rewrite Hk.
  - apply Hz. unfold entry, within. clear -Hi Hb P1 P2 K6 K4 K3. wrap_lia.
  - apply out_linear; unfold entry; lia.
  - apply out_linear; unfold entry; destruct Ht; lia.
  - apply out_linear; unfold entry; lia.
  - apply out_linear; unfold entry; lia.
Qed.

Lemma mods_count : (length mods ≤ 5)%nat.
Proof using.
  unfold EarlyMain.parsed_tags.
  assert (H : ∀ l b, (length (bs_mods b) ≤ 5)%nat → (length (bs_mods (foldl spec_step b l)) ≤ 5)%nat).
  { induction l as [|t' l IH]; intros b Hb; [done|]. cbn [foldl]. apply IH.
    destruct t' as [es|u|a e nm|ty]; cbn [spec_step]; [done|done| |done].
    case_decide; [|done]. cbn [bs_mods]. rewrite length_app. cbn [length]. lia. }
  apply H. cbn. lia.
Qed.

Lemma early_ready ka l1 l2 l3 l4 px py :
  ∃ s', early_main vma (kernel_start y) (kernel_start y) (ktable_end y) (heap_start y) early_start early_end
      (console_debug y) boot_page_directory boot_kernel_pt boot_pt ka l1 l2 l3 l4
      MULTIBOOT2_BOOTLOADER_MAGIC (p0 - 8) (EarlySt m0 k0 px py) = Ok (ka, s') ∧
    placed_bytes m0 (e_mem s') kend mods ∧
    machine_ready page_directory kernel_pt vma y (e_kinfo s') E n placed
      (handover boot_page_directory vma s' t).
Proof using HI HU.
  destruct (EarlyMain.early_main_ok _ _ _ _ _ _ _ _ _ _ ka l1 l2 l3 l4 px py _ _ _ _ _ _ (bi_early _ HI))
    as (s' & Hrun & (Hno & Hmaps) & _ & (Hnm & Hmods) & (_ & _ & Hvma) & Hb & Hkept & _).
  exists s'. split; [exact Hrun|]. split; [exact Hb|].
  destruct kend_range as (K1 & K2 & K3 & K4 & K5 & K6). destruct (bi_frames _ HI) as [F1 F2].
  pose proof (bi_tables _ HI) as TL. destruct (five_tables _ _ _ _ _ _ _ TL) as (T1 & T2 & T3 & T4 & T5).
  destruct (ktable_phys _ _ _ _ _ _ _ TL _ T2) as (D1 & D2 & D3), (ktable_phys _ _ _ _ _ _ _ TL _ T4) as (Q1 & Q2 & Q3).
  assert (Hpl : boot_modules (e_kinfo s') = placed).
  { unfold boot_modules. rewrite Hnm, Nat2Z.id. exact Hmods. }
  assert (Hlen : no_modules (e_kinfo s') ≤ Z.of_nat (length (modules (e_kinfo s')))).
  { rewrite Hnm. apply (f_equal length) in Hmods. rewrite length_take, length_place in Hmods. lia. }
  assert (Hok : Forall module_ok placed).
  { pose proof (mods_bootable _ Hb) as H. clear -H. induction H as [|src md q1 q2 (_ & Hok & _) _ IH]; by constructor. }
  constructor.
  - constructor.
    + destruct (first_region (e_kinfo s') Hno Hmaps) as (e & rest & Em & Ea & Hl).
      constructor; [by exists e, rest|lia].
    + lia.
    + lia.
    + exact Hvma.
    + cbn [p_kinfo p_with_kinfo]. fold (boot_modules (e_kinfo s')). rewrite Hpl. split; [lia|exact Hok].
    + intros i Hi. destruct (bi_boot_kernel_pt _ HI) as (_ & N1 & N2). pose proof (tl_apart _ _ _ _ _ _ _ TL) as Hnd.
      repeat (apply NoDup_cons in Hnd as [? Hnd]). rewrite !elem_of_cons in *.
      split; apply (still_empty (e_mem s') _ Hkept); try done;
        try (intros ->; tauto); intros x Hx; apply (bi_empty _ HI); tauto.
  - split; [exact Hpl|]. rewrite Hnm. pose proof mods_count. unfold CONF_MAX_BOOT_MODULES. lia.
  - exact (un_heap _ HU).
  - exact (un_console _ HU).
  - unfold kernel_frames. lia.
  - exact (bi_window _ HI).
Qed.

(** ** From the reset of the kernel to user mode *)

Section start.
Context (debug : bool) (dev : device) (boot_processes boot_processes_threads : Z) (name_addr : Z → Z)
  (lit : string → Z) (rq : Z).
Context (gdt_entries gdt tss kstack_top idt_entries idt : Z) (eh irq : Z → Z)
  (f_page_fault_handler arch_sysenter_stub f_clock f_tick : Z).
Context (kinfo_addr msg_boot msg_mmap msg_mem msg_modules : Z).

(** boot.asm:29-46 and 89-101; __kernel_end is the end of the screen's page, and
    bootstrap reads the structure early_main returns the address of *)
Definition _start (multiboot_magic multiboot_info_ptr : Z) (s : early_st) (t : boot_st)
    : outcome (cpu_regs * boot_st) :=
  '(_, s) ← early_main vma (kernel_start y) (kernel_start y) (ktable_end y) (heap_start y) early_start
    early_end (console_debug y) boot_page_directory boot_kernel_pt boot_pt kinfo_addr msg_boot msg_mmap
    msg_mem msg_modules multiboot_magic multiboot_info_ptr s;
  bootstrap debug dev boot_page_directory page_directory module_bootstrap_pt kernel_pt bootstrap_pt vma y
    boot_processes boot_processes_threads name_addr lit rq gdt_entries gdt tss kstack_top idt_entries idt
    eh irq f_page_fault_handler arch_sysenter_stub f_clock f_tick (e_kinfo s)
    (handover boot_page_directory vma s t).

(** Every module in its address space, with the bytes the loader of the machine
    had put into memory *)
Record started (s' : boot_st) (pds ends : Z → Z) : Prop := {
  sa_bytes j src sg i : 0 ≤ j → mods !! Z.to_nat j = Some src →
    sg ∈ module_segs m0 (source_of src) → loads sg = true → 0 ≤ i < sg_filesz sg →
    ∃ f fl, private_page (p_mem (b_pg s')) (pds j) (pds j) (ends j) ((sg_vaddr sg + i) / 4096) f fl ∧
      load8 (p_mem (b_pg s')) (f + (sg_vaddr sg + i) mod 4096)
        = load8 m0 (start_paddr (source_of src) + sg_offset sg + i);
  sa_stack j x : 0 ≤ j < Z.of_nat (length mods) → STACK_BASE ≤ x < STACK_BASE + STACK_BYTES →
    ∃ f fl, private_page (p_mem (b_pg s')) (pds j) (pds j) (ends j) (x / 4096) f fl ∧ Z.testbit fl 1 = true;
  sa_apart j : 0 ≤ j < Z.of_nat (length mods) →
    E + 4096 * kernel_frames ≤ pds j ∧ ends j ≤ E + 4096 * n ∧ ∀ i, 0 ≤ i < j → ends i ≤ pds j;
  sa_kernel : ∃ k B, boot_modules k = placed ∧ ∀ j v fr, 0 ≤ j < Z.of_nat (length mods) → 0 ≤ v < 1048576 →
    v / 1024 ≠ (E + 4096 * kernel_frames) / 4194304 →
    kernel_map vma y k B v = Some fr → mmu_walk (p_mem (b_pg s')) (pds j) v = Some fr;
}.

Lemma started_ok k m' s' pds ends : placed_bytes m0 m' kend mods → boot_modules k = placed →
  booted vma y k E n placed m' s' pds ends → started s' pds ends.
Proof using HI.
  intros Hb Hk [B1 B2 B3 (B & B4)]. rewrite length_place in B2, B3, B4.
  constructor; [|exact B2|exact B3|by exists k, B].
  intros j src sg i Hj Hs Hsg Hl Hi. pose proof (mods_bootable m' Hb) as H. rewrite Forall2_lookup in H.
  specialize (H (Z.to_nat j)). rewrite Hs in H. inversion H as [? md Hc E1 E2|]; subst. symmetry in E2.
  destruct Hc as ([M1 M2 M3 M4] & Hok & [Hp Hw] & Es & _).
  destruct (B1 j md sg i Hj E2) as (f & fl & Hpr & Eb); [by rewrite Es|done|done|].
  exists f, fl. split; [exact Hpr|]. rewrite Eb, <-!Z.add_assoc.
  pose proof (bi_mods _ HI) as Hmo. rewrite Forall_lookup in Hmo. destruct (Hmo _ src Hs) as [_ Hw0].
  pose proof (seg_file m0 (source_of src) sg i _ Hw0 Hsg Hl Hi) as Hf. apply M4. lia.
Qed.

End start.
End boot.

(** ** A loader and a kernel to boot *)

(** The tags from 0x200008 on: the memory size, one usable region, the modules
    "mm" and "nn", which lie at 3 MB *)
Definition full_tags : list (Z * mb_tag) :=
  [(16, TMeminfo 130048); (40, TMmap [MmapEntry 0x100000 0x7EE0000 1 0]);
   (19, TModule 0x300000 0x30005C [109; 109]); (19, TModule 0x310000 0x31005C [110; 110])].
Definition loader_mem : mem :=
  let m := write_bytes (write_bytes ∅ 0x300000 demo_image) 0x310000 demo_image in
  let m := EarlyMain.put_words m 0x200008 [4; 16; 640; 130048] in
  let m := EarlyMain.put_words m 0x200018 [6; 40; 24; 0;  0x100000; 0; 0x7EE0000; 0; 1; 0] in
  let m := EarlyMain.put_words m 0x200040 [3; 19; 0x300000; 0x30005C; 0x6D6D] in
  EarlyMain.put_words m 0x200058 [3; 19; 0x310000; 0x31005C; 0x6E6E].

Lemma loader_low x : u32 x < 0x200000 → load8 loader_mem x = 0.
Proof.
  intros Hx. assert (H : bool_decide (map_Forall (λ k _, 0x200000 ≤ k) loader_mem) = true)
    by (vm_compute; reflexivity).
  apply bool_decide_eq_true_1 in H. unfold load8.
  destruct (loader_mem !! u32 x) as [v|] eqn:E; [|done]. specialize (H _ _ E). cbn in H. lia.
Qed.

Lemma full_tags_at : tags_at loader_mem 0x200008 0x200100 full_tags.
Proof.
  unfold full_tags. cbn [tags_at type_of tag_at].
  do 2 (split; [vm_compute; reflexivity|]). split; [lia|]. split; [vm_compute; congruence|].
  split; [split; vm_compute; reflexivity|].
  do 2 (split; [vm_compute; reflexivity|]). split; [lia|]. split; [vm_compute; congruence|].
  split.
  { do 2 (split; [vm_compute; reflexivity|]). intros i e Hi.
    destruct i as [|i]; [|done]. injection Hi as <-. vm_compute. reflexivity. }
  do 2 (do 2 (split; [vm_compute; reflexivity|]); split; [lia|]; split; [vm_compute; congruence|];
    split; [do 3 (split; [vm_compute; reflexivity|]); split; [|vm_compute; reflexivity]; intros i c Hi;
      destruct i as [|[|i]]; [| |done]; injection Hi as <-; vm_compute; split; congruence|]).
  split; vm_compute; congruence.
Qed.

Lemma full_early : EarlyMain.bootable 0xFE800000 (kernel_start full_syms) (ktable_end full_syms)
  (heap_start full_syms) 0x100000 0x101000 (console_debug full_syms) 0xFE904000 0xFE906000 0x100000
  0x112000 0x200008 0x200100 loader_mem EarlyMain.fresh_kinfo full_tags.
Proof.
  split.
  - split; vm_compute; intuition congruence.
  - reflexivity.
  - split; reflexivity.
  - vm_compute; intuition congruence.
  - exact full_tags_at.
  - vm_compute. intuition congruence.
  - change (heap_start full_syms - 0xFE800000) with 0x110000.
    repeat (apply Forall_cons; split); try apply Forall_nil_2; split_and!; try lia; cbn; lia.
  - vm_compute. congruence.
  - vm_compute. intuition congruence.
  - split_and!; vm_compute; congruence.
Qed.

Lemma source_ready src : src = (0x300000, 0x30005C, [109; 109]) ∨ src = (0x310000, 0x31005C, [110; 110]) →
  module_segs loader_mem (source_of src) = [Segment 1 84 0x400000 8 0x1000 5 0x1000] ∧
  module_wf loader_mem (user_region 0xFE800000 0x112000) (source_of src).
Proof.
  intros Hs. assert (Es : module_segs loader_mem (source_of src) = [Segment 1 84 0x400000 8 0x1000 5 0x1000])
    by (destruct Hs as [-> | ->]; vm_compute; reflexivity).
  split; [done|]. constructor; rewrite ?Es.
  - destruct Hs as [-> | ->]; vm_compute; reflexivity.
  - destruct Hs as [-> | ->]; vm_compute; intuition congruence.
  - apply Forall_singleton. constructor.
    1-3,6-7: by vm_compute.
    { intros _. destruct Hs as [-> | ->]; vm_compute; congruence. }
    { intros _. split; vm_compute; intuition congruence. }
    intros w _ Hw. change (sg_vaddr _ / 4096) with 0x400 in Hw. change (sg_memsz _ / 4096) with 1 in Hw.
    replace w with 0x400 by lia. vm_compute. intuition congruence.
  - split; [apply Forall_nil_2|done].
  - apply Forall_singleton. intros _. left. by vm_compute.
Qed.

Lemma full_input : boot_input 0xFE904000 0xFE901000 0xFE905000 0xFE902000 0xFE903000 0xFE800000 full_syms
  0xFE906000 0x100000 0x100000 0x101000 0x112000 0x200008 0x200100 loader_mem EarlyMain.fresh_kinfo full_tags 6144.
Proof.
  assert (Em : bs_mods (EarlyMain.parsed_tags full_tags) =
    [(0x300000, 0x30005C, [109; 109]); (0x310000, 0x31005C, [110; 110])]) by reflexivity.
  constructor.
  - exact full_layout.
  - exact full_early.
  - vm_compute. intuition congruence.
  - vm_compute. congruence.
  - intros x Hx. apply loader_low. change (kphys 0xFE800000 0xFE901000) with 0x101000 in Hx.
    change (kphys 0xFE800000 0xFE902000) with 0x102000 in Hx. unfold within in Hx. clear -Hx. wrap_lia.
  - eexists _, _. split; [reflexivity|]. vm_compute. intuition congruence.
  - vm_compute. intuition congruence.
  - vm_compute. congruence.
  - rewrite Em. change (heap_start full_syms - 0xFE800000 + _) with 0x112000.
    repeat (apply Forall_cons; split); try apply Forall_nil_2; (split; [cbn; lia|apply source_ready; auto]).
  - rewrite Em. unfold modules_need, module_need. cbn [fmap list_fmap foldr].
    rewrite (proj1 (source_ready (0x300000, 0x30005C, [109; 109]) (or_introl eq_refl))).
    rewrite (proj1 (source_ready (0x310000, 0x31005C, [110; 110]) (or_intror eq_refl))).
    vm_compute. congruence.
Qed.

