(* ===== verification/Amd64Vga.v ===== *)
(** * Amd64Vga: the text console of the amd64 port

    arch/amd64/drivers/vga.c, a driver that nothing else uses yet. It addresses
    the text buffer in bytes: VGA_WIDTH is 160 and VGA_HEIGHT 50, and the row
    is multiplied by the height. *)

From S2P Require Import Prelude Machine CString.

Definition VGA_WIDTH : Z := 80 * 2.
Definition VGA_HEIGHT : Z := 25 * 2.
Definition term_buff : Z := 0xB8000.

(** vga.c:16, the body of the inner loop *)
Definition clear_cell (i : Z) '((m, j) : mem * Z) : outcome (mem * Z) :=
  let m := store8 m (term_buff + (i ⊠ VGA_HEIGHT ⊞ j)) 32 in
  let m := store8 m (term_buff + (i ⊠ VGA_HEIGHT ⊞ j ⊞ 1)) 0 in
  Ok (m, j ⊞ 2).

(** vga.c:14, the inner loop *)
Definition clear_row (i : Z) (m : mem) : outcome mem :=
  '(m, _) ← while_loop (λ '(m, j), j <? VGA_WIDTH) (clear_cell i) (m, 0);
  Ok m.

(** vga.c:10 *)
Definition vga_clear_screen (m : mem) : outcome mem :=
  '(m, _) ← while_loop
    (λ '(m, i), i <? VGA_HEIGHT)
    (λ '(m, i), m ← clear_row i m; Ok (m, i ⊞ 1))
    (m, 0);
  Ok m.

(** vga.c:31, the body of the loop; x and y are signed, their sums with unsigned
    operands are not *)
Definition write_char (attrib str : Z) '((m, x, y, i) : mem * Z * Z * Z)
    : outcome (mem * Z * Z * Z) :=
  let m := store8 m (term_buff + (u32 y ⊠ VGA_HEIGHT ⊞ u32 x)) (load8 m (str + i)) in
  let m := store8 m (term_buff + (u32 y ⊠ VGA_HEIGHT ⊞ u32 x ⊞ 1)) attrib in
  let '(x, y) := if u32 x >=? VGA_WIDTH then (0, s32 (y + 1)) else (x, y) in
  Ok (m, s32 (x + 2), y, i ⊞ 1).

(** vga.c:23 *)
Definition vga_write_string (str forecolor backcolor : Z) (m : mem) : outcome mem :=
  let attrib := u8 (Z.lor (Z.shiftl (u8 backcolor) 4) (u8 forecolor)) in
  n ← strlen m str;
  '(m, _, _, _) ← while_loop (λ '(m, x, y, i), i <? n) (write_char attrib str) (m, 0, 0, 0);
  Ok m.

(** ** Clearing *)

(** How far into the text buffer an address is *)
Definition offset (x : Z) : Z := u32 (x - term_buff).

Lemma load8_cell m o v x :
  0 ≤ o < 4294967296 - term_buff →
  load8 (store8 m (term_buff + o) v) x = if offset x =? o then u8 v else load8 m x.
Proof.
  intros Ho. rewrite load8_store8. unfold offset, term_buff in *.
  destruct (Z.eqb_spec (u32 (x - 0xB8000)) o) as [E|E];
    [rewrite decide_True|rewrite decide_False]; try done; clear -Ho E; wrap_lia.
Qed.

(** The first [e] bytes of the buffer hold blanks with attribute 0, every other
    byte of the memory is as in [m]. *)
Definition cleared (e : Z) (m m' : mem) : Prop :=
  ∀ x, load8 m' x =
    if offset x <? e then (if Z.even (offset x) then 32 else 0) else load8 m x.

Lemma cleared_none m : cleared 0 m m.
Proof.
  intros x. pose proof (u32_range (x - term_buff)). unfold offset.
  by rewrite (proj2 (Z.ltb_ge _ _)) by lia.
Qed.

(** One more cell, at an even place that is covered or the next *)
Lemma cleared_cell m m' e o :
  cleared e m m' → 0 ≤ o ≤ e → o ≤ 10000 → Z.even o = true →
  cleared (e `max` (o + 2)) m (store8 (store8 m' (term_buff + o) 32) (term_buff + (o + 1)) 0).
Proof.
  intros H Ho Ho2 Hev x.
  assert (0 ≤ o + 1 < 4294967296 - term_buff) by (unfold term_buff; lia).
  rewrite !load8_cell by lia. set (d := offset x).
  destruct (Z.eqb_spec d (o + 1)) as [->|H1].
  - rewrite (proj2 (Z.ltb_lt _ _)) by lia. by rewrite Z.even_add, Hev.
  - destruct (Z.eqb_spec d o) as [->|H2].
    + by rewrite (proj2 (Z.ltb_lt _ _)), Hev by lia.
    + rewrite H. fold d. destruct (Z.ltb_spec d e), (Z.ltb_spec d (e `max` (o + 2))); done || lia.
Qed.

Lemma clear_row_ok m m' e i :
  cleared e m m' → 0 ≤ i < 50 → 50 * i ≤ e →
  ∃ m1, clear_row i m' = Ok m1 ∧ cleared (e `max` (50 * i + 160)) m m1.
Proof.
  intros H Hi He. unfold clear_row.
  destruct (while_loop_total
    (λ (r : nat) '(m1, j), j = 160 - 2 * Z.of_nat r ∧ (r ≤ 80)%nat ∧
       cleared (e `max` (50 * i + j)) m m1)
    (λ '(m, j), j <? VGA_WIDTH) (clear_cell i)
    80%nat (m', 0)) as ([m1 j] & E & Hj & _ & Hc).
  - unfold FUEL. lia.
  - split_and!; [lia|lia|]. by rewrite Z.max_l by lia.
  - intros r [m1 j] _ (-> & Hr & Hc). split; [apply Z.ltb_lt; unfold VGA_WIDTH; lia|].
    set (j := 160 - 2 * Z.of_nat (S r)) in *. unfold clear_cell, VGA_HEIGHT.
    rewrite (u32_small (i * (25 * 2))), (u32_small (i * (25 * 2) + j)),
      (u32_small (i * (25 * 2) + j + 1)), (u32_small (j + 2)) by lia.
    eexists. split; [done|]. split_and!; [lia|lia|].
    replace (e `max` (50 * i + (j + 2))) with
      (e `max` (50 * i + j) `max` (50 * i + j + 2)) by lia.
    replace (i * (25 * 2)) with (50 * i) by lia. apply cleared_cell; [done|lia|lia|].
    subst j. replace (50 * i + _) with (2 * (25 * i + 79 - Z.of_nat r)) by lia. by rewrite Z.even_mul.
  - intros [m1 j] (-> & _ & _). done.
  - rewrite E. exists m1. split; [done|]. by subst j.
Qed.

(** vga_clear_screen clears the first 2610 of the 4000 bytes of the buffer, the
    upper sixteen rows and 25 cells of the next, and writes nothing else. *)
Theorem vga_clear_screen_clears (m : mem) :
  ∃ m', vga_clear_screen m = Ok m' ∧ cleared 2610 m m'.
Proof.
  unfold vga_clear_screen.
  destruct (while_loop_total
    (λ (r : nat) '(m1, i), i = 50 - Z.of_nat r ∧ (r ≤ 50)%nat ∧
       cleared (if i =? 0 then 0 else 50 * i + 110) m m1)
    (λ '(m, i), i <? VGA_HEIGHT)
    (λ '(m, i), m ← clear_row i m; Ok (m, i ⊞ 1))
    50%nat (m, 0)) as ([m' i] & -> & Hi & _ & Hc).
  - unfold FUEL. lia.
  - split_and!; [lia|lia|apply cleared_none].
  - intros r [m1 i] _ (-> & Hr & Hc). split; [apply Z.ltb_lt; unfold VGA_HEIGHT; lia|].
    set (i := 50 - Z.of_nat (S r)) in *.
    destruct (clear_row_ok m m1 _ i Hc) as (m2 & -> & Hc2); [lia|destruct (Z.eqb_spec i 0); lia|].
    rewrite bind_Ok. eexists. split; [done|]. rewrite u32_small by lia.
    split_and!; [lia|lia|]. rewrite (proj2 (Z.eqb_neq (i + 1) 0)) by lia.
    replace (50 * (i + 1) + 110) with ((if i =? 0 then 0 else 50 * i + 110) `max` (50 * i + 160));
      [done|]. destruct (Z.eqb_spec i 0); lia.
  - intros [m1 i] (-> & _). done.
  - exists m'. split; [done|]. by subst i.
Qed.

(** ** Writing *)

(** Where the source puts character [i] of a string, in bytes *)
Definition place (i : Z) : Z :=
  if i =? 0 then 0 else 50 * ((i - 1) / 80) + 2 * ((i - 1) mod 80) + 2.

(** The characters of the string at [str] from the [i]th on, one after the
    other, each with the attribute *)
Definition put_char (attrib str : Z) (m : mem) (i : Z) : mem :=
  store8 (store8 m (term_buff + place i) (load8 m (str + i))) (term_buff + (place i + 1)) attrib.

(** The source's coordinates of the [i]th character *)
Definition at_place (i x y : Z) : Prop :=
  i = 0 ∧ x = 0 ∧ y = 0 ∨ 1 ≤ i ∧ y = (i - 1) / 80 ∧ x = 2 * ((i - 1) mod 80) + 2.

Lemma at_place_spec i x y : at_place i x y →
  0 ≤ i ≤ 100000 → place i = 50 * y + x ∧ 0 ≤ x ≤ 160 ∧ 0 ≤ y ≤ 1250.
Proof.
  unfold at_place, place. intros [(-> & -> & ->)|(H1 & -> & ->)] Hi; [done|].
  rewrite (proj2 (Z.eqb_neq i 0)) by lia. Z.to_euclidean_division_equations. lia.
Qed.

Lemma write_char_ok attrib str m x y i :
  at_place i x y → 0 ≤ i < 100000 →
  ∃ x' y', write_char attrib str (m, x, y, i) = Ok (put_char attrib str m i, x', y', i + 1) ∧
    at_place (i + 1) x' y'.
Proof.
  intros Hp Hi. destruct (at_place_spec i x y Hp ltac:(lia)) as (Ep & Hx & Hy).
  unfold write_char, put_char, VGA_HEIGHT, VGA_WIDTH. rewrite Ep, Z.geb_leb.
  rewrite (u32_small x), (u32_small y), (u32_small (i + 1)) by lia.
  rewrite (u32_small (y * (25 * 2))), (u32_small (y * (25 * 2) + x)),
    (u32_small (y * (25 * 2) + x + 1)) by lia.
  replace (y * (25 * 2)) with (50 * y) by lia.
  destruct (Z.leb_spec (80 * 2) x); eexists _, _; (split; [reflexivity|]); right;
    rewrite ?s32_small by lia; unfold at_place in Hp; clear -Hp H Hi;
    Z.to_euclidean_division_equations; lia.
Qed.

(** vga_write_string puts each character at its place; the first 81 fill the
    first row and the first cell of the second, but the 82nd goes back to byte
    52, into the middle of the first row. *)
Theorem vga_write_string_places (m : mem) (str forecolor backcolor n : Z) :
  first_nul m str n → n ≤ 100000 →
  vga_write_string str forecolor backcolor m =
    Ok (foldl (put_char (u8 (Z.lor (Z.shiftl (u8 backcolor) 4) (u8 forecolor))) str) m (seqZ 0 n)).
Proof.
  intros Hn Hmax. unfold vga_write_string. rewrite (strlen_first_nul m str n Hn) by lia.
  rewrite bind_Ok. set (attrib := u8 _). destruct Hn as [Hn0 _].
  set (mem_at k := foldl (put_char attrib str) m (seqZ 0 k)).
  destruct (while_loop_total
    (λ (r : nat) '(m1, x, y, i), i = n - Z.of_nat r ∧ 0 ≤ i ∧ m1 = mem_at i ∧
       at_place i x y)
    (λ '(m, x, y, i), i <? n) (write_char attrib str)
    (Z.to_nat n) (m, 0, 0, 0)) as ([[[m1 x] y] i] & -> & Hi & _ & -> & _).
  - unfold FUEL. lia.
  - split_and!; [lia|lia|done|]. by left.
  - intros r [[[m1 x] y] i] _ (Hi & Hi0 & -> & Hp). split; [apply Z.ltb_lt; lia|].
    destruct (write_char_ok attrib str (mem_at i) x y i Hp) as (x' & y' & -> & Hp'); [lia|].
    eexists. split; [done|]. split_and!; [lia|lia| |done].
    subst mem_at. cbn beta. rewrite (seqZ_app 0 i 1), foldl_app by lia.
    by assert (seqZ (0 + i) 1 = [i]) as -> by (rewrite seqZ_cons, seqZ_nil by lia; done).
  - intros [[[m1 x] y] i] (-> & _). apply Z.ltb_ge. lia.
  - rewrite bind_Ok. by replace i with n by lia.
Qed.
